(* ===== verification/_CoqProject ===== *)
-Q . S2P
Prelude.v
CLib.v
Hash.v
DnsParser.v
XdpHash.v
BpfMaps.v
XdpFilters.v
XdpRouter.v
XdpRewrite.v
Cpus.v
Config.v
Yaml.v
Log.v
Loader.v
Attach.v
Files.v
Codegen.v
CodegenSem.v
System.v
Template.v
XdpTemplate.v
Main.v
Deploy.v
MapSizes.v
Rx.v
Mock.v
