(* ===== verification/Prelude.v ===== *)
(** * Zereh: an eBPF/XDP router for DNS queries

    A verification of the C sources of Zereh.  The program has two planes.
    The control plane (control/) reads a YAML configuration, generates the
    source of an XDP program from a template, and loads the compiled program
    with its maps.  The data plane (xdp/) is that program: it parses each
    frame, and redirects, rewrites, tail-calls, passes or drops DNS queries by
    the route of their name.

    ** Files and sources

    - Prelude: words of fixed width, bytes, the result monad [res], loads and
      stores at offsets of a packet, one's-complement sums, field assignment,
      the tactics and hint databases the other files share.
    - CLib: what the sources use of the C library (tolower, snprintf, strtoul,
      strtol, strcasecmp, inet_pton, strchr, printing of numbers).
    - Hash: control/hash.c, the normalisation of domains, FNV-1a and
      SipHash-2-4.
    - DnsParser: xdp/dns_parser.h, the parsers of the Ethernet, IPv4 and UDP
      headers and of the DNS question, with the wire format as specification.
    - XdpHash: the hashing of xdp/xdp_template.c (SipHash over the name buffer,
      the 64-bit finaliser), and its agreement with Hash.
    - BpfMaps: the interface of the kernel's maps, which both planes use: the
      classes [BpfMap] and [BpfProgArray] with the laws of array maps, LPM tries
      and program arrays, and instances.
    - XdpFilters: the filters of xdp/xdp_template.c: checksums, query types,
      prefix and suffix, proof of work, Bloom filter, rate limit, and
      zereh_apply_app_filters.
    - XdpRouter: the rest of xdp/xdp_template.c: the pre-route filter, the
      dispatch over generated blocks, the rewriting of packets, xdp_router.
    - XdpRewrite: zereh_route_kernel_space with a new destination address, both
      checksums included.
    - Cpus: xdp_router on several CPUs, with the per-CPU map of rate states.
    - Config: control/config.h and config.c, the configuration and its
      defaults.
    - Yaml: control/yaml_parser.c, from the document tree to a configuration.
    - Log: the log lines of control/loader.c, plain and structured.
    - Loader: the seeding of the maps in control/loader.c.
    - Attach: the calls of control/loader.c that load, attach and detach, as
      computations over a trace of calls with arbitrary answers.
    - Files: zereh_read_file and zereh_write_file of control/codegen.c over
      stdio calls that can fail.
    - Codegen: the rest of control/codegen.c, the string buffer over memory that can run
      out, escaping, substitution, and the text generated for each route.
    - CodegenSem: the generated text read back as the blocks XdpRouter runs.
    - System: theorems across the planes, from configuration to packet.
    - Template: texts with holes, and when substituting tokens one after the
      other is the same as filling all holes.
    - XdpTemplate: the text of xdp/xdp_template.c with its nine holes, and the
      source that control/codegen.c makes of it.
    - Main: control/compiler.c, control/main.c and include/zereh_license.h, the
      compiler's argument vector and the commands with the order of their stages,
      over the trace of Attach.
    - Deploy: what the kernel's maps hold after the calls of a trace, and the
      command [generate-load] from the command line to the packets.
    - MapSizes: the declarations of the maps in xdp/xdp_template.c, read from its
      text, and the room they have for what the loader writes.
    - Rx: apps/zereh_rx.c, the AF_XDP receiver and the kernel as a step
      relation over the fill and RX rings.
    - Mock: apps/mock_dns_server.c.

    ** How the code is modelled

    A machine integer is a [Z] with its wrap-around written out ([u8] to
    [u64]); memory that is read or written by index is a list accessed with
    [rd] and [wr], which [Fault] outside it, so that "returns [Ret]" includes
    memory safety.  [return -1] is [Fail] in the data plane and the code
    generator, and [None] in the YAML parser and the loader, where output
    parameters become results.  A C string is the list of its bytes without
    the terminator; an array with a count is a list.  The host is
    little-endian (x86-64 and the usual eBPF targets) and the locale is C.
    The state of the data plane ([dp_state]) is the maps as one CPU sees them
    and the number of readings of the clock.

    Loops run on the bounds of the code, or on fuel that the theorems show to
    be enough: 32 labels and 63 characters per label in the parser; 31 blocks
    and 7 bytes in SipHash; 128 characters in the matchers; 8 hash functions;
    [required] doublings of a buffer capacity ([sb_grow_spec]); one more round
    than the input has bytes in the substitution ([replace_loop_spec], where
    fuel that ran out would be a [Fault]); 20 decimal and 8 hexadecimal digits
    in printing; one round per byte of the text in the reader of the map
    declarations.

    ** What is proved

    - Data plane: the router is total and memory safe on every frame, passes
      other traffic untouched, drops exactly what the pre-route filter
      describes, and gives an admitted query to the block of its name; the
      parsers accept exactly the wire format; every filter has an exact
      specification; rewriting of port and address preserves checksums, except
      that an update can make a present UDP checksum 0.
    - Several CPUs: a route with a limit of qps serves at most qps queries per
      second and CPU, in any order of arrivals.
    - Hashing: the planes compute the same hash for any spelling of a name,
      the bounded SipHash is the reference one, FNV-1a has no collision by
      substitution of one byte, the finaliser is injective (the last three
      are lemmas of Hash and XdpHash).
    - Configuration: what the parser accepts is well formed; numbers and
      opcode lists are read exactly.
    - Loading: the blacklist, Bloom and program-array maps hold exactly what
      the configuration says; the program is attached only after all maps are
      seeded; success means that it is attached in the requested mode or a
      fallback, and a kernel that grants every request makes a load succeed;
      descriptors, links and objects are released on every path; a detach asks
      for all modes; a structured log line is one line.
    - Generation: the buffer never overflows, substitution replaces every
      occurrence, the generated source is the template with its holes filled,
      where no string of the configuration holds a token, and the filled texts
      read back as the router that XdpRouter runs, blocks and parameters.
    - Commands: [generate-load] attaches nothing before the source was written
      and compiled, and its success means that the compiled program is
      attached; [unload] works without a configuration.
    - Deployment: a [generate-load] that reports success has written the filled
      template and left maps with which the router treats packets as configured,
      whatever an earlier load left behind; the declared maps have room for every
      accepted configuration with valid CIDRs and programs, so that seeding does
      not fail half-way.
    - Receiver: every frame of the buffer has one owner in every reachable
      state, and every batch ends.
    - Both planes: a configured route gets its queries, configured CIDRs are
      dropped, and a Bloom filter passes exactly the names whose positions were
      seeded (the loader skips a seed with hash 0).

    ** Parameters and what is not modelled

    libyaml is a function from a path to a document tree; libbpf and the
    kernel are the answers of Attach and the maps of BpfMaps; the clock,
    [bpf_redirect_map] and [bpf_tail_call] are functions; allocation is a
    predicate on sizes; the template is read by a function (of which Files is
    an instance); fork, execvp and waitpid are events of the trace; the rings of
    libbpf are queues whose kernel side moves in any order.  Each law assumed of
    the maps is met by an instance in BpfMaps or MapSizes, and what Deploy and
    MapSizes ask of the kernel ([honest], [obliging], [willing]) by
    [map_kernel]; the descriptor of a program in the object refers to that
    program.

    Not modelled: the stubs built without libyaml, libbpf or bpf/xsk.h, which
    only report that, the diagnostics and the usage text on stderr, and the call
    by which the receiver wakes the kernel (whose steps Rx takes anyway).  clang is
    trusted to compile the generated blocks as CodegenSem reads them, and the
    verifier of the kernel to accept the program.  Packets on different CPUs are
    handled one after the other in Cpus: they share no map that one of them
    writes.  The fixed functions of the template are modelled by hand, next to its
    text; only the macros, the maps and the generated parts are read from it. *)
From Stdlib Require Export ZArith Lia ZifyBool.
From stdpp Require Export base numbers list.
From Stdlib Require Strings.String Strings.Ascii.

Export String.StringSyntax.
#[local] Open Scope Z_scope.

(** ** Machine words *)

Definition u8 (z : Z) : Z := z mod 2 ^ 8.
Definition u16 (z : Z) : Z := z mod 2 ^ 16.
Definition u32 (z : Z) : Z := z mod 2 ^ 32.
Definition u64 (z : Z) : Z := z mod 2 ^ 64.

(** [word w z]: [z] is a value of an unsigned [w]-bit type. *)
Definition word (w z : Z) : Prop := 0 <= z < 2 ^ w.

Create HintDb words.
Create Rewrite HintDb words.

Lemma u8_word z : word 8 (u8 z).
Proof. unfold u8, word. apply Z.mod_pos_bound. lia. Qed.

Lemma u16_word z : word 16 (u16 z).
Proof. unfold u16, word. apply Z.mod_pos_bound. lia. Qed.

Lemma u32_word z : word 32 (u32 z).
Proof. unfold u32, word. apply Z.mod_pos_bound. lia. Qed.

Lemma u64_word z : word 64 (u64 z).
Proof. unfold u64, word. apply Z.mod_pos_bound. lia. Qed.

Lemma u8_id z : word 8 z -> u8 z = z.
Proof. apply Z.mod_small. Qed.

Lemma u16_id z : word 16 z -> u16 z = z.
Proof. apply Z.mod_small. Qed.

Lemma u32_id z : word 32 z -> u32 z = z.
Proof. apply Z.mod_small. Qed.

Lemma u64_id z : word 64 z -> u64 z = z.
Proof. apply Z.mod_small. Qed.

(** A non-negative number fits in [w] bits exactly when its bits from [w] on
    are clear. *)
Lemma word_bits w z :
  0 <= w -> (word w z <-> 0 <= z /\ forall i, w <= i -> Z.testbit z i = false).
Proof.
  intros Hw. unfold word. split.
  - intros Hz. split; [lia|]. intros i Hi.
    rewrite <- (Z.mod_small z (2 ^ w)) by lia. apply Z.mod_pow2_bits_high. lia.
  - intros [Hz Hb]. split; [done|].
    destruct (Z.eq_dec z 0) as [->|Hnz]; [apply Z.pow_pos_nonneg; lia|].
    assert (Z.log2 z < w) as Hlog.
    { destruct (Z.lt_ge_cases (Z.log2 z) w) as [|Hge]; [done|].
      pose proof (Z.bit_log2 z ltac:(lia)). rewrite (Hb _ Hge) in *. done. }
    apply Z.log2_lt_pow2; lia.
Qed.

Lemma lxor_word w a b : 0 <= w -> word w a -> word w b -> word w (Z.lxor a b).
Proof.
  intros Hw. rewrite !word_bits by done. intros [Ha Hab] [Hb Hbb]. split.
  - apply Z.lxor_nonneg. tauto.
  - intros i Hi. rewrite Z.lxor_spec, Hab, Hbb by done. done.
Qed.

Lemma lor_word w a b : 0 <= w -> word w a -> word w b -> word w (Z.lor a b).
Proof.
  intros Hw. rewrite !word_bits by done. intros [Ha Hab] [Hb Hbb]. split.
  - apply Z.lor_nonneg. tauto.
  - intros i Hi. rewrite Z.lor_spec, Hab, Hbb by done. done.
Qed.

Lemma land_word_l w a b : 0 <= w -> word w a -> word w (Z.land a b).
Proof.
  intros Hw. rewrite !word_bits by done. intros [Ha Hab]. split.
  - apply Z.land_nonneg. tauto.
  - intros i Hi. rewrite Z.land_spec, Hab by done. done.
Qed.

Lemma shiftr_word w a n : 0 <= w -> 0 <= n -> word w a -> word w (Z.shiftr a n).
Proof.
  intros Hw Hn. rewrite !word_bits by done. intros [Ha Hab]. split.
  - by apply Z.shiftr_nonneg.
  - intros i Hi. rewrite Z.shiftr_spec by lia. apply Hab. lia.
Qed.

Lemma word_mono w1 w2 z : 0 <= w1 <= w2 -> word w1 z -> word w2 z.
Proof.
  unfold word. intros Hw Hz. pose proof (Z.pow_le_mono_r 2 w1 w2). lia.
Qed.

#[export] Hint Resolve u8_word u16_word u32_word u64_word lxor_word lor_word
  land_word_l shiftr_word : words.
#[export] Hint Extern 4 (_ <= _) => lia : words.
#[export] Hint Extern 4 (_ <= _ <= _) => lia : words.
#[export] Hint Rewrite u8_id u16_id u32_id u64_id using (unfold word; lia) : words.

(** ** Bytes and byte strings *)

(** A byte is a value of [unsigned char]; a C string is the list of its bytes
    before the terminating NUL. *)
Abbreviation bytes := (list Z).

Definition is_byte (b : Z) : Prop := word 8 b.

(** The bytes of a string literal. *)
Fixpoint str (s : String.string) : bytes :=
  match s with
  | String.EmptyString => []
  | String.String a s' => Z.of_N (Ascii.N_of_ascii a) :: str s'
  end.

Arguments str s%_string_scope.

Lemma str_bytes s : Forall is_byte (str s).
Proof.
  induction s as [|a s IH]; constructor; [|done].
  pose proof (Ascii.N_ascii_bounded a). unfold is_byte, word. lia.
Qed.

#[global] Instance is_byte_dec b : Decision (is_byte b).
Proof. unfold is_byte, word. apply _. Defined.

(** ** Fallible computations

    [Ret a] is a normal return, [Fail] the code's own error return
    ([return -1]), and [Fault] an access outside the object the code owns,
    which the language leaves undefined: a theorem that a computation is
    [safe] says that it never makes one. *)
Inductive res (A : Type) : Type :=
| Ret (a : A)
| Fail
| Fault.
Arguments Ret {A} a.
Arguments Fail {A}.
Arguments Fault {A}.

#[global] Instance res_ret : MRet res := @Ret.
#[global] Instance res_bind : MBind res := fun A B f m =>
  match m with
  | Ret a => f a
  | Fail => Fail
  | Fault => Fault
  end.

Definition safe {A} (m : res A) : Prop := m <> Fault.

(** [guard_r b]: carry on when [b] holds, [return -1] otherwise. *)
Definition guard_r (b : bool) : res unit := if b then Ret tt else Fail.

Definition of_option {A} (o : option A) : res A :=
  match o with
  | Some a => Ret a
  | None => Fail
  end.

(** Reading and writing an array: an index outside it is a [Fault]. *)
Definition rd {A} (a : list A) (i : nat) : res A :=
  match a !! i with
  | Some v => Ret v
  | None => Fault
  end.

Definition wr {A} (a : list A) (i : nat) (v : A) : res (list A) :=
  if decide (i < length a)%nat then Ret (<[i := v]> a) else Fault.

Create HintDb safe.

Lemma safe_ret {A} (a : A) : safe (Ret a).
Proof. done. Qed.

Lemma safe_fail {A} : safe (@Fail A).
Proof. done. Qed.

Lemma safe_guard b : safe (guard_r b).
Proof. by destruct b. Qed.

Lemma safe_of_option {A} (o : option A) : safe (of_option o).
Proof. by destruct o. Qed.

Lemma safe_bind {A B} (m : res A) (f : A -> res B) :
  safe m -> (forall a, m = Ret a -> safe (f a)) -> safe (m ≫= f).
Proof. intros Hm Hf. destruct m; [by apply Hf|done|by destruct Hm]. Qed.

Lemma safe_rd {A} (a : list A) i : (i < length a)%nat -> safe (rd a i).
Proof.
  intros Hi. unfold rd. destruct (lookup_lt_is_Some_2 a i Hi) as [v ->]. done.
Qed.

Lemma safe_wr {A} (a : list A) i v : (i < length a)%nat -> safe (wr a i v).
Proof. intros Hi. unfold wr. by rewrite decide_True. Qed.

Lemma rd_lookup {A} (a : list A) i v : rd a i = Ret v <-> a !! i = Some v.
Proof. unfold rd. destruct (a !! i); split; congruence. Qed.

Lemma wr_ret {A} (a a' : list A) i v :
  wr a i v = Ret a' <-> (i < length a)%nat /\ a' = <[i := v]> a.
Proof.
  unfold wr. case_decide; split; [by intros [= <-]|by intros [_ ->]|done|by intros [? _]].
Qed.

Lemma bind_ret_inv {A B} (m : res A) (f : A -> res B) b :
  m ≫= f = Ret b <-> exists a, m = Ret a /\ f a = Ret b.
Proof.
  split.
  - destruct m as [a| |]; [by exists a|done..].
  - by intros (a & -> & ?).
Qed.

Lemma guard_ret_inv b u : guard_r b = Ret u <-> b = true.
Proof. by destruct b, u. Qed.

#[export] Hint Resolve safe_ret safe_fail safe_guard safe_of_option safe_rd safe_wr : safe.

(** [mrun] runs the successful computations of the hypotheses: it opens each
    bind and guard that is known to return. *)
Ltac mrun1 :=
  match goal with
  | H : mbind _ _ = Ret _ |- _ =>
      apply bind_ret_inv in H;
      let a := fresh "a" in let Ha := fresh "Hrun" in destruct H as (a & Ha & H)
  | H : guard_r _ = Ret _ |- _ => apply guard_ret_inv in H
  | H : Ret _ = Ret _ |- _ => injection H as H; subst
  | H : rd _ _ = Ret _ |- _ => apply rd_lookup in H
  | H : wr _ _ _ = Ret _ |- _ =>
      apply wr_ret in H; let Hw := fresh "Hwr" in destruct H as [Hw H]; subst
  | H : mret _ = Ret _ |- _ => change (Ret _ = Ret _) in H
  | H : Fail = Ret _ |- _ => discriminate H
  | H : Fault = Ret _ |- _ => discriminate H
  end.
Ltac mrun := repeat mrun1.

(** [destruct_if] splits the goal or a hypothesis on the code's conditions. *)
Ltac destruct_if :=
  match goal with
  | |- context [if ?b then _ else _] => destruct b eqn:?
  | H : context [if ?b then _ else _] |- _ => destruct b eqn:?
  end.
Ltac bool_lia := repeat (destruct_if; simplify_eq/=); try lia.

(** ** Multi-byte loads and stores (little-endian host) *)

(** [__be16] and [__be32] fields are loaded as the host loads them; the eBPF
    object is built for the host's byte order, little-endian here. *)
Definition le16 (b0 b1 : Z) : Z := b0 + 256 * b1.

(** [bpf_ntohs]/[bpf_htons]: the byte swap. *)
Definition bpf_ntohs (v : Z) : Z := Z.lor (Z.shiftr v 8) (Z.shiftl (Z.land v 255) 8).
Definition bpf_htons (v : Z) : Z := bpf_ntohs v.

Definition load16 (pkt : bytes) (off : nat) : res Z :=
  b0 ← rd pkt off; b1 ← rd pkt (off + 1)%nat; Ret (le16 b0 b1).

Definition load32 (pkt : bytes) (off : nat) : res Z :=
  lo ← load16 pkt off; hi ← load16 pkt (off + 2)%nat; Ret (lo + 65536 * hi).

Definition store16 (pkt : bytes) (off : nat) (v : Z) : res bytes :=
  pkt ← wr pkt off (v mod 256); wr pkt (off + 1)%nat (v / 256 mod 256).

Definition store32 (pkt : bytes) (off : nat) (v : Z) : res bytes :=
  pkt ← store16 pkt off (v mod 65536); store16 pkt (off + 2)%nat (v / 65536).

(** ** Invertible steps of the hash functions *)

Lemma u64_mul_u64_l a b : u64 (u64 a * b) = u64 (a * b).
Proof. unfold u64. apply Z.mul_mod_idemp_l. lia. Qed.

(** Multiplication by a unit of the 64-bit ring is injective. *)
Lemma u64_mul_unit_inj p q a b :
  u64 (p * q) = 1 -> word 64 a -> word 64 b -> u64 (a * p) = u64 (b * p) -> a = b.
Proof.
  intros Hpq Ha Hb Hab.
  assert (forall x, word 64 x -> u64 (u64 (x * p) * q) = x) as Hinv.
  { intros x Hx. rewrite u64_mul_u64_l, <- Z.mul_assoc, Z.mul_comm, <- u64_mul_u64_l, Hpq,
      Z.mul_1_l. by apply u64_id. }
  rewrite <- (Hinv a), <- (Hinv b), Hab by done. done.
Qed.

Lemma lxor_cancel_r a b c : Z.lxor a c = Z.lxor b c -> a = b.
Proof.
  intros H. rewrite <- (Z.lxor_0_r a), <- (Z.lxor_0_r b), <- (Z.lxor_nilpotent c).
  by rewrite <- !Z.lxor_assoc, H.
Qed.

Lemma lxor_cancel_l a b c : Z.lxor c a = Z.lxor c b -> a = b.
Proof. rewrite !(Z.lxor_comm c). apply lxor_cancel_r. Qed.

(** Disjoint bit ranges add up. *)
Lemma lor_shiftl_add a b n : 0 <= n -> word n a -> Z.lor a (Z.shiftl b n) = a + b * 2 ^ n.
Proof.
  intros Hn Ha. rewrite <- Z.shiftl_mul_pow2 by done.
  apply word_bits in Ha as [_ Ha]; [|done].
  assert (Z.land a (Z.shiftl b n) = 0) as H0.
  { apply Z.bits_inj'. intros i Hi. rewrite Z.land_spec, Z.bits_0.
    destruct (Z.lt_ge_cases i n).
    - by rewrite Z.shiftl_spec_low, andb_false_r.
    - by rewrite Ha. }
  rewrite Z.add_nocarry_lxor by done. symmetry. by apply Z.lxor_lor.
Qed.

Lemma le16_word b0 b1 : is_byte b0 -> is_byte b1 -> word 16 (le16 b0 b1).
Proof. unfold is_byte, word, le16. lia. Qed.

Lemma bpf_ntohs_le16 b0 b1 :
  is_byte b0 -> is_byte b1 -> bpf_ntohs (le16 b0 b1) = 256 * b0 + b1.
Proof.
  unfold is_byte, word, bpf_ntohs, le16. intros H0 H1.
  replace (Z.land (b0 + 256 * b1) 255) with b0.
  - rewrite Z.shiftr_div_pow2 by lia.
    replace ((b0 + 256 * b1) / 2 ^ 8) with b1 by (apply (Z.div_unique _ _ _ b0); lia).
    rewrite lor_shiftl_add by (unfold word; lia). lia.
  - change 255 with (Z.ones 8). rewrite Z.land_ones by lia.
    apply (Z.mod_unique _ _ b1); lia.
Qed.

Lemma le16_inj a0 a1 b0 b1 :
  is_byte a0 -> is_byte a1 -> is_byte b0 -> is_byte b1 ->
  le16 a0 a1 = le16 b0 b1 -> a0 = b0 /\ a1 = b1.
Proof. unfold is_byte, word, le16. lia. Qed.

(** The bytes of a 16-bit value in network order. *)
Definition be16 (v : Z) : bytes := [v / 256; v mod 256].

Lemma be16_bytes v : word 16 v -> Forall is_byte (be16 v).
Proof.
  unfold word, be16. intros Hv.
  apply Forall_cons; split; [|apply Forall_cons; split; [|by constructor]];
    unfold is_byte, word.
  - split; [apply Z.div_pos|apply Z.div_lt_upper_bound]; lia.
  - apply Z.mod_pos_bound. lia.
Qed.

Lemma bpf_ntohs_be16 v : word 16 v -> bpf_ntohs (le16 (v / 256) (v mod 256)) = v.
Proof.
  intros Hv. apply be16_bytes in Hv as Hb. unfold be16 in Hb.
  apply Forall_cons in Hb as [H0 Hb]. apply Forall_cons in Hb as [H1 _].
  rewrite bpf_ntohs_le16 by done. pose proof (Z.div_mod v 256). lia.
Qed.

(** ** Positions in a buffer *)

(** [at_off pkt off l]: the bytes [l] stand in [pkt] at offset [off]. *)
Definition at_off {A} (pkt : list A) (off : nat) (l : list A) : Prop :=
  forall i x, l !! i = Some x -> pkt !! (off + i)%nat = Some x.

Lemma at_off_nil {A} (pkt : list A) off : at_off pkt off [].
Proof. by intros i x. Qed.

Lemma at_off_cons {A} (pkt : list A) off x l :
  at_off pkt off (x :: l) <-> pkt !! off = Some x /\ at_off pkt (off + 1) l.
Proof.
  unfold at_off. split.
  - intros H. split; [by rewrite <- (H 0%nat x), Nat.add_0_r|].
    intros i y Hi. rewrite <- (H (S i) y) by done. f_equal. lia.
  - intros [Hx H] [|i] y Hy; simpl in Hy.
    + injection Hy as <-. by rewrite Nat.add_0_r.
    + rewrite <- (H i y) by done. f_equal. lia.
Qed.

Lemma at_off_app {A} (pkt : list A) off l1 l2 :
  at_off pkt off (l1 ++ l2) <-> at_off pkt off l1 /\ at_off pkt (off + length l1) l2.
Proof.
  revert off. induction l1 as [|x l1 IH]; intros off; simpl.
  - rewrite Nat.add_0_r. split; [by split; [apply at_off_nil|]|by intros [_ ?]].
  - rewrite !at_off_cons, IH. replace (off + S (length l1))%nat with (off + 1 + length l1)%nat by lia.
    tauto.
Qed.

Lemma at_off_length {A} (pkt : list A) off l :
  at_off pkt off l -> l <> [] -> (off + length l <= length pkt)%nat.
Proof.
  intros H Hl. destruct (lookup_lt_is_Some_2 l (length l - 1)) as [x Hx].
  { destruct l; [done|simpl; lia]. }
  apply H, lookup_lt_Some in Hx. destruct l; [done|simpl in *; lia].
Qed.

Lemma at_off_sub {A} (pkt : list A) off n :
  (off + n <= length pkt)%nat -> at_off pkt off (take n (drop off pkt)).
Proof.
  intros Hn i x Hi. apply lookup_take_Some in Hi as [Hi _].
  by rewrite lookup_drop in Hi.
Qed.

Lemma length_sub {A} (pkt : list A) off n :
  (off + n <= length pkt)%nat -> length (take n (drop off pkt)) = n.
Proof. intros Hn. rewrite length_take, length_drop. lia. Qed.

Lemma load16_at pkt off b0 b1 : at_off pkt off [b0; b1] -> load16 pkt off = Ret (le16 b0 b1).
Proof.
  rewrite !at_off_cons. intros (H0 & H1 & _). unfold load16, rd.
  rewrite H0. simpl. by rewrite H1.
Qed.

Lemma load16_inv pkt off v :
  load16 pkt off = Ret v -> exists b0 b1, at_off pkt off [b0; b1] /\ v = le16 b0 b1.
Proof.
  unfold load16. intros H. mrun. exists a, a0. rewrite !at_off_cons. auto using at_off_nil.
Qed.

Lemma safe_load16 pkt off : (off + 2 <= length pkt)%nat -> safe (load16 pkt off).
Proof.
  intros H. unfold load16. apply safe_bind; [apply safe_rd; lia|]. intros b0 _.
  apply safe_bind; [apply safe_rd; lia|]. done.
Qed.

#[export] Hint Resolve safe_load16 : safe.

(** [nofault] steps through a computation to its array accesses and leaves
    their index bounds. *)
Ltac nofault :=
  repeat first
    [ apply safe_ret | apply safe_fail | apply safe_guard | apply safe_of_option
    | apply safe_rd | apply safe_wr | apply safe_load16
    | apply safe_bind; [|intros ? ?]
    | match goal with |- safe (if ?b then _ else _) => destruct b eqn:? end ].

(** ** Single bits *)

(** [x & (1 << k)]: the test the code makes on masks. *)
Lemma land_pow2 x k : 0 <= k -> Z.land x (2 ^ k) = if Z.testbit x k then 2 ^ k else 0.
Proof.
  intros Hk. apply Z.bits_inj'. intros i Hi. rewrite Z.land_spec, Z.pow2_bits_eqb by done.
  destruct (Z.eqb_spec k i) as [->|Hne].
  - destruct (Z.testbit x i); simpl; [by rewrite Z.pow2_bits_true|by rewrite Z.bits_0].
  - rewrite andb_false_r. destruct (Z.testbit x k); [|by rewrite Z.bits_0].
    symmetry. by apply Z.pow2_bits_false.
Qed.

Lemma land_pow2_eqb x k : 0 <= k -> (Z.land x (2 ^ k) =? 0) = negb (Z.testbit x k).
Proof.
  intros Hk. rewrite land_pow2 by done. pose proof (Z.pow_pos_nonneg 2 k).
  destruct (Z.testbit x k); lia.
Qed.

(** A byte below 64 has its two high bits clear. *)
Lemma land_192_small b : 0 <= b < 64 -> Z.land b 192 = 0.
Proof.
  intros Hb. change 192 with (Z.shiftl 3 6). apply Z.bits_inj'. intros i Hi.
  rewrite Z.land_spec, Z.bits_0. destruct (Z.lt_ge_cases i 6).
  - by rewrite Z.shiftl_spec_low, andb_false_r.
  - assert (word 6 b) as Hw by (unfold word; lia). apply word_bits in Hw as [_ Hw]; [|lia].
    by rewrite Hw.
Qed.

Lemma be16_bytes_inv b0 b1 : is_byte b0 -> is_byte b1 -> be16 (256 * b0 + b1) = [b0; b1].
Proof.
  unfold is_byte, word, be16. intros H0 H1. f_equal; [|f_equal].
  - symmetry. apply (Z.div_unique _ _ _ b1); lia.
  - symmetry. apply (Z.mod_unique _ _ b0); lia.
Qed.

Lemma at_off_be16 pkt off v :
  Forall is_byte pkt -> load16 pkt off = Ret v ->
  word 16 (bpf_ntohs v) /\ at_off pkt off (be16 (bpf_ntohs v)).
Proof.
  intros Hb H. apply load16_inv in H as (b0 & b1 & Hat & ->).
  assert (is_byte b0 /\ is_byte b1) as [H0 H1].
  { rewrite !at_off_cons in Hat. destruct Hat as (H0 & H1 & _).
    split; eapply Forall_lookup_1; eauto. }
  rewrite bpf_ntohs_le16, be16_bytes_inv by done. split; [|done].
  unfold is_byte, word in *. lia.
Qed.

Lemma load16_be16 pkt off v :
  word 16 v -> at_off pkt off (be16 v) -> exists w, load16 pkt off = Ret w /\ bpf_ntohs w = v.
Proof.
  intros Hv Hat. exists (le16 (v / 256) (v mod 256)). split; [by apply load16_at|].
  by apply bpf_ntohs_be16.
Qed.

(** [pass]: the next guard of the goal holds by arithmetic. *)
Ltac pass :=
  match goal with
  | |- context [guard_r ?b ≫= _] =>
      let H := fresh in assert (b = true) as H by lia; rewrite H; clear H;
      cbn [guard_r mbind res_bind]
  end.

(** ** Sixteen-bit words of a buffer and their sum *)

Definition word_at (pkt : bytes) (off : nat) : Z :=
  le16 (pkt !!! off) (pkt !!! (off + 1)%nat).

(** The sum of the [n] words at [off]: the Internet checksum's sum before its
    carries are folded. *)
Fixpoint wsum (pkt : bytes) (off n : nat) : Z :=
  match n with
  | O => 0
  | S n' => word_at pkt off + wsum pkt (off + 2) n'
  end.

Lemma byte_at pkt i : Forall is_byte pkt -> is_byte (pkt !!! i).
Proof.
  intros Hb. rewrite list_lookup_total_alt. destruct (pkt !! i) as [x|] eqn:Hx; simpl.
  - eapply Forall_lookup_1; eauto.
  - unfold is_byte, word. lia.
Qed.

Lemma word_at_word pkt off : Forall is_byte pkt -> word 16 (word_at pkt off).
Proof. intros Hb. apply le16_word; by apply byte_at. Qed.

Lemma load16_word_at pkt off :
  (off + 2 <= length pkt)%nat -> load16 pkt off = Ret (word_at pkt off).
Proof.
  intros Hl. unfold load16, rd, word_at.
  rewrite (list_lookup_lookup_total_lt pkt off), (list_lookup_lookup_total_lt pkt (off + 1)) by lia.
  done.
Qed.

Lemma le16_split v : word 16 v -> le16 (v mod 256) (v / 256 mod 256) = v.
Proof.
  unfold word, le16. intros Hv.
  rewrite (Z.mod_small (v / 256)) by (split; [apply Z.div_pos|apply Z.div_lt_upper_bound]; lia).
  pose proof (Z.div_mod v 256). lia.
Qed.

Lemma store16_ok pkt off v :
  (off + 2 <= length pkt)%nat ->
  store16 pkt off v = Ret (<[(off + 1)%nat := v / 256 mod 256]> (<[off := v mod 256]> pkt)).
Proof.
  intros Hl. unfold store16, wr. rewrite decide_True by lia. cbn [mbind res_bind].
  by rewrite decide_True by (rewrite length_insert; lia).
Qed.

Lemma store16_bytes pkt off v pkt' :
  Forall is_byte pkt -> store16 pkt off v = Ret pkt' -> Forall is_byte pkt'.
Proof.
  intros Hb H. unfold store16 in H. mrun.
  assert (forall z, is_byte (z mod 256)) by (intros; apply Z.mod_pos_bound; lia).
  by repeat apply Forall_insert.
Qed.

(** A store is read back, and changes nothing else. *)
Lemma store16_spec pkt off v :
  (off + 2 <= length pkt)%nat -> word 16 v ->
  exists pkt', store16 pkt off v = Ret pkt' /\ length pkt' = length pkt /\
    word_at pkt' off = v /\
    (forall i, i <> off -> i <> (off + 1)%nat -> pkt' !! i = pkt !! i).
Proof.
  intros Hl Hv. rewrite store16_ok by done. eexists. split; [done|].
  rewrite !length_insert. split_and!; [done| |].
  - unfold word_at. rewrite list_lookup_total_insert_ne by lia.
    rewrite !list_lookup_total_insert_eq by (rewrite ?length_insert; lia). by apply le16_split.
  - intros i H1 H2. by rewrite !list_lookup_insert_ne by lia.
Qed.

Lemma word_at_ext pkt pkt' off :
  pkt' !! off = pkt !! off -> pkt' !! (off + 1)%nat = pkt !! (off + 1)%nat ->
  word_at pkt' off = word_at pkt off.
Proof. intros H0 H1. unfold word_at. by rewrite !list_lookup_total_alt, H0, H1. Qed.

Lemma wsum_ext pkt pkt' off n :
  (forall i, (off <= i < off + 2 * n)%nat -> pkt' !! i = pkt !! i) ->
  wsum pkt' off n = wsum pkt off n.
Proof.
  revert off. induction n as [|n IH]; intros off H; simpl; [done|].
  rewrite (word_at_ext pkt pkt' off) by (apply H; lia). rewrite IH; [done|].
  intros i Hi. apply H. lia.
Qed.

(** Replacing the [k]-th word changes the sum by the difference. *)
Lemma wsum_replace pkt pkt' off n k :
  (k < n)%nat ->
  (forall i, (off <= i < off + 2 * n)%nat -> i <> (off + 2 * k)%nat -> i <> (off + 2 * k + 1)%nat ->
     pkt' !! i = pkt !! i) ->
  wsum pkt' off n =
    wsum pkt off n - word_at pkt (off + 2 * k) + word_at pkt' (off + 2 * k).
Proof.
  revert off k. induction n as [|n IH]; intros off k Hk H; [lia|]. cbn [wsum].
  destruct k as [|k].
  - rewrite Nat.mul_0_r, Nat.add_0_r in *. rewrite (wsum_ext pkt pkt'); [lia|].
    intros i Hi. apply H; lia.
  - rewrite (word_at_ext pkt pkt' off) by (apply H; lia).
    rewrite (IH (off + 2)%nat k); [|lia|intros i H0 H1 H2; apply H; lia].
    replace (off + 2 + 2 * k)%nat with (off + 2 * S k)%nat by lia. lia.
Qed.

(** The byte swap of a 16-bit value, by its bytes. *)
Lemma bpf_htons_le16 v : word 16 v -> bpf_htons v = le16 (v / 256) (v mod 256).
Proof.
  intros Hv. rewrite <- (bpf_ntohs_be16 v Hv) at 1. apply be16_bytes in Hv.
  unfold be16 in Hv. rewrite !Forall_cons in Hv. destruct Hv as (H0 & H1 & _).
  unfold bpf_htons. rewrite (bpf_ntohs_le16 (v / 256)) by done.
  replace (256 * (v / 256) + v mod 256) with (le16 (v mod 256) (v / 256)) by (unfold le16; lia).
  rewrite bpf_ntohs_le16 by done. unfold le16. lia.
Qed.

Lemma bpf_htons_word v : word 16 v -> word 16 (bpf_htons v).
Proof.
  intros Hv. rewrite bpf_htons_le16 by done. apply be16_bytes in Hv.
  unfold be16 in Hv. rewrite !Forall_cons in Hv. destruct Hv as (H0 & H1 & _).
  by apply le16_word.
Qed.

(** The words of a buffer that hold a 16-bit value in network order. *)
Lemma word_at_be16 pkt off v :
  Forall is_byte pkt -> word 16 v -> (off + 2 <= length pkt)%nat ->
  word_at pkt off = bpf_htons v <-> at_off pkt off (be16 v).
Proof.
  intros Hb Hv Hl. apply be16_bytes in Hv as Hbe. unfold be16 in Hbe.
  rewrite !Forall_cons in Hbe. destruct Hbe as (H0 & H1 & _).
  rewrite bpf_htons_le16 by done. unfold be16. rewrite !at_off_cons.
  rewrite !list_lookup_lookup_total_lt by lia. unfold word_at. split.
  - intros H. apply le16_inj in H as [-> ->]; auto using byte_at, at_off_nil.
  - intros ([= ->] & [= ->] & _). done.
Qed.

(** [by_compute]: a decidable fact about concrete data. *)
Ltac by_compute := refine (bool_decide_eq_true_1 _ _); vm_compute; reflexivity.

(** ** Field assignment

    [r <| f := v |>] is the record [r] after [r.f = v]: [Eta R] spells out the
    fields of [R], and the setter of a projection is found by abstracting that
    field. *)
Class Eta (R : Type) : Type := eta : R -> R.
Class Setter {R T} (f : R -> T) : Type := setf : T -> R -> R.
Arguments setf {R T} f {_} v r /.

Ltac mk_setter f :=
  match type of f with
  | ?R -> ?T =>
      let e := constr:(_ : Eta R) in
      let e := eval red in e in
      let s := constr:(fun (v : T) (r : R) =>
        ltac:(let b := eval hnf in (e r) in
              match eval pattern (f r) in b with ?g _ => let c := eval cbv beta in (g v) in exact c end)) in
      exact s
  end.
#[global] Hint Extern 0 (Setter ?f) => mk_setter f : typeclass_instances.

Notation "r <| f := v |>" := (setf f v r) (at level 1, left associativity, f constr at level 200).
