(* ===== verification/CLib.v ===== *)
(** * The C library functions the sources call

    The parts of libc the control plane and the parser rely on, in the "C"
    locale (nothing calls [setlocale]), on C strings: lists of non-NUL
    bytes. *)
From S2P Require Import Prelude.
#[local] Open Scope Z_scope.

(** ** Characters *)

Definition tolower (c : Z) : Z :=
  if (65 <=? c) && (c <=? 90) then c + 32 else c.

Definition toupper (c : Z) : Z :=
  if (97 <=? c) && (c <=? 122) then c - 32 else c.

Lemma tolower_idem c : tolower (tolower c) = tolower c.
Proof. unfold tolower. bool_lia. Qed.

Lemma tolower_toupper c : tolower (toupper c) = tolower c.
Proof. unfold tolower, toupper. bool_lia. Qed.

Lemma tolower_byte c : is_byte c -> is_byte (tolower c).
Proof. unfold is_byte, word, tolower. bool_lia. Qed.

Lemma tolower_dot c : tolower c = 46 <-> c = 46.
Proof. unfold tolower. bool_lia. Qed.

Lemma toupper_dot c : toupper c = 46 <-> c = 46.
Proof. unfold toupper. bool_lia. Qed.

(** ** Strings *)

(** The C string held in a buffer: the bytes before the first NUL. *)
Fixpoint cstr (buf : bytes) : bytes :=
  match buf with
  | [] => []
  | c :: rest => if c =? 0 then [] else c :: cstr rest
  end.

(** [strcmp(a, b) == 0] *)
Definition strcmp_eq (a b : bytes) : bool := bool_decide (a = b).

(** [strcasecmp(a, b) == 0] *)
Definition strcasecmp_eq (a b : bytes) : bool :=
  bool_decide (map tolower a = map tolower b).

(** [snprintf(buf, size, "%s", s)]: the C string left in [buf]. *)
Definition snprintf_s (size : nat) (s : bytes) : bytes := take (size - 1) s.

Lemma length_snprintf_s size s : (length (snprintf_s size s) <= size - 1)%nat.
Proof. unfold snprintf_s. rewrite length_take. lia. Qed.

Lemma snprintf_s_id size s : (length s < size)%nat -> snprintf_s size s = s.
Proof. intros. unfold snprintf_s. apply take_ge. lia. Qed.

Lemma strcasecmp_eq_sym a b : strcasecmp_eq a b = strcasecmp_eq b a.
Proof. unfold strcasecmp_eq. apply bool_decide_ext. split; congruence. Qed.

(** ** Numbers *)

Definition isspace (c : Z) : bool := (c =? 32) || (9 <=? c) && (c <=? 13).
Definition isdigit (c : Z) : bool := (48 <=? c) && (c <=? 57).

Fixpoint skip_spaces (s : bytes) : bytes :=
  match s with
  | c :: s' => if isspace c then skip_spaces s' else s
  | [] => []
  end.

(** The longest prefix of digits, and the rest. *)
Fixpoint span_digits (s : bytes) : bytes * bytes :=
  match s with
  | c :: s' => if isdigit c then let '(ds, r) := span_digits s' in (c :: ds, r) else ([], s)
  | [] => ([], [])
  end.

Definition digits_val (v : Z) (ds : bytes) : Z :=
  fold_left (fun v d => 10 * v + (d - 48)) ds v.

(** The subject sequence of [strtoul] and [strtol] in base 10: the sign, the
    magnitude and the rest of the string; [None] when there is no number, so
    that [*endptr] is the start. *)
Definition scan_number (s : bytes) : option (bool * Z * bytes) :=
  let s := skip_spaces s in
  let '(neg, s) := match s with
                   | 45 :: s' => (true, s')
                   | 43 :: s' => (false, s')
                   | _ => (false, s)
                   end in
  let '(ds, rest) := span_digits s in
  if bool_decide (ds = []) then None else Some (neg, digits_val 0 ds, rest).

(** [strtoul(s, &end, 10)] with a 64-bit [unsigned long]: the value and the
    string at [end]. *)
Definition strtoul (s : bytes) : option (Z * bytes) :=
  '(neg, v, rest) ← scan_number s;
  Some (if 2 ^ 64 <=? v then 2 ^ 64 - 1 else if (neg : bool) then u64 (- v) else v, rest).

(** [strtol(s, &end, 10)] with a 64-bit [long]. *)
Definition strtol (s : bytes) : option (Z * bytes) :=
  '(neg, v, rest) ← scan_number s;
  Some (if (neg : bool) then Z.max (- 2 ^ 63) (- v) else Z.min (2 ^ 63 - 1) v, rest).

(** [%u], [%zu] of a value below [2 ^ 64]: at most 20 digits. *)
Fixpoint dec_loop (fuel : nat) (n : Z) (acc : bytes) : bytes :=
  match fuel with
  | O => acc
  | S fuel' =>
      let acc := 48 + n mod 10 :: acc in
      if n / 10 =? 0 then acc else dec_loop fuel' (n / 10) acc
  end.

Definition fmt_u (n : Z) : bytes := dec_loop 20 n [].

Definition digits (ds : bytes) : Prop := Forall (fun c => isdigit c = true) ds.

Lemma digits_val_app v a b : digits_val v (a ++ b) = digits_val (digits_val v a) b.
Proof. unfold digits_val. apply fold_left_app. Qed.

Lemma digits_val_acc v ds : digits_val v ds = v * 10 ^ Z.of_nat (length ds) + digits_val 0 ds.
Proof.
  revert v. induction ds as [|d ds IH]; intros v; [simpl; lia|].
  change (digits_val ?x (d :: ds)) with (digits_val (10 * x + (d - 48)) ds).
  rewrite IH, (IH (10 * 0 + _)). cbn [length]. rewrite Nat2Z.inj_succ, Z.pow_succ_r by lia. lia.
Qed.

(** Printing gives a non-empty string of digits that stands for the number. *)
Lemma dec_loop_spec fuel n acc :
  0 <= n < 10 ^ Z.of_nat fuel -> (0 < fuel)%nat ->
  exists ds, dec_loop fuel n acc = ds ++ acc /\ ds <> [] /\ digits ds /\ digits_val 0 ds = n.
Proof.
  revert n acc. induction fuel as [|fuel IH]; intros n acc Hn Hf; [lia|]. cbn [dec_loop].
  pose proof (Z.mod_pos_bound n 10 ltac:(lia)) as Hm.
  pose proof (Z.div_mod n 10 ltac:(lia)) as Hdm.
  assert (isdigit (48 + n mod 10) = true) as Hd by (unfold isdigit; lia).
  destruct (Z.eqb_spec (n / 10) 0) as [H0|H0].
  - exists [48 + n mod 10]. split_and!; [done..| |].
    + by repeat constructor.
    + unfold digits_val. simpl. lia.
  - rewrite Nat2Z.inj_succ, Z.pow_succ_r in Hn by lia.
    destruct fuel as [|fuel]; [simpl in Hn; lia|].
    assert (0 <= n / 10 < 10 ^ Z.of_nat (S fuel)).
    { split; [apply Z.div_pos; lia|apply Z.div_lt_upper_bound; lia]. }
    destruct (IH (n / 10) (48 + n mod 10 :: acc)) as (ds & -> & Hne & Hds & Hv); [done|lia|].
    exists (ds ++ [48 + n mod 10]). split_and!.
    + by rewrite <- app_assoc.
    + by destruct ds.
    + apply Forall_app. split; [done|by repeat constructor].
    + rewrite digits_val_app, Hv. unfold digits_val. simpl. lia.
Qed.

Lemma fmt_u_spec n :
  0 <= n < 2 ^ 64 -> exists ds, fmt_u n = ds /\ ds <> [] /\ digits ds /\ digits_val 0 ds = n.
Proof.
  intros Hn. destruct (dec_loop_spec 20 n []) as (ds & E & H); [lia|lia|].
  rewrite app_nil_r in E. by exists ds.
Qed.

Lemma span_digits_app ds rest :
  digits ds -> (forall c r, rest = c :: r -> isdigit c = false) ->
  span_digits (ds ++ rest) = (ds, rest).
Proof.
  intros Hds Hr. induction Hds as [|d ds Hd Hds IH]; simpl.
  - destruct rest as [|c r]; [done|]. simpl. by rewrite (Hr c r).
  - by rewrite Hd, IH.
Qed.

(** A printed number is read back, and the reader stops at its end. *)
Lemma scan_number_fmt_u n rest :
  0 <= n < 2 ^ 64 -> (forall c r, rest = c :: r -> isdigit c = false) ->
  scan_number (fmt_u n ++ rest) = Some (false, n, rest).
Proof.
  intros Hn Hr. destruct (fmt_u_spec n Hn) as (ds & -> & Hne & Hds & Hv).
  destruct ds as [|d ds]; [done|]. apply Forall_cons in Hds as Hd. destruct Hd as [Hd _].
  unfold scan_number. unfold isdigit in Hd. change ((d :: ds) ++ rest) with (d :: (ds ++ rest)).
  cbn [skip_spaces].
  replace (isspace d) with false by (unfold isspace; lia).
  assert (match d :: ds ++ rest with
          | 45 :: s' => (true, s') | 43 :: s' => (false, s') | _ => (false, d :: ds ++ rest)
          end = (false, d :: ds ++ rest)) as ->.
  { destruct d as [|p|]; [done| |done]. do 7 (destruct p as [p|p|]; try done; simpl in Hd; try lia). }
  change (d :: ds ++ rest) with ((d :: ds) ++ rest). rewrite span_digits_app by done.
  by rewrite bool_decide_eq_false_2, Hv.
Qed.

Lemma strtoul_fmt_u n :
  0 <= n < 2 ^ 64 -> strtoul (fmt_u n) = Some (n, []).
Proof.
  intros Hn. unfold strtoul. rewrite <- (app_nil_r (fmt_u n)), scan_number_fmt_u by done. simpl.
  by replace (2 ^ 64 <=? n) with false by lia.
Qed.

Lemma strtol_fmt_u n :
  0 <= n < 2 ^ 63 -> strtol (fmt_u n) = Some (n, []).
Proof.
  intros Hn. unfold strtol. rewrite <- (app_nil_r (fmt_u n)), scan_number_fmt_u by (done || lia).
  simpl. f_equal. f_equal. lia.
Qed.

Lemma digits_val_nonneg v ds : digits ds -> 0 <= v -> 0 <= digits_val v ds.
Proof.
  intros Hds. revert v. induction Hds as [|d ds Hd Hds IH]; intros v Hv; [done|].
  apply (IH (10 * v + (d - 48))). unfold isdigit in Hd. lia.
Qed.

Lemma span_digits_digits s : digits (span_digits s).1.
Proof.
  induction s as [|c s IH]; simpl; [by constructor|]. destruct (isdigit c) eqn:Hc; [|by constructor].
  destruct (span_digits s) as [ds r]. by constructor.
Qed.

Lemma strtoul_word s v rest : strtoul s = Some (v, rest) -> word 64 v.
Proof.
  unfold strtoul, scan_number.
  destruct (match skip_spaces s with 45 :: _ => _ | _ => _ end) as [neg s'].
  pose proof (span_digits_digits s') as Hds. destruct (span_digits s') as [ds r]. simpl in *.
  case_bool_decide; simpl; [done|]. intros [= <- _].
  pose proof (digits_val_nonneg 0 ds Hds ltac:(lia)). unfold word.
  destruct (Z.leb_spec (2 ^ 64) (digits_val 0 ds)); [lia|]. destruct neg; [apply u64_word|lia].
Qed.

(** ** Addresses *)

(** [inet_pton(AF_INET, ...)]: four decimal numbers up to 255, without leading
    zeros, separated by dots.  [cur] is the octet being read, if it has a
    digit yet; [seen] the octets before it. *)
Fixpoint inet_pton4_loop (s : bytes) (seen : list Z) (cur : option Z) : option (list Z) :=
  match s with
  | [] =>
      match cur with
      | Some v => if (length seen =? 3)%nat then Some (seen ++ [v]) else None
      | None => None
      end
  | c :: s' =>
      if isdigit c then
        match cur with
        | None => if (length seen <? 4)%nat then inet_pton4_loop s' seen (Some (c - 48)) else None
        | Some v =>
            if (v =? 0) || (255 <? v * 10 + (c - 48)) then None
            else inet_pton4_loop s' seen (Some (v * 10 + (c - 48)))
        end
      else if c =? 46 then
        match cur with
        | Some v => if (length seen =? 3)%nat then None else inet_pton4_loop s' (seen ++ [v]) None
        | None => None
        end
      else None
  end.

(** [addr.s_addr]: the four octets in memory order, loaded by a little-endian
    host. *)
Definition s_addr (octets : list Z) : Z :=
  match octets with
  | [a; b; c; d] => a + 2 ^ 8 * b + 2 ^ 16 * c + 2 ^ 24 * d
  | _ => 0
  end.

Definition inet_pton (s : bytes) : option Z := s_addr <$> inet_pton4_loop s [] None.

(** [strchr(s, c)]: the string before the first [c], and the one after it. *)
Fixpoint strchr_split (s : bytes) (c : Z) : option (bytes * bytes) :=
  match s with
  | [] => None
  | x :: s' =>
      if x =? c then Some ([], s')
      else '(a, b) ← strchr_split s' c; Some (x :: a, b)
  end.

(** Reading back a printed octet. *)
Lemma inet_pton4_digits ds v s seen :
  digits ds -> 0 < v -> digits_val v ds <= 255 ->
  inet_pton4_loop (ds ++ s) seen (Some v) = inet_pton4_loop s seen (Some (digits_val v ds)).
Proof.
  intros Hds. revert v. induction Hds as [|d ds Hd Hds IH]; intros v Hv Hle; [done|].
  change (digits_val v (d :: ds)) with (digits_val (10 * v + (d - 48)) ds) in *. simpl. rewrite Hd.
  assert (10 * v + (d - 48) <= digits_val (10 * v + (d - 48)) ds).
  { rewrite digits_val_acc. pose proof (digits_val_nonneg 0 ds Hds ltac:(lia)).
    pose proof (Z.pow_pos_nonneg 10 (Z.of_nat (length ds)) ltac:(lia) ltac:(lia)).
    unfold isdigit in Hd. nia. }
  unfold isdigit in Hd.
  replace ((v =? 0) || (255 <? v * 10 + (d - 48))) with false by lia.
  replace (v * 10 + (d - 48)) with (10 * v + (d - 48)) by lia. apply IH; lia.
Qed.

(** Printing has no leading zeros. *)
Lemma dec_loop_head fuel n acc :
  0 < n < 10 ^ Z.of_nat fuel ->
  exists d ds, dec_loop fuel n acc = d :: ds ++ acc /\ digits (d :: ds) /\ 0 < d - 48 /\
    digits_val (d - 48) ds = n.
Proof.
  revert n acc. induction fuel as [|fuel IH]; intros n acc Hn; [simpl in Hn; lia|]. cbn [dec_loop].
  pose proof (Z.mod_pos_bound n 10 ltac:(lia)) as Hm. pose proof (Z.div_mod n 10 ltac:(lia)) as Hdm.
  assert (isdigit (48 + n mod 10) = true) as Hd by (unfold isdigit; lia).
  destruct (Z.eqb_spec (n / 10) 0) as [H0|H0].
  - exists (48 + n mod 10), []. split_and!; [done|by repeat constructor|lia|]. unfold digits_val.
    simpl. lia.
  - rewrite Nat2Z.inj_succ, Z.pow_succ_r in Hn by lia.
    assert (0 <= n / 10) by (apply Z.div_pos; lia).
    assert (n / 10 < 10 ^ Z.of_nat fuel) by (apply Z.div_lt_upper_bound; lia).
    destruct (IH (n / 10) (48 + n mod 10 :: acc)) as (d & ds & -> & Hds & Hp & Hv); [lia|].
    exists d, (ds ++ [48 + n mod 10]). split_and!.
    + by rewrite <- app_assoc.
    + change (d :: ds ++ [48 + n mod 10]) with ((d :: ds) ++ [48 + n mod 10]).
      apply Forall_app. split; [done|by repeat constructor].
    + done.
    + rewrite digits_val_app, Hv. unfold digits_val. simpl. lia.
Qed.

Lemma inet_pton4_octet o s seen :
  is_byte o -> (length seen < 4)%nat ->
  inet_pton4_loop (fmt_u o ++ s) seen None = inet_pton4_loop s seen (Some o).
Proof.
  unfold is_byte, word. intros Ho Hl. destruct (Z.eq_dec o 0) as [->|Hne].
  { simpl. by replace (length seen <? 4)%nat with true by lia. }
  destruct (dec_loop_head 20 o []) as (d & ds & E & Hds & Hp & Hv); [lia|].
  unfold fmt_u. rewrite E, app_nil_r. apply Forall_cons in Hds as [Hd Hds]. cbn [app inet_pton4_loop].
  rewrite Hd. replace (length seen <? 4)%nat with true by lia.
  rewrite inet_pton4_digits by (done || lia). by rewrite Hv.
Qed.

(** The dotted form of an address. *)
Definition fmt_ip (a b c d : Z) : bytes :=
  fmt_u a ++ 46 :: fmt_u b ++ 46 :: fmt_u c ++ 46 :: fmt_u d.

Lemma inet_pton_fmt_ip a b c d :
  is_byte a -> is_byte b -> is_byte c -> is_byte d ->
  inet_pton (fmt_ip a b c d) = Some (a + 2 ^ 8 * b + 2 ^ 16 * c + 2 ^ 24 * d).
Proof.
  intros Ha Hb Hc Hd. unfold inet_pton, fmt_ip.
  rewrite inet_pton4_octet by (done || simpl; lia). cbn [inet_pton4_loop isdigit app length].
  rewrite inet_pton4_octet by (done || simpl; lia). cbn [inet_pton4_loop isdigit app length].
  rewrite inet_pton4_octet by (done || simpl; lia). cbn [inet_pton4_loop isdigit app length].
  rewrite <- (app_nil_r (fmt_u d)), inet_pton4_octet by (done || simpl; lia). done.
Qed.

Lemma strchr_split_app a b c : Forall (fun x => x <> c) a -> strchr_split (a ++ c :: b) c = Some (a, b).
Proof.
  induction 1 as [|x a Hx Ha IH]; simpl; [by rewrite Z.eqb_refl|].
  by replace (x =? c) with false by lia; rewrite IH.
Qed.

Lemma strchr_split_none s c : Forall (fun x => x <> c) s -> strchr_split s c = None.
Proof.
  induction 1 as [|x a Hx Ha IH]; simpl; [done|]. by replace (x =? c) with false by lia; rewrite IH.
Qed.

Lemma length_dec_loop k fuel n acc :
  0 <= n < 10 ^ Z.of_nat k -> (0 < k)%nat -> (length (dec_loop fuel n acc) <= k + length acc)%nat.
Proof.
  revert k n acc. induction fuel as [|fuel IH]; intros k n acc Hn Hk; cbn [dec_loop]; [lia|].
  destruct (Z.eqb_spec (n / 10) 0) as [H0|H0]; [simpl; lia|].
  destruct k as [|k]; [lia|]. rewrite Nat2Z.inj_succ, Z.pow_succ_r in Hn by lia.
  assert (0 <= n / 10 < 10 ^ Z.of_nat k).
  { split; [apply Z.div_pos; lia|apply Z.div_lt_upper_bound; lia]. }
  destruct k as [|k]; [change (10 ^ Z.of_nat 0) with 1 in *; lia|].
  pose proof (IH (S k) (n / 10) (48 + n mod 10 :: acc) ltac:(done) ltac:(lia)) as Hl.
  cbn [length] in Hl. lia.
Qed.

Lemma length_fmt_byte o : is_byte o -> (length (fmt_u o) <= 3)%nat.
Proof.
  unfold is_byte, word. intros Ho. pose proof (length_dec_loop 3 20 o [] ltac:(simpl; lia) ltac:(lia)).
  unfold fmt_u. cbn [length] in *. lia.
Qed.

(** The characters of a printed number or address. *)
Lemma fmt_u_chars n c : 0 <= n < 2 ^ 64 -> c ∈ fmt_u n -> 48 <= c <= 57.
Proof.
  intros Hn. destruct (fmt_u_spec n Hn) as (ds & -> & _ & Hds & _). intros Hc.
  rewrite list_elem_of_In in Hc. unfold digits in Hds. rewrite Forall_forall in Hds.
  apply list_elem_of_In, Hds in Hc. unfold isdigit in Hc. lia.
Qed.

Lemma fmt_ip_no_slash a b c d :
  is_byte a -> is_byte b -> is_byte c -> is_byte d -> Forall (fun x => x <> 47) (fmt_ip a b c d).
Proof.
  unfold is_byte, word. intros Ha Hb Hc Hd. unfold fmt_ip.
  assert (forall n, 0 <= n < 2 ^ 8 -> Forall (fun x => x <> 47) (fmt_u n)) as Hn.
  { intros n Hn. apply Forall_forall. intros x Hx%fmt_u_chars; lia. }
  repeat (apply Forall_app; split; [by apply Hn|]; apply Forall_cons; split; [lia|]). by apply Hn.
Qed.

Lemma length_fmt_ip a b c d :
  is_byte a -> is_byte b -> is_byte c -> is_byte d -> (length (fmt_ip a b c d) <= 15)%nat.
Proof.
  intros Ha Hb Hc Hd. unfold fmt_ip.
  pose proof (length_fmt_byte a Ha). pose proof (length_fmt_byte b Hb).
  pose proof (length_fmt_byte c Hc). pose proof (length_fmt_byte d Hd).
  repeat (rewrite length_app; cbn [length]). lia.
Qed.
