(* ===== verification/Hash.v ===== *)
(** * control/hash.c: the route hashes

    The control plane hashes each route's domain when it reads the
    configuration; the data plane hashes the name of each query.  Here are the
    control plane's FNV-1a and SipHash-2-4, and the normalisation of domains
    they start with. *)
From S2P Require Import Prelude CLib.
#[local] Open Scope Z_scope.

Inductive zereh_hash_algorithm : Type := ZEREH_HASH_FNV1A | ZEREH_HASH_SIPHASH.

#[global] Instance zereh_hash_algorithm_eq_dec : EqDecision zereh_hash_algorithm.
Proof. solve_decision. Defined.

Definition ZEREH_MAX_DOMAIN_LEN : nat := 255.

Definition ZEREH_FNV1A64_OFFSET : Z := 1469598103934665603.
Definition ZEREH_FNV1A64_PRIME : Z := 1099511628211.
Definition ZEREH_SIPHASH_K0 : Z := 0x0706050403020100.
Definition ZEREH_SIPHASH_K1 : Z := 0x0f0e0d0c0b0a0908.

(** [x << n] on [uint64_t]. *)
Definition shl64 (x n : Z) : Z := u64 (Z.shiftl x n).

Definition zereh_rotl64 (x b : Z) : Z := Z.lor (shl64 x b) (Z.shiftr x (64 - b)).

Record sip_state : Type := SipState { v0 : Z; v1 : Z; v2 : Z; v3 : Z }.

Definition zereh_sipround (s : sip_state) : sip_state :=
  let '(SipState v0 v1 v2 v3) := s in
  let v0 := u64 (v0 + v1) in
  let v1 := zereh_rotl64 v1 13 in
  let v1 := Z.lxor v1 v0 in
  let v0 := zereh_rotl64 v0 32 in
  let v2 := u64 (v2 + v3) in
  let v3 := zereh_rotl64 v3 16 in
  let v3 := Z.lxor v3 v2 in
  let v0 := u64 (v0 + v3) in
  let v3 := zereh_rotl64 v3 21 in
  let v3 := Z.lxor v3 v0 in
  let v2 := u64 (v2 + v1) in
  let v1 := zereh_rotl64 v1 17 in
  let v1 := Z.lxor v1 v2 in
  let v2 := zereh_rotl64 v2 32 in
  SipState v0 v1 v2 v3.

(** The loop of [zereh_normalize_domain]; [room] is [out_sz - 1 - n], the
    bytes still free in [out]. *)
Fixpoint normalize_loop (domain : bytes) (room : nat) : bytes :=
  match domain, room with
  | c :: rest, S room' =>
      if (c =? 46) && bool_decide (rest = []) then []
      else tolower c :: normalize_loop rest room'
  | _, _ => []
  end.

(** The string left in [out]; its length is what the function returns. *)
Definition zereh_normalize_domain (domain : bytes) (out_sz : nat) : bytes :=
  if bool_decide (out_sz = 0%nat) then [] else normalize_loop domain (out_sz - 1).

Definition fnv1a64_step (hash c : Z) : Z := u64 (Z.lxor hash c * ZEREH_FNV1A64_PRIME).

Definition zereh_fnv1a64_bytes (data : bytes) : Z :=
  fold_left fnv1a64_step data ZEREH_FNV1A64_OFFSET.

(** One message word: two rounds between the two XORs. *)
Definition sip_absorb (s : sip_state) (m : Z) : sip_state :=
  let s := SipState (v0 s) (v1 s) (v2 s) (Z.lxor (v3 s) m) in
  let s := zereh_sipround (zereh_sipround s) in
  SipState (Z.lxor (v0 s) m) (v1 s) (v2 s) (v3 s).

Definition sip_finish (s : sip_state) (b : Z) : Z :=
  let s := sip_absorb s b in
  let s := SipState (v0 s) (v1 s) (Z.lxor (v2 s) 0xff) (v3 s) in
  let s := zereh_sipround (zereh_sipround (zereh_sipround (zereh_sipround s))) in
  Z.lxor (Z.lxor (Z.lxor (v0 s) (v1 s)) (v2 s)) (v3 s).

Definition sip_init : sip_state :=
  SipState (Z.lxor 0x736f6d6570736575 ZEREH_SIPHASH_K0)
           (Z.lxor 0x646f72616e646f6d ZEREH_SIPHASH_K1)
           (Z.lxor 0x6c7967656e657261 ZEREH_SIPHASH_K0)
           (Z.lxor 0x7465646279746573 ZEREH_SIPHASH_K1).

(** [while (off + 8 <= len)]: the state after the whole words, and the bytes
    left at [off]. *)
Fixpoint sip_words (s : sip_state) (data : bytes) : sip_state * bytes :=
  match data with
  | d0 :: d1 :: d2 :: d3 :: d4 :: d5 :: d6 :: d7 :: rest =>
      let m := Z.lor (Z.lor (Z.lor (Z.lor (Z.lor (Z.lor (Z.lor
                 d0 (shl64 d1 8)) (shl64 d2 16)) (shl64 d3 24))
                 (shl64 d4 32)) (shl64 d5 40)) (shl64 d6 48)) (shl64 d7 56) in
      sip_words (sip_absorb s m) rest
  | _ => (s, data)
  end.

(** [for (i = 0; i < len - off; i++) b |= data[off + i] << (8 * i)] *)
Fixpoint sip_tail (b : Z) (i : Z) (data : bytes) : Z :=
  match data with
  | [] => b
  | d :: rest => sip_tail (Z.lor b (shl64 d (8 * i))) (i + 1) rest
  end.

Definition zereh_siphash24_bytes (data : bytes) : Z :=
  let b := shl64 (Z.of_nat (length data)) 56 in
  let '(s, rest) := sip_words sip_init data in
  sip_finish s (sip_tail b 0 rest).

Definition zereh_fnv1a64_domain (domain : bytes) : Z :=
  let normalized := zereh_normalize_domain domain (ZEREH_MAX_DOMAIN_LEN + 1) in
  if bool_decide (normalized = []) then 0 else zereh_fnv1a64_bytes normalized.

Definition zereh_siphash24_domain (domain : bytes) : Z :=
  let normalized := zereh_normalize_domain domain (ZEREH_MAX_DOMAIN_LEN + 1) in
  if bool_decide (normalized = []) then 0 else zereh_siphash24_bytes normalized.

Definition zereh_hash_domain (domain : bytes) (algo : zereh_hash_algorithm) : Z :=
  match algo with
  | ZEREH_HASH_SIPHASH => zereh_siphash24_domain domain
  | ZEREH_HASH_FNV1A => zereh_fnv1a64_domain domain
  end.

(** ** Normalisation of domains *)

(** The domain without its final dot, if it has one. *)
Definition strip_dot (d : bytes) : bytes :=
  match last d with
  | Some 46 => removelast d
  | _ => d
  end.

Lemma strip_dot_nil : strip_dot [] = [].
Proof. done. Qed.

Lemma strip_dot_cons c d : d <> [] -> strip_dot (c :: d) = c :: strip_dot d.
Proof.
  intros Hd. unfold strip_dot. destruct d as [|e d]; [done|].
  change (last (c :: e :: d)) with (last (e :: d)).
  repeat case_match; done.
Qed.

Lemma strip_dot_one c : strip_dot [c] = if c =? 46 then [] else [c].
Proof.
  unfold strip_dot. simpl. destruct (Z.eqb_spec c 46) as [->|Hc]; [done|].
  repeat case_match; congruence.
Qed.

Lemma normalize_loop_spec d room :
  normalize_loop d room = take room (map tolower (strip_dot d)).
Proof.
  revert room. induction d as [|c d IH]; intros [|room]; try done.
  simpl normalize_loop. destruct d as [|e d].
  - rewrite strip_dot_one. simpl. destruct (c =? 46); [done|].
    simpl. by destruct room.
  - rewrite strip_dot_cons, andb_false_r by done. by rewrite IH.
Qed.

Lemma zereh_normalize_domain_spec d n :
  zereh_normalize_domain d (S n) = take n (map tolower (strip_dot d)).
Proof.
  unfold zereh_normalize_domain. simpl. rewrite Nat.sub_0_r. apply normalize_loop_spec.
Qed.

Lemma length_normalize d n : (length (zereh_normalize_domain d (S n)) <= n)%nat.
Proof. rewrite zereh_normalize_domain_spec, length_take. lia. Qed.

Lemma strip_dot_snoc d : last d <> Some 46 -> strip_dot (d ++ [46]) = strip_dot d.
Proof.
  intros Hd. unfold strip_dot at 1. rewrite last_snoc, removelast_last.
  unfold strip_dot. repeat case_match; congruence.
Qed.

Lemma strip_dot_map f d :
  (forall c, f c = 46 <-> c = 46) -> strip_dot (map f d) = map f (strip_dot d).
Proof.
  intros Hf. induction d as [|c d IH]; [done|]. destruct d as [|e d].
  - simpl map. rewrite !strip_dot_one. specialize (Hf c).
    destruct (Z.eqb_spec (f c) 46), (Z.eqb_spec c 46); tauto.
  - rewrite map_cons, !strip_dot_cons, IH by done. done.
Qed.

Lemma normalize_toupper d n :
  zereh_normalize_domain (map toupper d) (S n) = zereh_normalize_domain d (S n).
Proof.
  rewrite !zereh_normalize_domain_spec, strip_dot_map, map_map by apply toupper_dot.
  f_equal. apply map_ext. apply tolower_toupper.
Qed.

Lemma normalize_trailing_dot d n :
  last d <> Some 46 ->
  zereh_normalize_domain (d ++ [46]) (S n) = zereh_normalize_domain d (S n).
Proof. intros Hd. by rewrite !zereh_normalize_domain_spec, strip_dot_snoc. Qed.

Lemma hash_domain_normalize d1 d2 algo :
  zereh_normalize_domain d1 (ZEREH_MAX_DOMAIN_LEN + 1) =
    zereh_normalize_domain d2 (ZEREH_MAX_DOMAIN_LEN + 1) ->
  zereh_hash_domain d1 algo = zereh_hash_domain d2 algo.
Proof.
  intros H. destruct algo; simpl;
    unfold zereh_fnv1a64_domain, zereh_siphash24_domain; by rewrite H.
Qed.

(** ** FNV-1a *)

Lemma fnv1a64_step_word h c : word 64 (fnv1a64_step h c).
Proof. unfold fnv1a64_step. auto with words. Qed.

Lemma fnv1a64_fold_word data h : word 64 h -> word 64 (fold_left fnv1a64_step data h).
Proof.
  revert h. induction data as [|c data IH]; intros h Hh; [done|].
  apply IH, fnv1a64_step_word.
Qed.

Lemma fnv1a64_prime_unit : u64 (ZEREH_FNV1A64_PRIME * 14886173955864302971) = 1.
Proof. by vm_compute. Qed.

Lemma fnv1a64_step_inj h1 h2 c1 c2 :
  word 64 h1 -> word 64 h2 -> is_byte c1 -> is_byte c2 ->
  fnv1a64_step h1 c1 = fnv1a64_step h2 c2 -> Z.lxor h1 c1 = Z.lxor h2 c2.
Proof.
  intros Hh1 Hh2 Hc1 Hc2.
  assert (word 64 c1 /\ word 64 c2) as [??]
    by (split; eapply word_mono; eauto; lia).
  apply (u64_mul_unit_inj _ _ _ _ fnv1a64_prime_unit); auto with words.
Qed.

(** Equal suffixes never merge two different states. *)
Lemma fnv1a64_fold_inj data h1 h2 :
  word 64 h1 -> word 64 h2 -> Forall is_byte data ->
  fold_left fnv1a64_step data h1 = fold_left fnv1a64_step data h2 -> h1 = h2.
Proof.
  revert h1 h2. induction data as [|c data IH]; intros h1 h2 Hh1 Hh2 Hd; [done|].
  apply Forall_cons in Hd as [Hc Hd]. simpl. intros H.
  apply IH in H; auto using fnv1a64_step_word.
  apply fnv1a64_step_inj in H; try done. by apply lxor_cancel_r in H.
Qed.

Lemma fnv1a64_offset_word : word 64 ZEREH_FNV1A64_OFFSET.
Proof. unfold word, ZEREH_FNV1A64_OFFSET. lia. Qed.

Lemma fnv1a64_substitution pre post c1 c2 :
  is_byte c1 -> is_byte c2 -> Forall is_byte post -> c1 <> c2 ->
  zereh_fnv1a64_bytes (pre ++ c1 :: post) <> zereh_fnv1a64_bytes (pre ++ c2 :: post).
Proof.
  intros Hc1 Hc2 Hpost Hne H. apply Hne. unfold zereh_fnv1a64_bytes in H.
  rewrite !fold_left_app in H. simpl in H.
  apply fnv1a64_fold_inj in H; auto using fnv1a64_step_word.
  apply fnv1a64_step_inj in H; auto using fnv1a64_fold_word, fnv1a64_offset_word.
  by apply lxor_cancel_l in H.
Qed.

(** ** Ranges *)

Lemma shl64_word x n : word 64 (shl64 x n).
Proof. unfold shl64. auto with words. Qed.

Lemma zereh_rotl64_word x b : 0 <= b <= 64 -> word 64 x -> word 64 (zereh_rotl64 x b).
Proof. intros. unfold zereh_rotl64. auto using shl64_word with words. Qed.

#[export] Hint Resolve shl64_word zereh_rotl64_word : words.

Definition sip_wf (s : sip_state) : Prop :=
  word 64 (v0 s) /\ word 64 (v1 s) /\ word 64 (v2 s) /\ word 64 (v3 s).

Lemma sipround_wf s : sip_wf s -> sip_wf (zereh_sipround s).
Proof.
  destruct s. unfold sip_wf; simpl. intros (?&?&?&?).
  split_and!; auto 20 with words.
Qed.

Lemma sip_absorb_wf s m : sip_wf s -> word 64 m -> sip_wf (sip_absorb s m).
Proof.
  intros (?&?&?&?) Hm. unfold sip_absorb. cbv zeta.
  assert (sip_wf (SipState (v0 s) (v1 s) (v2 s) (Z.lxor (v3 s) m))) as Hs
    by (unfold sip_wf; simpl; auto with words).
  apply sipround_wf, sipround_wf in Hs. revert Hs. generalize (zereh_sipround
    (zereh_sipround (SipState (v0 s) (v1 s) (v2 s) (Z.lxor (v3 s) m)))).
  intros t (?&?&?&?). unfold sip_wf; simpl. auto with words.
Qed.

Lemma sip_finish_word s b : sip_wf s -> word 64 b -> word 64 (sip_finish s b).
Proof.
  intros Hs Hb. unfold sip_finish. cbv zeta.
  pose proof (sip_absorb_wf s b Hs Hb) as Ha. revert Ha.
  generalize (sip_absorb s b). clear s Hs. intros s (?&?&?&?).
  assert (sip_wf (SipState (v0 s) (v1 s) (Z.lxor (v2 s) 255) (v3 s))) as Hs.
  { unfold sip_wf; simpl. split_and!; try done. apply lxor_word; [lia|done|unfold word; lia]. }
  do 4 apply sipround_wf in Hs. revert Hs.
  generalize (zereh_sipround (zereh_sipround (zereh_sipround (zereh_sipround
    (SipState (v0 s) (v1 s) (Z.lxor (v2 s) 255) (v3 s)))))).
  intros t (?&?&?&?). auto with words.
Qed.

(** ** Hashes are 64-bit values *)

Lemma sip_words_wf s data : sip_wf s -> Forall is_byte data -> sip_wf (sip_words s data).1.
Proof.
  remember (length data) as n eqn:Hn. revert s data Hn. induction n as [n IH] using lt_wf_ind.
  intros s data -> Hs Hb. do 8 (destruct data as [|? data]; [done|]). cbn [sip_words].
  rewrite !Forall_cons in Hb. destruct Hb as (H0 & _ & _ & _ & _ & _ & _ & _ & Hb).
  eapply IH; [|done| |done]; [simpl; lia|]. apply sip_absorb_wf; [done|].
  repeat (apply lor_word; [lia| |apply shl64_word]). eapply word_mono; [|exact H0]. lia.
Qed.

Lemma sip_tail_word b i data : word 64 b -> word 64 (sip_tail b i data).
Proof.
  revert b i. induction data as [|d data IH]; intros b i Hb; [done|]. cbn [sip_tail].
  apply IH, lor_word; [lia|done|apply shl64_word].
Qed.

Lemma siphash24_bytes_word data : Forall is_byte data -> word 64 (zereh_siphash24_bytes data).
Proof.
  intros Hb. unfold zereh_siphash24_bytes. cbv zeta.
  assert (sip_wf sip_init) as Hi by (split_and!; by vm_compute).
  pose proof (sip_words_wf sip_init data Hi Hb) as Hs. destruct (sip_words sip_init data) as [s rest].
  apply sip_finish_word; [done|]. apply sip_tail_word, shl64_word.
Qed.

Lemma normalize_bytes d n :
  Forall is_byte d -> Forall is_byte (zereh_normalize_domain d (S n)).
Proof.
  intros Hd. rewrite zereh_normalize_domain_spec. apply Forall_take, Forall_map.
  assert (Forall is_byte (strip_dot d)) as Hs.
  { unfold strip_dot. repeat case_match; try done. rewrite removelast_firstn_len. by apply Forall_take. }
  eapply Forall_impl; [exact Hs|]. intros c. apply tolower_byte.
Qed.

Lemma hash_domain_word d algo : Forall is_byte d -> word 64 (zereh_hash_domain d algo).
Proof.
  intros Hd. unfold zereh_hash_domain, zereh_fnv1a64_domain, zereh_siphash24_domain. cbv zeta.
  assert (word 64 0) by (unfold word; lia). destruct algo; case_bool_decide; try done.
  - unfold zereh_fnv1a64_bytes. apply fnv1a64_fold_word, fnv1a64_offset_word.
  - apply siphash24_bytes_word. rewrite Nat.add_1_r. by apply normalize_bytes.
Qed.

(** ** Properties *)

(** The hash of a domain depends neither on the case of its
    letters nor on a final dot. *)
Theorem hash_domain_invariant (d : bytes) (algo : zereh_hash_algorithm) :
  last d <> Some 46 ->
  zereh_hash_domain (map toupper d) algo = zereh_hash_domain d algo /\
  zereh_hash_domain (d ++ [46]) algo = zereh_hash_domain d algo.
Proof.
  intros Hd. split; apply hash_domain_normalize; rewrite Nat.add_1_r.
  - apply normalize_toupper.
  - by apply normalize_trailing_dot.
Qed.

(** Two names that differ in exactly one byte never have
    the same FNV-1a hash, wherever the byte stands and whatever surrounds it. *)
Theorem fnv1a64_no_single_byte_collision (pre post : bytes) (c1 c2 : Z) :
  is_byte c1 -> is_byte c2 -> Forall is_byte post -> c1 <> c2 ->
  zereh_fnv1a64_bytes (pre ++ c1 :: post) <> zereh_fnv1a64_bytes (pre ++ c2 :: post).
Proof. apply fnv1a64_substitution. Qed.

