(* ===== verification/DnsParser.v ===== *)
(** * xdp/dns_parser.h: the packet parser

    A packet is the list of bytes between [data] and [data_end]; a pointer
    into it is an offset from [data].  Every load goes through [rd], so an
    access outside the packet (or outside [meta->qname]) is a [Fault] of the
    model.  [return -1] is [Fail]. *)
From S2P Require Import Prelude CLib Hash.
#[local] Open Scope Z_scope.

Definition ZEREH_DNS_MAX_LABELS : nat := 32.
Definition ZEREH_DNS_MAX_LABEL_LEN : nat := 63.
Definition ZEREH_DNS_MAX_QNAME : nat := 255.

Definition ETH_P_IP : Z := 0x0800.
Definition IPPROTO_UDP : Z := 17.

(** Sizes of [struct ethhdr], [iphdr], [udphdr] and [zereh_dns_hdr]. *)
Definition ETH_LEN : nat := 14.
Definition IP_LEN : nat := 20.
Definition UDP_LEN : nat := 8.
Definition DNS_LEN : nat := 12.

Record dns_query_meta : Type := DnsQueryMeta {
  qname_hash : Z;
  dns_id : Z;
  qtype : Z;
  qclass : Z;
  opcode : Z;
  is_truncated : Z;
  label_depth : Z;
  qname_len : Z;
  qname : bytes
}.

Definition zereh_ascii_tolower (c : Z) : Z :=
  if (65 <=? c) && (c <=? 90) then u8 (c + (97 - 65)) else c.

Definition zereh_fnv1a64_step (hash c : Z) : Z := u64 (Z.lxor hash c * 1099511628211).

(** The offsets of the three headers. *)
Definition zereh_parse_eth_ipv4_udp (pkt : bytes) : res (nat * nat * nat) :=
  let data_end := length pkt in
  let eth := 0%nat in
  _ ← guard_r (eth + ETH_LEN <=? data_end)%nat;
  h_proto ← load16 pkt (eth + 12);
  _ ← guard_r (h_proto =? bpf_htons ETH_P_IP);
  let iph := (eth + ETH_LEN)%nat in
  _ ← guard_r (iph + IP_LEN <=? data_end)%nat;
  ver_ihl ← rd pkt iph;
  let ihl := Z.land ver_ihl 15 in
  protocol ← rd pkt (iph + 9)%nat;
  _ ← guard_r (negb ((ihl <? 5) || negb (protocol =? IPPROTO_UDP)));
  let ihl_bytes := Z.to_nat (u32 (ihl * 4)) in
  _ ← guard_r (iph + ihl_bytes <=? data_end)%nat;
  let udp := (iph + ihl_bytes)%nat in
  _ ← guard_r (udp + UDP_LEN <=? data_end)%nat;
  Ret (eth, iph, udp).

(** One character of the name: the room check, the store, the hash. *)
Definition meta_push (meta : dns_query_meta) (c : Z) : res dns_query_meta :=
  _ ← guard_r (qname_len meta <? Z.of_nat ZEREH_DNS_MAX_QNAME);
  q ← wr (qname meta) (Z.to_nat (qname_len meta)) c;
  Ret (DnsQueryMeta (zereh_fnv1a64_step (qname_hash meta) c) (dns_id meta) (qtype meta)
         (qclass meta) (opcode meta) (is_truncated meta) (label_depth meta)
         (u16 (qname_len meta + 1)) q).

(** The inner loop; [n] counts the iterations left before
    [ZEREH_DNS_MAX_LABEL_LEN]. *)
Fixpoint copy_label (n : nat) (j : nat) (lbl_len : nat) (pkt : bytes) (cursor : nat)
    (meta : dns_query_meta) : res dns_query_meta :=
  match n with
  | O => Ret meta
  | S n' =>
      if (lbl_len <=? j)%nat then Ret meta
      else
        b ← rd pkt (cursor + j)%nat;
        meta ← meta_push meta (zereh_ascii_tolower b);
        copy_label n' (j + 1) lbl_len pkt cursor meta
  end.

Definition next_label (meta : dns_query_meta) : dns_query_meta :=
  DnsQueryMeta (qname_hash meta) (dns_id meta) (qtype meta) (qclass meta) (opcode meta)
    (is_truncated meta) (u8 (label_depth meta + 1)) (qname_len meta) (qname meta).

(** The label loop; [n] counts the iterations left before
    [ZEREH_DNS_MAX_LABELS].  Returns [ended], [cursor] and [meta]. *)
Fixpoint parse_labels (n : nat) (pkt : bytes) (dns_end : nat) (cursor : nat)
    (meta : dns_query_meta) : res (bool * nat * dns_query_meta) :=
  match n with
  | O => Ret (false, cursor, meta)
  | S n' =>
      _ ← guard_r (cursor + 1 <=? dns_end)%nat;
      lbl_len ← rd pkt cursor;
      let cursor := (cursor + 1)%nat in
      if lbl_len =? 0 then Ret (true, cursor, meta)
      else
        _ ← guard_r (negb (negb (Z.land lbl_len 0xc0 =? 0)
                           || (Z.of_nat ZEREH_DNS_MAX_LABEL_LEN <? lbl_len)));
        _ ← guard_r (cursor + Z.to_nat lbl_len <=? dns_end)%nat;
        meta ← (if 0 <? label_depth meta then meta_push meta 46 else Ret meta);
        meta ← copy_label ZEREH_DNS_MAX_LABEL_LEN 0 (Z.to_nat lbl_len) pkt cursor meta;
        parse_labels n' pkt dns_end (cursor + Z.to_nat lbl_len) (next_label meta)
  end.

Definition zereh_parse_dns_query (pkt : bytes) (udp : nat) : res dns_query_meta :=
  let data_end := length pkt in
  let dns := (udp + UDP_LEN)%nat in
  _ ← guard_r (dns + DNS_LEN <=? data_end)%nat;
  udp_len ← load16 pkt (udp + 4);
  let dns_end := (udp + Z.to_nat (bpf_ntohs udp_len))%nat in
  _ ← guard_r (dns_end <=? data_end)%nat;
  _ ← guard_r (dns + DNS_LEN + 5 <=? dns_end)%nat;
  flags_be ← load16 pkt (dns + 2);
  let flags := bpf_ntohs flags_be in
  _ ← guard_r (Z.land flags 0x8000 =? 0);
  qdcount_be ← load16 pkt (dns + 4);
  _ ← guard_r (negb (bpf_ntohs qdcount_be =? 0));
  id_be ← load16 pkt dns;
  let meta := DnsQueryMeta 1469598103934665603 (bpf_ntohs id_be) 0 0
                (Z.land (Z.shiftr flags 11) 0x0f)
                (if negb (Z.land flags 0x0200 =? 0) then 1 else 0)
                0 0 (replicate (ZEREH_DNS_MAX_QNAME + 1) 0) in
  '(ended, cursor, meta) ← parse_labels ZEREH_DNS_MAX_LABELS pkt dns_end (dns + DNS_LEN) meta;
  _ ← guard_r (negb (negb ended || (qname_len meta =? 0)));
  _ ← guard_r (cursor + 4 <=? dns_end)%nat;
  qtype_be ← load16 pkt cursor;
  qclass_be ← load16 pkt (cursor + 2);
  q ← wr (qname meta) (Z.to_nat (qname_len meta)) 0;
  Ret (DnsQueryMeta (qname_hash meta) (dns_id meta) (bpf_ntohs qtype_be) (bpf_ntohs qclass_be)
         (opcode meta) (is_truncated meta) (label_depth meta) (qname_len meta) q).

(** ** Specification: DNS queries and their wire format *)

(** A label of the wire format: its length byte, then its bytes. *)
Definition enc_label (l : bytes) : bytes := Z.of_nat (length l) :: l.

Definition enc_name (ls : list bytes) : bytes := concat (map enc_label ls) ++ [0].

(** The canonical text of a name: lower-case labels joined by dots. *)
Fixpoint dotted (ls : list bytes) : bytes :=
  match ls with
  | [] => []
  | [l] => map tolower l
  | l :: ls' => map tolower l ++ 46 :: dotted ls'
  end.

Record dns_query : Type := DnsQuery {
  q_id : Z;
  q_flags : Z;
  q_qdcount : Z;
  q_counts : bytes;          (* ancount, nscount and arcount *)
  q_labels : list bytes;
  q_type : Z;
  q_class : Z
}.

Definition enc_query (q : dns_query) : bytes :=
  be16 (q_id q) ++ be16 (q_flags q) ++ be16 (q_qdcount q) ++ q_counts q ++
  enc_name (q_labels q) ++ be16 (q_type q) ++ be16 (q_class q).

Definition label_ok (l : bytes) : Prop :=
  (1 <= length l <= ZEREH_DNS_MAX_LABEL_LEN)%nat.

(** The queries the router handles: not a response, at least one question,
    one to 31 labels, a name of at most 255 characters. *)
Record query_ok (q : dns_query) : Prop := {
  ok_id : word 16 (q_id q);
  ok_flags : word 16 (q_flags q);
  ok_qdcount : word 16 (q_qdcount q);
  ok_type : word 16 (q_type q);
  ok_class : word 16 (q_class q);
  ok_counts : length (q_counts q) = 6%nat;
  ok_query : Z.testbit (q_flags q) 15 = false;
  ok_question : q_qdcount q <> 0;
  ok_nonempty : q_labels q <> [];
  ok_depth : (length (q_labels q) < ZEREH_DNS_MAX_LABELS)%nat;
  ok_labels : Forall label_ok (q_labels q);
  ok_length : (length (dotted (q_labels q)) <= ZEREH_DNS_MAX_QNAME)%nat
}.

(** [q] is the query the UDP datagram at [udp] carries: its wire format
    starts the payload and fits in the datagram, and the datagram in the
    packet. *)
Definition query_at (pkt : bytes) (udp : nat) (q : dns_query) : Prop :=
  exists udp_len, word 16 udp_len /\ at_off pkt (udp + 4) (be16 udp_len) /\
    (udp + Z.to_nat udp_len <= length pkt)%nat /\
    at_off pkt (udp + UDP_LEN) (enc_query q) /\
    (UDP_LEN + length (enc_query q) <= Z.to_nat udp_len)%nat.

Definition pad_qname (s : bytes) : bytes :=
  s ++ replicate (ZEREH_DNS_MAX_QNAME + 1 - length s) 0.

(** What the parser is to report of [q]. *)
Definition meta_of (q : dns_query) : dns_query_meta :=
  let s := dotted (q_labels q) in
  DnsQueryMeta (zereh_fnv1a64_bytes s) (q_id q) (q_type q) (q_class q)
    (q_flags q / 2 ^ 11 mod 16) (if Z.testbit (q_flags q) 9 then 1 else 0)
    (Z.of_nat (length (q_labels q))) (Z.of_nat (length s)) (pad_qname s).

(** ** Memory safety *)

Definition meta_room (m : dns_query_meta) : Prop :=
  length (qname m) = (ZEREH_DNS_MAX_QNAME + 1)%nat /\
  0 <= qname_len m <= Z.of_nat ZEREH_DNS_MAX_QNAME.

Lemma meta_push_room m c m' : meta_room m -> meta_push m c = Ret m' -> meta_room m'.
Proof.
  intros [Hq Hn] H. unfold meta_push in H. mrun. unfold meta_room; simpl.
  rewrite length_insert. split; [done|].
  unfold ZEREH_DNS_MAX_QNAME in *. rewrite u16_id by (unfold word; lia). lia.
Qed.

Lemma safe_meta_push m c : meta_room m -> safe (meta_push m c).
Proof.
  intros [Hq Hn]. unfold meta_push. nofault.
  mrun. rewrite Hq. unfold ZEREH_DNS_MAX_QNAME in *. lia.
Qed.

Lemma copy_label_room n j len pkt cur m m' :
  meta_room m -> copy_label n j len pkt cur m = Ret m' -> meta_room m'.
Proof.
  revert j m. induction n as [|n IH]; intros j m Hm H; cbn [copy_label] in H; [by mrun|].
  destruct_if; mrun; [done|]. eauto using meta_push_room.
Qed.

Lemma safe_copy_label n j len pkt cur m :
  meta_room m -> (cur + len <= length pkt)%nat -> safe (copy_label n j len pkt cur m).
Proof.
  revert j m. induction n as [|n IH]; intros j m Hm Hl; cbn [copy_label]; [done|].
  destruct_if; [done|].
  apply safe_bind; [apply safe_rd; lia|]. intros b _.
  apply safe_bind; [by apply safe_meta_push|]. eauto using meta_push_room.
Qed.

Lemma parse_labels_room n pkt de cur m e c m' :
  meta_room m -> parse_labels n pkt de cur m = Ret (e, c, m') -> meta_room m'.
Proof.
  revert cur m. induction n as [|n IH]; intros cur m Hm H; cbn [parse_labels] in H.
  { by injection H as <- <- <-. }
  mrun. destruct_if; [by injection H as <- <- <-|]. mrun.
  apply IH in H; [done|]. change (meta_room (next_label a4)) with (meta_room a4).
  apply copy_label_room in Hrun4; [done|].
  destruct_if; [by apply meta_push_room in Hrun3|by mrun].
Qed.

Lemma safe_parse_labels n pkt de cur m :
  meta_room m -> (de <= length pkt)%nat -> safe (parse_labels n pkt de cur m).
Proof.
  revert cur m. induction n as [|n IH]; intros cur m Hm Hde; cbn [parse_labels]; [done|].
  apply safe_bind; [nofault|]. intros [] Hg. mrun.
  apply safe_bind; [apply safe_rd; lia|]. intros len _. destruct_if; [done|].
  apply safe_bind; [nofault|]. intros [] Hl. mrun.
  apply safe_bind; [nofault|]. intros [] Hend. mrun.
  apply safe_bind; [destruct_if; [by apply safe_meta_push|done]|]. intros m1 H1.
  assert (meta_room m1) by (destruct_if; [eauto using meta_push_room|by mrun]).
  apply safe_bind; [apply safe_copy_label; [done|lia]|]. intros m2 H2.
  apply IH; [|done]. apply (copy_label_room _ _ _ _ _ _ _ ltac:(done) H2).
Qed.

Lemma init_meta_room h i o t d :
  meta_room (DnsQueryMeta h i 0 0 o t d 0 (replicate (ZEREH_DNS_MAX_QNAME + 1) 0)).
Proof.
  unfold meta_room. cbn [qname qname_len]. rewrite length_replicate. split; [done|lia].
Qed.

Lemma safe_parse_dns_query pkt udp :
  (udp + UDP_LEN <= length pkt)%nat -> safe (zereh_parse_dns_query pkt udp).
Proof.
  intros Hudp. unfold zereh_parse_dns_query, UDP_LEN, DNS_LEN in *.
  apply safe_bind; [nofault|]. intros [] H1. mrun.
  apply safe_bind; [nofault; lia|]. intros udp_len _.
  apply safe_bind; [nofault|]. intros [] H2. mrun.
  apply safe_bind; [nofault|]. intros [] H3. mrun.
  do 5 (apply safe_bind; [nofault; lia|]; intros ? _).
  apply safe_bind; [apply safe_parse_labels; [apply init_meta_room|lia]|].
  intros [[e c] m] Hp. apply parse_labels_room in Hp as [Hq Hn]; [|apply init_meta_room].
  apply safe_bind; [nofault|]. intros _ _.
  apply safe_bind; [nofault|]. intros [] H4. mrun.
  do 2 (apply safe_bind; [nofault; lia|]; intros ? _).
  nofault. rewrite Hq. unfold ZEREH_DNS_MAX_QNAME in *. lia.
Qed.

Lemma safe_parse_eth_ipv4_udp pkt : safe (zereh_parse_eth_ipv4_udp pkt).
Proof.
  unfold zereh_parse_eth_ipv4_udp, ETH_LEN, IP_LEN.
  apply safe_bind; [nofault|]. intros [] H1. mrun.
  apply safe_bind; [nofault; lia|]. intros ? _.
  apply safe_bind; [nofault|]. intros _ _.
  apply safe_bind; [nofault|]. intros [] H2. mrun.
  do 2 (apply safe_bind; [nofault; lia|]; intros ? _). nofault.
Qed.

(** ** Functional correctness *)

Lemma zereh_ascii_tolower_eq c : zereh_ascii_tolower c = tolower c.
Proof.
  unfold zereh_ascii_tolower, tolower. destruct_if; [|done]. apply u8_id. unfold word. lia.
Qed.

Lemma fnv1a64_bytes_snoc s c :
  zereh_fnv1a64_bytes (s ++ [c]) = zereh_fnv1a64_step (zereh_fnv1a64_bytes s) c.
Proof. unfold zereh_fnv1a64_bytes. by rewrite fold_left_app. Qed.

(** The state of the label loop: [s] is the text built so far, [d] the number
    of labels. *)
Definition name_meta (id op tc : Z) (s : bytes) (d : nat) : dns_query_meta :=
  DnsQueryMeta (zereh_fnv1a64_bytes s) id 0 0 op tc (Z.of_nat d) (Z.of_nat (length s))
    (pad_qname s).

Lemma pad_qname_snoc s c :
  (length s <= ZEREH_DNS_MAX_QNAME)%nat ->
  <[length s := c]> (pad_qname s) = pad_qname (s ++ [c]).
Proof.
  intros Hs. unfold pad_qname. rewrite length_app. cbn [length].
  replace (ZEREH_DNS_MAX_QNAME + 1 - length s)%nat
    with (S (ZEREH_DNS_MAX_QNAME + 1 - (length s + 1)))%nat by lia.
  rewrite <- (Nat.add_0_r (length s)) at 1. rewrite insert_app_r, replicate_S.
  by rewrite <- app_assoc.
Qed.

Lemma length_pad_qname s :
  (length s <= ZEREH_DNS_MAX_QNAME + 1)%nat ->
  length (pad_qname s) = (ZEREH_DNS_MAX_QNAME + 1)%nat.
Proof. intros Hs. unfold pad_qname. rewrite length_app, length_replicate. lia. Qed.

Section loops.
Context (id op tc : Z) (pkt : bytes).
Let nm := name_meta id op tc.

Lemma meta_push_name s d c :
  (length s <= ZEREH_DNS_MAX_QNAME)%nat ->
  meta_push (nm s d) c =
    if (length s <? ZEREH_DNS_MAX_QNAME)%nat then Ret (nm (s ++ [c]) d) else Fail.
Proof.
  intros Hs. unfold meta_push, nm, name_meta. cbn [qname_len qname qname_hash dns_id qtype qclass
    opcode is_truncated label_depth].
  destruct (Nat.ltb_spec (length s) ZEREH_DNS_MAX_QNAME) as [Hlt|Hge].
  - replace (Z.of_nat (length s) <? Z.of_nat ZEREH_DNS_MAX_QNAME) with true by lia.
    cbn [guard_r mbind res_bind]. unfold wr. rewrite Nat2Z.id, decide_True
      by (rewrite length_pad_qname; lia).
    cbn [mbind res_bind]. rewrite pad_qname_snoc, fnv1a64_bytes_snoc, length_app by lia.
    unfold ZEREH_DNS_MAX_QNAME in *. rewrite u16_id by (unfold word; lia).
    do 2 f_equal. cbn [length]. lia.
  - replace (Z.of_nat (length s) <? Z.of_nat ZEREH_DNS_MAX_QNAME) with false by lia. done.
Qed.

Lemma copy_label_name l n j len cur s d :
  at_off pkt (cur + j) l -> (length l <= n)%nat -> len = (j + length l)%nat ->
  (length s <= ZEREH_DNS_MAX_QNAME)%nat ->
  copy_label n j len pkt cur (nm s d) =
    if (length s + length l <=? ZEREH_DNS_MAX_QNAME)%nat
    then Ret (nm (s ++ map tolower l) d) else Fail.
Proof.
  revert n j s. induction l as [|b l IH]; intros n j s Hat Hn -> Hs; simpl length in *.
  - rewrite !Nat.add_0_r, app_nil_r. replace (length s <=? _)%nat with true by lia.
    destruct n; cbn [copy_label]; [done|]. by rewrite Nat.leb_refl.
  - destruct n as [|n]; [lia|]. cbn [copy_label].
    replace (j + S (length l) <=? j)%nat with false by lia.
    apply at_off_cons in Hat as [Hb Hat]. unfold rd. rewrite Hb. cbn [mbind res_bind].
    rewrite meta_push_name by done. destruct (Nat.ltb_spec (length s) ZEREH_DNS_MAX_QNAME).
    + cbn [mbind res_bind]. rewrite IH; rewrite ?length_app; simpl; try lia.
      * rewrite zereh_ascii_tolower_eq, <- app_assoc. simpl.
        replace (length s + 1 + length l)%nat with (length s + S (length l))%nat by lia. done.
      * by rewrite Nat.add_assoc.
    + cbn [mbind res_bind].
      replace (length s + S (length l) <=? ZEREH_DNS_MAX_QNAME)%nat with false by lia. done.
Qed.

Lemma next_label_name s d :
  (d < ZEREH_DNS_MAX_LABELS)%nat -> next_label (nm s d) = nm s (S d).
Proof.
  unfold ZEREH_DNS_MAX_LABELS, next_label, nm, name_meta. intros Hd. simpl. f_equal.
  rewrite u8_id by (unfold word; lia). lia.
Qed.

(** The text after one more label. *)
Definition add_label (d : nat) (s l : bytes) : bytes :=
  (if (0 <? d)%nat then s ++ [46] else s) ++ map tolower l.

Lemma length_add_label d s l :
  length (add_label d s l) = (length s + (if (0 <? d)%nat then 1 else 0) + length l)%nat.
Proof.
  unfold add_label. rewrite length_app, length_map. destruct (0 <? d)%nat;
    rewrite ?length_app; simpl; lia.
Qed.

Lemma parse_labels_step n de cur l s d :
  label_ok l -> at_off pkt cur (enc_label l) -> (cur + length (enc_label l) <= de)%nat ->
  (length s <= ZEREH_DNS_MAX_QNAME)%nat -> (d < ZEREH_DNS_MAX_LABELS)%nat ->
  parse_labels (S n) pkt de cur (nm s d) =
    if (length (add_label d s l) <=? ZEREH_DNS_MAX_QNAME)%nat
    then parse_labels n pkt de (cur + length (enc_label l)) (nm (add_label d s l) (S d))
    else Fail.
Proof.
  unfold label_ok, enc_label, ZEREH_DNS_MAX_LABEL_LEN. cbn [length].
  intros Hl Hat Hde Hs Hd. apply at_off_cons in Hat as [Hlen Hat]. cbn [parse_labels].
  replace (cur + 1 <=? de)%nat with true by lia. unfold rd at 1. rewrite Hlen.
  cbn [guard_r mbind res_bind]. replace (Z.of_nat (length l) =? 0) with false by lia.
  rewrite land_192_small by lia. unfold ZEREH_DNS_MAX_LABEL_LEN.
  replace (Z.of_nat 63 <? Z.of_nat (length l)) with false by lia.
  rewrite Nat2Z.id. replace (cur + 1 + length l <=? de)%nat with true by lia.
  cbn [guard_r mbind res_bind negb orb Z.eqb].
  change (label_depth (nm s d)) with (Z.of_nat d). rewrite length_add_label.
  unfold add_label. destruct (Nat.ltb_spec 0 d).
  - replace (0 <? Z.of_nat d) with true by lia. rewrite meta_push_name by done.
    destruct (Nat.ltb_spec (length s) ZEREH_DNS_MAX_QNAME); cbn [mbind res_bind];
      [|destruct_if; [lia|done]].
    rewrite (copy_label_name l); [..|rewrite length_app; simpl; lia]; [|by rewrite Nat.add_0_r|lia|lia].
    rewrite length_app. cbn [length]. destruct_if; [|done]. cbn [mbind res_bind].
    rewrite next_label_name by done. f_equal. lia.
  - replace (0 <? Z.of_nat d) with false by lia. cbn [mbind res_bind].
    rewrite (copy_label_name l); [|by rewrite Nat.add_0_r|lia|lia|done].
    rewrite Nat.add_0_r. destruct_if; [|done]. cbn [mbind res_bind].
    rewrite next_label_name by done. f_equal. lia.
Qed.
End loops.

(** The text after the labels [ls], from the text [s] of [d] labels. *)
Fixpoint add_labels (d : nat) (s : bytes) (ls : list bytes) : bytes :=
  match ls with
  | [] => s
  | l :: ls' => add_labels (S d) (add_label d s l) ls'
  end.

Lemma add_labels_S d s ls :
  ls <> [] -> add_labels (S d) s ls = s ++ 46 :: dotted ls.
Proof.
  revert d s. induction ls as [|l ls IH]; intros d s Hne; [done|]. clear Hne.
  cbn [add_labels]. destruct ls as [|l' ls].
  - unfold add_label. simpl. by rewrite <- app_assoc.
  - rewrite IH by done. unfold add_label. simpl. by rewrite <- !app_assoc.
Qed.

Lemma add_labels_dotted ls : add_labels 0 [] ls = dotted ls.
Proof.
  destruct ls as [|l [|l' ls]]; [done|done|]. cbn [add_labels].
  change (add_labels 2 (add_label 1 (add_label 0 [] l) l') ls)
    with (add_labels 1 (add_label 0 [] l) (l' :: ls)).
  rewrite add_labels_S by done. done.
Qed.

Lemma length_add_labels d s ls : (length s <= length (add_labels d s ls))%nat.
Proof.
  revert d s. induction ls as [|l ls IH]; intros d s; simpl; [done|].
  specialize (IH (S d) (add_label d s l)). rewrite length_add_label in IH. lia.
Qed.

Lemma enc_name_cons l ls : enc_name (l :: ls) = enc_label l ++ enc_name ls.
Proof. unfold enc_name. simpl. by rewrite <- app_assoc. Qed.

Lemma enc_name_nonempty ls : enc_name ls <> [].
Proof. unfold enc_name. by destruct (concat _). Qed.

Lemma dotted_nonempty ls : ls <> [] -> Forall label_ok ls -> dotted ls <> [].
Proof.
  intros Hne Hl. destruct ls as [|l ls]; [done|]. apply Forall_cons in Hl as [[Hl _] _].
  destruct l; [simpl in Hl; lia|]. by destruct ls.
Qed.

Section names.
Context (id op tc : Z) (pkt : bytes) (de : nat).
Context (Hde : (de <= length pkt)%nat).
Let nm := name_meta id op tc.

Lemma parse_labels_complete ls n cur s d :
  at_off pkt cur (enc_name ls) -> (cur + length (enc_name ls) <= de)%nat ->
  Forall label_ok ls -> (length ls < n)%nat -> (d + length ls < ZEREH_DNS_MAX_LABELS)%nat ->
  (length (add_labels d s ls) <= ZEREH_DNS_MAX_QNAME)%nat ->
  parse_labels n pkt de cur (nm s d) =
    Ret (true, (cur + length (enc_name ls))%nat, nm (add_labels d s ls) (d + length ls)).
Proof.
  revert n cur s d. induction ls as [|l ls IH]; intros n cur s d Hat Hend Hok Hn Hd Hlen.
  - destruct n as [|n]; [simpl in Hn; lia|]. cbn [parse_labels length enc_name concat map app] in *.
    replace (cur + 1 <=? de)%nat with true by lia. apply at_off_cons in Hat as [H0 _].
    unfold rd. rewrite H0. cbn. by rewrite Nat.add_0_r.
  - destruct n as [|n]; [lia|]. rewrite enc_name_cons in *. rewrite length_app in *.
    apply at_off_app in Hat as [Hl Hat]. apply Forall_cons in Hok as [Hlok Hok].
    cbn [add_labels length] in *.
    pose proof (length_add_labels (S d) (add_label d s l) ls).
    pose proof (length_add_label d s l).
    unfold nm. rewrite (parse_labels_step _ _ _ _ n de cur l); try done; try lia.
    replace (length (add_label d s l) <=? ZEREH_DNS_MAX_QNAME)%nat with true by lia.
    fold nm. rewrite IH; try done; try lia. f_equal. f_equal; [|f_equal; lia]. f_equal. lia.
Qed.

Lemma parse_labels_sound n cur s d c' m' :
  Forall is_byte pkt -> (length s <= ZEREH_DNS_MAX_QNAME)%nat ->
  (d + n <= ZEREH_DNS_MAX_LABELS)%nat ->
  parse_labels n pkt de cur (nm s d) = Ret (true, c', m') ->
  exists ls, at_off pkt cur (enc_name ls) /\ c' = (cur + length (enc_name ls))%nat /\
    (c' <= de)%nat /\ Forall label_ok ls /\ (length ls < n)%nat /\
    m' = nm (add_labels d s ls) (d + length ls) /\
    (length (add_labels d s ls) <= ZEREH_DNS_MAX_QNAME)%nat.
Proof.
  intros Hb. revert cur s d. induction n as [|n IH]; intros cur s d Hs Hd H; [done|].
  pose proof H as Hstep. cbn [parse_labels] in H. mrun.
  destruct (Z.eqb_spec a0 0) as [->|Hnz].
  - injection H as <- <-. exists []. cbn [add_labels length]. rewrite Nat.add_0_r.
    split_and!; try done; try lia.
    apply at_off_cons; split; [done|apply at_off_nil].
  - assert (is_byte a0) as Hbyte by (eapply Forall_lookup_1; eauto).
    unfold is_byte, word, ZEREH_DNS_MAX_LABEL_LEN in *.
    mrun. clear H.
    set (l := take (Z.to_nat a0) (drop (cur + 1) pkt)).
    assert (length l = Z.to_nat a0) as Hll by (apply length_sub; lia).
    assert (label_ok l) as Hlok by (unfold label_ok, ZEREH_DNS_MAX_LABEL_LEN; lia).
    assert (at_off pkt cur (enc_label l)) as Hlat.
    { apply at_off_cons. rewrite Hll, Z2Nat.id by lia. split; [done|apply at_off_sub; lia]. }
    assert (length (enc_label l) = S (Z.to_nat a0)) as Hel by (simpl; lia).
    unfold nm in Hstep. rewrite (parse_labels_step _ _ _ _ n de cur l) in Hstep; try done; try lia.
    destruct_if; [|done]. fold nm in Hstep.
    apply IH in Hstep as (ls & Hat & -> & Hc & Hok & Hn & -> & Hlen); try lia.
    exists (l :: ls). rewrite enc_name_cons, length_app. cbn [add_labels length].
    split_and!; try done; try lia; [by apply at_off_app| |].
    + by apply Forall_cons.
    + f_equal. lia.
Qed.
End names.

Lemma opcode_eq flags : Z.land (Z.shiftr flags 11) 15 = flags / 2 ^ 11 mod 16.
Proof. change 15 with (Z.ones 4). by rewrite Z.land_ones, Z.shiftr_div_pow2. Qed.

Lemma length_enc_query q :
  length (q_counts q) = 6%nat ->
  length (enc_query q) = (12 + length (enc_name (q_labels q)) + 4)%nat.
Proof. intros H. unfold enc_query. rewrite !length_app, H. simpl. lia. Qed.

(** The places of the fields of a query in the packet. *)
Lemma at_off_enc_query pkt off q :
  length (q_counts q) = 6%nat ->
  let n := length (enc_name (q_labels q)) in
  at_off pkt off (enc_query q) <->
    at_off pkt off (be16 (q_id q)) /\ at_off pkt (off + 2) (be16 (q_flags q)) /\
    at_off pkt (off + 4) (be16 (q_qdcount q)) /\ at_off pkt (off + 6) (q_counts q) /\
    at_off pkt (off + 12) (enc_name (q_labels q)) /\
    at_off pkt (off + 12 + n) (be16 (q_type q)) /\
    at_off pkt (off + 12 + n + 2) (be16 (q_class q)).
Proof.
  intros H n. unfold enc_query. rewrite !at_off_app, H. cbn [length be16].
  replace (off + 2 + 2)%nat with (off + 4)%nat by lia.
  replace (off + 4 + 2)%nat with (off + 6)%nat by lia.
  replace (off + 6 + 6)%nat with (off + 12)%nat by lia. tauto.
Qed.

Lemma wr_pad_nul s :
  (length s <= ZEREH_DNS_MAX_QNAME)%nat -> wr (pad_qname s) (length s) 0 = Ret (pad_qname s).
Proof.
  intros Hs. unfold wr. rewrite decide_True by (rewrite length_pad_qname; lia).
  rewrite list_insert_id; [done|]. unfold pad_qname. rewrite lookup_app_r by lia.
  apply lookup_replicate. lia.
Qed.

Lemma enc_name_min ls : ls <> [] -> Forall label_ok ls -> (3 <= length (enc_name ls))%nat.
Proof.
  intros Hne Hl. destruct ls as [|l ls]; [done|]. apply Forall_cons in Hl as [[Hl _] _].
  rewrite enc_name_cons, length_app. pose proof (enc_name_nonempty ls).
  destruct (enc_name ls); [done|]. simpl. lia.
Qed.

Lemma init_name_meta id op tc :
  DnsQueryMeta 1469598103934665603 id 0 0 op tc 0 0 (replicate (ZEREH_DNS_MAX_QNAME + 1) 0)
  = name_meta id op tc [] 0.
Proof. done. Qed.

Lemma parse_dns_query_complete pkt udp q :
  query_ok q -> query_at pkt udp q -> zereh_parse_dns_query pkt udp = Ret (meta_of q).
Proof.
  intros [] (udp_len & Hul & Hlen & Hend & Hat & Hfit).
  pose proof (enc_name_min _ ok_nonempty0 ok_labels0).
  rewrite length_enc_query in Hfit by done. apply at_off_enc_query in Hat; [|done].
  destruct Hat as (Hid & Hfl & Hqd & _ & Hname & Hqt & Hqc).
  unfold zereh_parse_dns_query, UDP_LEN, DNS_LEN in *.
  apply load16_be16 in Hlen as (wl & -> & Hwl), Hid as (wi & -> & Hwi), Hfl as (wf & -> & Hwf),
    Hqd as (wq & -> & Hwq); [|done..]. cbn [mbind res_bind]. rewrite Hwl, Hwi, Hwf, Hwq.
  replace (udp + 8 + 12 <=? length pkt)%nat with true by lia.
  replace (udp + Z.to_nat udp_len <=? length pkt)%nat with true by lia.
  replace (udp + 8 + 12 + 5 <=? udp + Z.to_nat udp_len)%nat with true by lia.
  change 0x8000 with (2 ^ 15). rewrite land_pow2_eqb, ok_query0 by lia.
  replace (q_qdcount q =? 0) with false by lia. cbn [guard_r mbind res_bind negb].
  rewrite init_name_meta, (parse_labels_complete _ _ _ pkt _ Hend (q_labels q))
    by (rewrite ?add_labels_dotted; (done || lia)).
  rewrite add_labels_dotted. cbn [mbind res_bind qname_len name_meta qname].
  assert (dotted (q_labels q) <> []) by auto using dotted_nonempty.
  destruct (length (dotted (q_labels q))) as [|k] eqn:Hk; [by apply nil_length_inv in Hk|].
  rewrite <- Hk. replace (Z.of_nat (length _) =? 0) with false by lia.
  cbn [negb orb guard_r mbind res_bind].
  replace (_ <=? udp + Z.to_nat udp_len)%nat with true by lia.
  apply load16_be16 in Hqt as (wt & -> & Hwt), Hqc as (wc & -> & Hwc); [|done..].
  cbn [guard_r mbind res_bind]. rewrite Nat2Z.id, wr_pad_nul, Hwt, Hwc by lia.
  unfold meta_of, name_meta. cbn [mbind res_bind qname_hash dns_id opcode is_truncated label_depth].
  rewrite opcode_eq. change 0x0200 with (2 ^ 9). by rewrite land_pow2_eqb, negb_involutive.
Qed.

Lemma parse_dns_query_sound pkt udp m :
  Forall is_byte pkt -> zereh_parse_dns_query pkt udp = Ret m ->
  exists q, query_ok q /\ query_at pkt udp q /\ m = meta_of q.
Proof.
  intros Hb H. unfold zereh_parse_dns_query, UDP_LEN, DNS_LEN in H. mrun.
  destruct a8 as [[ended c] nm]. mrun. rewrite init_name_meta in Hrun8.
  destruct ended; [|done].
  apply parse_labels_sound in Hrun8 as (ls & Hname & -> & Hc & Hok & Hn & -> & Hlen);
    [|lia|done|simpl; lia|done].
  rewrite add_labels_dotted in *. cbn [qname_len name_meta] in Hrun9.
  apply at_off_be16 in Hrun0 as [Hul Hlenat], Hrun3 as [Hfl Hflat], Hrun5 as [Hqd Hqdat],
    Hrun7 as [Hid Hidat], Hrun11 as [Hqt Hqtat], Hrun12 as [Hqc Hqcat]; [|done..].
  set (counts := take 6 (drop (udp + 8 + 6) pkt)).
  assert (length counts = 6%nat) as Hcl by (apply length_sub; lia).
  change 0x8000 with (2 ^ 15) in Hrun4. rewrite land_pow2_eqb in Hrun4 by lia.
  exists (DnsQuery (bpf_ntohs a7) (bpf_ntohs a3) (bpf_ntohs a5) counts ls (bpf_ntohs a10)
            (bpf_ntohs a11)). split_and!.
  - constructor; cbn [q_id q_flags q_qdcount q_counts q_labels q_type q_class];
      try done; try lia. intros ->. simpl in Hrun9. done.
  - exists (bpf_ntohs a0). rewrite length_enc_query by done. simpl q_labels.
    split_and!; try done; try lia; [|unfold UDP_LEN; lia].
    apply at_off_enc_query; [done|]. simpl. unfold UDP_LEN.
    split_and!; try done. apply at_off_sub. lia.
  - unfold meta_of, name_meta. simpl. rewrite Nat2Z.id, opcode_eq.
    rewrite list_insert_id.
    + change 0x0200 with (2 ^ 9). by rewrite land_pow2_eqb, negb_involutive.
    + unfold pad_qname. rewrite lookup_app_r by lia. apply lookup_replicate. lia.
Qed.

(** The headers the router accepts: an Ethernet frame of type IPv4, a header
    of at least five words, protocol UDP, and a UDP header inside the frame. *)
Definition udp_at (pkt : bytes) (udp : nat) : Prop :=
  exists ver_ihl, at_off pkt 12 (be16 ETH_P_IP) /\ pkt !! 14%nat = Some ver_ihl /\
    pkt !! 23%nat = Some IPPROTO_UDP /\ 5 <= ver_ihl mod 16 /\
    udp = (14 + 4 * Z.to_nat (ver_ihl mod 16))%nat /\ (udp + UDP_LEN <= length pkt)%nat.

Lemma ihl_eq b : Z.land b 15 = b mod 16.
Proof. change 15 with (Z.ones 4). by rewrite Z.land_ones. Qed.

Lemma ihl_bytes_eq b : Z.to_nat (u32 (b mod 16 * 4)) = (4 * Z.to_nat (b mod 16))%nat.
Proof.
  pose proof (Z.mod_pos_bound b 16 ltac:(lia)). rewrite u32_id by (unfold word; lia). lia.
Qed.

Lemma parse_eth_ipv4_udp_spec pkt e i u :
  Forall is_byte pkt ->
  zereh_parse_eth_ipv4_udp pkt = Ret (e, i, u) <-> e = 0%nat /\ i = 14%nat /\ udp_at pkt u.
Proof.
  intros Hb. unfold zereh_parse_eth_ipv4_udp, ETH_LEN, IP_LEN. split.
  - intros H. mrun. split_and!; [done..|].
    apply Z.eqb_eq in Hrun1. apply at_off_be16 in Hrun0 as [_ Hat]; [|done].
    exists a3. rewrite ihl_eq, ihl_bytes_eq in *. subst a0.
    assert (a4 = IPPROTO_UDP) as -> by (unfold IPPROTO_UDP in *; lia).
    split_and!; try done; lia.
  - intros (-> & -> & v & Heth & Hv & Hp & Hihl & -> & Hlen). unfold UDP_LEN in *.
    assert (4 * Z.to_nat (v mod 16) >= 20)%nat by lia.
    apply load16_at in Heth as Hl. pass.
    change (0 + 12)%nat with 12%nat. rewrite Hl. cbn [mbind res_bind].
    replace (le16 _ _ =? _) with true by done. cbn [guard_r mbind res_bind].
    change (0 + 14)%nat with 14%nat. change (14 + 9)%nat with 23%nat.
    pass. unfold rd. rewrite Hv. cbn [mbind res_bind]. rewrite Hp.
    cbn [mbind res_bind]. rewrite ihl_eq, ihl_bytes_eq, Z.eqb_refl. by do 3 pass.
Qed.

(** ** A sample packet *)

(** A query for the A record of [t.Example.com], id 7, recursion desired, in
    an Ethernet frame from 10.0.0.1 to 10.0.0.2, UDP port 53, without a UDP
    checksum. *)
Definition sample_query : dns_query :=
  DnsQuery 7 0x0100 1 [0; 0; 0; 0; 0; 0] [str "t"; str "Example"; str "com"] 1 1.

Definition sample_packet : bytes :=
  replicate 12 0 ++ be16 ETH_P_IP ++
  [0x45; 0; 0; 0; 0; 0; 0; 0; 64; IPPROTO_UDP; 0; 0; 10; 0; 0; 1; 10; 0; 0; 2] ++
  be16 4000 ++ be16 53 ++ be16 39 ++ [0; 0] ++ enc_query sample_query.

Lemma sample_packet_bytes : Forall is_byte sample_packet.
Proof. by_compute. Qed.

Lemma sample_query_ok : query_ok sample_query.
Proof.
  constructor; try done; try (unfold word; simpl; lia).
  - by_compute.
  - repeat constructor; unfold label_ok, ZEREH_DNS_MAX_LABEL_LEN; simpl; lia.
  - by_compute.
Qed.

(** [at_off] of concrete lists, by computation. *)
Lemma at_off_take {A} (pkt : list A) off l :
  take (length l) (drop off pkt) = l -> at_off pkt off l.
Proof.
  intros E i x Hi. rewrite <- E in Hi. apply lookup_take_Some in Hi as [Hi _].
  by rewrite lookup_drop in Hi.
Qed.

Lemma sample_query_at : query_at sample_packet 34 sample_query.
Proof.
  exists 39. split_and!.
  - unfold word. lia.
  - by apply at_off_take.
  - by_compute.
  - by apply at_off_take.
  - by_compute.
Qed.

Lemma sample_udp_at : udp_at sample_packet 34.
Proof.
  exists 0x45. split_and!; try done.
  - by apply at_off_take.
  - by_compute.
Qed.

(** ** Properties *)

(** C13: on any frame whatever, the two parsers never read or write
    outside the packet and the [meta] structure: the header parser is safe,
    and so is the query parser run on the UDP header it found. *)
Theorem parsers_memory_safe (pkt : bytes) :
  safe ('(_, _, udp) ← zereh_parse_eth_ipv4_udp pkt; zereh_parse_dns_query pkt udp).
Proof.
  apply safe_bind; [apply safe_parse_eth_ipv4_udp|]. intros [[eth iph] udp] H.
  apply safe_parse_dns_query. unfold zereh_parse_eth_ipv4_udp in H. mrun.
  unfold ETH_LEN, UDP_LEN in *. lia.
Qed.

(** C6: the query parser accepts exactly the packets that hold,
    inside the UDP length, the wire encoding of a well-formed query (1 to 31
    labels of 1 to 63 bytes, a name of at most 255 characters), and reports its
    id, type, class, opcode, truncation, number of labels, lower-case dotted
    name and the FNV-1a hash of that name. *)
Theorem parse_dns_query_exact (pkt : bytes) (udp : nat) (m : dns_query_meta) :
  Forall is_byte pkt ->
  zereh_parse_dns_query pkt udp = Ret m <->
  exists q, query_ok q /\ query_at pkt udp q /\ m = meta_of q.
Proof.
  intros Hb. split; [by apply parse_dns_query_sound|].
  intros (q & Hok & Hat & ->). by apply parse_dns_query_complete.
Qed.

Lemma parse_dns_query_exact_witness :
  zereh_parse_dns_query sample_packet 34 = Ret (meta_of sample_query).
Proof.
  apply (parse_dns_query_exact sample_packet 34 (meta_of sample_query) sample_packet_bytes).
  exists sample_query. split; [exact sample_query_ok|]. split; [exact sample_query_at|reflexivity].
Defined.

(** C30: the header parser accepts exactly the IPv4 UDP frames whose
    header lengths fit in the frame, and finds the UDP header after the IP
    options. *)
Theorem parse_eth_ipv4_udp_exact (pkt : bytes) (eth iph udp : nat) :
  Forall is_byte pkt ->
  zereh_parse_eth_ipv4_udp pkt = Ret (eth, iph, udp) <->
  eth = 0%nat /\ iph = 14%nat /\ udp_at pkt udp.
Proof. apply parse_eth_ipv4_udp_spec. Qed.

Lemma parse_eth_ipv4_udp_exact_witness :
  zereh_parse_eth_ipv4_udp sample_packet = Ret (0%nat, 14%nat, 34%nat).
Proof.
  apply (parse_eth_ipv4_udp_exact sample_packet 0 14 34 sample_packet_bytes).
  split; [reflexivity|]. split; [reflexivity|exact sample_udp_at].
Defined.
