(* ===== verification/XdpHash.v ===== *)
(** * xdp/xdp_template.c: the data plane's hash functions

    [zereh_siphash24_qname] is the data plane's own SipHash-2-4: bounded loops
    over the 256-byte [qname] array, where the control plane's runs over a
    buffer of known length.  The theorems say that the two planes agree. *)
From S2P Require Import Prelude CLib Hash DnsParser.
#[local] Open Scope Z_scope.

Definition zereh_rotl64 (x b : Z) : Z := Z.lor (u64 (Z.shiftl x b)) (Z.shiftr x (64 - b)).

Definition zereh_sipround (s : sip_state) : sip_state :=
  let '(SipState v0 v1 v2 v3) := s in
  let v0 := u64 (v0 + v1) in
  let v1 := zereh_rotl64 v1 13 in
  let v1 := Z.lxor v1 v0 in
  let v0 := zereh_rotl64 v0 32 in

  let v2 := u64 (v2 + v3) in
  let v3 := zereh_rotl64 v3 16 in
  let v3 := Z.lxor v3 v2 in

  let v0 := u64 (v0 + v3) in
  let v3 := zereh_rotl64 v3 21 in
  let v3 := Z.lxor v3 v0 in

  let v2 := u64 (v2 + v1) in
  let v1 := zereh_rotl64 v1 17 in
  let v1 := Z.lxor v1 v2 in
  let v2 := zereh_rotl64 v2 32 in
  SipState v0 v1 v2 v3.

(** [for (j = 0; j < 8; j++) m |= (__u64)(__u8)qname[off + j] << (8 * j)] *)
Fixpoint sip_load (n j : nat) (qname : bytes) (off : nat) (m : Z) : res Z :=
  match n with
  | O => Ret m
  | S n' =>
      c ← rd qname (off + j)%nat;
      sip_load n' (j + 1) qname off (Z.lor m (u64 (Z.shiftl (u8 c) (8 * Z.of_nat j))))
  end.

(** The block loop; [n] counts the iterations left before 31. *)
Fixpoint sip_blocks (n blk : nat) (qname : bytes) (qname_len : Z) (s : sip_state) :
    res sip_state :=
  match n with
  | O => Ret s
  | S n' =>
      let off := (blk * 8)%nat in
      if qname_len <? Z.of_nat off + 8 then Ret s
      else
        m ← sip_load 8 0 qname off 0;
        let s := SipState (v0 s) (v1 s) (v2 s) (Z.lxor (v3 s) m) in
        let s := zereh_sipround (zereh_sipround s) in
        sip_blocks n' (blk + 1) qname qname_len
          (SipState (Z.lxor (v0 s) m) (v1 s) (v2 s) (v3 s))
  end.

(** The loop over the last bytes; [n] counts the iterations left before 7. *)
Fixpoint sip_rest (n i : nat) (qname : bytes) (qname_len : Z) (off : nat) (b : Z) : res Z :=
  match n with
  | O => Ret b
  | S n' =>
      if qname_len <=? Z.of_nat (off + i) then Ret b
      else
        c ← rd qname (off + i)%nat;
        sip_rest n' (i + 1) qname qname_len off
          (Z.lor b (u64 (Z.shiftl (u8 c) (8 * Z.of_nat i))))
  end.

Definition zereh_siphash24_qname (qname : bytes) (qname_len : Z) : res Z :=
  let s := SipState (Z.lxor 0x736f6d6570736575 0x0706050403020100)
                    (Z.lxor 0x646f72616e646f6d 0x0f0e0d0c0b0a0908)
                    (Z.lxor 0x6c7967656e657261 0x0706050403020100)
                    (Z.lxor 0x7465646279746573 0x0f0e0d0c0b0a0908) in
  let b := u64 (Z.shiftl qname_len 56) in
  s ← sip_blocks 31 0 qname qname_len s;
  let off := Z.to_nat (qname_len / 8 * 8) in
  b ← sip_rest 7 0 qname qname_len off b;
  let s := SipState (v0 s) (v1 s) (v2 s) (Z.lxor (v3 s) b) in
  let s := zereh_sipround (zereh_sipround s) in
  let s := SipState (Z.lxor (v0 s) b) (v1 s) (v2 s) (v3 s) in
  let s := SipState (v0 s) (v1 s) (Z.lxor (v2 s) 0xff) (v3 s) in
  let s := zereh_sipround (zereh_sipround (zereh_sipround (zereh_sipround s))) in
  Ret (Z.lxor (Z.lxor (Z.lxor (v0 s) (v1 s)) (v2 s)) (v3 s)).

(** [algo] is the template's [ZEREH_HASH_ALGO]. *)
Definition zereh_route_hash (algo : zereh_hash_algorithm) (qmeta : dns_query_meta) : res Z :=
  if bool_decide (algo = ZEREH_HASH_SIPHASH)
  then zereh_siphash24_qname (qname qmeta) (qname_len qmeta)
  else Ret (qname_hash qmeta).

(** The finaliser shared by the proof-of-work and Bloom filters. *)
Definition zereh_mix64 (x : Z) : Z :=
  let x := Z.lxor x (Z.shiftr x 33) in
  let x := u64 (x * 0xff51afd7ed558ccd) in
  let x := Z.lxor x (Z.shiftr x 33) in
  let x := u64 (x * 0xc4ceb9fe1a85ec53) in
  Z.lxor x (Z.shiftr x 33).

(** ** The data plane's SipHash is the control plane's *)

Lemma sipround_eq : zereh_sipround = Hash.zereh_sipround.
Proof. reflexivity. Qed.

Lemma u64_shl64 c n : is_byte c -> u64 (Z.shiftl (u8 c) n) = shl64 c n.
Proof. intros Hc. unfold shl64. by rewrite (u8_id c). Qed.

Lemma shl64_0 c : is_byte c -> shl64 c 0 = c.
Proof.
  intros Hc. unfold shl64. rewrite Z.shiftl_0_r. apply u64_id.
  eapply word_mono; [|exact Hc]. lia.
Qed.

Lemma sip_words_short s r : (length r < 8)%nat -> sip_words s r = (s, r).
Proof. intros H. by do 8 (destruct r as [|? r]; [done|]); simpl in H; lia. Qed.

Lemma sip_rest_eq t n i q len off b :
  at_off q (off + i) t -> Forall is_byte t -> len = Z.of_nat (off + i + length t) ->
  (length t <= n)%nat ->
  sip_rest n i q len off b = Ret (sip_tail b (Z.of_nat i) t).
Proof.
  revert n i b. induction t as [|c t IH]; intros n i b Hat Hb -> Hn; cbn [length sip_tail] in *.
  - destruct n; cbn [sip_rest]; [done|].
    by replace (_ <=? _) with true by lia.
  - destruct n as [|n]; [lia|]. cbn [sip_rest]. replace (_ <=? _) with false by lia.
    apply at_off_cons in Hat as [Hc Hat]. apply Forall_cons in Hb as [Hcb Hb].
    unfold rd. rewrite Hc. cbn [mbind res_bind]. rewrite u64_shl64 by done.
    rewrite IH; [|by rewrite Nat.add_assoc|done|lia|lia].
    by replace (Z.of_nat (i + 1)) with (Z.of_nat i + 1) by lia.
Qed.

Lemma sip_load_eq q off d0 d1 d2 d3 d4 d5 d6 d7 :
  at_off q off [d0; d1; d2; d3; d4; d5; d6; d7] ->
  Forall is_byte [d0; d1; d2; d3; d4; d5; d6; d7] ->
  sip_load 8 0 q off 0 =
    Ret (Z.lor (Z.lor (Z.lor (Z.lor (Z.lor (Z.lor (Z.lor
           d0 (shl64 d1 8)) (shl64 d2 16)) (shl64 d3 24))
           (shl64 d4 32)) (shl64 d5 40)) (shl64 d6 48)) (shl64 d7 56)).
Proof.
  intros Hat Hb. rewrite !Forall_cons in Hb. destruct_and!.
  cbn [sip_load Nat.add]. unfold rd.
  rewrite (Hat 0%nat d0 eq_refl). cbn [mbind res_bind]. rewrite (Hat 1%nat d1 eq_refl).
  cbn [mbind res_bind]. rewrite (Hat 2%nat d2 eq_refl). cbn [mbind res_bind].
  rewrite (Hat 3%nat d3 eq_refl). cbn [mbind res_bind]. rewrite (Hat 4%nat d4 eq_refl).
  cbn [mbind res_bind]. rewrite (Hat 5%nat d5 eq_refl). cbn [mbind res_bind].
  rewrite (Hat 6%nat d6 eq_refl). cbn [mbind res_bind]. rewrite (Hat 7%nat d7 eq_refl).
  cbn [mbind res_bind]. rewrite !u64_shl64, Z.lor_0_l by done. simpl (8 * _). by rewrite shl64_0.
Qed.

Lemma sip_absorb_eq s m :
  SipState
    (Z.lxor (v0 (zereh_sipround (zereh_sipround
       (SipState (v0 s) (v1 s) (v2 s) (Z.lxor (v3 s) m))))) m)
    (v1 (zereh_sipround (zereh_sipround (SipState (v0 s) (v1 s) (v2 s) (Z.lxor (v3 s) m)))))
    (v2 (zereh_sipround (zereh_sipround (SipState (v0 s) (v1 s) (v2 s) (Z.lxor (v3 s) m)))))
    (v3 (zereh_sipround (zereh_sipround (SipState (v0 s) (v1 s) (v2 s) (Z.lxor (v3 s) m)))))
  = sip_absorb s m.
Proof. rewrite sipround_eq. unfold sip_absorb. reflexivity. Qed.

(** What the block loop leaves: the state after the whole words of [r], the
    bytes from [off] on. *)
Lemma sip_blocks_eq n blk q r st :
  at_off q (blk * 8) r -> Forall is_byte r -> (length r <= 8 * n + 7)%nat ->
  sip_blocks n blk q (Z.of_nat (blk * 8 + length r)) st = Ret (sip_words st r).1.
Proof.
  revert blk r st. induction n as [|n IH]; intros blk r st Hat Hb Hr; cbn [sip_blocks].
  { rewrite sip_words_short by lia. done. }
  destruct (decide (length r < 8)%nat) as [Hs|Hs].
  { replace (_ <? _) with true by lia. by rewrite sip_words_short. }
  replace (_ <? _) with false by lia.
  do 8 (destruct r as [|? r]; [simpl in Hs; lia|]). clear Hs.
  change (z :: z0 :: z1 :: z2 :: z3 :: z4 :: z5 :: z6 :: r)
    with ([z; z0; z1; z2; z3; z4; z5; z6] ++ r) in Hat, Hb.
  apply at_off_app in Hat as [Hw Hat]. apply Forall_app in Hb as [Hwb Hb].
  rewrite (sip_load_eq _ _ _ _ _ _ _ _ _ _ Hw Hwb). cbn [mbind res_bind sip_words].
  rewrite sip_absorb_eq. cbn [length] in *. rewrite <- (IH (blk + 1)%nat); [|..|done|lia].
  - f_equal. lia.
  - by replace ((blk + 1) * 8)%nat with (blk * 8 + 8)%nat by lia.
Qed.

Lemma sip_words_rest s r : (sip_words s r).2 = drop (length r / 8 * 8) r.
Proof.
  remember (length r) as n eqn:Hn. revert s r Hn. induction n as [n IH] using lt_wf_ind.
  intros s r ->. destruct (decide (length r < 8)%nat) as [Hs|Hs].
  { rewrite sip_words_short, Nat.div_small by done. done. }
  do 8 (destruct r as [|? r]; [simpl in Hs; lia|]). cbn [sip_words length].
  rewrite (IH (length r)) by (simpl; lia).
  replace (S (S (S (S (S (S (S (S (length r)))))))))%nat with (1 * 8 + length r)%nat by lia.
  rewrite Nat.div_add_l by lia. replace ((1 + length r / 8) * 8)%nat with
    (S (S (S (S (S (S (S (S (length r / 8 * 8)))))))))%nat by lia. done.
Qed.

Lemma siphash24_qname_eq s :
  (length s <= ZEREH_DNS_MAX_QNAME)%nat -> Forall is_byte s ->
  zereh_siphash24_qname (pad_qname s) (Z.of_nat (length s)) = Ret (zereh_siphash24_bytes s).
Proof.
  intros Hs Hb. unfold ZEREH_DNS_MAX_QNAME in Hs.
  assert (at_off (pad_qname s) 0 s) as Hat.
  { intros i x Hi. unfold pad_qname. rewrite lookup_app_l; [done|].
    by apply lookup_lt_Some in Hi. }
  unfold zereh_siphash24_qname.
  rewrite (sip_blocks_eq 31 0 (pad_qname s) s) by (done || lia). cbn [mbind res_bind].
  change (SipState (Z.lxor 0x736f6d6570736575 0x0706050403020100)
            (Z.lxor 0x646f72616e646f6d 0x0f0e0d0c0b0a0908)
            (Z.lxor 0x6c7967656e657261 0x0706050403020100)
            (Z.lxor 0x7465646279746573 0x0f0e0d0c0b0a0908)) with sip_init.
  set (off := (length s / 8 * 8)%nat).
  assert (Z.to_nat (Z.of_nat (length s) / 8 * 8) = off) as ->.
  { subst off. rewrite <- (Nat2Z.inj_div _ 8). lia. }
  pose proof (Nat.div_mod_eq (length s) 8). pose proof (Nat.mod_upper_bound (length s) 8 ltac:(lia)).
  rewrite (sip_rest_eq (drop off s)); cycle 1.
  - intros i x Hi. rewrite lookup_drop in Hi. rewrite Nat.add_0_r. by apply Hat in Hi.
  - by apply Forall_drop.
  - rewrite length_drop. subst off. lia.
  - rewrite length_drop. subst off. lia.
  - cbn [mbind res_bind]. unfold zereh_siphash24_bytes.
    pose proof (sip_words_rest sip_init s) as Hrest. fold off in Hrest.
    destruct (sip_words sip_init s) as [st r]. simpl in Hrest. subst r.
    rewrite sipround_eq. change (Z.of_nat 0) with 0. unfold shl64.
    generalize (sip_tail (u64 (Z.of_nat (length s) ≪ 56)) 0 (drop off s)). intros b.
    unfold sip_finish, sip_absorb. generalize Hash.zereh_sipround. reflexivity.
Qed.

Lemma dotted_bytes ls : Forall (Forall is_byte) ls -> Forall is_byte (dotted ls).
Proof.
  assert (forall l, Forall is_byte l -> Forall is_byte (map tolower l)) as Hlow.
  { intros l Hl. apply Forall_map. by eapply Forall_impl; [|apply tolower_byte]. }
  intros H. induction H as [|l ls Hl Hls IH]; [by constructor|].
  destruct ls as [|l' ls]; [by apply Hlow|]. change (dotted (l :: l' :: ls))
    with (map tolower l ++ 46 :: dotted (l' :: ls)).
  apply Forall_app; split; [by apply Hlow|]. apply Forall_cons; split; [|done].
  unfold is_byte, word. lia.
Qed.

(** A domain that names [ls]: the same letters up to case, with or without a
    final dot. *)
Definition names (d : bytes) (ls : list bytes) : Prop := map tolower (strip_dot d) = dotted ls.

Lemma names_normalize d ls :
  names d ls -> (length (dotted ls) <= ZEREH_DNS_MAX_QNAME)%nat ->
  zereh_normalize_domain d (ZEREH_MAX_DOMAIN_LEN + 1) = dotted ls.
Proof.
  intros Hd Hl. rewrite Nat.add_1_r, zereh_normalize_domain_spec, Hd. by apply take_ge.
Qed.

(** The hash of a text, whichever plane computes it. *)
Definition text_hash (algo : zereh_hash_algorithm) (s : bytes) : Z :=
  match algo with
  | ZEREH_HASH_FNV1A => zereh_fnv1a64_bytes s
  | ZEREH_HASH_SIPHASH => zereh_siphash24_bytes s
  end.

Lemma route_hash_text q algo :
  query_ok q -> Forall (Forall is_byte) (q_labels q) ->
  zereh_route_hash algo (meta_of q) = Ret (text_hash algo (dotted (q_labels q))).
Proof.
  intros Hok Hb. pose proof (ok_length q Hok) as Hlen.
  unfold zereh_route_hash, meta_of. cbn [qname qname_len qname_hash].
  destruct algo; [done|]. rewrite bool_decide_eq_true_2 by done.
  by apply siphash24_qname_eq, dotted_bytes.
Qed.

Lemma hash_domain_text d algo ls :
  names d ls -> (length (dotted ls) <= ZEREH_DNS_MAX_QNAME)%nat -> dotted ls <> [] ->
  zereh_hash_domain d algo = text_hash algo (dotted ls).
Proof.
  intros Hd Hl Hne. destruct algo;
    unfold zereh_hash_domain, zereh_fnv1a64_domain, zereh_siphash24_domain;
    rewrite (names_normalize d ls) by done; by rewrite (bool_decide_eq_false_2 _ Hne).
Qed.

Lemma route_hash_domain q algo d :
  query_ok q -> Forall (Forall is_byte) (q_labels q) -> names d (q_labels q) ->
  zereh_route_hash algo (meta_of q) = Ret (zereh_hash_domain d algo).
Proof.
  intros Hok Hb Hd. pose proof (dotted_nonempty _ (ok_nonempty q Hok) (ok_labels q Hok)) as Hne.
  rewrite route_hash_text by done. by rewrite (hash_domain_text d algo (q_labels q)) by apply Hok || done.
Qed.

(** ** [zereh_mix64] loses nothing *)

Lemma mix64_word x : word 64 x -> word 64 (zereh_mix64 x).
Proof. intros Hx. unfold zereh_mix64. auto 10 with words. Qed.

Lemma xorshift33_inv x :
  word 64 x -> Z.lxor (Z.lxor x (Z.shiftr x 33)) (Z.shiftr (Z.lxor x (Z.shiftr x 33)) 33) = x.
Proof.
  intros Hx. rewrite Z.shiftr_lxor, Z.shiftr_shiftr by lia.
  rewrite Z.lxor_assoc, <- (Z.lxor_assoc (Z.shiftr x 33)), Z.lxor_nilpotent, Z.lxor_0_l.
  replace (Z.shiftr x (33 + 33)) with 0; [apply Z.lxor_0_r|].
  unfold word in Hx. rewrite Z.shiftr_div_pow2 by lia. symmetry. apply Z.div_small. lia.
Qed.

Lemma xorshift33_inj x y :
  word 64 x -> word 64 y ->
  Z.lxor x (Z.shiftr x 33) = Z.lxor y (Z.shiftr y 33) -> x = y.
Proof.
  intros Hx Hy H. by rewrite <- (xorshift33_inv x Hx), <- (xorshift33_inv y Hy), H.
Qed.

Lemma mix64_inj x y : word 64 x -> word 64 y -> zereh_mix64 x = zereh_mix64 y -> x = y.
Proof.
  intros Hx Hy H. unfold zereh_mix64 in H.
  apply xorshift33_inj in H; auto with words.
  apply (u64_mul_unit_inj _ 11291846944257947611) in H; [|by vm_compute|auto with words..].
  apply xorshift33_inj in H; auto with words.
  apply (u64_mul_unit_inj _ 5725274745694666757) in H; [|by vm_compute|auto with words..].
  by apply xorshift33_inj in H.
Qed.

(** ** Properties *)

(** C9: for a well-formed query, the hash the data plane computes
    from the parsed name is the hash the control plane computes from any
    spelling of that domain (any case, with or without the final dot), for both
    hash algorithms.  The SipHash read from the 256-byte buffer with bounded
    loops is the reference SipHash-2-4 of the control plane. *)
Theorem planes_agree_on_hash (q : dns_query) (algo : zereh_hash_algorithm) (d : bytes) :
  query_ok q -> Forall (Forall is_byte) (q_labels q) -> names d (q_labels q) ->
  zereh_route_hash algo (meta_of q) = Ret (zereh_hash_domain d algo).
Proof. apply route_hash_domain. Qed.

Lemma planes_agree_on_hash_witness :
  zereh_route_hash ZEREH_HASH_SIPHASH (meta_of sample_query) =
    Ret (zereh_hash_domain (str "T.EXAMPLE.com.") ZEREH_HASH_SIPHASH).
Proof.
  apply (planes_agree_on_hash sample_query ZEREH_HASH_SIPHASH (str "T.EXAMPLE.com.")).
  - exact sample_query_ok.
  - by_compute.
  - vm_compute. reflexivity.
Defined.

(** The bounded-loop SipHash of the data plane, which reads a
    fixed 256-byte buffer, returns the control plane's SipHash-2-4 of the name
    for every name of up to 255 bytes, without reading outside the buffer. *)
Theorem siphash24_qname_is_reference (s : bytes) :
  (length s <= ZEREH_DNS_MAX_QNAME)%nat -> Forall is_byte s ->
  zereh_siphash24_qname (pad_qname s) (Z.of_nat (length s)) = Ret (zereh_siphash24_bytes s).
Proof. apply siphash24_qname_eq. Qed.

(** The finaliser of the proof-of-work and Bloom filters is
    an injection of the 64-bit values into themselves: no two inputs are
    merged. *)
Theorem mix64_injective (x y : Z) :
  word 64 x -> word 64 y ->
  word 64 (zereh_mix64 x) /\ (zereh_mix64 x = zereh_mix64 y -> x = y).
Proof. intros Hx Hy. split; [by apply mix64_word|by apply mix64_inj]. Qed.

