(* ===== verification/BpfMaps.v ===== *)
(** * The BPF maps between the two planes

    The kernel's maps are not part of the repository.  What the sources use of
    them is the interface [BpfMap]; what they rely on is the documented
    behaviour of the map types, stated as laws ([BpfArrayLaws] for the ARRAY
    types, [LpmTrieLaws] for the LPM trie, [ProgArrayLaws] for the program array,
    which has an interface of its own).  The data plane and the loader are
    written and verified against these classes; [farray], [lpm_list] and
    [prog_table] are instances of them, which show that the laws can be met. *)
From S2P Require Import Prelude.
#[local] Open Scope Z_scope.

(** ** The interface *)

(** [bpf_map_lookup_elem] returns a pointer to the value ([None] is NULL);
    [bpf_map_store m k v] is the map after [v] is written through that
    pointer; [bpf_map_update_elem] is the loader's call with [BPF_ANY] ([None]
    is a non-zero return). *)
Class BpfMap (M K V : Type) : Type := {
  bpf_map_lookup_elem : M -> K -> option V;
  bpf_map_store : M -> K -> V -> M;
  bpf_map_update_elem : M -> K -> V -> option M
}.

(** Array maps: every index below [max_entries] has a value, no other has. *)
Class BpfArrayLaws (M V : Type) `{BpfMap M Z V} (max_entries : Z) : Prop := {
  array_lookup_in m k : 0 <= k < max_entries -> is_Some (bpf_map_lookup_elem m k);
  array_lookup_out m k : ~ (0 <= k < max_entries) -> bpf_map_lookup_elem m k = None;
  array_store_eq m k v : 0 <= k < max_entries ->
    bpf_map_lookup_elem (bpf_map_store m k v) k = Some v;
  array_store_ne m k k' v : k <> k' ->
    bpf_map_lookup_elem (bpf_map_store m k v) k' = bpf_map_lookup_elem m k';
  array_update m k v m' : bpf_map_update_elem m k v = Some m' ->
    forall k', bpf_map_lookup_elem m' k' =
      if decide (k' = k) then Some v else bpf_map_lookup_elem m k'
}.

(** ** Longest-prefix-match tries over IPv4 addresses *)

Record lpm_v4_key : Type := LpmV4Key { prefixlen : Z; addr : Z }.

#[global] Instance lpm_v4_key_eq_dec : EqDecision lpm_v4_key.
Proof. solve_decision. Defined.

(** The address as a number, most significant byte first: [addr] holds the
    four bytes of the address in memory order. *)
Definition ntohl (v : Z) : Z :=
  (v mod 256) * 2 ^ 24 + (v / 2 ^ 8 mod 256) * 2 ^ 16 + (v / 2 ^ 16 mod 256) * 2 ^ 8
  + v / 2 ^ 24 mod 256.

(** [k] is a prefix of the address [a]. *)
Definition covers (k : lpm_v4_key) (a : Z) : Prop :=
  ntohl (addr k) / 2 ^ (32 - prefixlen k) = ntohl a / 2 ^ (32 - prefixlen k).

#[global] Instance covers_dec k a : Decision (covers k a).
Proof. unfold covers. apply _. Defined.

(** A full-length lookup finds a value exactly when some key of the trie is a
    prefix of the address. *)
Class LpmTrieLaws (M V : Type) `{BpfMap M lpm_v4_key V} : Prop :=
  lpm_update m k v m' : bpf_map_update_elem m k v = Some m' ->
    forall a, is_Some (bpf_map_lookup_elem m' (LpmV4Key 32 a)) <->
      covers k a \/ is_Some (bpf_map_lookup_elem m (LpmV4Key 32 a)).

(** ** Program arrays *)

(** [prog_array_update_elem m k fd] is the loader's update of a slot with the
    descriptor of a program ([None] is a non-zero return);
    [prog_array_program m k] is the program that a tail call with index [k] jumps
    to ([None]: the slot is empty, and the call falls through). *)
Class BpfProgArray (M P : Type) : Type := {
  prog_array_update_elem : M -> Z -> Z -> option M;
  prog_array_program : M -> Z -> option P
}.

(** An update is only made for an index of the array and a descriptor that refers
    to a program ([fd_program]), and puts that program in the slot.  Nothing is
    said of the slots before: they start empty. *)
Class ProgArrayLaws (M P : Type) `{BpfProgArray M P} (fd_program : Z -> option P) (max_entries : Z) : Prop :=
  prog_array_update m k fd m' : prog_array_update_elem m k fd = Some m' ->
    0 <= k < max_entries /\
    exists p, fd_program fd = Some p /\
      forall k', prog_array_program m' k' = if decide (k' = k) then Some p else prog_array_program m k'.

(** ** Instances *)

(** An array of [max] values. *)
Definition farray (max : Z) (V : Type) : Type := Z -> V.

#[global] Instance farray_map max V : BpfMap (farray max V) Z V := {|
  bpf_map_lookup_elem m k := if (0 <=? k) && (k <? max) then Some (m k) else None;
  bpf_map_store m k v := fun i => if i =? k then v else m i;
  bpf_map_update_elem m k v :=
    if (0 <=? k) && (k <? max) then Some (fun i => if i =? k then v else m i) else None
|}.

#[global] Instance farray_laws max V : BpfArrayLaws (farray max V) V max.
Proof.
  constructor; simpl.
  - intros m k Hk. replace (_ && _) with true by lia. eauto.
  - intros m k Hk. destruct_if; [lia|done].
  - intros m k v Hk. replace (_ && _) with true by lia. by rewrite Z.eqb_refl.
  - intros m k k' v Hne. by replace (k' =? k) with false by lia.
  - intros m k v m' Hu k'. destruct ((0 <=? k) && (k <? max)) eqn:Heqb; [|done]. injection Hu as <-.
    case_decide as Hk; [subst k'; by rewrite Heqb, Z.eqb_refl|].
    by replace (k' =? k) with false by lia.
Qed.

(** The entries of a trie; a lookup takes the longest key that covers the
    address. *)
Definition lpm_list (V : Type) : Type := list (lpm_v4_key * V).

Definition lpm_longer {V} (best : option (lpm_v4_key * V)) (e : lpm_v4_key * V) :
    option (lpm_v4_key * V) :=
  match best with
  | Some b => if prefixlen b.1 <? prefixlen e.1 then Some e else Some b
  | None => Some e
  end.

Definition lpm_find {V} (m : lpm_list V) (a : Z) : option (lpm_v4_key * V) :=
  fold_left (fun best e => if decide (covers e.1 a) then lpm_longer best e else best) m None.

#[global] Instance lpm_list_map V : BpfMap (lpm_list V) lpm_v4_key V := {|
  bpf_map_lookup_elem m k := snd <$> lpm_find m (addr k);
  bpf_map_store m k v := (k, v) :: m;
  bpf_map_update_elem m k v :=
    if (0 <=? prefixlen k) && (prefixlen k <=? 32) then Some ((k, v) :: m) else None
|}.

Lemma lpm_longer_some {V} best (e : lpm_v4_key * V) : is_Some (lpm_longer best e).
Proof. unfold lpm_longer. repeat case_match; eauto. Qed.

Lemma lpm_find_from {V} (m : lpm_list V) a best :
  is_Some (fold_left (fun best e => if decide (covers e.1 a) then lpm_longer best e else best)
             m best) <->
  is_Some best \/ Exists (fun e => covers e.1 a) m.
Proof.
  revert best. induction m as [|e m IH]; intros best; simpl.
  - rewrite Exists_nil. tauto.
  - rewrite IH, Exists_cons. case_decide; [|tauto].
    pose proof (lpm_longer_some best e). tauto.
Qed.

#[global] Instance lpm_list_laws V : LpmTrieLaws (lpm_list V) V.
Proof.
  intros m k v m' Hu a. simpl in *. destruct_if; [|done]. injection Hu as <-.
  rewrite !fmap_is_Some. unfold lpm_find. rewrite !lpm_find_from, Exists_cons. simpl. tauto.
Qed.

(** A table of programs that refuses descriptors of anything else. *)
Definition prog_table {P : Type} (fd_program : Z -> option P) (max : Z) : Type := Z -> option P.

#[global] Instance prog_table_array {P} (fd_program : Z -> option P) max :
    BpfProgArray (prog_table fd_program max) P := {|
  prog_array_update_elem m k fd :=
    if (0 <=? k) && (k <? max)
    then match fd_program fd with
         | Some p => Some (fun i => if i =? k then Some p else m i)
         | None => None
         end
    else None;
  prog_array_program m k := m k
|}.

#[global] Instance prog_table_laws {P} (fd_program : Z -> option P) max :
  ProgArrayLaws (prog_table fd_program max) P fd_program max.
Proof.
  intros m k fd m' Hu. simpl in Hu. destruct ((0 <=? k) && (k <? max)) eqn:Hk; [|done].
  destruct (fd_program fd) as [p|]; [|done]. injection Hu as <-. split; [lia|]. exists p. split; [done|].
  intros k'. simpl. case_decide as E; [by rewrite E, Z.eqb_refl|]. by replace (k' =? k) with false by lia.
Qed.
