(* ===== verification/XdpFilters.v ===== *)
(** * xdp/xdp_template.c: the filters of the data plane

    The checks the generated program applies to a parsed query, with the state
    they keep in BPF maps.  [bpf_ktime_get_ns] is an oracle [ktime]: the value
    of its n-th call; the state counts the calls. *)
From S2P Require Import Prelude CLib Hash DnsParser XdpHash BpfMaps.
#[local] Open Scope Z_scope.

Definition ZEREH_RRTYPE_A : Z := 0x1.
Definition ZEREH_RRTYPE_AAAA : Z := 0x2.
Definition ZEREH_RRTYPE_TXT : Z := 0x4.
Definition ZEREH_RRTYPE_ANY : Z := 0x8.

Definition ZEREH_BLOOM_WORDS : Z := 1024.
Definition ZEREH_BLOOM_BITS : Z := ZEREH_BLOOM_WORDS * 64.
Definition ZEREH_MAX_HASH_FUNCTIONS : nat := 8.

Definition XDP_DROP : Z := 1.
Definition XDP_PASS : Z := 2.

Record rate_state : Type := RateState { window_sec : Z; count : Z }.

(** ** Checksums *)

Definition zereh_csum_replace_u16 (check oldv newv : Z) : Z :=
  let csum := Z.land (Z.lnot (u16 check)) 0xffff in
  let csum := u32 (csum + Z.land (Z.lnot (u16 oldv)) 0xffff) in
  let csum := u32 (csum + u16 newv) in
  let csum := u32 (Z.land csum 0xffff + Z.shiftr csum 16) in
  let csum := u32 (Z.land csum 0xffff + Z.shiftr csum 16) in
  u16 (Z.lnot csum).

Definition zereh_csum_replace_u32 (check oldv newv : Z) : Z :=
  let check := zereh_csum_replace_u16 check (u16 (Z.shiftr oldv 16)) (u16 (Z.shiftr newv 16)) in
  zereh_csum_replace_u16 check (Z.land oldv 0xffff) (Z.land newv 0xffff).

(** ** Stateless checks *)

Definition zereh_type_allowed (qtype mask : Z) : bool :=
  if (qtype =? 1) && negb (Z.land mask ZEREH_RRTYPE_A =? 0) then true
  else if (qtype =? 28) && negb (Z.land mask ZEREH_RRTYPE_AAAA =? 0) then true
  else if (qtype =? 16) && negb (Z.land mask ZEREH_RRTYPE_TXT =? 0) then true
  else if (qtype =? 255) && negb (Z.land mask ZEREH_RRTYPE_ANY =? 0) then true
  else false.

(** The comparison loop of both matchers; [n] counts the iterations left
    before 128, [start] is 0 for a prefix. *)
Fixpoint match_loop (n : nat) (i : Z) (qname : bytes) (start : Z) (pat : bytes) (pat_len : Z) :
    res bool :=
  match n with
  | O => Ret false
  | S n' =>
      if pat_len <=? i then Ret true
      else
        c ← rd qname (Z.to_nat (start + i));
        p ← rd pat (Z.to_nat i);
        if negb (c =? p) then Ret false else match_loop n' (i + 1) qname start pat pat_len
  end.

Definition zereh_match_prefix (qname : bytes) (qname_len : Z) (prefix : bytes) (prefix_len : Z) :
    res bool :=
  if prefix_len =? 0 then Ret true
  else if qname_len <? prefix_len then Ret false
  else match_loop 128 0 qname 0 prefix prefix_len.

Definition zereh_match_suffix (qname : bytes) (qname_len : Z) (suffix : bytes) (suffix_len : Z) :
    res bool :=
  if suffix_len =? 0 then Ret true
  else if qname_len <? suffix_len then Ret false
  else match_loop 128 0 qname (u16 (qname_len - suffix_len)) suffix suffix_len.

(** ** Proof of work *)

(** [__builtin_clzll] of a non-zero 64-bit value. *)
Definition clz64 (x : Z) : Z := 63 - Z.log2 x.

Definition zereh_pow_bucket_ok (qname_hash dns_id difficulty bucket : Z) : bool :=
  let mixed := Z.lxor (Z.lxor qname_hash (u64 (dns_id * 0x9e3779b97f4a7c15)))
                      (u64 (bucket * 0x517cc1b727220a95)) in
  let mixed := zereh_mix64 mixed in
  let leading := if mixed =? 0 then 64 else u8 (clz64 mixed) in
  difficulty <=? leading.

(** The parameters of [zereh_apply_app_filters], in its order. *)
Record app_filters : Type := AppFilters {
  prefix : bytes;             (* the literal, without its NUL *)
  prefix_len : Z;
  suffix : bytes;
  suffix_len : Z;
  min_labels : Z;
  max_labels : Z;
  qname_min_len : Z;
  qname_max_len : Z;
  route_id : Z;
  rrtype_mask : Z;
  pow_difficulty : Z;
  pow_time_window : Z;
  bloom_required : Z;
  bloom_size : Z;
  bloom_hash_functions : Z;
  bloom_time_window : Z;
  rate_limit_qps : Z
}.

Section filters.
Context {BL PB RS : Type}.
Context `{!BpfMap BL lpm_v4_key Z, !BpfMap PB Z Z, !BpfMap RS Z rate_state}.

(** The maps of the program on one CPU, and the calls of the clock so far. *)
Record dp_state : Type := DpState {
  ip_blacklist : BL;
  pow_bloom : PB;
  route_rate_state : RS;
  clock_calls : nat
}.

Context (ktime : nat -> Z).

(** [bpf_ktime_get_ns() / 1000000000ULL] *)
Definition now_sec (st : dp_state) : Z * dp_state :=
  (ktime (clock_calls st) / 1000000000,
   DpState (ip_blacklist st) (pow_bloom st) (route_rate_state st) (S (clock_calls st))).

Definition zereh_pow_allow (st : dp_state) (qname_hash dns_id difficulty time_window : Z) :
    bool * dp_state :=
  if difficulty =? 0 then (true, st)
  else if time_window =? 0 then (zereh_pow_bucket_ok qname_hash dns_id difficulty 0, st)
  else
    let '(now, st) := now_sec st in
    let bucket := now / time_window in
    if zereh_pow_bucket_ok qname_hash dns_id difficulty bucket then (true, st)
    else if (0 <? bucket) && zereh_pow_bucket_ok qname_hash dns_id difficulty (bucket - 1)
    then (true, st)
    else (false, st).

(** ** Bloom filter *)

Definition zereh_bloom_test_bit (pb : PB) (bit bloom_bits : Z) : bool :=
  let idx := Z.shiftr bit 6 in
  let off := Z.land bit 63 in
  if (bloom_bits =? 0) || (ZEREH_BLOOM_BITS <? bloom_bits) || (bloom_bits <=? bit) then false
  else if ZEREH_BLOOM_WORDS <=? idx then false
  else
    match bpf_map_lookup_elem pb idx with
    | None => false
    | Some word => negb (Z.land (Z.shiftr word off) 1 =? 0)
    end.

(** [mixed % bloom_bits], undefined when [bloom_bits] is 0. *)
Definition bloom_bit (qname_hash k bloom_bits bucket : Z) : res Z :=
  if bloom_bits =? 0 then Fault
  else
    let mixed := zereh_mix64 (Z.lxor (Z.lxor qname_hash (u64 ((k + 1) * 0x9e3779b97f4a7c15)))
                                     (u64 (bucket * 0x517cc1b727220a95))) in
    Ret (u32 (mixed mod bloom_bits)).

(** The loop over the hash functions; [n] counts the iterations left. *)
Fixpoint bloom_loop (n : nat) (k : Z) (pb : PB)
    (qname_hash bloom_bits hash_functions bucket : Z) : res bool :=
  match n with
  | O => Ret true
  | S n' =>
      if hash_functions <=? k then Ret true
      else
        bit ← bloom_bit qname_hash k bloom_bits bucket;
        if negb (zereh_bloom_test_bit pb bit bloom_bits) then Ret false
        else bloom_loop n' (k + 1) pb qname_hash bloom_bits hash_functions bucket
  end.

Definition zereh_bloom_bucket_match (pb : PB)
    (qname_hash bloom_bits hash_functions bucket : Z) : res bool :=
  bloom_loop ZEREH_MAX_HASH_FUNCTIONS 0 pb qname_hash bloom_bits hash_functions bucket.

Definition zereh_bloom_allow (st : dp_state)
    (qname_hash bloom_bits hash_functions time_window : Z) : res (bool * dp_state) :=
  if (hash_functions =? 0) || (bloom_bits <? 64) || (ZEREH_BLOOM_BITS <? bloom_bits)
  then Ret (false, st)
  else if time_window =? 0 then
    ok ← zereh_bloom_bucket_match (pow_bloom st) qname_hash bloom_bits hash_functions 0;
    Ret (ok, st)
  else
    let '(now, st) := now_sec st in
    let bucket := now / time_window in
    ok ← zereh_bloom_bucket_match (pow_bloom st) qname_hash bloom_bits hash_functions bucket;
    if (ok : bool) then Ret (true, st)
    else if 0 <? bucket then
      ok ← zereh_bloom_bucket_match (pow_bloom st) qname_hash bloom_bits hash_functions
             (bucket - 1);
      Ret (ok, st)
    else Ret (false, st).

(** ** Rate limit *)

(** [entries] is the template's [ZEREH_RATE_STATE_ENTRIES]. *)
Definition zereh_rate_limit_allow (entries : Z) (st : dp_state) (route_id qps : Z) :
    bool * dp_state :=
  if qps =? 0 then (true, st)
  else if entries <=? route_id then (false, st)
  else
    match bpf_map_lookup_elem (route_rate_state st) route_id with
    | None => (false, st)
    | Some state =>
        let '(now, st) := now_sec st in
        let set s := DpState (ip_blacklist st) (pow_bloom st)
                       (bpf_map_store (route_rate_state st) route_id s) (clock_calls st) in
        if negb (window_sec state =? now) then (true, set (RateState now 1))
        else if qps <=? count state then (false, st)
        else (true, set (RateState (window_sec state) (u32 (count state + 1))))
    end.

(** ** All filters of a route *)

Definition zereh_apply_app_filters (entries : Z) (st : dp_state) (qmeta : dns_query_meta)
    (route_hash : Z) (f : app_filters) : res (bool * dp_state) :=
  if (label_depth qmeta <? min_labels f) || (max_labels f <? label_depth qmeta)
  then Ret (false, st)
  else if (qname_len qmeta <? qname_min_len f) || (qname_max_len f <? qname_len qmeta)
  then Ret (false, st)
  else if negb (zereh_type_allowed (qtype qmeta) (rrtype_mask f)) then Ret (false, st)
  else
    ok ← zereh_match_prefix (qname qmeta) (qname_len qmeta) (prefix f ++ [0]) (prefix_len f);
    if negb ok then Ret (false, st)
    else
      ok ← zereh_match_suffix (qname qmeta) (qname_len qmeta) (suffix f ++ [0]) (suffix_len f);
      if negb ok then Ret (false, st)
      else
        let '(ok, st) := zereh_rate_limit_allow entries st (route_id f) (rate_limit_qps f) in
        if negb ok then Ret (false, st)
        else
          let '(ok, st) := zereh_pow_allow st route_hash (dns_id qmeta) (pow_difficulty f)
                             (pow_time_window f) in
          if negb ok then Ret (false, st)
          else if negb (bloom_required f =? 0) then
            '(ok, st) ← zereh_bloom_allow st route_hash (bloom_size f)
                          (bloom_hash_functions f) (bloom_time_window f);
            if negb ok then Ret (false, st) else Ret (true, st)
          else Ret (true, st).
End filters.
Arguments dp_state BL PB RS : clear implicits.

(** ** Checksums: one's-complement arithmetic *)

Lemma lnot16 x : word 16 x -> Z.land (Z.lnot x) 0xffff = 65535 - x.
Proof.
  unfold word. intros Hx.
  change (Z.land (Z.lnot x) 0xffff) with (Z.land (Z.lnot x) (Z.ones 16)).
  rewrite Z.land_ones by lia. unfold Z.lnot.
  symmetry. apply (Z.mod_unique _ _ (-1)); lia.
Qed.

(** One folding step: the carries come back in at the bottom. *)
Lemma csum_fold c :
  0 <= c < 2 ^ 32 -> u32 (Z.land c 0xffff + Z.shiftr c 16) = c mod 65536 + c / 65536.
Proof.
  intros Hc. change 0xffff with (Z.ones 16). rewrite Z.land_ones, Z.shiftr_div_pow2 by lia.
  change (2 ^ 16) with 65536. apply u32_id. unfold word. Z.to_euclidean_division_equations. lia.
Qed.

(** The value of an updated checksum, without the bit operations. *)
Lemma csum_replace_u16_eq c o n :
  word 16 c -> word 16 o -> word 16 n ->
  let s := (65535 - c) + (65535 - o) + n in
  let s := s mod 65536 + s / 65536 in
  zereh_csum_replace_u16 c o n = 65535 - (s mod 65536 + s / 65536).
Proof.
  intros Hc Ho Hn s1 s2. unfold zereh_csum_replace_u16. rewrite !(u16_id c), !(u16_id o),
    !(u16_id n), !lnot16 by done. unfold word in *.
  rewrite (u32_id (65535 - c + (65535 - o))) by (unfold word; lia).
  rewrite (u32_id (_ + n)) by (unfold word; lia). fold s1.
  rewrite (csum_fold s1) by (subst s1; lia). fold s2.
  assert (0 <= s2 < 2 ^ 17) by (subst s2 s1; Z.to_euclidean_division_equations; lia).
  rewrite (csum_fold s2) by lia. unfold u16, Z.lnot. symmetry. apply (Z.mod_unique _ _ (-1)).
  - subst s2 s1. Z.to_euclidean_division_equations. lia.
  - lia.
Qed.

Lemma csum_replace_u16_sum c o n :
  word 16 c -> word 16 o -> word 16 n ->
  word 16 (zereh_csum_replace_u16 c o n) /\
  (zereh_csum_replace_u16 c o n + n) mod 65535 = (c + o) mod 65535.
Proof.
  intros Hc Ho Hn. rewrite csum_replace_u16_eq by done. cbv zeta.
  set (s1 := (65535 - c) + (65535 - o) + n).
  set (s2 := s1 mod 65536 + s1 / 65536). set (s3 := s2 mod 65536 + s2 / 65536).
  pose proof (Z.div_mod s1 65536 ltac:(lia)) as E1. pose proof (Z.div_mod s2 65536 ltac:(lia)) as E2.
  unfold word in *. split.
  - subst s3 s2 s1. Z.to_euclidean_division_equations. lia.
  - replace (65535 - s3 + n) with (c + o + (s1 / 65536 + s2 / 65536 - 1) * 65535)
      by (subst s3 s2 s1; lia).
    apply Z.mod_add. lia.
Qed.

(** ** Query types *)

Lemma type_allowed_spec t m :
  zereh_type_allowed t m = true <->
    (t = 1 /\ Z.testbit m 0 = true) \/ (t = 28 /\ Z.testbit m 1 = true) \/
    (t = 16 /\ Z.testbit m 2 = true) \/ (t = 255 /\ Z.testbit m 3 = true).
Proof.
  unfold zereh_type_allowed, ZEREH_RRTYPE_A, ZEREH_RRTYPE_AAAA, ZEREH_RRTYPE_TXT,
    ZEREH_RRTYPE_ANY.
  change 1 with (2 ^ 0) at 2. change 2 with (2 ^ 1) at 2. change 4 with (2 ^ 2).
  change 8 with (2 ^ 3). rewrite !land_pow2_eqb, !negb_involutive by lia.
  repeat destruct_if; lia.
Qed.

(** ** Prefix and suffix matching *)

(** The loop compares the rest [r] of the pattern; it gives up (with [false])
    when the pattern has not ended after its iterations. *)
Lemma match_loop_spec r n i q start pat :
  at_off pat (Z.to_nat i) r -> 0 <= i -> 0 <= start ->
  (Z.to_nat (start + i) + length r <= length q)%nat ->
  exists b, match_loop n i q start pat (i + Z.of_nat (length r)) = Ret b /\
    (b = true <-> (length r < n)%nat /\ at_off q (Z.to_nat (start + i)) r).
Proof.
  revert i r. induction n as [|n IH]; intros i r Hat Hi Hs Hlen; cbn [match_loop].
  { exists false. split; [done|]. split; [done|lia]. }
  destruct r as [|c r]; cbn [length] in *.
  { replace (_ <=? _) with true by lia. exists true.
    split; [done|]. split; [|done]. split; [lia|apply at_off_nil]. }
  replace (_ <=? _) with false by lia. apply at_off_cons in Hat as [Hc Hat].
  destruct (lookup_lt_is_Some_2 q (Z.to_nat (start + i))) as [x Hx]; [lia|].
  unfold rd. rewrite Hx. cbn [mbind res_bind]. rewrite Hc. cbn [mbind res_bind].
  destruct (Z.eqb_spec x c) as [->|Hne]; cbn [negb].
  - destruct (IH (i + 1) r) as (b & Hb & Hiff); [|lia|lia|lia|].
    { by replace (Z.to_nat (i + 1)) with (Z.to_nat i + 1)%nat by lia. }
    exists b. replace (i + 1 + Z.of_nat (length r)) with (i + Z.of_nat (S (length r))) in Hb by lia.
    split; [done|]. rewrite Hiff, at_off_cons.
    replace (Z.to_nat (start + (i + 1))) with (Z.to_nat (start + i) + 1)%nat by lia.
    split; intros [??]; destruct_and?; split; (done || lia).
  - exists false. split; [done|]. split; [done|]. intros [_ Hat'].
    apply at_off_cons in Hat' as [? _]. congruence.
Qed.

Lemma at_off_pad s p :
  (length p <= length s)%nat -> at_off (pad_qname s) 0 p <-> p `prefix_of` s.
Proof.
  intros Hl. unfold pad_qname. split.
  - intros Hat. exists (drop (length p) s). rewrite <- (take_drop (length p) s) at 1. f_equal.
    apply list_eq_same_length with (length p); [done|rewrite length_take; lia|].
    intros i x y Hi Hx Hy. apply Hat in Hy. simpl in Hy.
    apply lookup_take_Some in Hx as [Hx _]. rewrite lookup_app_l in Hy by lia. congruence.
  - intros [k ->] i x Hi. simpl. rewrite !lookup_app_l; [done| |];
      apply lookup_lt_Some in Hi; rewrite ?length_app; lia.
Qed.

Lemma at_off_pad_suffix s p :
  (length p <= length s)%nat ->
  at_off (pad_qname s) (length s - length p) p <-> p `suffix_of` s.
Proof.
  intros Hl. unfold pad_qname. split.
  - intros Hat. exists (take (length s - length p) s).
    rewrite <- (take_drop (length s - length p) s) at 1. f_equal.
    apply list_eq_same_length with (length p); [done|rewrite length_drop; lia|].
    intros i x y Hi Hx Hy. apply Hat in Hy. rewrite lookup_drop in Hx.
    rewrite lookup_app_l in Hy by lia. congruence.
  - intros [k ->] i x Hi. apply lookup_lt_Some in Hi as Hi'. rewrite length_app.
    replace (length k + length p - length p)%nat with (length k) by lia.
    rewrite <- app_assoc, lookup_app_r by lia. rewrite lookup_app_l by lia.
    by replace (length k + i - length k)%nat with i by lia.
Qed.

Section matching.
Context (s p : bytes) (Hs : (length s <= ZEREH_DNS_MAX_QNAME)%nat).

Lemma match_prefix_spec :
  exists b, zereh_match_prefix (pad_qname s) (Z.of_nat (length s)) (p ++ [0])
              (Z.of_nat (length p)) = Ret b /\
    (b = true <-> (length p < 128)%nat /\ p `prefix_of` s).
Proof.
  unfold zereh_match_prefix. destruct (Z.eqb_spec (Z.of_nat (length p)) 0) as [H0|H0].
  { destruct p; [|simpl in H0; lia]. exists true. split; [done|]. split; [|done].
    split; [simpl; lia|apply prefix_nil]. }
  destruct (Z.ltb_spec (Z.of_nat (length s)) (Z.of_nat (length p))) as [Hlt|Hge].
  { exists false. split; [done|]. split; [done|]. intros [_ H%prefix_length]. lia. }
  destruct (match_loop_spec p 128 0 (pad_qname s) 0 (p ++ [0])) as (b & Hb & Hiff).
  - intros i x Hi. rewrite lookup_app_l; [done|]. by apply lookup_lt_Some in Hi.
  - lia.
  - lia.
  - rewrite length_pad_qname by lia. unfold ZEREH_DNS_MAX_QNAME in *. lia.
  - exists b. split; [done|]. rewrite Hiff, at_off_pad by lia. done.
Qed.

Lemma match_suffix_spec :
  exists b, zereh_match_suffix (pad_qname s) (Z.of_nat (length s)) (p ++ [0])
              (Z.of_nat (length p)) = Ret b /\
    (b = true <-> (length p < 128)%nat /\ p `suffix_of` s).
Proof.
  unfold ZEREH_DNS_MAX_QNAME in Hs.
  unfold zereh_match_suffix. destruct (Z.eqb_spec (Z.of_nat (length p)) 0) as [H0|H0].
  { destruct p; [|simpl in H0; lia]. exists true. split; [done|]. split; [|done].
    split; [simpl; lia|apply suffix_nil]. }
  destruct (Z.ltb_spec (Z.of_nat (length s)) (Z.of_nat (length p))) as [Hlt|Hge].
  { exists false. split; [done|]. split; [done|]. intros [_ H%suffix_length]. lia. }
  rewrite u16_id by (unfold word; lia).
  destruct (match_loop_spec p 128 0 (pad_qname s) (Z.of_nat (length s) - Z.of_nat (length p))
    (p ++ [0])) as (b & Hb & Hiff).
  - intros i x Hi. rewrite lookup_app_l; [done|]. by apply lookup_lt_Some in Hi.
  - lia.
  - lia.
  - rewrite length_pad_qname by (unfold ZEREH_DNS_MAX_QNAME; lia).
    unfold ZEREH_DNS_MAX_QNAME. lia.
  - exists b. split; [done|]. rewrite Hiff, <- at_off_pad_suffix by lia.
    by replace (Z.to_nat (Z.of_nat (length s) - Z.of_nat (length p) + 0))
      with (length s - length p)%nat by lia.
Qed.
End matching.

(** ** Proof of work *)

(** What a client must find: a mixed value with [difficulty] leading zeros. *)
Definition pow_solution (h id difficulty bucket : Z) : Prop :=
  zereh_mix64 (Z.lxor (Z.lxor h (u64 (id * 0x9e3779b97f4a7c15)))
                      (u64 (bucket * 0x517cc1b727220a95))) < 2 ^ (64 - difficulty).

Lemma pow_bucket_ok_spec h id d b :
  word 64 h -> 0 <= d <= 64 ->
  zereh_pow_bucket_ok h id d b = true <-> pow_solution h id d b.
Proof.
  intros Hh Hd. unfold zereh_pow_bucket_ok, pow_solution. cbv zeta.
  set (x := Z.lxor _ _). assert (word 64 (zereh_mix64 x)) as [H0 H1]
    by (apply mix64_word; subst x; auto with words).
  generalize dependent (zereh_mix64 x). intros m H0 H1.
  destruct (Z.eqb_spec m 0) as [->|Hm].
  - pose proof (Z.pow_pos_nonneg 2 (64 - d)). lia.
  - assert (Z.log2 m < 64) by (apply Z.log2_lt_pow2; lia).
    pose proof (Z.log2_nonneg m).
    unfold clz64. rewrite u8_id by (unfold word; lia).
    rewrite Z.leb_le, (Z.log2_lt_pow2 m (64 - d)) by lia. lia.
Qed.

(** ** Rate limit *)

(** The abstract limiter: a counter for the current second. *)
Definition rate_step (qps : Z) (s : rate_state) (now : Z) : bool * rate_state :=
  if negb (window_sec s =? now) then (true, RateState now 1)
  else if qps <=? count s then (false, s)
  else (true, RateState (window_sec s) (count s + 1)).

(** What is left of the budget of second [t]. *)
Definition budget (qps : Z) (s : rate_state) (t : Z) : Z :=
  if window_sec s =? t then Z.max 0 (qps - count s) else qps.

Lemma rate_step_budget qps s now t :
  1 <= qps -> window_sec s <= now -> 0 <= count s ->
  let '(ok, s') := rate_step qps s now in
  window_sec s' = now /\ 0 <= count s' /\
  (now = t -> ok = (0 <? budget qps s t) /\ budget qps s' t = Z.max 0 (budget qps s t - 1)) /\
  (now < t -> budget qps s' t = budget qps s t).
Proof.
  intros Hq Hw Hc. unfold rate_step, budget. destruct s as [w c]. simpl in *.
  destruct (Z.eqb_spec w now) as [->|Hne]; simpl; [destruct (Z.leb_spec qps c)|]; simpl;
    split_and!; try lia; intros; bool_lia.
Qed.

Section rate.
Context {BL PB RS : Type}.
Context `{!BpfMap RS Z rate_state}.
Context (ktime : nat -> Z) (entries : Z) `{!BpfArrayLaws RS rate_state entries}.
Context (route_id qps : Z) (Hid : 0 <= route_id < entries) (Hqps : 1 <= qps < 2 ^ 32).
Local Abbreviation state := (dp_state BL PB RS).

Lemma rate_limit_allow_step (st : state) s :
  bpf_map_lookup_elem (route_rate_state st) route_id = Some s -> 0 <= count s ->
  let now := ktime (clock_calls st) / 1000000000 in
  let '(ok, st') := zereh_rate_limit_allow ktime entries st route_id qps in
  ok = (rate_step qps s now).1 /\ clock_calls st' = S (clock_calls st) /\
  bpf_map_lookup_elem (route_rate_state st') route_id = Some (rate_step qps s now).2.
Proof.
  intros Hs Hc now. unfold zereh_rate_limit_allow, now_sec, rate_step.
  replace (qps =? 0) with false by lia. replace (entries <=? route_id) with false by lia.
  rewrite Hs. cbv zeta. fold now. destruct (Z.eqb_spec (window_sec s) now) as [Hw|Hw]; simpl.
  - destruct (Z.leb_spec qps (count s)); simpl; split_and!; try done.
    rewrite array_store_eq by done. rewrite u32_id by (unfold word; lia). done.
  - split_and!; try done. by rewrite array_store_eq.
Qed.

(** [n] calls in a row, with the second and the answer of each. *)
Fixpoint rate_run (n : nat) (st : state) : list (Z * bool) :=
  match n with
  | O => []
  | S n' =>
      let '(ok, st') := zereh_rate_limit_allow ktime entries st route_id qps in
      (ktime (clock_calls st) / 1000000000, ok) :: rate_run n' st'
  end.

Definition asked_at (t : Z) (log : list (Z * bool)) : Z :=
  Z.of_nat (length (filter (fun e => e.1 = t) log)).
Definition allowed_at (t : Z) (log : list (Z * bool)) : Z :=
  Z.of_nat (length (filter (fun e => e = (t, true)) log)).

Lemma asked_at_cons t e log :
  asked_at t (e :: log) = (if decide (e.1 = t) then 1 else 0) + asked_at t log.
Proof. unfold asked_at. rewrite filter_cons. case_decide; simpl; lia. Qed.

Lemma allowed_at_cons t e log :
  allowed_at t (e :: log) = (if decide (e = (t, true)) then 1 else 0) + allowed_at t log.
Proof. unfold allowed_at. rewrite filter_cons. case_decide; simpl; lia. Qed.

Lemma asked_at_nonneg t log : 0 <= asked_at t log.
Proof. unfold asked_at. lia. Qed.

Context (Hmono : forall i j, (i <= j)%nat -> ktime i <= ktime j).

Lemma now_sec_mono i : ktime i / 1000000000 <= ktime (S i) / 1000000000.
Proof. apply Z.div_le_mono; [lia|]. apply Hmono. lia. Qed.

(** No call asks for a second before the clock's. *)
Lemma asked_at_past n (st : state) s t :
  bpf_map_lookup_elem (route_rate_state st) route_id = Some s -> 0 <= count s ->
  window_sec s <= ktime (clock_calls st) / 1000000000 ->
  t < ktime (clock_calls st) / 1000000000 -> asked_at t (rate_run n st) = 0.
Proof.
  revert st s. induction n as [|n IH]; intros st s Hs Hc Hw Ht; simpl; [done|].
  pose proof (rate_limit_allow_step st s Hs Hc) as Hstep.
  destruct (zereh_rate_limit_allow ktime entries st route_id qps) as [ok st'].
  destruct Hstep as (_ & Hcalls & Hs').
  pose proof (rate_step_budget qps s _ t ltac:(lia) Hw Hc) as Hb.
  destruct (rate_step qps s _) as [ok' s']. destruct Hb as (Hw' & Hc' & _).
  pose proof (now_sec_mono (clock_calls st)). rewrite <- Hcalls in *.
  rewrite asked_at_cons, (IH st' s'); simpl; try done; try lia.
  rewrite decide_False by (simpl; lia). done.
Qed.

(** Exactly the budget of each second is granted. *)
Lemma rate_run_exact n (st : state) s t :
  bpf_map_lookup_elem (route_rate_state st) route_id = Some s -> 0 <= count s ->
  window_sec s <= ktime (clock_calls st) / 1000000000 ->
  allowed_at t (rate_run n st) = Z.min (asked_at t (rate_run n st)) (budget qps s t).
Proof.
  revert st s. induction n as [|n IH]; intros st s Hs Hc Hw; simpl.
  { unfold allowed_at, asked_at, budget. simpl. bool_lia. }
  pose proof (rate_limit_allow_step st s Hs Hc) as Hstep.
  destruct (zereh_rate_limit_allow ktime entries st route_id qps) as [ok st'].
  destruct Hstep as (-> & Hcalls & Hs').
  pose proof (rate_step_budget qps s _ t ltac:(lia) Hw Hc) as Hb.
  destruct (rate_step qps s _) as [ok' s']. destruct Hb as (Hw' & Hc' & Hnow & Hlater).
  pose proof (now_sec_mono (clock_calls st)) as Hle. rewrite <- Hcalls in Hle.
  rewrite asked_at_cons, allowed_at_cons. simpl fst.
  simpl in Hs'. rewrite (IH st' s') by (done || lia).
  pose proof (asked_at_nonneg t (rate_run n st')).
  destruct (Z.lt_trichotomy (ktime (clock_calls st) / 1000000000) t) as [Hlt|[Heq|Hgt]].
  - rewrite !decide_False by (simpl; (lia || (intros [= ? ?]; lia))). rewrite Hlater by done. lia.
  - destruct (Hnow Heq) as [-> ->].
    assert (0 <= budget qps s t) by (unfold budget; bool_lia).
    destruct (Z.ltb_spec 0 (budget qps s t)); repeat case_decide; (lia || congruence).
  - rewrite !decide_False by (simpl; (lia || (intros [= ? ?]; lia))).
    rewrite (asked_at_past n st' s' t) by (done || lia).
    unfold budget. bool_lia.
Qed.
End rate.

(** ** Bloom filter *)

(** The position of a hash in a filter of [bits] bits. *)
Definition bloom_pos (h k bits bucket : Z) : Z :=
  zereh_mix64 (Z.lxor (Z.lxor h (u64 ((k + 1) * 0x9e3779b97f4a7c15)))
                      (u64 (bucket * 0x517cc1b727220a95))) mod bits.

Lemma bloom_pos_range h k bits bucket : 0 < bits -> 0 <= bloom_pos h k bits bucket < bits.
Proof. intros. unfold bloom_pos. by apply Z.mod_pos_bound. Qed.

Lemma bloom_bit_eq h k bits bucket :
  0 < bits <= ZEREH_BLOOM_BITS -> bloom_bit h k bits bucket = Ret (bloom_pos h k bits bucket).
Proof.
  intros Hb. unfold bloom_bit. replace (bits =? 0) with false by lia. f_equal.
  pose proof (bloom_pos_range h k bits bucket ltac:(lia)) as Hr. unfold bloom_pos in *.
  apply u32_id. unfold word, ZEREH_BLOOM_BITS, ZEREH_BLOOM_WORDS in *. lia.
Qed.

Lemma word_index bit : 0 <= bit -> Z.shiftr bit 6 = bit / 64 /\ Z.land bit 63 = bit mod 64.
Proof.
  intros Hb. rewrite Z.shiftr_div_pow2 by lia. change 63 with (Z.ones 6).
  by rewrite Z.land_ones by lia.
Qed.

Section bloom.
Context {PB : Type} `{!BpfMap PB Z Z}.

(** Bit [bit] of the filter is set. *)
Definition bit_set (pb : PB) (bit : Z) : Prop :=
  exists w, bpf_map_lookup_elem pb (bit / 64) = Some w /\ Z.testbit w (bit mod 64) = true.

Lemma bloom_test_bit_spec pb bit bits :
  0 <= bit < bits -> bits <= ZEREH_BLOOM_BITS ->
  zereh_bloom_test_bit pb bit bits = true <-> bit_set pb bit.
Proof.
  intros Hbit Hbits. unfold zereh_bloom_test_bit, bit_set, ZEREH_BLOOM_BITS, ZEREH_BLOOM_WORDS in *.
  destruct (word_index bit) as [-> ->]; [lia|]. cbv zeta.
  replace (_ || _ || _) with false by lia.
  replace (1024 <=? bit / 64) with false by (symmetry; apply Z.leb_gt, Z.div_lt_upper_bound; lia).
  pose proof (Z.mod_pos_bound bit 64 ltac:(lia)).
  destruct (bpf_map_lookup_elem pb (bit / 64)) as [w|].
  - change 1 with (2 ^ 0). rewrite land_pow2_eqb, negb_involutive, Z.shiftr_spec by lia.
    rewrite Z.add_0_l. split; [eauto|]. by intros (w' & [= ->] & ?).
  - split; [done|]. by intros (w' & ? & ?).
Qed.

Lemma bloom_loop_spec n k pb h bits hf bucket :
  0 < bits <= ZEREH_BLOOM_BITS -> 0 <= k ->
  exists b, bloom_loop n k pb h bits hf bucket = Ret b /\
    (b = true <-> forall i, k <= i < Z.min hf (k + Z.of_nat n) ->
       bit_set pb (bloom_pos h i bits bucket)).
Proof.
  intros Hb. revert k. induction n as [|n IH]; intros k Hk; cbn [bloom_loop].
  { exists true. split; [done|]. split; [lia|done]. }
  destruct (Z.leb_spec hf k) as [Hle|Hlt].
  { exists true. split; [done|]. split; [lia|done]. }
  rewrite bloom_bit_eq by done. cbn [mbind res_bind].
  pose proof (bloom_pos_range h k bits bucket ltac:(lia)).
  pose proof (bloom_test_bit_spec pb (bloom_pos h k bits bucket) bits ltac:(lia) ltac:(lia)) as Ht.
  destruct (zereh_bloom_test_bit _ _ _); cbn [negb].
  - destruct (IH (k + 1)) as (b & -> & Hiff); [lia|]. exists b. split; [done|]. rewrite Hiff.
    split; intros Hall i Hi.
    + destruct (Z.eq_dec i k) as [->|]; [by apply Ht|]. apply Hall. lia.
    + apply Hall. lia.
  - exists false. split; [done|]. split; [done|]. intros Hall.
    apply Ht, Hall. lia.
Qed.

(** All the positions of [h] in the window [bucket] are set. *)
Definition bloom_member (pb : PB) (h bits hf bucket : Z) : Prop :=
  forall i, 0 <= i < Z.min hf 8 -> bit_set pb (bloom_pos h i bits bucket).

Lemma bloom_bucket_match_spec pb h bits hf bucket :
  0 < bits <= ZEREH_BLOOM_BITS ->
  exists b, zereh_bloom_bucket_match pb h bits hf bucket = Ret b /\
    (b = true <-> bloom_member pb h bits hf bucket).
Proof.
  intros Hb. destruct (bloom_loop_spec ZEREH_MAX_HASH_FUNCTIONS 0 pb h bits hf bucket Hb)
    as (b & Heq & Hiff); [lia|]. exists b. split; [done|]. rewrite Hiff. done.
Qed.
End bloom.

(** ** All filters of a route *)

(** The lengths the code generator emits are those of the literals. *)
Record filters_wf (f : app_filters) : Prop := {
  wf_prefix : prefix_len f = Z.of_nat (length (prefix f));
  wf_suffix : suffix_len f = Z.of_nat (length (suffix f))
}.

(** The conditions on the query alone. *)
Definition shape_ok (f : app_filters) (q : dns_query) : Prop :=
  min_labels f <= Z.of_nat (length (q_labels q)) <= max_labels f /\
  qname_min_len f <= Z.of_nat (length (dotted (q_labels q))) <= qname_max_len f /\
  zereh_type_allowed (q_type q) (rrtype_mask f) = true /\
  ((length (prefix f) < 128)%nat /\ prefix f `prefix_of` dotted (q_labels q)) /\
  ((length (suffix f) < 128)%nat /\ suffix f `suffix_of` dotted (q_labels q)).

Section apply.
Context {BL PB RS : Type}.
Context `{!BpfMap BL lpm_v4_key Z, !BpfMap PB Z Z, !BpfMap RS Z rate_state}.
Context (ktime : nat -> Z) (entries : Z).
Local Abbreviation state := (dp_state BL PB RS).

Lemma bloom_allow_ret (st : state) h bits hf tw :
  exists b st', zereh_bloom_allow ktime st h bits hf tw = Ret (b, st').
Proof.
  unfold zereh_bloom_allow. destruct_if; [eauto|].
  assert (0 < bits <= ZEREH_BLOOM_BITS) as Hb by lia. destruct_if.
  - destruct (bloom_bucket_match_spec (pow_bloom st) h bits hf 0 Hb) as (b & -> & _). simpl. eauto.
  - unfold now_sec. cbv zeta beta iota. cbn [pow_bloom]. set (bk := _ / tw).
    destruct (bloom_bucket_match_spec (pow_bloom st) h bits hf bk Hb) as (b & -> & _).
    cbn [mbind res_bind]. destruct b; [eauto|]. destruct_if; [|eauto].
    destruct (bloom_bucket_match_spec (pow_bloom st) h bits hf (bk - 1) Hb) as (b & -> & _).
    simpl. eauto.
Qed.

(** The stateful part: rate limit, proof of work, Bloom filter. *)
Definition stateful_filters (st : state) (id route_hash : Z) (f : app_filters) :
    res (bool * state) :=
  let '(ok, st) := zereh_rate_limit_allow ktime entries st (route_id f) (rate_limit_qps f) in
  if negb ok then Ret (false, st)
  else
    let '(ok, st) := zereh_pow_allow ktime st route_hash id (pow_difficulty f)
                       (pow_time_window f) in
    if negb ok then Ret (false, st)
    else if negb (bloom_required f =? 0) then
      '(ok, st) ← zereh_bloom_allow ktime st route_hash (bloom_size f)
                    (bloom_hash_functions f) (bloom_time_window f);
      if negb ok then Ret (false, st) else Ret (true, st)
    else Ret (true, st).

Lemma stateful_filters_ret (st : state) id h f :
  exists b st', stateful_filters st id h f = Ret (b, st').
Proof.
  unfold stateful_filters. destruct (zereh_rate_limit_allow _ _ _ _ _) as [b st1].
  destruct b; simpl; [|eauto]. destruct (zereh_pow_allow _ _ _ _ _ _) as [b st2].
  destruct b; simpl; [|eauto]. destruct_if; [|eauto].
  destruct (bloom_allow_ret st2 h (bloom_size f) (bloom_hash_functions f) (bloom_time_window f))
    as (b & st3 & ->). simpl. destruct b; simpl; eauto.
Qed.

(** A query of the wrong shape is rejected before any state changes; the
    rest is up to the stateful filters. *)
Lemma apply_app_filters_spec (st : state) q h f :
  query_ok q -> filters_wf f ->
  (shape_ok f q ->
     zereh_apply_app_filters ktime entries st (meta_of q) h f =
       stateful_filters st (q_id q) h f) /\
  (~ shape_ok f q ->
     zereh_apply_app_filters ktime entries st (meta_of q) h f = Ret (false, st)).
Proof.
  intros Hq [Hp Hs]. pose proof (ok_length q Hq) as Hlen.
  unfold zereh_apply_app_filters, shape_ok, meta_of, stateful_filters.
  cbn [label_depth qname_len qname qtype dns_id]. rewrite Hp, Hs.
  destruct (match_prefix_spec (dotted (q_labels q)) (prefix f) Hlen) as (bp & -> & Hbp).
  destruct (match_suffix_spec (dotted (q_labels q)) (suffix f) Hlen) as (bs & -> & Hbs).
  cbn [mbind res_bind].
  destruct ((Z.of_nat (length (q_labels q)) <? min_labels f) || _) eqn:Hl; [split; [lia|done]|].
  destruct ((_ <? qname_min_len f) || _) eqn:Hn; [split; [lia|done]|].
  destruct (zereh_type_allowed _ _); cbn [negb]; [|split; [by intros (_&_&?&_)|done]].
  destruct bp; cbn [negb]; [|split; [by intros (_&_&_&?%Hbp&_)|done]].
  destruct bs; cbn [negb]; [|split; [by intros (_&_&_&_&?%Hbs)|done]].
  split; [done|]. intros Hns. destruct Hns. split_and!; try lia; tauto.
Qed.
End apply.

(** ** Proof of work and Bloom filter in time *)

Lemma csum_replace_u32_sum c o n :
  word 16 c -> word 32 o -> word 32 n ->
  word 16 (zereh_csum_replace_u32 c o n) /\
  (zereh_csum_replace_u32 c o n + n / 65536 + n mod 65536) mod 65535
    = (c + o / 65536 + o mod 65536) mod 65535.
Proof.
  intros Hc Ho Hn. unfold zereh_csum_replace_u32.
  assert (forall v, Z.land v 0xffff = v mod 65536) as Hland.
  { intros v. change 0xffff with (Z.ones 16). by rewrite Z.land_ones by lia. }
  rewrite !Hland, !Z.shiftr_div_pow2 by lia. change (2 ^ 16) with 65536.
  assert (forall v, word 32 v -> word 16 (v / 65536)) as Hhi.
  { intros v Hv. unfold word in *. split; [apply Z.div_pos|apply Z.div_lt_upper_bound]; lia. }
  assert (forall v, word 16 (v mod 65536)) as Hlo by (intros v; apply Z.mod_pos_bound; lia).
  rewrite !u16_id by auto.
  destruct (csum_replace_u16_sum c (o / 65536) (n / 65536)) as [H1 E1]; auto.
  destruct (csum_replace_u16_sum (zereh_csum_replace_u16 c (o / 65536) (n / 65536)) (o mod 65536)
    (n mod 65536)) as [H2 E2]; auto. split; [done|].
  set (c1 := zereh_csum_replace_u16 c _ _) in *. set (c2 := zereh_csum_replace_u16 c1 _ _) in *.
  replace (c2 + n / 65536 + n mod 65536) with (c2 + n mod 65536 + n / 65536) by lia.
  rewrite <- Z.add_mod_idemp_l, E2, Z.add_mod_idemp_l by lia.
  replace (c1 + o mod 65536 + n / 65536) with (c1 + n / 65536 + o mod 65536) by lia.
  by rewrite <- Z.add_mod_idemp_l, E1, Z.add_mod_idemp_l by lia.
Qed.

Section in_time.
Context {BL PB RS : Type} `{!BpfMap PB Z Z}.
Context (ktime : nat -> Z).
Local Abbreviation state := (dp_state BL PB RS).

(** The second the next reading of the clock gives. *)
Definition second (st : state) : Z := ktime (clock_calls st) / 1000000000.

Lemma pow_allow_spec (st : state) h id d tw :
  word 64 h -> 0 <= d <= 64 ->
  (zereh_pow_allow ktime st h id d tw).1 = true <->
    d = 0 \/ (tw = 0 /\ pow_solution h id d 0) \/
    (tw <> 0 /\ (pow_solution h id d (second st / tw) \/
                 (0 < second st / tw /\ pow_solution h id d (second st / tw - 1)))).
Proof.
  intros Hh Hd. unfold zereh_pow_allow, now_sec. fold (second st).
  destruct (Z.eqb_spec d 0) as [->|Hd0]; [simpl; tauto|].
  destruct (Z.eqb_spec tw 0) as [->|Htw]; simpl; [rewrite pow_bucket_ok_spec by done; tauto|].
  pose proof (pow_bucket_ok_spec h id d (second st / tw) Hh Hd) as H1.
  pose proof (pow_bucket_ok_spec h id d (second st / tw - 1) Hh Hd) as H2.
  destruct (zereh_pow_bucket_ok h id d (second st / tw)); simpl; [tauto|].
  destruct (Z.ltb_spec 0 (second st / tw)); simpl; [|split; [done|intuition (done || lia)]].
  destruct (zereh_pow_bucket_ok h id d (second st / tw - 1)); simpl; intuition (done || lia).
Qed.

Lemma bloom_allow_spec (st : state) h bits hf tw :
  1 <= hf -> 64 <= bits <= ZEREH_BLOOM_BITS ->
  exists b st', zereh_bloom_allow ktime st h bits hf tw = Ret (b, st') /\
    (b = true <->
      (tw = 0 /\ bloom_member (pow_bloom st) h bits hf 0) \/
      (tw <> 0 /\ (bloom_member (pow_bloom st) h bits hf (second st / tw) \/
         (0 < second st / tw /\ bloom_member (pow_bloom st) h bits hf (second st / tw - 1))))).
Proof.
  intros Hhf Hb. assert (0 < bits <= ZEREH_BLOOM_BITS) as Hb' by lia. unfold zereh_bloom_allow.
  replace (_ || _ || _) with false by lia. destruct (Z.eqb_spec tw 0) as [->|Htw].
  { destruct (bloom_bucket_match_spec (pow_bloom st) h bits hf 0 Hb') as (b & -> & Hm).
    eexists b, st. split; [done|]. rewrite Hm. tauto. }
  unfold now_sec. fold (second st). cbv zeta beta iota. cbn [pow_bloom].
  destruct (bloom_bucket_match_spec (pow_bloom st) h bits hf (second st / tw) Hb') as (b & -> & Hm).
  cbn [mbind res_bind]. destruct b; [eexists true, _; split; [done|tauto]|].
  destruct (Z.ltb_spec 0 (second st / tw)).
  - destruct (bloom_bucket_match_spec (pow_bloom st) h bits hf (second st / tw - 1) Hb')
      as (b & -> & Hm'). eexists b, _. split; [done|]. rewrite Hm'. intuition done.
  - eexists false, _. split; [done|]. split; [done|]. intuition (done || lia).
Qed.
End in_time.

(** ** Properties *)

(** An incremental checksum update keeps the one's-complement sum: the
    new checksum with the new 16-bit (or 32-bit, as two words) value sums, modulo
    65535, to the old checksum with the old value; the result is a 16-bit
    value. *)
Theorem csum_replace_keeps_sum (c o n o2 n2 : Z) :
  word 16 c -> word 16 o -> word 16 n -> word 32 o2 -> word 32 n2 ->
  (word 16 (zereh_csum_replace_u16 c o n) /\
   (zereh_csum_replace_u16 c o n + n) mod 65535 = (c + o) mod 65535) /\
  (word 16 (zereh_csum_replace_u32 c o2 n2) /\
   (zereh_csum_replace_u32 c o2 n2 + n2 / 65536 + n2 mod 65536) mod 65535
     = (c + o2 / 65536 + o2 mod 65536) mod 65535).
Proof.
  intros Hc Ho Hn Ho2 Hn2. split; [by apply csum_replace_u16_sum|by apply csum_replace_u32_sum].
Qed.

(** A query type passes the mask exactly when it is A, AAAA, TXT or
    ANY and the bit of that type is set. *)
Theorem type_allowed_iff (qtype mask : Z) :
  zereh_type_allowed qtype mask = true <->
    (qtype = 1 /\ Z.testbit mask 0 = true) \/ (qtype = 28 /\ Z.testbit mask 1 = true) \/
    (qtype = 16 /\ Z.testbit mask 2 = true) \/ (qtype = 255 /\ Z.testbit mask 3 = true).
Proof. apply type_allowed_spec. Qed.

(** C31: on a name of at most 255 characters in the parser's buffer, the
    two matchers return without reading outside the buffers, and answer whether
    the pattern, of at most 127 characters, is a prefix (a suffix) of the name;
    a longer pattern never matches. *)
Theorem match_pattern_iff (s p : bytes) :
  (length s <= ZEREH_DNS_MAX_QNAME)%nat ->
  exists bp bs,
    zereh_match_prefix (pad_qname s) (Z.of_nat (length s)) (p ++ [0]) (Z.of_nat (length p)) = Ret bp /\
    zereh_match_suffix (pad_qname s) (Z.of_nat (length s)) (p ++ [0]) (Z.of_nat (length p)) = Ret bs /\
    (bp = true <-> (length p < 128)%nat /\ p `prefix_of` s) /\
    (bs = true <-> (length p < 128)%nat /\ p `suffix_of` s).
Proof.
  intros Hs. destruct (match_prefix_spec s p Hs) as (bp & ? & ?).
  destruct (match_suffix_spec s p Hs) as (bs & ? & ?). by exists bp, bs.
Qed.

Lemma match_pattern_iff_witness :
  exists bs, zereh_match_suffix (pad_qname (str "a.example.com")) 13 (str "example.com" ++ [0]) 11 = Ret bs /\
    (bs = true <-> (11 < 128)%nat /\ str "example.com" `suffix_of` str "a.example.com").
Proof.
  destruct (match_pattern_iff (str "a.example.com") (str "example.com")) as (bp & bs & _ & H & _ & Hi).
  - by_compute.
  - exists bs. split; [exact H|exact Hi].
Defined.

(** C32: the proof-of-work filter accepts exactly when it is switched off
    (difficulty 0), or the mixed hash of name, id and time window has the
    required number of leading zero bits for the current window or the one
    before it. *)
Theorem pow_allow_iff {BL PB RS : Type} (ktime : nat -> Z) (st : dp_state BL PB RS) (h id d tw : Z) :
  word 64 h -> 0 <= d <= 64 ->
  (zereh_pow_allow ktime st h id d tw).1 = true <->
    d = 0 \/ (tw = 0 /\ pow_solution h id d 0) \/
    (tw <> 0 /\ (pow_solution h id d (second ktime st / tw) \/
                 (0 < second ktime st / tw /\ pow_solution h id d (second ktime st / tw - 1)))).
Proof. apply pow_allow_spec. Qed.

Lemma pow_allow_iff_witness :
  (zereh_pow_allow (fun _ => 0) (DpState tt tt tt 0) 5 7 1 60).1 = true.
Proof.
  apply (pow_allow_iff (fun _ => 0) (DpState tt tt tt 0) 5 7 1 60).
  - unfold word. lia.
  - lia.
  - right. right. split; [discriminate|]. left. vm_compute. reflexivity.
Defined.

(** C33: a solution found for the window of second [t] is accepted at
    every second from [t] to [t + tw]: a client always has a full window to
    deliver it. *)
Theorem pow_solution_lifetime {BL PB RS : Type} (ktime : nat -> Z) (st : dp_state BL PB RS)
    (h id d tw t : Z) :
  word 64 h -> 0 <= d <= 64 -> 0 < tw -> 0 <= t ->
  t <= second ktime st <= t + tw -> pow_solution h id d (t / tw) ->
  (zereh_pow_allow ktime st h id d tw).1 = true.
Proof.
  intros Hh Hd Htw Ht Hnow Hs. apply pow_allow_spec; [done..|]. right. right. split; [lia|].
  set (now := second ktime st) in *.
  assert (t / tw <= now / tw) by (apply Z.div_le_mono; lia).
  assert (now / tw <= t / tw + 1).
  { replace (t / tw + 1) with ((t + 1 * tw) / tw) by (apply Z.div_add; lia).
    apply Z.div_le_mono; lia. }
  assert (0 <= t / tw) by (apply Z.div_pos; lia).
  destruct (Z.eq_dec (now / tw) (t / tw)) as [->|]; [by left|right]. split; [lia|].
  by replace (now / tw - 1) with (t / tw) by lia.
Qed.

Lemma pow_solution_lifetime_witness :
  (zereh_pow_allow (fun _ => 70 * 1000000000) (DpState tt tt tt 0) 5 7 1 60).1 = true.
Proof.
  apply (pow_solution_lifetime (fun _ => 70 * 1000000000) (DpState tt tt tt 0) 5 7 1 60 10);
    solve [vm_compute; split; discriminate | vm_compute; reflexivity | lia
          | vm_compute; split; [discriminate|reflexivity]].
Defined.

(** C17: over any number of calls with a clock that does not go back, the
    rate limiter of a route grants, in each second after its stored window,
    exactly the first [qps] of the calls made in that second. *)
Theorem rate_limit_exact {BL PB RS : Type} `{!BpfMap RS Z rate_state} (ktime : nat -> Z) (entries : Z)
    `{!BpfArrayLaws RS rate_state entries} (route_id qps : Z) (n : nat) (st : dp_state BL PB RS)
    (s : rate_state) (t : Z) :
  0 <= route_id < entries -> 1 <= qps < 2 ^ 32 ->
  (forall i j, (i <= j)%nat -> ktime i <= ktime j) ->
  bpf_map_lookup_elem (route_rate_state st) route_id = Some s -> 0 <= count s ->
  window_sec s <= ktime (clock_calls st) / 1000000000 -> window_sec s < t ->
  let log := rate_run ktime entries route_id qps n st in
  allowed_at t log = Z.min (asked_at t log) qps.
Proof.
  intros Hid Hq Hm Hs Hc Hw Ht. cbv zeta.
  rewrite (rate_run_exact ktime entries route_id qps Hid Hq Hm n st s t) by done.
  unfold budget. by replace (window_sec s =? t) with false by lia.
Qed.

Lemma rate_limit_exact_witness :
  allowed_at 5 (rate_run (RS := farray 2 rate_state) (fun _ => 5 * 1000000000) 2 1 3 10
                  (DpState tt tt (fun _ => RateState 0 0) 0)) = 3.
Proof.
  exact (rate_limit_exact (RS := farray 2 rate_state) (fun _ => 5 * 1000000000) 2 1 3 10
           (DpState tt tt (fun _ => RateState 0 0) 0) (RateState 0 0) 5
           ltac:(lia) ltac:(lia) ltac:(intros; apply Z.le_refl) eq_refl ltac:(simpl; lia)
           ltac:(vm_compute; discriminate) ltac:(simpl; lia)).
Defined.

(** C25: with parameters in range, the Bloom filter check returns, and
    accepts exactly when all positions of the hash are set for the current
    window or the one before it (for window 0 when there are no windows). *)
Theorem bloom_allow_iff {BL PB RS : Type} `{!BpfMap PB Z Z} (ktime : nat -> Z)
    (st : dp_state BL PB RS) (h bits hf tw : Z) :
  1 <= hf -> 64 <= bits <= ZEREH_BLOOM_BITS ->
  exists b st', zereh_bloom_allow ktime st h bits hf tw = Ret (b, st') /\
    (b = true <->
      (tw = 0 /\ bloom_member (pow_bloom st) h bits hf 0) \/
      (tw <> 0 /\ (bloom_member (pow_bloom st) h bits hf (second ktime st / tw) \/
         (0 < second ktime st / tw /\
          bloom_member (pow_bloom st) h bits hf (second ktime st / tw - 1))))).
Proof. apply bloom_allow_spec. Qed.

Lemma bloom_allow_iff_witness :
  exists st', zereh_bloom_allow (PB := farray 1024 Z) (fun _ => 0)
    (DpState tt (fun _ => 2 ^ 64 - 1) tt 0) 5 1024 3 0 = Ret (true, st').
Proof.
  destruct (bloom_allow_iff (PB := farray 1024 Z) (fun _ => 0) (DpState tt (fun _ => 2 ^ 64 - 1) tt 0)
    5 1024 3 0) as (b & st' & E & Hb).
  - lia.
  - unfold ZEREH_BLOOM_BITS, ZEREH_BLOOM_WORDS. lia.
  - exists st'. rewrite E. f_equal. f_equal. apply Hb. left. split; [reflexivity|]. intros i Hi.
    exists (2 ^ 64 - 1). split.
    + pose proof (bloom_pos_range 5 i 1024 0 ltac:(lia)) as Hr. simpl.
      assert (0 <= bloom_pos 5 i 1024 0 / 64 < 1024).
      { split; [apply Z.div_pos|apply Z.div_lt_upper_bound]; lia. }
      replace (_ && _) with true by lia. reflexivity.
    + change (2 ^ 64 - 1) with (Z.ones 64).
      pose proof (Z.mod_pos_bound (bloom_pos 5 i 1024 0) 64 ltac:(lia)).
      apply Z.ones_spec_low. lia.
Defined.

(** C14: the filters of a route reject a query of the wrong shape (labels,
    length, type, prefix, suffix) before any state is touched, and otherwise
    answer as the rate limit, the proof of work and the Bloom filter, in that
    order. *)
Theorem app_filters_shape_first {BL PB RS : Type} `{!BpfMap BL lpm_v4_key Z, !BpfMap PB Z Z, !BpfMap RS Z rate_state}
    (ktime : nat -> Z) (entries : Z) (st : dp_state BL PB RS) (q : dns_query) (h : Z)
    (f : app_filters) :
  query_ok q -> filters_wf f ->
  (shape_ok f q ->
     zereh_apply_app_filters ktime entries st (meta_of q) h f =
       stateful_filters ktime entries st (q_id q) h f) /\
  (~ shape_ok f q ->
     zereh_apply_app_filters ktime entries st (meta_of q) h f = Ret (false, st)).
Proof. apply apply_app_filters_spec. Qed.

Lemma app_filters_shape_first_witness :
  let f := AppFilters (str "t.") 2 (str ".com") 4 1 127 1 255 0 7 0 0 0 0 0 0 0 in
  let st := DpState ([] : lpm_list Z) (fun _ => 0 : Z) (fun _ => RateState 0 0) 0 in
  zereh_apply_app_filters (PB := farray 1024 Z) (RS := farray 1 rate_state) (fun _ => 0) 1 st
    (meta_of sample_query) 9 f =
  stateful_filters (PB := farray 1024 Z) (RS := farray 1 rate_state) (fun _ => 0) 1 st 7 9 f.
Proof.
  intros f st.
  apply (app_filters_shape_first (PB := farray 1024 Z) (RS := farray 1 rate_state) (fun _ => 0) 1 st
           sample_query 9 f).
  - exact sample_query_ok.
  - constructor; reflexivity.
  - by_compute.
Defined.
