(* ===== verification/XdpRouter.v ===== *)
(** * xdp/xdp_template.c: the router

    The whole XDP program: pre-route filters, dispatch over the generated
    blocks, the three route actions.  The blocks are what control/codegen.c
    writes into the template for each route. *)
From S2P Require Import Prelude CLib Hash DnsParser XdpHash BpfMaps XdpFilters.
#[local] Open Scope Z_scope.

(** The constants the code generator substitutes in the template. *)
Record template_params : Type := TemplateParams {
  tp_max_packet_size : Z;
  tp_allowed_opcode_mask : Z;
  tp_drop_truncated : Z;
  tp_default_action : Z;
  tp_hash_algo : zereh_hash_algorithm;
  tp_rate_state_entries : Z
}.

(** The action at the end of a generated block. *)
Inductive route_action : Type :=
| RedirectMap (queue : Z)        (* return bpf_redirect_map(&xsk_map, queue, 0) *)
| RouteKernelSpace (port : Z)    (* return zereh_route_kernel_space(iph, udp, bpf_htons(port), 0) *)
| TailCall (index : Z).          (* bpf_tail_call(ctx, &prog_array, index); return XDP_DROP *)

(** A generated block: the [case] of its hash and the fallback rule of its
    domain share the filters and the action. *)
Record route_block : Type := RouteBlock {
  rb_hash : Z;
  rb_domain : bytes;
  rb_filters : app_filters;
  rb_action : route_action
}.

(** How the program ends: with a verdict, or in another program. *)
Inductive outcome : Type :=
| Exit (verdict : Z)
| Jump (index : Z).

(** ** Rewriting a packet *)

Definition rewrite_daddr (pkt : bytes) (iph udp : nat) (new_daddr : Z) : res bytes :=
  daddr ← load32 pkt (iph + 16);
  if negb (new_daddr =? 0) && negb (daddr =? new_daddr) then
    check ← load16 pkt (iph + 10);
    pkt ← store16 pkt (iph + 10) (zereh_csum_replace_u32 check daddr new_daddr);
    ucheck ← load16 pkt (udp + 6);
    pkt ← (if negb (ucheck =? 0)
           then store16 pkt (udp + 6) (zereh_csum_replace_u32 ucheck daddr new_daddr)
           else Ret pkt);
    store32 pkt (iph + 16) new_daddr
  else Ret pkt.

Definition rewrite_dport (pkt : bytes) (udp : nat) (new_dport : Z) : res bytes :=
  dest ← load16 pkt (udp + 2);
  if negb (dest =? new_dport) then
    ucheck ← load16 pkt (udp + 6);
    pkt ← (if negb (ucheck =? 0)
           then store16 pkt (udp + 6) (zereh_csum_replace_u16 ucheck dest new_dport)
           else Ret pkt);
    store16 pkt (udp + 2) new_dport
  else Ret pkt.

(** Returns the packet; the verdict is always [XDP_PASS]. *)
Definition zereh_route_kernel_space (pkt : bytes) (iph udp : nat) (new_dport new_daddr : Z) :
    res (Z * bytes) :=
  pkt ← rewrite_daddr pkt iph udp new_daddr;
  pkt ← rewrite_dport pkt udp new_dport;
  Ret (XDP_PASS, pkt).

Section router.
Context {BL PB RS : Type}.
Context `{!BpfMap BL lpm_v4_key Z, !BpfMap PB Z Z, !BpfMap RS Z rate_state}.
Local Abbreviation state := (dp_state BL PB RS).

(** The helpers: the clock, [bpf_redirect_map(&xsk_map, queue, 0)], and
    whether [bpf_tail_call(ctx, &prog_array, index)] jumps. *)
Context (ktime : nat -> Z) (bpf_redirect_map : Z -> Z) (bpf_tail_call : Z -> bool).
Context (tp : template_params).

Definition zereh_global_pre_route (st : state) (pkt : bytes) (iph : nat)
    (qmeta : dns_query_meta) (packet_len : Z) : res unit :=
  saddr ← load32 pkt (iph + 12);
  _ ← guard_r (negb (tp_max_packet_size tp <? packet_len));
  _ ← guard_r (bool_decide (bpf_map_lookup_elem (ip_blacklist st) (LpmV4Key 32 saddr) = None));
  _ ← guard_r (negb (15 <? opcode qmeta));
  _ ← guard_r (negb (Z.land (tp_allowed_opcode_mask tp) (u32 (Z.shiftl 1 (opcode qmeta))) =? 0));
  guard_r (negb (negb (tp_drop_truncated tp =? 0) && negb (is_truncated qmeta =? 0))).

(** The body of a generated block. *)
Definition run_block (st : state) (pkt : bytes) (iph udp : nat) (qmeta : dns_query_meta)
    (route_hash : Z) (b : route_block) : res (outcome * bytes * state) :=
  '(ok, st) ← zereh_apply_app_filters ktime (tp_rate_state_entries tp) st qmeta route_hash
                (rb_filters b);
  if negb ok then Ret (Exit XDP_DROP, pkt, st)
  else
    match rb_action b with
    | RedirectMap queue => Ret (Exit (bpf_redirect_map queue), pkt, st)
    | RouteKernelSpace port =>
        '(verdict, pkt) ← zereh_route_kernel_space pkt iph udp (bpf_htons port) 0;
        Ret (Exit verdict, pkt, st)
    | TailCall index =>
        if bpf_tail_call index then Ret (Jump index, pkt, st)
        else Ret (Exit XDP_DROP, pkt, st)
    end.

(** The fallback rules, in order; a rule whose domain matches returns. *)
Fixpoint run_fallback (st : state) (pkt : bytes) (iph udp : nat) (qmeta : dns_query_meta)
    (route_hash : Z) (blocks : list route_block) : res (outcome * bytes * state) :=
  match blocks with
  | [] => Ret (Exit (tp_default_action tp), pkt, st)
  | b :: blocks' =>
      hit ← zereh_match_suffix (qname qmeta) (qname_len qmeta) (rb_domain b ++ [0])
              (Z.of_nat (length (rb_domain b)));
      if (hit : bool) then run_block st pkt iph udp qmeta route_hash b
      else run_fallback st pkt iph udp qmeta route_hash blocks'
  end.

Definition zereh_dispatch (blocks : list route_block) (st : state) (pkt : bytes)
    (iph udp : nat) (qmeta : dns_query_meta) : res (outcome * bytes * state) :=
  route_hash ← zereh_route_hash (tp_hash_algo tp) qmeta;
  match List.find (fun b => rb_hash b =? route_hash) blocks with
  | Some b => run_block st pkt iph udp qmeta route_hash b
  | None => run_fallback st pkt iph udp qmeta route_hash blocks
  end.

Definition xdp_router (blocks : list route_block) (st : state) (pkt : bytes) :
    res (outcome * bytes * state) :=
  match zereh_parse_eth_ipv4_udp pkt with
  | Fault => Fault
  | Fail => Ret (Exit XDP_PASS, pkt, st)
  | Ret (eth, iph, udp) =>
      dest ← load16 pkt (udp + 2);
      if negb (dest =? bpf_htons 53) then Ret (Exit XDP_PASS, pkt, st)
      else
        match zereh_parse_dns_query pkt udp with
        | Fault => Fault
        | Fail => Ret (Exit XDP_PASS, pkt, st)
        | Ret qmeta =>
            let packet_len := u32 (Z.of_nat (length pkt)) in
            match zereh_global_pre_route st pkt iph qmeta packet_len with
            | Fault => Fault
            | Fail => Ret (Exit XDP_DROP, pkt, st)
            | Ret _ => zereh_dispatch blocks st pkt iph udp qmeta
            end
        end
  end.

(** The default tail program of the template. *)
Definition zereh_app_default : outcome := Exit XDP_PASS.
End router.

(** ** Rewriting the port *)

(** [pkt'] is [pkt] with the UDP destination port [port]: nothing else but
    the checksum changes; an absent checksum (0) stays absent, a present one
    keeps the sum of any range of words of the datagram that holds the
    header. *)
Record port_rewritten (pkt pkt' : bytes) (udp : nat) (port : Z) : Prop := {
  pr_length : length pkt' = length pkt;
  pr_bytes : Forall is_byte pkt';
  pr_dest : at_off pkt' (udp + 2) (be16 port);
  pr_frame : forall i, (i < udp + 2 \/ udp + 4 <= i < udp + 6 \/ udp + 8 <= i)%nat ->
    pkt' !! i = pkt !! i;
  pr_absent : word_at pkt (udp + 6) = 0 -> word_at pkt' (udp + 6) = 0;
  pr_sum : forall n, (4 <= n)%nat -> word_at pkt (udp + 6) <> 0 ->
    wsum pkt' udp n mod 65535 = wsum pkt udp n mod 65535
}.

Section rewrite.
Context (pkt : bytes) (udp : nat) (port : Z).
Context (Hb : Forall is_byte pkt) (Hlen : (udp + 8 <= length pkt)%nat) (Hp : word 16 port).
Let dest := word_at pkt (udp + 2).
Let check := word_at pkt (udp + 6).

Lemma wsum_two_words pkt' n :
  (4 <= n)%nat ->
  (forall i, (i < udp + 2 \/ udp + 4 <= i < udp + 6 \/ udp + 8 <= i)%nat -> pkt' !! i = pkt !! i) ->
  wsum pkt' udp n = wsum pkt udp n - dest - check
                    + word_at pkt' (udp + 2) + word_at pkt' (udp + 6).
Proof.
  intros Hn Hf. do 4 (destruct n as [|n]; [lia|]). cbn [wsum]. subst dest check.
  replace (udp + 2 + 2)%nat with (udp + 4)%nat by lia.
  replace (udp + 4 + 2)%nat with (udp + 6)%nat by lia.
  replace (udp + 6 + 2)%nat with (udp + 8)%nat by lia.
  rewrite (wsum_ext pkt pkt' (udp + 8)) by (intros i Hi; apply Hf; lia).
  rewrite (word_at_ext pkt pkt' udp), (word_at_ext pkt pkt' (udp + 4)) by (apply Hf; lia). lia.
Qed.

Lemma rewrite_dport_spec :
  exists pkt', rewrite_dport pkt udp (bpf_htons port) = Ret pkt' /\
    port_rewritten pkt pkt' udp port.
Proof.
  assert (word 16 dest) as Hd by by apply word_at_word.
  assert (word 16 check) as Hc by by apply word_at_word.
  pose proof (bpf_htons_word port Hp) as Hq.
  unfold rewrite_dport. rewrite !load16_word_at by lia. cbn [mbind res_bind]. fold dest check.
  destruct (Z.eqb_spec dest (bpf_htons port)) as [He|Hne]; cbn [negb].
  { exists pkt. split; [done|]. constructor; try done. by apply word_at_be16; [..|lia|]. }
  set (check' := if negb (check =? 0) then zereh_csum_replace_u16 check dest (bpf_htons port)
                 else 0).
  assert (exists pkt1, (if negb (check =? 0)
      then store16 pkt (udp + 6) (zereh_csum_replace_u16 check dest (bpf_htons port))
      else Ret pkt) = Ret pkt1 /\ length pkt1 = length pkt /\ Forall is_byte pkt1 /\
      word_at pkt1 (udp + 6) = check' /\
      (forall i, i <> (udp + 6)%nat -> i <> (udp + 6 + 1)%nat -> pkt1 !! i = pkt !! i))
    as (pkt1 & -> & Hl1 & Hb1 & Hw1 & Hf1).
  { subst check'. destruct (Z.eqb_spec check 0) as [H0|H0]; cbn [negb]; [by exists pkt|].
    destruct (store16_spec pkt (udp + 6) (zereh_csum_replace_u16 check dest (bpf_htons port)))
      as (pkt1 & E1 & ?); [lia|by apply csum_replace_u16_sum|].
    exists pkt1. split; [done|]. destruct_and!. eauto using store16_bytes. }
  cbn [mbind res_bind].
  destruct (store16_spec pkt1 (udp + 2) (bpf_htons port)) as (pkt2 & E2 & Hl2 & Hw2 & Hf2);
    [lia|done|]. exists pkt2. split; [done|].
  assert (word_at pkt2 (udp + 6) = check') as Hw2'.
  { rewrite <- Hw1. apply word_at_ext; apply Hf2; lia. }
  assert (forall i, (i < udp + 2 \/ udp + 4 <= i < udp + 6 \/ udp + 8 <= i)%nat ->
    pkt2 !! i = pkt !! i) as Hf by (intros i Hi; rewrite Hf2, Hf1 by lia; done).
  assert (Forall is_byte pkt2) by eauto using store16_bytes.
  constructor; [lia|done| |done| |].
  - apply word_at_be16; [done..|lia|done].
  - intros H0. rewrite Hw2'. unfold check', check. by rewrite H0.
  - intros n Hn Hnz. rewrite (wsum_two_words pkt2) by done. rewrite Hw2, Hw2'. unfold check'.
    replace (check =? 0) with false by lia. cbn [negb].
    destruct (csum_replace_u16_sum check dest (bpf_htons port)) as [_ Hs]; [done..|].
    replace (_ - _ - _ + _ + _) with (wsum pkt udp n - (check + dest)
      + (zereh_csum_replace_u16 check dest (bpf_htons port) + bpf_htons port)) by lia.
    rewrite <- Z.add_mod_idemp_r, Hs, Z.add_mod_idemp_r by lia. f_equal. lia.
Qed.

Lemma route_kernel_space_spec iph :
  (iph + 20 <= length pkt)%nat ->
  exists pkt', zereh_route_kernel_space pkt iph udp (bpf_htons port) 0 = Ret (XDP_PASS, pkt') /\
    port_rewritten pkt pkt' udp port.
Proof.
  intros Hi. destruct rewrite_dport_spec as (pkt' & E & H). exists pkt'. split; [|done].
  unfold zereh_route_kernel_space, rewrite_daddr, load32. rewrite !load16_word_at by lia.
  cbn [mbind res_bind Z.eqb negb andb]. by rewrite E.
Qed.
End rewrite.

(** ** The whole program *)

(** What the router acts on: an IPv4 UDP datagram to port 53 with a query. *)
Definition dns_request (pkt : bytes) (udp : nat) (q : dns_query) : Prop :=
  udp_at pkt udp /\ at_off pkt (udp + 2) (be16 53) /\ query_ok q /\ query_at pkt udp q.

(** The source address, as the program loads it. *)
Definition saddr_of (pkt : bytes) : Z := word_at pkt 26 + 65536 * word_at pkt 28.

(** A domain that the fallback rule of a block matches. *)
Definition fallback_hit (q : dns_query) (b : route_block) : Prop :=
  (length (rb_domain b) < 128)%nat /\ rb_domain b `suffix_of` dotted (q_labels q).

#[global] Instance fallback_hit_dec q b : Decision (fallback_hit q b).
Proof. unfold fallback_hit. apply _. Defined.

(** The block a query is handed to. *)
Definition selected (blocks : list route_block) (h : Z) (q : dns_query) : option route_block :=
  match List.find (fun b => rb_hash b =? h) blocks with
  | Some b => Some b
  | None => List.find (fun b => bool_decide (fallback_hit q b)) blocks
  end.

Lemma dns_request_iph pkt udp q : dns_request pkt udp q -> (34 <= length pkt /\ udp + 8 <= length pkt)%nat.
Proof.
  intros ((v & _ & _ & _ & Hv & -> & Hl) & _). unfold UDP_LEN in *. split; [|done]. lia.
Qed.

Lemma query_labels_bytes pkt udp q :
  Forall is_byte pkt -> query_ok q -> query_at pkt udp q -> Forall (Forall is_byte) (q_labels q).
Proof.
  intros Hb Hok (ul & _ & _ & _ & Hat & _). destruct Hok.
  apply at_off_enc_query in Hat; [|done]. destruct Hat as (_ & _ & _ & _ & Hn & _).
  assert (Forall is_byte (enc_name (q_labels q))) as Hbn.
  { apply Forall_lookup. intros i x Hi. apply Hn in Hi. by eapply Forall_lookup_1. }
  unfold enc_name in Hbn. apply Forall_app in Hbn as [Hbn _].
  rewrite Forall_concat, Forall_map in Hbn.
  eapply Forall_impl; [exact Hbn|].
  intros l Hl. unfold enc_label in Hl. by apply Forall_cons in Hl as [_ ?].
Qed.

Lemma port_53 pkt udp :
  Forall is_byte pkt -> (udp + 8 <= length pkt)%nat ->
  word_at pkt (udp + 2) = bpf_htons 53 <-> at_off pkt (udp + 2) (be16 53).
Proof. intros. apply word_at_be16; [done|unfold word; lia|lia]. Qed.

Section router_lemmas.
Context {BL PB RS : Type}.
Context `{!BpfMap BL lpm_v4_key Z, !BpfMap PB Z Z, !BpfMap RS Z rate_state}.
Context (ktime : nat -> Z) (bpf_redirect_map : Z -> Z) (bpf_tail_call : Z -> bool).
Context (tp : template_params) (blocks : list route_block).
Local Abbreviation state := (dp_state BL PB RS).
Local Abbreviation dispatch := (zereh_dispatch ktime bpf_redirect_map bpf_tail_call tp blocks).
Local Abbreviation router := (xdp_router ktime bpf_redirect_map bpf_tail_call tp blocks).
Local Abbreviation block := (run_block ktime bpf_redirect_map bpf_tail_call tp).
Local Abbreviation fallback := (run_fallback ktime bpf_redirect_map bpf_tail_call tp).

(** The conditions of the pre-route filter. *)
Record admitted (st : state) (pkt : bytes) (q : dns_query) : Prop := {
  ad_size : Z.of_nat (length pkt) <= tp_max_packet_size tp;
  ad_source : bpf_map_lookup_elem (ip_blacklist st) (LpmV4Key 32 (saddr_of pkt)) = None;
  ad_opcode : Z.testbit (tp_allowed_opcode_mask tp) (q_flags q / 2 ^ 11 mod 16) = true;
  ad_truncated : tp_drop_truncated tp = 0 \/ Z.testbit (q_flags q) 9 = false
}.

Lemma global_pre_route_spec (st : state) pkt q :
  (34 <= length pkt)%nat -> Z.of_nat (length pkt) < 2 ^ 32 ->
  let r := zereh_global_pre_route tp st pkt 14 (meta_of q) (u32 (Z.of_nat (length pkt))) in
  (r = Ret tt /\ admitted st pkt q) \/ (r = Fail /\ ~ admitted st pkt q).
Proof.
  intros Hl Hl32. unfold zereh_global_pre_route, load32.
  rewrite (u32_id (Z.of_nat _)) by (unfold word; lia). cbv zeta.
  rewrite !load16_word_at by lia. cbn [mbind res_bind Nat.add]. fold (saddr_of pkt).
  unfold meta_of. cbn [opcode is_truncated].
  pose proof (Z.mod_pos_bound (q_flags q / 2 ^ 11) 16 ltac:(lia)) as Hop.
  set (op := _ mod 16) in *. rewrite Z.shiftl_mul_pow2, Z.mul_1_l by lia.
  rewrite u32_id by (split; [apply Z.pow_nonneg|apply Z.pow_lt_mono_r]; lia).
  rewrite land_pow2_eqb, negb_involutive by lia.
  destruct (Z.ltb_spec (tp_max_packet_size tp) (Z.of_nat (length pkt))); cbn [negb guard_r mbind res_bind].
  { right. split; [done|]. intros []. lia. }
  case_bool_decide; cbn [negb guard_r mbind res_bind]; [|right; split; [done|by intros []]].
  replace (15 <? op) with false by lia. cbn [negb guard_r mbind res_bind].
  destruct (Z.testbit (tp_allowed_opcode_mask tp) op) eqn:Hbit; cbn [negb guard_r mbind res_bind];
    [|right; split; [done|intros []; subst op; congruence]].
  destruct (Z.eqb_spec (tp_drop_truncated tp) 0); cbn [negb andb];
    [left; split; [done|constructor; auto]|].
  destruct (Z.testbit (q_flags q) 9) eqn:Htc; cbn [negb guard_r Z.eqb].
  - right. split; [done|]. intros [? ? ? [?|?]]; congruence.
  - left. split; [done|constructor; auto].
Qed.

Lemma admitted_dec (st : state) pkt q :
  (34 <= length pkt)%nat -> Z.of_nat (length pkt) < 2 ^ 32 ->
  admitted st pkt q \/ ~ admitted st pkt q.
Proof. intros H1 H2. destruct (global_pre_route_spec st pkt q H1 H2) as [[??]|[??]]; auto. Qed.

Lemma run_fallback_spec (st : state) pkt iph udp q h bs :
  query_ok q ->
  fallback st pkt iph udp (meta_of q) h bs =
    match List.find (fun b => bool_decide (fallback_hit q b)) bs with
    | Some b => block st pkt iph udp (meta_of q) h b
    | None => Ret (Exit (tp_default_action tp), pkt, st)
    end.
Proof.
  intros Hq. induction bs as [|b bs IH]; simpl; [done|]. unfold meta_of at 1 2. cbn [qname qname_len].
  destruct (match_suffix_spec (dotted (q_labels q)) (rb_domain b) (ok_length q Hq))
    as (hit & -> & Hhit). cbn [mbind res_bind]. fold (fallback_hit q b) in Hhit.
  destruct hit; [rewrite bool_decide_true by tauto; done|].
  by rewrite bool_decide_false by (intros ?%Hhit; done).
Qed.

Lemma dispatch_spec (st : state) pkt iph udp q h :
  query_ok q -> zereh_route_hash (tp_hash_algo tp) (meta_of q) = Ret h ->
  dispatch st pkt iph udp (meta_of q) =
    match selected blocks h q with
    | Some b => block st pkt iph udp (meta_of q) h b
    | None => Ret (Exit (tp_default_action tp), pkt, st)
    end.
Proof.
  intros Hq Hh. unfold zereh_dispatch, selected. rewrite Hh. cbn [mbind res_bind].
  destruct (List.find _ blocks); [done|]. by apply run_fallback_spec.
Qed.

Lemma request_hash pkt udp q :
  Forall is_byte pkt -> dns_request pkt udp q ->
  zereh_route_hash (tp_hash_algo tp) (meta_of q)
    = Ret (text_hash (tp_hash_algo tp) (dotted (q_labels q))).
Proof.
  intros Hb (_ & _ & Hok & Hat). apply route_hash_text; [done|by eapply query_labels_bytes].
Qed.

(** The outcome of a block on a request. *)
Record block_wf (b : route_block) : Prop := {
  bw_filters : filters_wf (rb_filters b);
  bw_port : match rb_action b with RouteKernelSpace port => word 16 port | _ => True end
}.

Definition block_outcome (pkt : bytes) (udp : nat) (b : route_block) (ok : bool)
    (out : outcome) (pkt' : bytes) : Prop :=
  if ok then
    match rb_action b with
    | RedirectMap queue => out = Exit (bpf_redirect_map queue) /\ pkt' = pkt
    | RouteKernelSpace port => out = Exit XDP_PASS /\ port_rewritten pkt pkt' udp port
    | TailCall index =>
        out = (if bpf_tail_call index then Jump index else Exit XDP_DROP) /\ pkt' = pkt
    end
  else out = Exit XDP_DROP /\ pkt' = pkt.

Lemma run_block_spec (st : state) pkt udp q h b :
  Forall is_byte pkt -> dns_request pkt udp q -> block_wf b ->
  exists ok out pkt' st',
    zereh_apply_app_filters ktime (tp_rate_state_entries tp) st (meta_of q) h (rb_filters b)
      = Ret (ok, st') /\
    block st pkt 14 udp (meta_of q) h b = Ret (out, pkt', st') /\
    block_outcome pkt udp b ok out pkt'.
Proof.
  intros Hb Hreq [Hwf Hport]. apply dns_request_iph in Hreq as Hl. destruct Hl as [Hl34 Hl8].
  destruct Hreq as (_ & _ & Hok & _).
  assert (exists ok st', zereh_apply_app_filters ktime (tp_rate_state_entries tp) st (meta_of q) h
            (rb_filters b) = Ret (ok, st')) as (ok & st' & E).
  { destruct (apply_app_filters_spec ktime (tp_rate_state_entries tp) st q h (rb_filters b) Hok Hwf)
      as [Hin Hout].
    destruct (decide (shape_ok (rb_filters b) q)); [rewrite Hin by done|rewrite Hout by done; eauto].
    apply stateful_filters_ret. }
  unfold run_block, block_outcome. rewrite E. cbn [mbind res_bind].
  destruct ok; cbn [negb]; [|by exists false, (Exit XDP_DROP), pkt, st'].
  destruct (rb_action b) as [queue|port|index].
  - by eexists true, _, pkt, st'.
  - destruct (route_kernel_space_spec pkt udp port Hb Hl8 Hport 14) as (pkt' & -> & Hpr); [lia|].
    by eexists true, _, pkt', st'.
  - exists true, (if bpf_tail_call index then Jump index else Exit XDP_DROP), pkt, st'.
    by destruct (bpf_tail_call index).
Qed.

Lemma xdp_router_request (st : state) pkt udp q :
  Forall is_byte pkt -> Z.of_nat (length pkt) < 2 ^ 32 -> dns_request pkt udp q ->
  (admitted st pkt q -> router st pkt = dispatch st pkt 14 udp (meta_of q)) /\
  (~ admitted st pkt q -> router st pkt = Ret (Exit XDP_DROP, pkt, st)).
Proof.
  intros Hb Hl Hreq. apply dns_request_iph in Hreq as Hlen. destruct Hlen as [Hl34 Hl8].
  destruct Hreq as (Hudp & Hport & Hok & Hat). unfold xdp_router.
  rewrite (proj2 (parse_eth_ipv4_udp_spec pkt 0 14 udp Hb)) by done.
  rewrite load16_word_at by lia. cbn [mbind res_bind].
  rewrite (proj2 (port_53 pkt udp Hb Hl8)), Z.eqb_refl by done. cbn [negb].
  rewrite (parse_dns_query_complete pkt udp q) by done. cbv zeta.
  destruct (global_pre_route_spec st pkt q Hl34 Hl) as [[-> ?]|[-> ?]]; tauto.
Qed.

Lemma xdp_router_other (st : state) pkt :
  Forall is_byte pkt -> (forall udp q, ~ dns_request pkt udp q) ->
  router st pkt = Ret (Exit XDP_PASS, pkt, st).
Proof.
  intros Hb Hno. unfold xdp_router. pose proof (safe_parse_eth_ipv4_udp pkt) as Hsafe.
  destruct (zereh_parse_eth_ipv4_udp pkt) as [[[e i] u]| |] eqn:E; [|done..].
  apply parse_eth_ipv4_udp_spec in E as (-> & -> & Hudp); [|done].
  assert (u + 8 <= length pkt)%nat as Hl8 by (destruct Hudp as (?&_&_&_&_&_&?); done).
  rewrite load16_word_at by lia. cbn [mbind res_bind].
  destruct (Z.eqb_spec (word_at pkt (u + 2)) (bpf_htons 53)) as [Hp|]; [cbn [negb]|done].
  pose proof (safe_parse_dns_query pkt u Hl8) as Hsafe'.
  destruct (zereh_parse_dns_query pkt u) as [m| |] eqn:E; [|done..].
  apply parse_dns_query_sound in E as (q & Hok & Hat & ->); [|done].
  destruct (Hno u q). unfold dns_request. by rewrite <- port_53.
Qed.

(** A request that passes the pre-route filter, on the block selected. *)
Lemma xdp_router_selected (st : state) pkt udp q :
  Forall is_byte pkt -> Z.of_nat (length pkt) < 2 ^ 32 -> dns_request pkt udp q ->
  admitted st pkt q ->
  let h := text_hash (tp_hash_algo tp) (dotted (q_labels q)) in
  router st pkt =
    match selected blocks h q with
    | Some b => block st pkt 14 udp (meta_of q) h b
    | None => Ret (Exit (tp_default_action tp), pkt, st)
    end.
Proof.
  intros Hb Hl Hreq Had h. destruct (xdp_router_request st pkt udp q Hb Hl Hreq) as [-> _]; [|done].
  apply dispatch_spec; [apply Hreq|]. by eapply request_hash.
Qed.

Lemma selected_in h q b : selected blocks h q = Some b -> b ∈ blocks.
Proof.
  unfold selected. destruct (List.find _ blocks) eqn:E; [intros [= ->]|clear E; intros E];
    apply List.find_some in E as [E _]; by apply list_elem_of_In.
Qed.

(** A frame is left alone with a verdict, or runs the block selected for its
    query. *)
Lemma xdp_router_cases (st : state) pkt :
  Forall is_byte pkt -> Z.of_nat (length pkt) < 2 ^ 32 ->
  (exists v, router st pkt = Ret (Exit v, pkt, st)) \/
  exists udp q b, dns_request pkt udp q /\ admitted st pkt q /\
    let h := text_hash (tp_hash_algo tp) (dotted (q_labels q)) in
    selected blocks h q = Some b /\ router st pkt = block st pkt 14 udp (meta_of q) h b.
Proof.
  intros Hb Hl. destruct (zereh_parse_eth_ipv4_udp pkt) as [[[e i] u]| |] eqn:E1.
  2: { left. exists XDP_PASS. unfold xdp_router. by rewrite E1. }
  2: { by destruct (safe_parse_eth_ipv4_udp pkt). }
  apply parse_eth_ipv4_udp_spec in E1 as Hu; [|done]. destruct Hu as (-> & -> & Hu).
  assert (u + 8 <= length pkt)%nat as Hl8 by (destruct Hu as (?&_&_&_&_&_&?); done).
  destruct (decide (word_at pkt (u + 2) = bpf_htons 53)) as [Hp|Hp].
  2: { left. exists XDP_PASS. unfold xdp_router. rewrite E1, load16_word_at by lia.
       cbn [mbind res_bind]. by replace (_ =? _) with false by lia. }
  destruct (zereh_parse_dns_query pkt u) as [m| |] eqn:E2.
  2: { left. exists XDP_PASS. unfold xdp_router. rewrite E1, load16_word_at by lia.
       cbn [mbind res_bind]. by rewrite Hp, Z.eqb_refl, E2. }
  2: { by destruct (safe_parse_dns_query pkt u Hl8). }
  apply parse_dns_query_sound in E2 as (q & Hok & Hat & ->); [|done].
  assert (dns_request pkt u q) as Hreq by (unfold dns_request; by rewrite <- port_53).
  apply dns_request_iph in Hreq as H34. destruct H34 as [H34 _].
  destruct (xdp_router_request st pkt u q Hb Hl Hreq) as [_ Hdrop].
  destruct (admitted_dec st pkt q H34 Hl) as [Had|Hnad]; [|left; rewrite Hdrop by done; by eexists].
  rewrite (xdp_router_selected st pkt u q) by done.
  destruct (selected _ _ q) as [b|] eqn:Hsel; [right; by exists u, q, b|left; by eexists].
Qed.
End router_lemmas.

(** ** What the program leaves alone *)

Section frame.
Context {BL PB RS : Type}.
Context `{!BpfMap BL lpm_v4_key Z, !BpfMap PB Z Z, !BpfMap RS Z rate_state}.
Context (ktime : nat -> Z) (entries : Z).
Local Abbreviation state := (dp_state BL PB RS).

(** The blacklist and the Bloom filter are read-only to the data plane. *)
Definition same_config_maps (st st' : state) : Prop :=
  ip_blacklist st' = ip_blacklist st /\ pow_bloom st' = pow_bloom st.

Lemma rate_limit_frame (st : state) id qps :
  same_config_maps st (zereh_rate_limit_allow ktime entries st id qps).2.
Proof.
  unfold zereh_rate_limit_allow, now_sec. repeat (case_match; try done).
Qed.

Lemma pow_allow_frame (st : state) h id d tw :
  same_config_maps st (zereh_pow_allow ktime st h id d tw).2.
Proof. unfold zereh_pow_allow, now_sec. repeat (case_match; try done). Qed.

Lemma bloom_allow_frame (st st' : state) h bits hf tw b :
  zereh_bloom_allow ktime st h bits hf tw = Ret (b, st') -> same_config_maps st st'.
Proof.
  unfold zereh_bloom_allow, now_sec. intros H.
  repeat (case_match; mrun; simplify_eq/=; try done).
Qed.

Lemma apply_filters_frame (st st' : state) m h f b :
  zereh_apply_app_filters ktime entries st m h f = Ret (b, st') -> same_config_maps st st'.
Proof.
  unfold zereh_apply_app_filters. intros H.
  do 3 (destruct_if; [by mrun|]).
  apply bind_ret_inv in H as ([] & _ & H); cbn [negb] in H; [|by mrun].
  apply bind_ret_inv in H as ([] & _ & H); cbn [negb] in H; [|by mrun].
  pose proof (rate_limit_frame st (route_id f) (rate_limit_qps f)) as [H1 H1'].
  destruct (zereh_rate_limit_allow _ _ _ _ _) as [[] st1]; cbn [negb] in H; [|by mrun].
  pose proof (pow_allow_frame st1 h (dns_id m) (pow_difficulty f) (pow_time_window f)) as [H2 H2'].
  destruct (zereh_pow_allow _ _ _ _ _ _) as [[] st2]; cbn [negb fst snd] in *;
    [|mrun; split; congruence].
  destruct (negb (bloom_required f =? 0)); [|mrun; split; congruence].
  apply bind_ret_inv in H as ([ok st3] & [H3 H3']%bloom_allow_frame & H).
  destruct ok; cbn [negb] in H; mrun; split; congruence.
Qed.
End frame.

(** ** A sample router *)

Definition sample_block : route_block :=
  RouteBlock (zereh_hash_domain (str "t.example.com") ZEREH_HASH_FNV1A) (str "t.example.com")
    (AppFilters [] 0 [] 0 1 127 1 255 0 7 0 0 0 0 0 0 0) (RouteKernelSpace 5302).

Definition sample_params : template_params :=
  TemplateParams 1400 1 0 XDP_PASS ZEREH_HASH_FNV1A 1.

Definition sample_state : dp_state (lpm_list Z) (farray 1024 Z) (farray 1 rate_state) :=
  DpState [] (fun _ => 0) (fun _ => RateState 0 0) 0.

Lemma sample_request : dns_request sample_packet 34 sample_query.
Proof.
  split; [exact sample_udp_at|]. split; [by apply at_off_take|].
  split; [exact sample_query_ok|exact sample_query_at].
Qed.

Lemma sample_length : Z.of_nat (length sample_packet) < 2 ^ 32.
Proof. by_compute. Qed.

Lemma sample_admitted : admitted sample_params sample_state sample_packet sample_query.
Proof.
  constructor; [by_compute|reflexivity|reflexivity|left; reflexivity].
Qed.

Lemma sample_block_wf : block_wf sample_block.
Proof. constructor; [constructor; reflexivity|]. unfold word. simpl. lia. Qed.

(** ** Properties *)

Section router_properties.
Context {BL PB RS : Type}.
Context `{!BpfMap BL lpm_v4_key Z, !BpfMap PB Z Z, !BpfMap RS Z rate_state}.
Context (ktime : nat -> Z) (bpf_redirect_map : Z -> Z) (bpf_tail_call : Z -> bool).
Context (tp : template_params) (blocks : list route_block).
Local Abbreviation state := (dp_state BL PB RS).
Local Abbreviation router := (xdp_router ktime bpf_redirect_map bpf_tail_call tp blocks).

(** C2: on every frame the program ends without an access outside
    the packet, its buffers or its maps; the packet keeps its length, and the
    blacklist and the Bloom filter are as before. *)
Theorem xdp_router_total (st : state) (pkt : bytes) :
  Forall is_byte pkt -> Z.of_nat (length pkt) < 2 ^ 32 -> Forall block_wf blocks ->
  exists out pkt' st', router st pkt = Ret (out, pkt', st') /\
    length pkt' = length pkt /\ same_config_maps st st'.
Proof.
  intros Hb Hl Hwf.
  destruct (xdp_router_cases ktime bpf_redirect_map bpf_tail_call tp blocks st pkt Hb Hl)
    as [[v ->]|(u & q & b & Hreq & _ & Hsel & ->)]; [by eexists _, _, _|].
  apply selected_in in Hsel. rewrite Forall_forall in Hwf.
  destruct (run_block_spec ktime bpf_redirect_map bpf_tail_call tp st pkt u q
    (text_hash (tp_hash_algo tp) (dotted (q_labels q))) b Hb Hreq (Hwf b Hsel))
    as (ok & out & pkt' & st' & Hf & -> & Ho).
  exists out, pkt', st'. split; [done|]. split; [|by eapply apply_filters_frame].
  unfold block_outcome in Ho. destruct ok; [|by destruct Ho as [_ ->]].
  destruct (rb_action b); destruct Ho as [_ Ho]; [by subst|by destruct Ho|by subst].
Qed.

(** C29: a frame that is not an IPv4 UDP datagram to port 53 holding a well-formed
    query is passed on, with the packet and all maps untouched.  This includes
    datagrams to port 53 that the parser refuses (responses, no question, a name
    it does not read): the global filters are not applied to them, whatever their
    source and size ([blacklisted_response_passes]). *)
Theorem xdp_router_passes_other_traffic (st : state) (pkt : bytes) :
  Forall is_byte pkt -> (forall udp q, ~ dns_request pkt udp q) ->
  router st pkt = Ret (Exit XDP_PASS, pkt, st).
Proof. apply xdp_router_other. Qed.

(** C11: a query is dropped by the pre-route filter, with
    packet and maps untouched, exactly as configured: when the frame is larger
    than the limit, the source address is blacklisted, the opcode is not
    allowed, or the query is truncated and truncated queries are refused; all
    other queries reach the dispatch. *)
Theorem xdp_router_prefilter (st : state) (pkt : bytes) (udp : nat) (q : dns_query) :
  Forall is_byte pkt -> Z.of_nat (length pkt) < 2 ^ 32 -> dns_request pkt udp q ->
  (admitted tp st pkt q ->
     router st pkt =
       zereh_dispatch ktime bpf_redirect_map bpf_tail_call tp blocks st pkt 14 udp (meta_of q)) /\
  (~ admitted tp st pkt q -> router st pkt = Ret (Exit XDP_DROP, pkt, st)).
Proof. apply xdp_router_request. Qed.

(** C1: an admitted query is handed to the block whose case is the
    hash of its lower-case name, else to the first block whose domain is a
    suffix of the name, else it gets the default action.  The block drops it
    unless its filters accept, and then redirects it to its queue, rewrites
    its destination port, or tail-calls its program. *)
Theorem xdp_router_routes (st : state) (pkt : bytes) (udp : nat) (q : dns_query) :
  Forall is_byte pkt -> Z.of_nat (length pkt) < 2 ^ 32 -> dns_request pkt udp q ->
  admitted tp st pkt q -> Forall block_wf blocks ->
  let h := text_hash (tp_hash_algo tp) (dotted (q_labels q)) in
  match selected blocks h q with
  | None => router st pkt = Ret (Exit (tp_default_action tp), pkt, st)
  | Some b =>
      exists ok out pkt' st',
        zereh_apply_app_filters ktime (tp_rate_state_entries tp) st (meta_of q) h (rb_filters b)
          = Ret (ok, st') /\
        router st pkt = Ret (out, pkt', st') /\
        block_outcome bpf_redirect_map bpf_tail_call pkt udp b ok out pkt'
  end.
Proof.
  intros Hb Hl Hreq Had Hwf h.
  rewrite (xdp_router_selected ktime bpf_redirect_map bpf_tail_call tp blocks st pkt udp q) by done.
  fold h. destruct (selected blocks h q) as [b|] eqn:Hsel; [|done].
  apply run_block_spec; [done..|]. rewrite Forall_forall in Hwf. by eapply Hwf, selected_in.
Qed.
End router_properties.

Lemma xdp_router_total_witness :
  exists out pkt' st', xdp_router (fun _ => 0) (fun q => q) (fun _ => false) sample_params
    [sample_block] sample_state sample_packet = Ret (out, pkt', st') /\
    length pkt' = length sample_packet /\ same_config_maps sample_state st'.
Proof.
  apply (xdp_router_total (fun _ => 0) (fun q => q) (fun _ => false) sample_params [sample_block]
           sample_state sample_packet).
  - exact sample_packet_bytes.
  - exact sample_length.
  - constructor; [exact sample_block_wf|constructor].
Defined.

Lemma xdp_router_passes_other_traffic_witness :
  xdp_router (fun _ => 0) (fun q => q) (fun _ => false) sample_params [sample_block] sample_state
    (replicate 20 0) = Ret (Exit XDP_PASS, replicate 20 0, sample_state).
Proof.
  apply (xdp_router_passes_other_traffic (fun _ => 0) (fun q => q) (fun _ => false) sample_params
           [sample_block] sample_state (replicate 20 0)).
  - by_compute.
  - intros udp q ((v & H & _) & _). specialize (H 0%nat 8 eq_refl). vm_compute in H. discriminate H.
Defined.

(** From a source on the blacklist, a query is dropped; with the response bit set
    the same datagram passes, also above the size limit (of 60 bytes here). *)
Example blacklisted_response_passes :
  let tp := TemplateParams 60 1 0 XDP_DROP ZEREH_HASH_FNV1A 1 in
  let st := DpState ([(LpmV4Key 8 10, 1)] : lpm_list Z) ((fun _ => 0) : farray 1024 Z)
              ((fun _ => RateState 0 0) : farray 1 rate_state) 0 in
  let response := <[44%nat := 0x80]> sample_packet in
  let verdict pkt := match xdp_router (fun _ => 0) (fun q => q) (fun _ => false) tp [] st pkt with
                     | Ret (out, _, _) => Some out
                     | _ => None
                     end in
  verdict sample_packet = Some (Exit XDP_DROP) /\ verdict response = Some (Exit XDP_PASS) /\
  (60 < length response)%nat.
Proof. vm_compute. split_and!; [done..|]. lia. Qed.

Lemma xdp_router_prefilter_witness :
  xdp_router (fun _ => 0) (fun q => q) (fun _ => false)
    (TemplateParams 60 1 0 XDP_PASS ZEREH_HASH_FNV1A 1) [sample_block] sample_state sample_packet
  = Ret (Exit XDP_DROP, sample_packet, sample_state).
Proof.
  apply (xdp_router_prefilter (fun _ => 0) (fun q => q) (fun _ => false)
           (TemplateParams 60 1 0 XDP_PASS ZEREH_HASH_FNV1A 1) [sample_block] sample_state
           sample_packet 34 sample_query).
  - exact sample_packet_bytes.
  - exact sample_length.
  - exact sample_request.
  - intros [H _ _ _]. vm_compute in H. by apply H.
Defined.

Lemma xdp_router_routes_witness :
  exists ok out pkt' st',
    xdp_router (fun _ => 0) (fun q => q) (fun _ => false) sample_params [sample_block] sample_state
      sample_packet = Ret (out, pkt', st') /\
    block_outcome (fun q => q) (fun _ => false) sample_packet 34 sample_block ok out pkt'.
Proof.
  pose proof (xdp_router_routes (fun _ => 0) (fun q => q) (fun _ => false) sample_params
    [sample_block] sample_state sample_packet 34 sample_query sample_packet_bytes sample_length
    sample_request sample_admitted ltac:(constructor; [exact sample_block_wf|constructor])) as H.
  cbv zeta in H.
  replace (selected [sample_block] _ sample_query) with (Some sample_block) in H
    by (vm_compute; reflexivity).
  destruct H as (ok & out & pkt' & st' & _ & E & Ho). exists ok, out, pkt', st'. split; [exact E|exact Ho].
Defined.

(** C15: routing to a local server returns [XDP_PASS] and writes
    the port into the UDP header; every byte but the port and the checksum is
    unchanged, an absent checksum stays absent, and a present one keeps the
    one's-complement sum of the datagram. *)
Theorem route_kernel_space_rewrites (pkt : bytes) (iph udp : nat) (port : Z) :
  Forall is_byte pkt -> (udp + 8 <= length pkt)%nat -> word 16 port ->
  (iph + 20 <= length pkt)%nat ->
  exists pkt', zereh_route_kernel_space pkt iph udp (bpf_htons port) 0 = Ret (XDP_PASS, pkt') /\
    port_rewritten pkt pkt' udp port.
Proof. intros Hb Hu Hp Hi. by apply route_kernel_space_spec. Qed.

Lemma route_kernel_space_rewrites_witness :
  exists pkt', zereh_route_kernel_space sample_packet 14 34 (bpf_htons 5302) 0 = Ret (XDP_PASS, pkt') /\
    port_rewritten sample_packet pkt' 34 5302.
Proof.
  apply (route_kernel_space_rewrites sample_packet 14 34 5302).
  - exact sample_packet_bytes.
  - by_compute.
  - unfold word. lia.
  - by_compute.
Defined.
