(* ===== verification/XdpRewrite.v ===== *)
(** * xdp/xdp_template.c: rewriting the destination of a packet

    [zereh_route_kernel_space] with a new address: the checksums of the IP header
    and of the UDP datagram are updated for the address and for the port, one
    after the other. *)
From S2P Require Import Prelude CLib Hash DnsParser XdpHash BpfMaps XdpFilters XdpRouter.
#[local] Open Scope Z_scope.

(** The destination address, as the program loads it. *)
Definition daddr_of (pkt : bytes) (iph : nat) : Z := word_at pkt (iph + 16) + 65536 * word_at pkt (iph + 18).

(** The sum that the UDP checksum covers: [n] words of the datagram, and the
    destination address of the pseudo header. *)
Definition udp_sum (pkt : bytes) (iph udp n : nat) : Z :=
  wsum pkt udp n + word_at pkt (iph + 16) + word_at pkt (iph + 18).

(** [pkt'] is [pkt] with the destination address [daddr]: the address and the two
    checksums are all that changes; the IP header keeps its sum; an absent UDP
    checksum stays absent, a present one keeps the sum of the datagram with the
    address of the pseudo header. *)
Record readdressed (pkt pkt' : bytes) (iph udp : nat) (daddr : Z) : Prop := {
  ra_length : length pkt' = length pkt;
  ra_bytes : Forall is_byte pkt';
  ra_daddr : daddr_of pkt' iph = daddr;
  ra_frame : forall i, (i < iph + 10 \/ iph + 12 <= i < iph + 16 \/ iph + 20 <= i < udp + 6 \/ udp + 8 <= i)%nat ->
    pkt' !! i = pkt !! i;
  ra_ip_sum : forall n, (10 <= n)%nat -> (iph + 2 * n <= udp)%nat -> wsum pkt' iph n mod 65535 = wsum pkt iph n mod 65535;
  ra_absent : word_at pkt (udp + 6) = 0 -> word_at pkt' (udp + 6) = 0;
  ra_udp_sum : forall n, (4 <= n)%nat -> word_at pkt (udp + 6) <> 0 ->
    udp_sum pkt' iph udp n mod 65535 = udp_sum pkt iph udp n mod 65535
}.

Section readdress.
Context (pkt : bytes) (iph udp : nat) (daddr : Z).
Context (Hb : Forall is_byte pkt) (Hi : (iph + 20 <= udp)%nat) (Hlen : (udp + 8 <= length pkt)%nat).
Context (Hd : word 32 daddr).
Let old := daddr_of pkt iph.
Let check := word_at pkt (iph + 10).
Let ucheck := word_at pkt (udp + 6).

Lemma daddr_halves : word_at pkt (iph + 16) = old mod 65536 /\ word_at pkt (iph + 18) = old / 65536 /\ word 32 old.
Proof.
  pose proof (word_at_word pkt (iph + 16) Hb) as H1. pose proof (word_at_word pkt (iph + 18) Hb) as H2.
  subst old. unfold daddr_of, word in *. split_and!; [|..|lia|lia].
  - symmetry. rewrite Z.mul_comm, Z.mod_add by lia. apply Z.mod_small. lia.
  - symmetry. rewrite Z.mul_comm, Z.div_add by lia. rewrite Z.div_small by lia. lia.
Qed.

(** The words of a packet that differs from [pkt] in the address and the two
    checksums. *)
Lemma readdressed_words pkt' c uc :
  length pkt' = length pkt -> Forall is_byte pkt' ->
  (forall i, (i < iph + 10 \/ iph + 12 <= i < iph + 16 \/ iph + 20 <= i < udp + 6 \/ udp + 8 <= i)%nat ->
     pkt' !! i = pkt !! i) ->
  word_at pkt' (iph + 10) = c -> word_at pkt' (udp + 6) = uc ->
  word_at pkt' (iph + 16) = daddr mod 65536 -> word_at pkt' (iph + 18) = daddr / 65536 ->
  (c + daddr / 65536 + daddr mod 65536) mod 65535 = (check + old / 65536 + old mod 65536) mod 65535 ->
  (ucheck = 0 -> uc = 0) ->
  (ucheck <> 0 -> (uc + daddr / 65536 + daddr mod 65536) mod 65535 = (ucheck + old / 65536 + old mod 65536) mod 65535) ->
  readdressed pkt pkt' iph udp daddr.
Proof.
  intros Hl Hb' Hf Hc Huc Hlo Hhi Hs H0 Hus. destruct daddr_halves as (Eo1 & Eo2 & _). constructor; try done.
  - unfold daddr_of. rewrite Hlo, Hhi. pose proof (Z.div_mod daddr 65536 ltac:(lia)). lia.
  - intros n Hn Hnu. destruct (Nat.le_exists_sub 10 n Hn) as (k & -> & _). rewrite (Nat.add_comm k 10).
    cbn [Nat.add wsum]. rewrite <- !Nat.add_assoc. cbn [Nat.add].
    rewrite (wsum_ext pkt pkt' (iph + 20)) by (intros i Hk; apply Hf; lia).
    rewrite (word_at_ext pkt pkt' iph), (word_at_ext pkt pkt' (iph + 2)), (word_at_ext pkt pkt' (iph + 4)),
      (word_at_ext pkt pkt' (iph + 6)), (word_at_ext pkt pkt' (iph + 8)), (word_at_ext pkt pkt' (iph + 12)),
      (word_at_ext pkt pkt' (iph + 14)) by (apply Hf; lia).
    rewrite Hc, Hlo, Hhi, Eo1, Eo2. fold check.
    set (rest := word_at pkt iph + word_at pkt (iph + 2) + word_at pkt (iph + 4) + word_at pkt (iph + 6) +
      word_at pkt (iph + 8) + word_at pkt (iph + 12) + word_at pkt (iph + 14) + wsum pkt (iph + 20) k).
    transitivity ((rest + (c + daddr / 65536 + daddr mod 65536)) mod 65535); [f_equal; subst rest; lia|].
    rewrite <- Z.add_mod_idemp_r, Hs, Z.add_mod_idemp_r by lia. f_equal. subst rest. lia.
  - intros E. rewrite Huc. by apply H0.
  - intros n Hn Hne. unfold udp_sum. rewrite Hlo, Hhi, Eo1, Eo2.
    rewrite (wsum_replace pkt pkt' udp n 3) by (lia || (intros i Hi0 Hi1 Hi2; apply Hf; lia)).
    replace (udp + 2 * 3)%nat with (udp + 6)%nat by lia. rewrite Huc. fold ucheck.
    transitivity ((wsum pkt udp n - ucheck + (uc + daddr / 65536 + daddr mod 65536)) mod 65535); [f_equal; lia|].
    rewrite <- Z.add_mod_idemp_r, (Hus Hne), Z.add_mod_idemp_r by lia. f_equal. lia.
Qed.

(** The result of a store: [off] holds [v], all else is as before. *)
Definition stored (p p' : bytes) (off : nat) (v : Z) : Prop :=
  length p' = length p /\ Forall is_byte p' /\ word_at p' off = v /\
  forall i, i <> off -> i <> (off + 1)%nat -> p' !! i = p !! i.

Lemma store16_stored p off v :
  Forall is_byte p -> (off + 2 <= length p)%nat -> word 16 v -> exists p', store16 p off v = Ret p' /\ stored p p' off v.
Proof.
  intros Hp Hl Hv. destruct (store16_spec p off v Hl Hv) as (p' & E & ? & ? & ?).
  exists p'. split; [done|]. split_and!; try done. by eapply store16_bytes.
Qed.

Lemma stored_word p p' off v off' :
  stored p p' off v -> (off' + 2 <= off \/ off + 2 <= off')%nat -> word_at p' off' = word_at p off'.
Proof. intros (_ & _ & _ & Hf) Ho. apply word_at_ext; apply Hf; lia. Qed.

Lemma rewrite_daddr_spec :
  daddr <> 0 -> exists pkt', rewrite_daddr pkt iph udp daddr = Ret pkt' /\ readdressed pkt pkt' iph udp daddr.
Proof.
  intros Hnz. destruct daddr_halves as (Eo1 & Eo2 & Ho). unfold rewrite_daddr, load32.
  rewrite !load16_word_at by lia. cbn [mbind res_bind].
  replace (iph + 16 + 2)%nat with (iph + 18)%nat by lia. fold (daddr_of pkt iph). fold old check.
  replace (daddr =? 0) with false by lia. cbn [negb andb].
  destruct (Z.eqb_spec old daddr) as [He|Hne]; cbn [negb].
  { exists pkt. split; [done|]. apply (readdressed_words pkt check ucheck); try done; congruence. }
  cbn [mbind res_bind]. fold check.
  destruct (csum_replace_u32_sum check old daddr) as [Hw1 Hs1]; [by apply word_at_word|done..|].
  destruct (csum_replace_u32_sum ucheck old daddr) as [Hw2 Hs2]; [by apply word_at_word|done..|].
  destruct (store16_stored pkt (iph + 10) (zereh_csum_replace_u32 check old daddr)) as (p1 & -> & S1); [done|lia|done|].
  cbn [mbind res_bind]. pose proof S1 as (L1 & B1 & W1 & F1). rewrite load16_word_at by lia. cbn [mbind res_bind].
  rewrite (stored_word _ _ _ _ (udp + 6) S1) by lia. fold ucheck.
  set (uc := if ucheck =? 0 then 0 else zereh_csum_replace_u32 ucheck old daddr).
  assert (exists p2, (if negb (ucheck =? 0) then store16 p1 (udp + 6) (zereh_csum_replace_u32 ucheck old daddr)
    else Ret p1) = Ret p2 /\ stored p1 p2 (udp + 6) uc) as (p2 & -> & S2).
  { subst uc. destruct (Z.eqb_spec ucheck 0) as [H0|]; cbn [negb]; [|apply store16_stored; [done|lia|done]].
    exists p1. split; [done|]. split_and!; try done. by rewrite (stored_word _ _ _ _ (udp + 6) S1) by lia. }
  cbn [mbind res_bind]. pose proof S2 as (L2 & B2 & W2 & F2). unfold store32.
  destruct (store16_stored p2 (iph + 16) (daddr mod 65536)) as (p3 & -> & S3); [done|lia|apply Z.mod_pos_bound; lia|].
  cbn [mbind res_bind]. pose proof S3 as (L3 & B3 & W3 & F3).
  replace (iph + 16 + 2)%nat with (iph + 18)%nat by lia.
  destruct (store16_stored p3 (iph + 18) (daddr / 65536)) as (p4 & -> & S4); [done|lia| |].
  { unfold word in *. split; [apply Z.div_pos|apply Z.div_lt_upper_bound]; lia. }
  pose proof S4 as (L4 & B4 & W4 & F4). exists p4. split; [done|].
  apply (readdressed_words p4 (zereh_csum_replace_u32 check old daddr) uc); try done.
  - lia.
  - intros i Hr. rewrite F4, F3, F2, F1 by lia. done.
  - rewrite (stored_word _ _ _ _ _ S4), (stored_word _ _ _ _ _ S3), (stored_word _ _ _ _ _ S2) by lia. done.
  - rewrite (stored_word _ _ _ _ _ S4), (stored_word _ _ _ _ _ S3) by lia. done.
  - rewrite (stored_word _ _ _ _ _ S4) by lia. done.
  - subst uc. intros ->. done.
  - subst uc. intros H. by replace (ucheck =? 0) with false by lia.
Qed.
End readdress.

(** ** Properties *)

(** C16: routing to a server with an address of its own returns
    [XDP_PASS] and writes address and port; nothing but these and the two
    checksums changes, the IP header keeps its one's-complement sum, and an
    absent UDP checksum stays absent.  A present one keeps the sum of the
    datagram with its pseudo header, or has become 0, which means no
    checksum. *)
Theorem route_kernel_space_readdresses (pkt : bytes) (iph udp : nat) (port daddr : Z) :
  Forall is_byte pkt -> (iph + 20 <= udp)%nat -> (udp + 8 <= length pkt)%nat -> word 16 port -> word 32 daddr ->
  daddr <> 0 ->
  exists pkt', zereh_route_kernel_space pkt iph udp (bpf_htons port) daddr = Ret (XDP_PASS, pkt') /\
    length pkt' = length pkt /\ daddr_of pkt' iph = daddr /\ at_off pkt' (udp + 2) (be16 port) /\
    (forall i, (i < iph + 10 \/ iph + 12 <= i < iph + 16 \/ iph + 20 <= i < udp + 2 \/ udp + 4 <= i < udp + 6 \/
                udp + 8 <= i)%nat -> pkt' !! i = pkt !! i) /\
    (forall n, (10 <= n)%nat -> (iph + 2 * n <= udp)%nat -> wsum pkt' iph n mod 65535 = wsum pkt iph n mod 65535) /\
    (word_at pkt (udp + 6) = 0 -> word_at pkt' (udp + 6) = 0) /\
    (word_at pkt (udp + 6) <> 0 -> word_at pkt' (udp + 6) = 0 \/
       forall n, (4 <= n)%nat -> udp_sum pkt' iph udp n mod 65535 = udp_sum pkt iph udp n mod 65535).
Proof.
  intros Hb Hi Hl Hp Hd Hnz. unfold zereh_route_kernel_space.
  destruct (rewrite_daddr_spec pkt iph udp daddr Hb Hi Hl Hd Hnz) as (mid & -> & [L1 B1 A1 F1 I1 Z1 U1]).
  cbn [mbind res_bind].
  destruct (rewrite_dport_spec mid udp port B1 ltac:(lia) Hp) as (pkt' & -> & [L2 B2 D2 F2 Z2 S2]).
  cbn [mbind res_bind]. exists pkt'.
  assert (forall off, (off + 2 <= udp + 2)%nat -> word_at pkt' off = word_at mid off) as Hw.
  { intros off Ho. apply word_at_ext; apply F2; lia. }
  split_and!; [done|congruence| |done| | |auto|].
  - rewrite <- A1. unfold daddr_of. by rewrite !Hw by lia.
  - intros i Hr. rewrite F2, F1 by lia. done.
  - intros n Hn Hnu. rewrite (wsum_ext mid pkt' iph n) by (intros i Hk; apply F2; lia). by apply I1.
  - intros Hne. destruct (Z.eq_dec (word_at mid (udp + 6)) 0) as [H0|H0]; [left; auto|right]. intros n Hn.
    rewrite <- (U1 n Hn Hne). unfold udp_sum. rewrite !(Hw (iph + 16)%nat), !(Hw (iph + 18)%nat) by lia.
    rewrite <- !Z.add_assoc, <- (Z.add_mod_idemp_l (wsum pkt' udp n)), (S2 n Hn H0), Z.add_mod_idemp_l by lia. done.
Qed.

Lemma route_kernel_space_readdresses_witness :
  exists pkt', zereh_route_kernel_space sample_packet 14 34 (bpf_htons 5302) (s_addr [127; 0; 0; 1]) =
    Ret (XDP_PASS, pkt') /\ length pkt' = length sample_packet /\ daddr_of pkt' 14 = s_addr [127; 0; 0; 1].
Proof.
  destruct (route_kernel_space_readdresses sample_packet 14 34 5302 (s_addr [127; 0; 0; 1]))
    as (pkt' & H1 & H2 & H3 & _).
  - exact sample_packet_bytes.
  - lia.
  - by_compute.
  - unfold word. lia.
  - unfold word. simpl. lia.
  - discriminate.
  - exists pkt'. split; [exact H1|]. split; [exact H2|exact H3].
Defined.

(** A present checksum that becomes 0 with the new address is not updated for the
    port any more. *)
Example checksum_lost :
  let pkt := replicate 26 0 ++ [1; 0] in
  match zereh_route_kernel_space pkt 0 20 (bpf_htons 80) 1 with
  | Ret (_, pkt') => word_at pkt 26 = 1 /\ word_at pkt' 26 = 0 /\ word_at pkt' 22 = bpf_htons 80
  | _ => False
  end.
Proof. vm_compute. done. Qed.
