(* ===== verification/Cpus.v ===== *)
(** * The router on several CPUs

    Every CPU runs the router on the packets that arrive there.  The blacklist
    and the Bloom filter are shared and only read; [route_rate_state] is a
    PERCPU_ARRAY, so that each CPU counts alone.  A run is a sequence of arrivals
    on CPUs in any order: two packets share nothing that one of them writes. *)
From S2P Require Import Prelude CLib Hash DnsParser XdpHash BpfMaps XdpFilters XdpRouter.
#[local] Open Scope Z_scope.

#[global] Instance rate_state_eq_dec : EqDecision rate_state.
Proof. solve_decision. Defined.

Section cpus.
Context {BL PB RS : Type}.
Context `{!BpfMap BL lpm_v4_key Z, !BpfMap PB Z Z, !BpfMap RS Z rate_state}.
Context (ktime : nat -> Z) (bpf_redirect_map : Z -> Z) (bpf_tail_call : Z -> bool).
Context (tp : template_params) (blocks : list route_block).
Local Abbreviation state := (dp_state BL PB RS).
Local Abbreviation router := (xdp_router ktime bpf_redirect_map bpf_tail_call tp blocks).

Record machine : Type := Machine {
  m_blacklist : BL;
  m_bloom : PB;
  m_rates : nat -> RS;      (* by CPU *)
  m_clock : nat             (* readings of the clock so far *)
}.

(** The maps as a CPU sees them. *)
Definition cpu_state (m : machine) (cpu : nat) : state :=
  DpState (m_blacklist m) (m_bloom m) (m_rates m cpu) (m_clock m).

Definition cpu_store (m : machine) (cpu : nat) (st : state) : machine :=
  Machine (ip_blacklist st) (pow_bloom st)
    (fun c => if (c =? cpu)%nat then route_rate_state st else m_rates m c) (clock_calls st).

(** A packet arrives on a CPU. *)
Definition cpu_step (m : machine) (cpu : nat) (pkt : bytes) : res (outcome * bytes * machine) :=
  '(out, pkt, st) ← router (cpu_state m cpu) pkt; Ret (out, pkt, cpu_store m cpu st).

Fixpoint machine_after (arrivals : list (nat * bytes)) (m : machine) : machine :=
  match arrivals with
  | [] => m
  | (cpu, pkt) :: arrivals' =>
      match cpu_step m cpu pkt with
      | Ret (_, _, m') => machine_after arrivals' m'
      | _ => m
      end
  end.

(** The second at the next reading of the clock. *)
Definition machine_second (m : machine) : Z := ktime (m_clock m) / 1000000000.

(** The counter of a route on a CPU. *)
Definition slot (m : machine) (cpu : nat) (route_id : Z) : option rate_state :=
  bpf_map_lookup_elem (m_rates m cpu) route_id.

(** For each arrival the CPU, the second, and whether it was counted for the
    route. *)
Fixpoint rate_log (route_id : Z) (arrivals : list (nat * bytes)) (m : machine) : list (nat * Z * bool) :=
  match arrivals with
  | [] => []
  | (cpu, pkt) :: arrivals' =>
      match cpu_step m cpu pkt with
      | Ret (_, _, m') =>
          (cpu, machine_second m, bool_decide (slot m' cpu route_id <> slot m cpu route_id))
            :: rate_log route_id arrivals' m'
      | _ => []
      end
  end.

(** The block [b] gets the query in the packet, and its filters accept it. *)
Definition serves (b : route_block) (st : state) (pkt : bytes) : Prop :=
  exists udp q st', dns_request pkt udp q /\ admitted tp st pkt q /\
    let h := text_hash (tp_hash_algo tp) (dotted (q_labels q)) in
    selected blocks h q = Some b /\
    zereh_apply_app_filters ktime (tp_rate_state_entries tp) st (meta_of q) h (rb_filters b) = Ret (true, st').

Definition counted_on (cpu : nat) (t : Z) (log : list (nat * Z * bool)) : Z :=
  Z.of_nat (length (filter (fun e => e = (cpu, t, true)) log)).
Definition counted (t : Z) (log : list (nat * Z * bool)) : Z :=
  Z.of_nat (length (filter (fun e => e.1.2 = t /\ e.2 = true) log)).

(** ** One packet and the counter of a route *)

(** Nothing but the clock. *)
Definition only_clock (st st' : state) : Prop :=
  route_rate_state st' = route_rate_state st /\ (clock_calls st <= clock_calls st')%nat.

Lemma pow_only_clock (st : state) h id d tw : only_clock st (zereh_pow_allow ktime st h id d tw).2.
Proof. unfold zereh_pow_allow, now_sec, only_clock. repeat case_match; simpl; auto. Qed.

Lemma bloom_only_clock (st st' : state) h bits hf tw b :
  zereh_bloom_allow ktime st h bits hf tw = Ret (b, st') -> only_clock st st'.
Proof.
  unfold zereh_bloom_allow, now_sec, only_clock. intros H.
  repeat (case_match; mrun; simplify_eq/=; auto).
Qed.

Context `{!BpfArrayLaws RS rate_state (tp_rate_state_entries tp)}.
Context (rid qps : Z) (Hrid : 0 <= rid < tp_rate_state_entries tp) (Hqps : 1 <= qps < 2 ^ 32).

(** What a packet does to the counter of the route [rid]: nothing, or a grant of
    the limiter at the second of its arrival. *)
Definition slot_step (b : bool) (st st' : state) : Prop :=
  (clock_calls st <= clock_calls st')%nat /\
  forall s, bpf_map_lookup_elem (route_rate_state st) rid = Some s -> 0 <= count s ->
    exists s', bpf_map_lookup_elem (route_rate_state st') rid = Some s' /\
      (s' = s /\ b = false \/ rate_step qps s (second ktime st) = (true, s')).

Lemma slot_step_refl st : slot_step false st st.
Proof. split; [done|]. eauto 10. Qed.

Lemma slot_step_clock b b' st st1 st2 :
  slot_step b st st1 -> only_clock st1 st2 -> (b' = true -> b = true) -> slot_step b' st st2.
Proof.
  intros [Hc Hs] [Hr Hc'] Hb. split; [lia|]. intros s E Hn. destruct (Hs s E Hn) as (s' & E' & H).
  exists s'. rewrite Hr. split; [done|]. destruct H as [[-> ->]|H]; [left|by right].
  split; [done|]. destruct b'; [by discriminate Hb|done].
Qed.

(** The limiter on the route itself, and on another one. *)
Lemma rate_limit_slot (st : state) :
  slot_step (zereh_rate_limit_allow ktime (tp_rate_state_entries tp) st rid qps).1 st
    (zereh_rate_limit_allow ktime (tp_rate_state_entries tp) st rid qps).2.
Proof.
  split; [unfold zereh_rate_limit_allow, now_sec; repeat case_match; simpl; lia|]. intros s E Hc.
  pose proof (rate_limit_allow_step ktime (tp_rate_state_entries tp) rid qps Hrid Hqps st s E Hc) as H.
  destruct (zereh_rate_limit_allow ktime (tp_rate_state_entries tp) st rid qps) as [ok st']. cbn [fst snd].
  destruct H as (-> & _ & E'). exists (rate_step qps s (second ktime st)).2. split; [done|].
  unfold second. destruct (rate_step qps s _) as [[] s'] eqn:Es; cbn [fst snd]; [by right|left].
  unfold rate_step in Es. repeat case_match; simplify_eq. done.
Qed.

Lemma rate_limit_other (st : state) id q :
  id <> rid -> slot_step false st (zereh_rate_limit_allow ktime (tp_rate_state_entries tp) st id q).2.
Proof.
  intros Hne. unfold zereh_rate_limit_allow, now_sec. split; [repeat case_match; simpl; lia|]. intros s E _.
  exists s. split; [|auto]. repeat case_match; simpl; try done; by rewrite array_store_ne.
Qed.

Lemma rate_limit_any (st : state) f :
  (route_id f = rid -> rate_limit_qps f = qps) ->
  let '(ok, st') := zereh_rate_limit_allow ktime (tp_rate_state_entries tp) st (route_id f) (rate_limit_qps f) in
  slot_step (ok && bool_decide (route_id f = rid)) st st'.
Proof.
  intros Hf. case_bool_decide as Hid.
  - rewrite Hid, Hf by done. pose proof (rate_limit_slot st) as H.
    destruct (zereh_rate_limit_allow _ _ _ _ _) as [ok st']. by rewrite andb_true_r.
  - pose proof (rate_limit_other st (route_id f) (rate_limit_qps f) Hid) as H.
    destruct (zereh_rate_limit_allow _ _ _ _ _) as [ok st']. by rewrite andb_false_r.
Qed.

Lemma apply_filters_slot (st st' : state) m h f b :
  (route_id f = rid -> rate_limit_qps f = qps) ->
  zereh_apply_app_filters ktime (tp_rate_state_entries tp) st m h f = Ret (b, st') ->
  slot_step (b && bool_decide (route_id f = rid)) st st'.
Proof.
  intros Hf H. pose proof (slot_step_refl st) as Hr. pose proof (rate_limit_any st f Hf) as Hrate.
  unfold zereh_apply_app_filters in H. do 3 (destruct_if; [by mrun|]).
  apply bind_ret_inv in H as ([] & _ & H); cbn [negb] in H; [|by mrun].
  apply bind_ret_inv in H as ([] & _ & H); cbn [negb] in H; [|by mrun].
  destruct (zereh_rate_limit_allow _ _ _ _ _) as [[] st1]; cbn [negb] in H; [|by mrun].
  pose proof (pow_only_clock st1 h (dns_id m) (pow_difficulty f) (pow_time_window f)) as Hp.
  destruct (zereh_pow_allow _ _ _ _ _ _) as [[] st2]; cbn [negb fst snd] in *;
    [|mrun; by eapply slot_step_clock].
  assert (slot_step (bool_decide (route_id f = rid)) st st2) as H2 by by eapply slot_step_clock.
  destruct (negb (bloom_required f =? 0)); [|by mrun].
  apply bind_ret_inv in H as ([ok st3] & Hb%bloom_only_clock & H).
  destruct ok; cbn [negb] in H; mrun; by eapply slot_step_clock.
Qed.

Context (b : route_block) (Hb : route_id (rb_filters b) = rid).
Context (Hids : Forall (fun b' => route_id (rb_filters b') = rid -> rate_limit_qps (rb_filters b') = qps) blocks).
Context (Hwf : Forall block_wf blocks).

(** The blocks that are selected with the number of the route. *)
Lemma router_slot (st : state) pkt :
  Forall is_byte pkt -> Z.of_nat (length pkt) < 2 ^ 32 ->
  exists out pkt' st', router st pkt = Ret (out, pkt', st') /\ slot_step false st st'.
Proof.
  intros Hpb Hl. destruct (xdp_router_cases ktime bpf_redirect_map bpf_tail_call tp blocks st pkt Hpb Hl)
    as [[v ->]|(u & q & b' & Hreq & _ & Hsel & ->)].
  { eexists _, _, _. split; [done|apply slot_step_refl]. }
  apply selected_in in Hsel. rewrite Forall_forall in Hwf, Hids.
  destruct (run_block_spec ktime bpf_redirect_map bpf_tail_call tp st pkt u q
    (text_hash (tp_hash_algo tp) (dotted (q_labels q))) b' Hpb Hreq (Hwf b' Hsel))
    as (ok & out & pkt' & st' & Hf & -> & _).
  exists out, pkt', st'. split; [done|]. apply apply_filters_slot in Hf; [|by apply Hids].
  eapply slot_step_clock; [exact Hf|split; [done|lia]|done].
Qed.

(** A query that the route serves is counted. *)
Lemma serves_slot (st : state) pkt :
  Forall is_byte pkt -> Z.of_nat (length pkt) < 2 ^ 32 -> b ∈ blocks -> serves b st pkt ->
  exists out pkt' st', router st pkt = Ret (out, pkt', st') /\ slot_step true st st'.
Proof.
  intros Hpb Hl Hin (u & q & st1 & Hreq & Had & Hsel & Hf).
  rewrite (xdp_router_selected ktime bpf_redirect_map bpf_tail_call tp blocks st pkt u q) by done.
  rewrite Hsel. rewrite Forall_forall in Hwf, Hids.
  destruct (run_block_spec ktime bpf_redirect_map bpf_tail_call tp st pkt u q
    (text_hash (tp_hash_algo tp) (dotted (q_labels q))) b Hpb Hreq (Hwf b Hin))
    as (ok & out & pkt' & st' & Hf' & -> & _).
  exists out, pkt', st'. split; [done|]. rewrite Hf in Hf'. injection Hf' as <- <-.
  apply apply_filters_slot in Hf; [|by apply Hids]. by rewrite bool_decide_eq_true_2 in Hf.
Qed.

(** ** Runs *)

Context (Hmono : forall i j, (i <= j)%nat -> ktime i <= ktime j).

Definition arrivals_ok (ncpus : nat) (arrivals : list (nat * bytes)) : Prop :=
  Forall (fun a => (a.1 < ncpus)%nat /\ Forall is_byte a.2 /\ Z.of_nat (length a.2) < 2 ^ 32) arrivals.

(** The counters of all CPUs are at most of the current second. *)
Definition machine_ok (m : machine) : Prop :=
  forall cpu, exists s, slot m cpu rid = Some s /\ 0 <= count s /\ window_sec s <= machine_second m.

Lemma second_mono i j : (i <= j)%nat -> ktime i / 1000000000 <= ktime j / 1000000000.
Proof. intros H. apply Z.div_le_mono; [lia|by apply Hmono]. Qed.

(** One arrival: the clock does not go back, other CPUs are not touched, and the
    counter of this one makes a step. *)
Lemma cpu_step_spec m cpu pkt :
  machine_ok m -> Forall is_byte pkt -> Z.of_nat (length pkt) < 2 ^ 32 ->
  exists out pkt' m', cpu_step m cpu pkt = Ret (out, pkt', m') /\ machine_ok m' /\
    machine_second m <= machine_second m' /\
    (forall c, c <> cpu -> slot m' c rid = slot m c rid) /\
    forall s, slot m cpu rid = Some s -> exists s', slot m' cpu rid = Some s' /\
      (s' = s \/ rate_step qps s (machine_second m) = (true, s')) /\
      (b ∈ blocks -> serves b (cpu_state m cpu) pkt -> rate_step qps s (machine_second m) = (true, s')).
Proof.
  intros Hm Hpb Hl. destruct (router_slot (cpu_state m cpu) pkt Hpb Hl) as (out & pkt' & st' & E & Hc & Hs).
  exists out, pkt', (cpu_store m cpu st'). unfold cpu_step. rewrite E. split; [done|].
  assert (forall c, c <> cpu -> slot (cpu_store m cpu st') c rid = slot m c rid) as Ho.
  { intros c Hne. unfold slot, cpu_store. cbn [m_rates]. by rewrite (proj2 (Nat.eqb_neq _ _) Hne). }
  assert (slot (cpu_store m cpu st') cpu rid = bpf_map_lookup_elem (route_rate_state st') rid) as Hsame.
  { unfold slot, cpu_store. cbn [m_rates]. by rewrite Nat.eqb_refl. }
  pose proof (second_mono _ _ Hc) as Hle. split_and!; [|done|done|].
  - intros c. destruct (Hm c) as (s & Es & Hn & Hw). destruct (Nat.eq_dec c cpu) as [->|Hne].
    2: { rewrite (Ho c Hne). exists s. split_and!; [done..|]. unfold machine_second in *. simpl in *. lia. }
    rewrite Hsame. destruct (Hs s Es Hn) as (s' & Es' & Hstep). exists s'. split; [done|].
    unfold machine_second in *. simpl in *. destruct Hstep as [[-> _]|Hstep]; [split; [done|lia]|].
    unfold second in Hstep. simpl in Hstep.
    pose proof (rate_step_budget qps s (ktime (m_clock m) / 1000000000) 0 ltac:(lia) Hw Hn) as H.
    rewrite Hstep in H. destruct H as (-> & ? & _). split; [done|lia].
  - intros s Es. rewrite Hsame. destruct (Hm cpu) as (s0 & Es0 & Hn & _).
    rewrite Es in Es0. injection Es0 as <-. destruct (Hs s Es Hn) as (s' & Es' & Hstep). exists s'.
    split; [done|]. split; [destruct Hstep as [[-> _]|?]; auto|]. intros Hin Hserve.
    destruct (serves_slot _ pkt Hpb Hl Hin Hserve) as (out1 & pkt1 & st1 & E1 & _ & Hs1).
    rewrite E in E1. injection E1 as <- <- <-. destruct (Hs1 s Es Hn) as (s1 & Es1 & [[_ ?]|H]); [done|].
    by replace s' with s1 by congruence.
Qed.

Lemma rate_step_changes s now s' : rate_step qps s now = (true, s') -> s' <> s.
Proof.
  unfold rate_step. destruct s as [w c]. simpl.
  destruct (Z.eqb_spec w now); simpl; [destruct (qps <=? c)|]; simpl; intros [= <-] [= ?]; lia.
Qed.

Lemma counted_on_cons cpu t e log :
  counted_on cpu t (e :: log) = (if decide (e = (cpu, t, true)) then 1 else 0) + counted_on cpu t log.
Proof. unfold counted_on. rewrite filter_cons. case_decide; simpl; lia. Qed.

(** On one CPU, at most the budget of each second is counted. *)
Lemma counted_on_bound ncpus arrivals m cpu s t :
  arrivals_ok ncpus arrivals -> machine_ok m -> slot m cpu rid = Some s ->
  counted_on cpu t (rate_log rid arrivals m) <= if t <? machine_second m then 0 else budget qps s t.
Proof.
  assert (forall s, 0 <= budget qps s t) as Hb0 by (intros s'; unfold budget; bool_lia).
  intros Ha. revert m s. induction Ha as [|[c pkt] arrivals (_ & Hpb & Hl) _ IH]; intros m s Hm Hs.
  { unfold counted_on. simpl. specialize (Hb0 s). destruct_if; lia. }
  cbn [rate_log fst snd] in *.
  destruct (cpu_step_spec m c pkt Hm Hpb Hl) as (out & pkt' & m' & -> & Hm' & Hle & Ho & Hstep).
  rewrite counted_on_cons. destruct (Nat.eq_dec c cpu) as [->|Hne].
  - destruct (Hstep s Hs) as (s' & Es' & Hcase & _). specialize (IH m' s' Hm' Es').
    rewrite Es', Hs. destruct Hcase as [->|Hr].
    { rewrite bool_decide_eq_false_2 by auto. rewrite decide_False by congruence.
      specialize (Hb0 s). destruct (t <? machine_second m) eqn:E1, (t <? machine_second m') eqn:E2; lia. }
    destruct (Hm cpu) as (s0 & Es0 & Hn & Hw). rewrite Hs in Es0. injection Es0 as <-.
    pose proof (rate_step_budget qps s (machine_second m) t ltac:(lia) Hw Hn) as H. rewrite Hr in H.
    destruct H as (_ & _ & Hnow & Hlater). specialize (Hb0 s).
    destruct (Z.lt_trichotomy (machine_second m) t) as [Hlt|[Heq|Hgt]].
    + rewrite decide_False by (intros [= ? ?]; lia). rewrite (Hlater Hlt) in IH.
      destruct (t <? machine_second m) eqn:E1, (t <? machine_second m') eqn:E2; lia.
    + destruct (Hnow Heq) as [Hok Hbud]. symmetry in Hok. apply Z.ltb_lt in Hok. rewrite Hbud in IH.
      destruct (decide _); destruct (t <? machine_second m) eqn:E1, (t <? machine_second m') eqn:E2; lia.
    + rewrite decide_False by (intros [= ? ?]; lia).
      destruct (t <? machine_second m) eqn:E1, (t <? machine_second m') eqn:E2; lia.
  - rewrite decide_False by congruence. rewrite <- (Ho cpu) in Hs by done. specialize (IH m' s Hm' Hs).
    specialize (Hb0 s). destruct (t <? machine_second m) eqn:E1, (t <? machine_second m') eqn:E2; lia.
Qed.

Lemma rate_log_spec ncpus arrivals m :
  arrivals_ok ncpus arrivals -> machine_ok m ->
  length (rate_log rid arrivals m) = length arrivals /\
  Forall (fun e => (e.1.1 < ncpus)%nat) (rate_log rid arrivals m) /\
  forall k cpu pkt, arrivals !! k = Some (cpu, pkt) -> b ∈ blocks ->
    serves b (cpu_state (machine_after (take k arrivals) m) cpu) pkt ->
    exists t, rate_log rid arrivals m !! k = Some (cpu, t, true).
Proof.
  intros Ha. revert m. induction Ha as [|[c pkt] arrivals (Hc & Hpb & Hl) _ IH]; intros m Hm.
  { split_and!; [done|constructor|]. by intros k cpu pkt Hk. }
  cbn [rate_log fst snd] in *.
  destruct (cpu_step_spec m c pkt Hm Hpb Hl) as (out & pkt' & m' & E & Hm' & _ & _ & Hstep). rewrite E.
  destruct (IH m' Hm') as (H1 & H2 & H3). split_and!; [simpl; congruence|by constructor|].
  intros [|k] cpu pkt1 Hk Hin Hserve; cbn [lookup list_lookup] in Hk.
  - injection Hk as <- <-. cbn [take machine_after] in Hserve. destruct (Hm c) as (s & Es & _).
    destruct (Hstep s Es) as (s' & Es' & _ & Hr). exists (machine_second m). cbn [lookup list_lookup].
    rewrite bool_decide_eq_true_2; [done|]. rewrite Es, Es'. specialize (Hr Hin Hserve).
    apply rate_step_changes in Hr. congruence.
  - cbn [take machine_after] in Hserve. rewrite E in Hserve. by apply (H3 k cpu pkt1).
Qed.
End cpus.
Arguments machine : clear implicits.

(** ** Counting over the CPUs *)

Lemma counted_split n t log :
  counted t log = counted_on n t log + counted t (filter (fun e => e.1.1 <> n) log).
Proof.
  unfold counted, counted_on. induction log as [|[[c t'] ok] log IH]; [done|].
  rewrite !filter_cons. cbn [fst snd]. destruct (decide (c = n)) as [->|Hne].
  - rewrite (decide_False (P := n <> n)) by auto.
    destruct (decide (t' = t /\ ok = true)) as [[-> ->]|Hno].
    + rewrite decide_True by done. simpl. lia.
    + rewrite decide_False by (intros [= -> ->]; auto). lia.
  - rewrite (decide_True (P := c <> n)) by done. rewrite filter_cons. cbn [fst snd].
    rewrite (decide_False (P := (c, t', ok) = (n, t, true))) by congruence. case_decide; simpl; lia.
Qed.

Lemma counted_on_filter cpu n t log :
  counted_on cpu t (filter (fun e => e.1.1 <> n) log) <= counted_on cpu t log.
Proof.
  induction log as [|e log IH]; [done|]. rewrite filter_cons. case_decide; rewrite !counted_on_cons; case_decide; lia.
Qed.

Lemma counted_sum n t k log :
  Forall (fun e => (e.1.1 < n)%nat) log -> (forall cpu, counted_on cpu t log <= k) -> counted t log <= Z.of_nat n * k.
Proof.
  revert log. induction n as [|n IH]; intros log Hlt Hk.
  { destruct Hlt as [|e log He]; [done|lia]. }
  rewrite (counted_split n). specialize (IH (filter (fun e => e.1.1 <> n) log)).
  assert (counted t (filter (fun e => e.1.1 <> n) log) <= Z.of_nat n * k).
  { apply IH.
    - apply Forall_forall. intros e [He Hin]%list_elem_of_filter. rewrite Forall_forall in Hlt.
      specialize (Hlt e Hin). simpl in *. lia.
    - intros cpu. etransitivity; [apply counted_on_filter|apply Hk]. }
  specialize (Hk n). lia.
Qed.

(** ** Properties *)

(** C18: a route with a limit of [qps] that starts with fresh counters serves,
    on [ncpus] CPUs and for packets that arrive there in any order, at most
    [ncpus * qps] queries in a second: every arrival has its entry in the log,
    every query the route serves is counted there, and each second counts at
    most that many. *)
Theorem rate_limit_across_cpus {BL PB RS : Type}
    `{!BpfMap BL lpm_v4_key Z, !BpfMap PB Z Z, !BpfMap RS Z rate_state} (ktime : nat -> Z)
    (bpf_redirect_map : Z -> Z) (bpf_tail_call : Z -> bool) (tp : template_params) (blocks : list route_block)
    `{!BpfArrayLaws RS rate_state (tp_rate_state_entries tp)} (b : route_block) (ncpus : nat)
    (arrivals : list (nat * bytes)) (m : machine BL PB RS) :
  let rid := route_id (rb_filters b) in
  let qps := rate_limit_qps (rb_filters b) in
  b ∈ blocks -> Forall block_wf blocks ->
  Forall (fun b' => route_id (rb_filters b') = rid -> rate_limit_qps (rb_filters b') = qps) blocks ->
  0 <= rid < tp_rate_state_entries tp -> 1 <= qps < 2 ^ 32 ->
  (forall i j, (i <= j)%nat -> ktime i <= ktime j) -> 0 <= ktime (m_clock m) ->
  (forall cpu, slot m cpu rid = Some (RateState 0 0)) ->
  Forall (fun a => (a.1 < ncpus)%nat /\ Forall is_byte a.2 /\ Z.of_nat (length a.2) < 2 ^ 32) arrivals ->
  let log := rate_log ktime bpf_redirect_map bpf_tail_call tp blocks rid arrivals m in
  length log = length arrivals /\
  (forall k cpu pkt, arrivals !! k = Some (cpu, pkt) ->
     serves ktime tp blocks b
       (cpu_state (machine_after ktime bpf_redirect_map bpf_tail_call tp blocks (take k arrivals) m) cpu) pkt ->
     exists t, log !! k = Some (cpu, t, true)) /\
  forall t, counted t log <= Z.of_nat ncpus * qps.
Proof.
  intros rid qps Hin Hwf Hids Hrid Hqps Hmono H0 Hfresh Ha log.
  assert (machine_ok ktime rid m) as Hm.
  { intros cpu. exists (RateState 0 0). split_and!; [apply Hfresh|done|]. apply Z.div_pos; [done|lia]. }
  destruct (rate_log_spec ktime bpf_redirect_map bpf_tail_call tp blocks rid qps Hrid Hqps b eq_refl Hids Hwf Hmono
    ncpus arrivals m Ha Hm) as (H1 & H2 & H3).
  split_and!; [exact H1|eauto|]. intros t. apply counted_sum; [exact H2|]. intros cpu.
  pose proof (counted_on_bound ktime bpf_redirect_map bpf_tail_call tp blocks rid qps Hrid Hqps b eq_refl Hids Hwf
    Hmono ncpus arrivals m cpu (RateState 0 0) t Ha Hm (Hfresh cpu)) as Hle.
  etransitivity; [exact Hle|]. unfold budget. simpl. bool_lia.
Qed.

(** ** Witnesses *)

Definition limited_block : route_block :=
  RouteBlock (zereh_hash_domain (str "t.example.com") ZEREH_HASH_FNV1A) (str "t.example.com")
    (AppFilters [] 0 [] 0 1 127 1 255 0 7 0 0 0 0 0 0 1) (RouteKernelSpace 5302).

Definition sample_machine : machine (lpm_list Z) (farray 1024 Z) (farray 1 rate_state) :=
  Machine [] (fun _ => 0) (fun _ _ => RateState 0 0) 0.

Definition sample_arrivals : list (nat * bytes) :=
  [(0%nat, sample_packet); (1%nat, sample_packet); (0%nat, sample_packet)].

Lemma sample_arrivals_ok : arrivals_ok 2 sample_arrivals.
Proof.
  unfold arrivals_ok. do 3 (apply Forall_cons; split;
    [split; [simpl; lia|split; [exact sample_packet_bytes|exact sample_length]]|]). constructor.
Qed.

Lemma limited_block_wf : Forall block_wf [limited_block].
Proof. constructor; [|constructor]. constructor; [constructor; reflexivity|]. unfold word. simpl. lia. Qed.

Lemma rate_limit_across_cpus_witness :
  counted 0 (rate_log (fun _ => 0) (fun q => q) (fun _ => false) sample_params [limited_block] 0 sample_arrivals
    sample_machine) <= 2 * 1.
Proof.
  apply (rate_limit_across_cpus (RS := farray 1 rate_state) (fun _ => 0) (fun q => q) (fun _ => false)
    sample_params [limited_block] limited_block 2 sample_arrivals sample_machine).
  - left.
  - exact limited_block_wf.
  - by constructor.
  - simpl. lia.
  - simpl. lia.
  - done.
  - done.
  - done.
  - exact sample_arrivals_ok.
Defined.

(** The bound is reached: each of two CPUs serves one query of this second. *)
Example each_cpu_counts_alone :
  rate_log (fun _ => 0) (fun q => q) (fun _ => false) sample_params [limited_block] 0 sample_arrivals
    sample_machine = [(0%nat, 0, true); (1%nat, 0, true); (0%nat, 0, false)].
Proof. vm_compute. reflexivity. Qed.
