(* ===== verification/Config.v ===== *)
(** * control/config.h and config.c: the configuration

    The enumerations, a route and the whole configuration as records, and the defaults.
    An assignment [cfg->f = v] is [cfg <| f := v |>].
    Character arrays are the C strings they hold; the arrays with a counter
    ([bloom_seeds], [blacklist], [routes]) are the lists of their first
    [count] elements. *)
From S2P Require Import Prelude CLib Hash.
#[local] Open Scope Z_scope.

Definition ZEREH_MAX_ROUTES : nat := 1024.
Definition ZEREH_MAX_BLACKLIST : nat := 1024.
Definition ZEREH_MAX_PATTERN_LEN : nat := 128.
Definition ZEREH_MAX_CIDR_LEN : nat := 64.
Definition ZEREH_MAX_HASH_ALGO_LEN : nat := 32.
Definition ZEREH_MAX_BLOOM_SEEDS : nat := 32.
Definition ZEREH_MAX_PROG_NAME : nat := 64.
Definition IFNAMSIZ : nat := 16.
Definition PATH_MAX : nat := 4096.

Inductive zereh_target_type : Type :=
| ZEREH_TARGET_USER_SPACE
| ZEREH_TARGET_KERNEL_SPACE
| ZEREH_TARGET_XDP_PROG.

Inductive zereh_default_action : Type :=
| ZEREH_ACTION_PASS
| ZEREH_ACTION_DROP.

Inductive zereh_xdp_mode : Type :=
| ZEREH_XDP_MODE_NATIVE
| ZEREH_XDP_MODE_SKB
| ZEREH_XDP_MODE_OFFLOAD.

#[global] Instance zereh_target_type_eq_dec : EqDecision zereh_target_type.
Proof. solve_decision. Defined.
#[global] Instance zereh_default_action_eq_dec : EqDecision zereh_default_action.
Proof. solve_decision. Defined.
#[global] Instance zereh_xdp_mode_eq_dec : EqDecision zereh_xdp_mode.
Proof. solve_decision. Defined.

(** [enum zereh_rrtype_mask] *)
Definition ZEREH_RRTYPE_A : Z := Z.shiftl 1 0.
Definition ZEREH_RRTYPE_AAAA : Z := Z.shiftl 1 1.
Definition ZEREH_RRTYPE_TXT : Z := Z.shiftl 1 2.
Definition ZEREH_RRTYPE_ANY : Z := Z.shiftl 1 3.

(** ** Routes *)

Record zereh_route : Type := ZerehRoute {
  r_domain : bytes;
  r_hash : Z;
  r_target : zereh_target_type;
  r_xsk_queue : Z;
  r_kernel_port : Z;
  r_prog_index : Z;
  r_prog_name : bytes;
  r_prefix : bytes;
  r_suffix : bytes;
  r_min_labels : Z;
  r_max_labels : Z;
  r_qname_min_len : Z;
  r_qname_max_len : Z;
  r_rrtype_mask : Z;
  r_pow_enabled : Z;
  r_pow_difficulty : Z;
  r_pow_time_window : Z;
  r_bloom_enabled : Z;
  r_bloom_size : Z;
  r_bloom_hash_functions : Z;
  r_bloom_time_window : Z;
  r_bloom_seeds : list bytes;
  r_rate_limit_qps : Z
}.

#[global] Instance zereh_route_eta : Eta zereh_route := fun x =>
  ZerehRoute (r_domain x) (r_hash x) (r_target x) (r_xsk_queue x) (r_kernel_port x)
    (r_prog_index x) (r_prog_name x) (r_prefix x) (r_suffix x) (r_min_labels x)
    (r_max_labels x) (r_qname_min_len x) (r_qname_max_len x) (r_rrtype_mask x)
    (r_pow_enabled x) (r_pow_difficulty x) (r_pow_time_window x) (r_bloom_enabled x)
    (r_bloom_size x) (r_bloom_hash_functions x) (r_bloom_time_window x) (r_bloom_seeds x)
    (r_rate_limit_qps x).

(** ** The configuration *)

Record zereh_config : Type := ZerehConfig {
  c_interface : bytes;
  c_template_path : bytes;
  c_generated_source : bytes;
  c_generated_object : bytes;
  c_xdp_section : bytes;
  c_xdp_mode : zereh_xdp_mode;
  c_default_action : zereh_default_action;
  c_max_packet_size : Z;
  c_default_kernel_port : Z;
  c_allowed_opcode_mask : Z;
  c_drop_truncated : Z;
  c_hash_algorithm : bytes;
  c_hash_algo : zereh_hash_algorithm;
  c_optimize_jump_tables : Z;
  c_inline_checksums : Z;
  c_blacklist : list bytes;
  c_routes : list zereh_route
}.

#[global] Instance zereh_config_eta : Eta zereh_config := fun x =>
  ZerehConfig (c_interface x) (c_template_path x) (c_generated_source x)
    (c_generated_object x) (c_xdp_section x) (c_xdp_mode x) (c_default_action x)
    (c_max_packet_size x) (c_default_kernel_port x) (c_allowed_opcode_mask x)
    (c_drop_truncated x) (c_hash_algorithm x) (c_hash_algo x) (c_optimize_jump_tables x)
    (c_inline_checksums x) (c_blacklist x) (c_routes x).

Definition zereh_config_init_defaults : zereh_config := {|
  c_interface := snprintf_s IFNAMSIZ (str "eth0");
  c_template_path := snprintf_s PATH_MAX (str "xdp/xdp_template.c");
  c_generated_source := snprintf_s PATH_MAX (str "build/xdp/router_generated.c");
  c_generated_object := snprintf_s PATH_MAX (str "build/xdp/router_generated.o");
  c_xdp_section := snprintf_s 64 (str "xdp_router");
  c_xdp_mode := ZEREH_XDP_MODE_NATIVE;
  c_default_action := ZEREH_ACTION_PASS;
  c_max_packet_size := 1400;
  c_default_kernel_port := 5302;
  c_allowed_opcode_mask := Z.shiftl 1 0;
  c_drop_truncated := 0;
  c_hash_algorithm := snprintf_s ZEREH_MAX_HASH_ALGO_LEN (str "FNV-1a");
  c_hash_algo := ZEREH_HASH_FNV1A;
  c_optimize_jump_tables := 1;
  c_inline_checksums := 1;
  c_blacklist := [];
  c_routes := []
|}.
