(* ===== verification/Yaml.v ===== *)
(** * control/yaml_parser.c: from a YAML document to a configuration

    libyaml is not part of the repository: a document is the function
    [get_node] from node numbers to nodes that [yaml_document_get_node] is,
    and its root.  A scalar has its bytes (which may hold NULs; the code reads
    it as a C string), a sequence the numbers of its items, a mapping the
    numbers of its keys and values.  [return -1] is [None]. *)
From S2P Require Import Prelude CLib Hash Config.
#[local] Open Scope Z_scope.

Inductive yaml_node : Type :=
| YAML_NO_NODE
| YAML_SCALAR_NODE (value : bytes)
| YAML_SEQUENCE_NODE (items : list Z)
| YAML_MAPPING_NODE (pairs : list (Z * Z)).

Record yaml_document : Type := YamlDocument {
  get_node : Z -> option yaml_node;
  get_root : option yaml_node
}.

Definition zereh_scalar (node : option yaml_node) : option bytes :=
  match node with
  | Some (YAML_SCALAR_NODE value) => Some (cstr value)
  | _ => None
  end.

Definition is_mapping (node : yaml_node) : bool :=
  match node with YAML_MAPPING_NODE _ => true | _ => false end.

(** [v = a; if (!v) v = b;] *)
Definition or_else {A} (a b : option A) : option A :=
  match a with Some _ => a | None => b end.

(** [if (v && parse(v, &r->f) != 0) return -1;] *)
Definition opt_field {A R} (v : option yaml_node) (parse : yaml_node -> option A)
    (f : R -> A) `{!Setter f} (r : R) : option R :=
  match v with
  | Some node => a ← parse node; Some (r <| f := a |>)
  | None => Some r
  end.

(** [if (v && zereh_scalar(v)) snprintf(r->f, sizeof(r->f), "%s", zereh_scalar(v));] *)
Definition opt_string {R} (v : option yaml_node) (size : nat) (f : R -> bytes) `{!Setter f}
    (r : R) : R :=
  match zereh_scalar v with
  | Some s => r <| f := snprintf_s size s |>
  | None => r
  end.

(** ** Scalars *)

Definition zereh_parse_u32 (node : yaml_node) : option Z :=
  s ← zereh_scalar (Some node);
  '(v, rest) ← strtoul s;
  if negb (bool_decide (rest = [])) || (0xffffffff <? v) then None else Some (u32 v).

Definition zereh_parse_u16 (node : yaml_node) : option Z :=
  tmp ← zereh_parse_u32 node;
  if 0xffff <? tmp then None else Some (u16 tmp).

Definition zereh_parse_u8 (node : yaml_node) : option Z :=
  tmp ← zereh_parse_u32 node;
  if 0xff <? tmp then None else Some (u8 tmp).

Definition zereh_parse_bool (node : yaml_node) : option Z :=
  s ← zereh_scalar (Some node);
  if strcasecmp_eq s (str "true") || strcasecmp_eq s (str "yes")
     || strcasecmp_eq s (str "on") || strcmp_eq s (str "1") then Some 1
  else if strcasecmp_eq s (str "false") || strcasecmp_eq s (str "no")
     || strcasecmp_eq s (str "off") || strcmp_eq s (str "0") then Some 0
  else None.

Definition zereh_rrtype_to_mask (rr : option bytes) : Z :=
  match rr with
  | None => 0
  | Some rr =>
      if strcasecmp_eq rr (str "A") then ZEREH_RRTYPE_A
      else if strcasecmp_eq rr (str "AAAA") then ZEREH_RRTYPE_AAAA
      else if strcasecmp_eq rr (str "TXT") then ZEREH_RRTYPE_TXT
      else if strcasecmp_eq rr (str "ANY") then ZEREH_RRTYPE_ANY
      else 0
  end.

Definition zereh_parse_target (target : bytes) : option zereh_target_type :=
  if strcasecmp_eq target (str "user_space") then Some ZEREH_TARGET_USER_SPACE
  else if strcasecmp_eq target (str "kernel_space") then Some ZEREH_TARGET_KERNEL_SPACE
  else if strcasecmp_eq target (str "xdp_prog") then Some ZEREH_TARGET_XDP_PROG
  else None.

Definition zereh_parse_default_action (node : yaml_node) : option zereh_default_action :=
  s ← zereh_scalar (Some node);
  if strcasecmp_eq s (str "pass") || strcasecmp_eq s (str "xdp_pass") then Some ZEREH_ACTION_PASS
  else if strcasecmp_eq s (str "drop") || strcasecmp_eq s (str "xdp_drop")
  then Some ZEREH_ACTION_DROP
  else None.

Definition zereh_parse_xdp_mode (node : yaml_node) : option zereh_xdp_mode :=
  s ← zereh_scalar (Some node);
  if strcasecmp_eq s (str "native") || strcasecmp_eq s (str "drv") then Some ZEREH_XDP_MODE_NATIVE
  else if strcasecmp_eq s (str "skb") || strcasecmp_eq s (str "generic")
  then Some ZEREH_XDP_MODE_SKB
  else if strcasecmp_eq s (str "offload") || strcasecmp_eq s (str "hw")
  then Some ZEREH_XDP_MODE_OFFLOAD
  else None.

Definition zereh_parse_hash_algorithm (node : yaml_node) (cfg : zereh_config) :
    option zereh_config :=
  s ← zereh_scalar (Some node);
  if strcasecmp_eq s (str "FNV-1a") || strcasecmp_eq s (str "fnv1a")
     || strcasecmp_eq s (str "fnv-1a")
  then Some (cfg <| c_hash_algo := ZEREH_HASH_FNV1A |>
                 <| c_hash_algorithm := snprintf_s ZEREH_MAX_HASH_ALGO_LEN (str "FNV-1a") |>)
  else if strcasecmp_eq s (str "SipHash") || strcasecmp_eq s (str "siphash")
     || strcasecmp_eq s (str "siphash24") || strcasecmp_eq s (str "siphash-2-4")
  then Some (cfg <| c_hash_algo := ZEREH_HASH_SIPHASH |>
                 <| c_hash_algorithm := snprintf_s ZEREH_MAX_HASH_ALGO_LEN (str "SipHash") |>)
  else None.

Section document.
Context (doc : yaml_document).

(** The pairs of a mapping are searched in order. *)
Fixpoint map_find (pairs : list (Z * Z)) (key : bytes) : option yaml_node :=
  match pairs with
  | [] => None
  | (k, v) :: pairs' =>
      match get_node doc k, get_node doc v with
      | Some (YAML_SCALAR_NODE value), Some v =>
          if bool_decide (value = key) then Some v else map_find pairs' key
      | _, _ => map_find pairs' key
      end
  end.

Definition zereh_map_get (map : option yaml_node) (key : bytes) : option yaml_node :=
  match map with
  | Some (YAML_MAPPING_NODE pairs) => map_find pairs key
  | _ => None
  end.

Definition get (map : yaml_node) (key : bytes) : option yaml_node := zereh_map_get (Some map) key.

(** ** Lists *)

Fixpoint rrtype_items (items : list Z) (mask : Z) : option Z :=
  match items with
  | [] => Some mask
  | it :: items' =>
      let m := zereh_rrtype_to_mask (zereh_scalar (get_node doc it)) in
      if m =? 0 then None else rrtype_items items' (Z.lor mask m)
  end.

Definition zereh_parse_rrtype_mask (node : yaml_node) : option Z :=
  match node with
  | YAML_SCALAR_NODE _ =>
      let mask := zereh_rrtype_to_mask (zereh_scalar (Some node)) in
      if mask =? 0 then None else Some mask
  | YAML_SEQUENCE_NODE items =>
      mask ← rrtype_items items 0; if mask =? 0 then None else Some mask
  | _ => None
  end.

Definition parse_opcode (node : option yaml_node) : option Z :=
  node ← node; opcode ← zereh_parse_u32 node; if 15 <? opcode then None else Some opcode.

(** [mask |= (uint16_t)(1u << opcode)] *)
Definition add_opcode (mask opcode : Z) : Z := Z.lor mask (u16 (u32 (Z.shiftl 1 opcode))).

Fixpoint opcode_items (items : list Z) (mask : Z) : option Z :=
  match items with
  | [] => Some mask
  | it :: items' => opcode ← parse_opcode (get_node doc it); opcode_items items' (add_opcode mask opcode)
  end.

(** Returns the new [cfg->allowed_opcode_mask]. *)
Definition zereh_parse_allowed_opcodes (node : yaml_node) : option Z :=
  match node with
  | YAML_SCALAR_NODE _ => opcode ← parse_opcode (Some node); Some (add_opcode 0 opcode)
  | YAML_SEQUENCE_NODE items =>
      mask ← opcode_items items 0;
      Some (if mask =? 0 then u16 (u32 (Z.shiftl 1 0)) else mask)
  | _ => None
  end.

Definition blacklist_cidr (entry : yaml_node) : option bytes :=
  match entry with
  | YAML_SCALAR_NODE _ => zereh_scalar (Some entry)
  | YAML_MAPPING_NODE _ => zereh_scalar (get entry (str "cidr"))
  | _ => None
  end.

(** [acc] is [cfg->blacklist] up to [cfg->blacklist_count]. *)
Fixpoint blacklist_items (items : list Z) (acc : list bytes) : option (list bytes) :=
  match items with
  | [] => Some acc
  | it :: items' =>
      if (ZEREH_MAX_BLACKLIST <=? length acc)%nat then None
      else
        match get_node doc it with
        | None => blacklist_items items' acc
        | Some entry =>
            cidr ← blacklist_cidr entry;
            if bool_decide (cidr = []) then None
            else blacklist_items items' (acc ++ [snprintf_s ZEREH_MAX_CIDR_LEN cidr])
        end
  end.

Definition zereh_parse_blacklist (node : yaml_node) : option (list bytes) :=
  match node with
  | YAML_SEQUENCE_NODE items => blacklist_items items []
  | _ => None
  end.

Definition zereh_parse_route_dns_types (dns_types : yaml_node) (route : zereh_route) :
    option zereh_route :=
  if negb (is_mapping dns_types) then None
  else
    allow_mask ← (match get dns_types (str "allow") with
                  | Some n => zereh_parse_rrtype_mask n
                  | None => Some (r_rrtype_mask route)
                  end);
    deny_mask ← (match get dns_types (str "deny") with
                 | Some n => zereh_parse_rrtype_mask n
                 | None => Some 0
                 end);
    let mask := Z.land allow_mask (u32 (Z.lnot deny_mask)) in
    if mask =? 0 then None else Some (route <| r_rrtype_mask := mask |>).

(** [acc] is [route->bloom_seeds] up to [route->bloom_seed_count]. *)
Fixpoint seed_items (items : list Z) (acc : list bytes) : option (list bytes) :=
  match items with
  | [] => Some acc
  | it :: items' =>
      if (ZEREH_MAX_BLOOM_SEEDS <=? length acc)%nat then None
      else
        seed ← zereh_scalar (get_node doc it);
        if bool_decide (seed = []) then None
        else seed_items items' (acc ++ [snprintf_s (ZEREH_MAX_DOMAIN_LEN + 1) seed])
  end.

Definition zereh_parse_bloom_seeds (node : yaml_node) : option (list bytes) :=
  match node with
  | YAML_SEQUENCE_NODE items => seed_items items []
  | _ => None
  end.

(** ** Routes *)

(** The route under construction with the [has_*] variables. *)
Record route_state : Type := RouteState {
  rs_route : zereh_route;
  has_min_labels : bool;
  has_max_labels : bool;
  has_min_length : bool;
  has_max_length : bool
}.

#[local] Instance route_state_eta : Eta route_state := fun x =>
  RouteState (rs_route x) (has_min_labels x) (has_max_labels x) (has_min_length x)
    (has_max_length x).

(** A step on the route alone. *)
Definition on_route (f : zereh_route -> option zereh_route) (st : route_state) :
    option route_state :=
  r ← f (rs_route st); Some (st <| rs_route := r |>).

(** [if (v && parse(v, &route->f) != 0) return -1; if (v) has = 1;] *)
Definition opt_bound {A} (v : option yaml_node) (parse : yaml_node -> option A)
    (f : zereh_route -> A) `{!Setter f} (has : route_state -> bool) `{!Setter has}
    (st : route_state) : option route_state :=
  r ← opt_field v parse f (rs_route st);
  let st := st <| rs_route := r |> in
  Some (match v with Some _ => st <| has := true |> | None => st end).

(** [if (node && node->type == YAML_MAPPING_NODE) { ... }] *)
Definition in_mapping {R} (node : option yaml_node) (body : yaml_node -> R -> option R) (r : R) :
    option R :=
  match node with
  | Some n => if is_mapping n then body n r else Some r
  | None => Some r
  end.

Definition filter_pow (node : yaml_node) (r : zereh_route) : option zereh_route :=
  r ← opt_field (get node (str "enabled")) zereh_parse_bool r_pow_enabled r;
  r ← opt_field (get node (str "difficulty")) zereh_parse_u8 r_pow_difficulty r;
  opt_field (get node (str "time_window")) zereh_parse_u16 r_pow_time_window r.

Definition filter_qname_rules (node : yaml_node) (st : route_state) : option route_state :=
  let r := opt_string (get node (str "prefix_match")) (ZEREH_MAX_PATTERN_LEN + 1) r_prefix
             (rs_route st) in
  let r := opt_string (get node (str "suffix_match")) (ZEREH_MAX_PATTERN_LEN + 1) r_suffix r in
  let st := st <| rs_route := r |> in
  st ← opt_bound (get node (str "min_labels")) zereh_parse_u8 r_min_labels has_min_labels st;
  st ← opt_bound (get node (str "max_labels")) zereh_parse_u8 r_max_labels has_max_labels st;
  st ← opt_bound (get node (str "min_length")) zereh_parse_u16 r_qname_min_len has_min_length st;
  opt_bound (get node (str "max_length")) zereh_parse_u16 r_qname_max_len has_max_length st.

Definition filter_rate_limit (node : yaml_node) (r : zereh_route) : option zereh_route :=
  opt_field (get node (str "qps")) zereh_parse_u32 r_rate_limit_qps r.

Definition filter_bloom (node : yaml_node) (r : zereh_route) : option zereh_route :=
  r ← opt_field (get node (str "enabled")) zereh_parse_bool r_bloom_enabled r;
  r ← opt_field (get node (str "size")) zereh_parse_u32 r_bloom_size r;
  r ← opt_field (get node (str "hash_functions")) zereh_parse_u8 r_bloom_hash_functions r;
  r ← opt_field (get node (str "time_window")) zereh_parse_u16 r_bloom_time_window r;
  let v := or_else (or_else (get node (str "allow_qnames")) (get node (str "seed_qnames")))
             (get node (str "seeds")) in
  opt_field v zereh_parse_bloom_seeds r_bloom_seeds r.

Definition zereh_parse_route_filters (filters : yaml_node) (st : route_state) :
    option route_state :=
  if negb (is_mapping filters) then None
  else
    st ← on_route (in_mapping (get filters (str "pow")) filter_pow) st;
    st ← in_mapping (get filters (str "qname_rules")) filter_qname_rules st;
    st ← on_route (in_mapping (get filters (str "rate_limit")) filter_rate_limit) st;
    st ← on_route (fun r => match get filters (str "dns_types") with
                            | Some n => zereh_parse_route_dns_types n r
                            | None => Some r
                            end) st;
    on_route (in_mapping (get filters (str "bloom_filter")) filter_bloom) st.

(** The defaults, the domain with its hash, and the target. *)
Definition route_identity (node : yaml_node) (cfg : zereh_config) : option zereh_route :=
  domain ← zereh_scalar (get node (str "domain"));
  if bool_decide (domain = []) then None
  else
    let domain := snprintf_s (ZEREH_MAX_DOMAIN_LEN + 1) domain in
    target ← zereh_scalar (or_else (get node (str "target_type")) (get node (str "target")));
    target ← zereh_parse_target target;
    Some {|
      r_domain := domain;
      r_hash := zereh_hash_domain domain (c_hash_algo cfg);
      r_target := target;
      r_xsk_queue := 0;
      r_kernel_port := c_default_kernel_port cfg;
      r_prog_index := 0;
      r_prog_name := [];
      r_prefix := [];
      r_suffix := [];
      r_min_labels := 0;
      r_max_labels := 0;
      r_qname_min_len := 0;
      r_qname_max_len := 0;
      r_rrtype_mask := Z.lor (Z.lor ZEREH_RRTYPE_A ZEREH_RRTYPE_AAAA) ZEREH_RRTYPE_TXT;
      r_pow_enabled := 1;
      r_pow_difficulty := 0;
      r_pow_time_window := 0;
      r_bloom_enabled := 0;
      r_bloom_size := 1024;
      r_bloom_hash_functions := 3;
      r_bloom_time_window := 0;
      r_bloom_seeds := [];
      r_rate_limit_qps := 0
    |}.

(** The destination of the route. *)
Definition route_destination (node : yaml_node) (r : zereh_route) : option zereh_route :=
  r ← opt_field (or_else (get node (str "xsk_map_index")) (get node (str "xsk_queue")))
        zereh_parse_u32 r_xsk_queue r;
  r ← opt_field (or_else (get node (str "forward_port")) (get node (str "kernel_port")))
        zereh_parse_u16 r_kernel_port r;
  r ← opt_field (or_else (get node (str "prog_array_index")) (get node (str "prog_index")))
        zereh_parse_u32 r_prog_index r;
  Some (opt_string (or_else (get node (str "prog_name")) (get node (str "xdp_prog_name")))
          ZEREH_MAX_PROG_NAME r_prog_name r).

(** The filters written directly in the route. *)
Definition route_inline_filters (node : yaml_node) (st : route_state) : option route_state :=
  let r := opt_string (get node (str "prefix")) (ZEREH_MAX_PATTERN_LEN + 1) r_prefix
             (rs_route st) in
  let r := opt_string (get node (str "suffix")) (ZEREH_MAX_PATTERN_LEN + 1) r_suffix r in
  let st := st <| rs_route := r |> in
  st ← opt_bound (get node (str "min_labels")) zereh_parse_u8 r_min_labels has_min_labels st;
  st ← opt_bound (get node (str "max_labels")) zereh_parse_u8 r_max_labels has_max_labels st;
  st ← opt_bound (or_else (get node (str "qname_min_len")) (get node (str "min_length")))
         zereh_parse_u16 r_qname_min_len has_min_length st;
  st ← opt_bound (or_else (get node (str "qname_max_len")) (get node (str "max_length")))
         zereh_parse_u16 r_qname_max_len has_max_length st;
  st ← on_route (opt_field (get node (str "pow_difficulty")) zereh_parse_u8 r_pow_difficulty) st;
  on_route (opt_field (get node (str "allow_types")) zereh_parse_rrtype_mask r_rrtype_mask) st.

(** A bound that is missing takes the value of the other one, or the pair
    takes the default range. *)
Definition fill_bounds (has_min has_max : bool) (dmin dmax vmin vmax : Z) : Z * Z :=
  if negb has_min && negb has_max then (dmin, dmax)
  else if has_min && negb has_max then (vmin, vmin)
  else if negb has_min && has_max then (vmax, vmax)
  else (vmin, vmax).

Definition route_bounds (st : route_state) : option zereh_route :=
  let r := rs_route st in
  let '(lo, hi) := fill_bounds (has_min_labels st) (has_max_labels st) 1 127
                     (r_min_labels r) (r_max_labels r) in
  let r := r <| r_min_labels := lo |> <| r_max_labels := hi |> in
  let '(lo, hi) := fill_bounds (has_min_length st) (has_max_length st) 1 255
                     (r_qname_min_len r) (r_qname_max_len r) in
  let r := r <| r_qname_min_len := lo |> <| r_qname_max_len := hi |> in
  if (r_min_labels r =? 0) || (r_max_labels r =? 0) || (r_max_labels r <? r_min_labels r)
     || (127 <? r_max_labels r) then None
  else if (r_qname_min_len r =? 0) || (255 <? r_qname_max_len r)
     || (r_qname_max_len r <? r_qname_min_len r) then None
  else Some r.

Definition route_pow (r : zereh_route) : option zereh_route :=
  let r := if r_pow_enabled r =? 0
           then r <| r_pow_difficulty := 0 |> <| r_pow_time_window := 0 |> else r in
  if 63 <? r_pow_difficulty r then None else Some r.

Definition route_bloom (r : zereh_route) : option zereh_route :=
  if r_bloom_enabled r =? 0 then
    Some (r <| r_bloom_size := 0 |> <| r_bloom_hash_functions := 0 |>
            <| r_bloom_time_window := 0 |> <| r_bloom_seeds := [] |>)
  else
    let r := if r_bloom_size r =? 0 then r <| r_bloom_size := 1024 |> else r in
    let r := if r_bloom_hash_functions r =? 0 then r <| r_bloom_hash_functions := 3 |> else r in
    if (65536 <? r_bloom_size r) || (r_bloom_size r <? 64) then None
    else if 8 <? r_bloom_hash_functions r then None
    else Some (if (length (r_bloom_seeds r) =? 0)%nat
               then r <| r_bloom_seeds := [take ZEREH_MAX_DOMAIN_LEN (r_domain r)] |> else r).

Definition zereh_parse_route (node : option yaml_node) (cfg : zereh_config) : option zereh_route :=
  node ← node;
  if negb (is_mapping node) then None
  else
    r ← route_identity node cfg;
    r ← route_destination node r;
    st ← route_inline_filters node (RouteState r false false false false);
    st ← (match get node (str "filters") with
          | Some v => zereh_parse_route_filters v st
          | None => Some st
          end);
    r ← route_bounds st;
    r ← route_pow r;
    route_bloom r.

(** [acc] is [cfg->routes] up to [cfg->route_count]. *)
Fixpoint route_items (items : list Z) (cfg : zereh_config) (acc : list zereh_route) :
    option (list zereh_route) :=
  match items with
  | [] => Some acc
  | it :: items' =>
      if (ZEREH_MAX_ROUTES <=? length acc)%nat then None
      else
        r ← zereh_parse_route (get_node doc it) cfg;
        route_items items' cfg (acc ++ [r])
  end.

Definition zereh_parse_routes (node : yaml_node) (cfg : zereh_config) : option zereh_config :=
  match node with
  | YAML_SEQUENCE_NODE items =>
      routes ← route_items items cfg []; Some (cfg <| c_routes := routes |>)
  | _ => None
  end.

(** ** The document *)

(** The same three keys in the [global] section and at the root. *)
Definition global_keys (node : yaml_node) (cfg : zereh_config) : option zereh_config :=
  let cfg := opt_string (get node (str "interface")) IFNAMSIZ c_interface cfg in
  cfg ← opt_field (get node (str "xdp_mode")) zereh_parse_xdp_mode c_xdp_mode cfg;
  opt_field (get node (str "default_action")) zereh_parse_default_action c_default_action cfg.

Definition zereh_parse_global_section (root : yaml_node) (cfg : zereh_config) :
    option zereh_config :=
  cfg ← in_mapping (get root (str "global")) global_keys cfg;
  global_keys root cfg.

(** [blacklist_key] is the name of the blacklist in the section. *)
Definition filter_keys (blacklist_key : bytes) (node : yaml_node) (cfg : zereh_config) :
    option zereh_config :=
  cfg ← opt_field (get node blacklist_key) zereh_parse_blacklist c_blacklist cfg;
  cfg ← opt_field (get node (str "max_packet_size")) zereh_parse_u32 c_max_packet_size cfg;
  cfg ← opt_field (get node (str "allowed_opcodes")) zereh_parse_allowed_opcodes
          c_allowed_opcode_mask cfg;
  opt_field (get node (str "drop_truncated")) zereh_parse_bool c_drop_truncated cfg.

Definition zereh_parse_global_filters (root : yaml_node) (cfg : zereh_config) :
    option zereh_config :=
  cfg ← in_mapping (get root (str "global_filters")) (filter_keys (str "ip_blacklist")) cfg;
  filter_keys (str "blacklist") root cfg.

Definition codegen_keys (node : yaml_node) (cfg : zereh_config) : option zereh_config :=
  cfg ← (match get node (str "hash_algorithm") with
         | Some v => zereh_parse_hash_algorithm v cfg
         | None => Some cfg
         end);
  cfg ← opt_field (get node (str "optimize_jump_tables")) zereh_parse_bool
          c_optimize_jump_tables cfg;
  opt_field (get node (str "inline_checksums")) zereh_parse_bool c_inline_checksums cfg.

Definition zereh_parse_codegen_options (root : yaml_node) (cfg : zereh_config) :
    option zereh_config :=
  in_mapping (get root (str "codegen_options")) codegen_keys cfg.

(** The part of [zereh_parse_config_yaml] after the document is loaded. *)
Definition parse_document (cfg : zereh_config) : option zereh_config :=
  root ← get_root doc;
  if negb (is_mapping root) then None
  else
    cfg ← zereh_parse_global_section root cfg;
    cfg ← zereh_parse_global_filters root cfg;
    let cfg := opt_string (get root (str "template_path")) PATH_MAX c_template_path cfg in
    let cfg := opt_string (get root (str "generated_source")) PATH_MAX c_generated_source cfg in
    let cfg := opt_string (get root (str "generated_object")) PATH_MAX c_generated_object cfg in
    let cfg := opt_string (get root (str "xdp_section")) 64 c_xdp_section cfg in
    cfg ← opt_field (get root (str "default_kernel_port")) zereh_parse_u16
            c_default_kernel_port cfg;
    cfg ← zereh_parse_codegen_options root cfg;
    node ← get root (str "routes");
    cfg ← zereh_parse_routes node cfg;
    if (length (c_routes cfg) =? 0)%nat then None else Some cfg.
End document.

(** [yaml_parser_load] of the file at a path; [None] when the file cannot be
    opened or parsed. *)
Definition zereh_parse_config_yaml (yaml_load : bytes -> option yaml_document) (path : bytes) :
    option zereh_config :=
  doc ← yaml_load path;
  parse_document doc zereh_config_init_defaults.

(** ** Scalars *)

Lemma bind_some_inv {A B} (m : option A) (f : A -> option B) b :
  m ≫= f = Some b -> exists a, m = Some a /\ f a = Some b.
Proof. destruct m as [a|]; [by exists a|done]. Qed.

(** [orun] runs the successful steps of the hypotheses. *)
Ltac orun1 :=
  match goal with
  | H : mbind _ _ = Some _ |- _ =>
      apply bind_some_inv in H;
      let a := fresh "a" in let Ha := fresh "Hrun" in destruct H as (a & Ha & H)
  | H : (if ?b then None else _) = Some _ |- _ => destruct b eqn:?; [discriminate H|]
  | H : Some _ = Some _ |- _ => injection H as H; subst
  | H : None = Some _ |- _ => discriminate H
  end.
Ltac orun := repeat orun1.

Lemma parse_u32_word n v : zereh_parse_u32 n = Some v -> word 32 v.
Proof.
  unfold zereh_parse_u32. intros H. orun. destruct a0 as [w rest]. orun. apply u32_word.
Qed.

Lemma parse_u16_word n v : zereh_parse_u16 n = Some v -> word 16 v.
Proof. unfold zereh_parse_u16. intros H. orun. apply u16_word. Qed.

Lemma parse_u8_word n v : zereh_parse_u8 n = Some v -> word 8 v.
Proof. unfold zereh_parse_u8. intros H. orun. apply u8_word. Qed.

Lemma cstr_no_nul s : Forall (fun c => c <> 0) (cstr s).
Proof.
  induction s as [|c s IH]; simpl; [by constructor|].
  destruct (Z.eqb_spec c 0); by constructor.
Qed.

Lemma cstr_id s : Forall (fun c => c <> 0) s -> cstr s = s.
Proof.
  induction 1 as [|c s Hc Hs IH]; simpl; [done|]. by replace (c =? 0) with false by lia; rewrite IH.
Qed.

Lemma fmt_u_no_nul n : 0 <= n < 2 ^ 64 -> Forall (fun c => c <> 0) (fmt_u n).
Proof.
  intros Hn. destruct (fmt_u_spec n Hn) as (ds & -> & _ & Hds & _).
  eapply Forall_impl; [exact Hds|]. simpl. unfold isdigit. lia.
Qed.

Lemma parse_u32_fmt_u n :
  word 32 n -> zereh_parse_u32 (YAML_SCALAR_NODE (fmt_u n)) = Some n.
Proof.
  unfold word. intros Hn. unfold zereh_parse_u32. simpl.
  rewrite cstr_id by (apply fmt_u_no_nul; lia). rewrite strtoul_fmt_u by lia. simpl.
  replace (0xffffffff <? n) with false by lia. f_equal. by apply u32_id.
Qed.

Lemma parse_bool_01 n v : zereh_parse_bool n = Some v -> v = 0 \/ v = 1.
Proof.
  unfold zereh_parse_bool. intros H. orun.
  repeat match goal with H : (if ?b then _ else _) = Some _ |- _ => destruct b end;
    simplify_eq; auto.
Qed.

(** ** Field assignments *)

Lemma opt_field_inv {A R} v (parse : yaml_node -> option A) (f : R -> A) `{!Setter f} r r' :
  opt_field v parse f r = Some r' ->
  r' = r \/ exists n a, v = Some n /\ parse n = Some a /\ r' = r <| f := a |>.
Proof. unfold opt_field. destruct v as [n|]; intros H; orun; eauto 10. Qed.

Lemma opt_string_inv {R} v size (f : R -> bytes) `{!Setter f} r :
  opt_string v size f r = r \/
  exists s, zereh_scalar v = Some s /\ opt_string v size f r = r <| f := snprintf_s size s |>.
Proof. unfold opt_string. destruct (zereh_scalar v); eauto. Qed.

Lemma scalar_no_nul v s : zereh_scalar v = Some s -> Forall (fun c => c <> 0) s.
Proof. destruct v as [[]|]; simpl; intros H; simplify_eq. apply cstr_no_nul. Qed.

(** A C string held in an array of [size] bytes. *)
Definition held (size : nat) (s : bytes) : Prop :=
  (length s < size)%nat /\ Forall (fun c => c <> 0) s.

Lemma held_snprintf v size s :
  (0 < size)%nat -> zereh_scalar v = Some s -> held size (snprintf_s size s).
Proof.
  intros Hs Hv. split; [pose proof (length_snprintf_s size s); lia|].
  apply Forall_take. by eapply scalar_no_nul.
Qed.

Lemma held_nil size : (0 < size)%nat -> held size [].
Proof. split; [done|by constructor]. Qed.

(** ** Masks *)

Lemma rrtype_to_mask_cases rr :
  zereh_rrtype_to_mask rr ∈ [0; 1; 2; 4; 8].
Proof.
  unfold zereh_rrtype_to_mask. destruct rr as [rr|]; [|by left].
  repeat destruct_if; by apply (bool_decide_unpack _).
Qed.

Lemma rrtype_to_mask_word rr : word 4 (zereh_rrtype_to_mask rr).
Proof.
  pose proof (rrtype_to_mask_cases rr) as H. unfold word.
  repeat (apply elem_of_cons in H as [H|H]; [lia|]). by apply not_elem_of_nil in H.
Qed.

Section lemmas.
Context (doc : yaml_document).

Lemma rrtype_items_word items mask m :
  word 4 mask -> rrtype_items doc items mask = Some m -> word 4 m.
Proof.
  revert mask. induction items as [|it items IH]; intros mask Hm H; simpl in H; [by simplify_eq|].
  destruct_if; [done|]. eapply IH, H. apply lor_word; [lia|done|apply rrtype_to_mask_word].
Qed.

Lemma parse_rrtype_mask_word n m :
  zereh_parse_rrtype_mask doc n = Some m -> word 4 m /\ m <> 0.
Proof.
  unfold zereh_parse_rrtype_mask. intros H. destruct n; try done.
  - cbv zeta in H. destruct_if; simplify_eq. split; [apply rrtype_to_mask_word|lia].
  - orun. split; [|lia]. eapply rrtype_items_word; [|done]. unfold word. lia.
Qed.

(** ** What every step of [zereh_parse_route] keeps *)

Record route_raw (cfg : zereh_config) (r : zereh_route) : Prop := {
  raw_domain : held (ZEREH_MAX_DOMAIN_LEN + 1) (r_domain r);
  raw_nonempty : r_domain r <> [];
  raw_hash : r_hash r = zereh_hash_domain (r_domain r) (c_hash_algo cfg);
  raw_queue : word 32 (r_xsk_queue r);
  raw_port : word 16 (r_kernel_port r);
  raw_index : word 32 (r_prog_index r);
  raw_name : held ZEREH_MAX_PROG_NAME (r_prog_name r);
  raw_prefix : held (ZEREH_MAX_PATTERN_LEN + 1) (r_prefix r);
  raw_suffix : held (ZEREH_MAX_PATTERN_LEN + 1) (r_suffix r);
  raw_min_labels : word 8 (r_min_labels r);
  raw_max_labels : word 8 (r_max_labels r);
  raw_min_len : word 16 (r_qname_min_len r);
  raw_max_len : word 16 (r_qname_max_len r);
  raw_mask : word 4 (r_rrtype_mask r) /\ r_rrtype_mask r <> 0;
  raw_pow_enabled : r_pow_enabled r = 0 \/ r_pow_enabled r = 1;
  raw_pow_difficulty : word 8 (r_pow_difficulty r);
  raw_pow_window : word 16 (r_pow_time_window r);
  raw_bloom_enabled : r_bloom_enabled r = 0 \/ r_bloom_enabled r = 1;
  raw_bloom_size : word 32 (r_bloom_size r);
  raw_bloom_hf : word 8 (r_bloom_hash_functions r);
  raw_bloom_window : word 16 (r_bloom_time_window r);
  raw_seeds : (length (r_bloom_seeds r) <= ZEREH_MAX_BLOOM_SEEDS)%nat;
  raw_seed : Forall (fun s => s <> [] /\ held (ZEREH_MAX_DOMAIN_LEN + 1) s) (r_bloom_seeds r);
  raw_qps : word 32 (r_rate_limit_qps r)
}.

Lemma seed_items_ok items acc seeds :
  (length acc <= ZEREH_MAX_BLOOM_SEEDS)%nat ->
  Forall (fun s => s <> [] /\ held (ZEREH_MAX_DOMAIN_LEN + 1) s) acc ->
  seed_items doc items acc = Some seeds ->
  (length seeds <= ZEREH_MAX_BLOOM_SEEDS)%nat /\
  Forall (fun s => s <> [] /\ held (ZEREH_MAX_DOMAIN_LEN + 1) s) seeds.
Proof.
  revert acc. induction items as [|it items IH]; intros acc Hl Ha H; cbn [seed_items] in H; [by simplify_eq|].
  orun. case_bool_decide as Hne; [done|]. eapply IH, H.
  - rewrite length_app. unfold ZEREH_MAX_BLOOM_SEEDS in *. simpl. lia.
  - apply Forall_app. split; [done|]. apply Forall_singleton. split.
    + unfold snprintf_s. by destruct a.
    + eapply held_snprintf; [apply Nat.lt_0_succ|done].
Qed.

Lemma parse_bloom_seeds_ok n seeds :
  zereh_parse_bloom_seeds doc n = Some seeds ->
  (length seeds <= ZEREH_MAX_BLOOM_SEEDS)%nat /\
  Forall (fun s => s <> [] /\ held (ZEREH_MAX_DOMAIN_LEN + 1) s) seeds.
Proof.
  unfold zereh_parse_bloom_seeds. destruct n; try done. apply seed_items_ok; [apply Nat.le_0_l|constructor].
Qed.

Context (cfg : zereh_config).

(** [raw_set]: one assignment keeps [route_raw], given what is known of the
    value. *)
Ltac raw_set :=
  intros; match goal with
          | H : route_raw _ ?r |- route_raw _ (@setf _ _ _ _ _ ?r) => destruct H
          end;
  constructor; cbn; eauto using parse_u32_word, parse_u16_word, parse_u8_word, parse_bool_01,
    parse_rrtype_mask_word.

Lemma opt_field_raw {A} v (parse : yaml_node -> option A) f `{!Setter f} r r' :
  opt_field v parse f r = Some r' ->
  (forall n a, parse n = Some a -> route_raw cfg (r <| f := a |>)) ->
  route_raw cfg r -> route_raw cfg r'.
Proof. intros H Hf Hr. apply opt_field_inv in H as [->|(n & a & _ & Hp & ->)]; eauto. Qed.

Lemma opt_string_raw v size f `{!Setter f} r :
  (0 < size)%nat ->
  (forall s, held size s -> route_raw cfg r -> route_raw cfg (r <| f := s |>)) ->
  route_raw cfg r -> route_raw cfg (opt_string v size f r).
Proof.
  intros Hs Hf Hr. destruct (opt_string_inv v size f r) as [->|(s & Hv & ->)]; [done|].
  apply Hf; [|done]. by eapply held_snprintf.
Qed.

(** [raw]: chain the assignments of a block. *)
Ltac raw :=
  repeat match goal with
  | H : opt_field _ _ _ ?r = Some ?r', Hr : route_raw cfg ?r |- _ =>
      apply opt_field_raw in H; [|solve [raw_set]|done]
  | |- route_raw cfg (opt_string _ _ _ _) =>
      apply opt_string_raw; [apply Nat.lt_0_succ|solve [raw_set]|]
  end; try done.

Lemma filter_pow_raw n r r' : filter_pow doc n r = Some r' -> route_raw cfg r -> route_raw cfg r'.
Proof. unfold filter_pow. intros H Hr. orun. raw. Qed.

Lemma filter_rate_limit_raw n r r' :
  filter_rate_limit doc n r = Some r' -> route_raw cfg r -> route_raw cfg r'.
Proof. unfold filter_rate_limit. intros H Hr. raw. Qed.

Lemma filter_bloom_raw n r r' :
  filter_bloom doc n r = Some r' -> route_raw cfg r -> route_raw cfg r'.
Proof.
  unfold filter_bloom. intros H Hr. orun. raw.
  apply opt_field_raw in H; [done| |done]. intros n' seeds [Hl Hs]%parse_bloom_seeds_ok. raw_set.
Qed.

Lemma dns_types_raw n r r' :
  zereh_parse_route_dns_types doc n r = Some r' -> route_raw cfg r -> route_raw cfg r'.
Proof.
  unfold zereh_parse_route_dns_types. intros H Hr. orun.
  assert (word 4 a) by (destruct (get doc n (str "allow"));
    [by eapply parse_rrtype_mask_word|simplify_eq; apply Hr]).
  destruct Hr. constructor; cbn; try done. split; [by apply land_word_l|lia].
Qed.

Lemma in_mapping_raw node body r r' :
  in_mapping node body r = Some r' ->
  (forall n, body n r = Some r' -> route_raw cfg r -> route_raw cfg r') ->
  route_raw cfg r -> route_raw cfg r'.
Proof.
  unfold in_mapping. intros H Hb Hr. destruct node as [n|]; [|by simplify_eq].
  destruct (is_mapping n); [eauto|by simplify_eq].
Qed.

Lemma destination_raw n r r' :
  route_destination doc n r = Some r' -> route_raw cfg r -> route_raw cfg r'.
Proof. unfold route_destination. intros H Hr. orun. raw. Qed.

(** The same for the steps that also set a flag. *)
Lemma opt_bound_raw {A} v (parse : yaml_node -> option A) f `{!Setter f} has `{!Setter has} st st' :
  opt_bound v parse f has st = Some st' ->
  (forall b s, rs_route (s <| has := b |>) = rs_route s) ->
  (forall n a, parse n = Some a -> route_raw cfg ((rs_route st) <| f := a |>)) ->
  route_raw cfg (rs_route st) -> route_raw cfg (rs_route st').
Proof.
  unfold opt_bound. intros H Hh Hf Hr. orun. apply opt_field_raw in Hrun; [|done..].
  by destruct v; rewrite ?Hh.
Qed.

Ltac rawb :=
  repeat match goal with
  | H : opt_bound _ _ _ _ ?st = Some ?st', Hr : route_raw cfg (rs_route ?st) |- _ =>
      apply opt_bound_raw in H; [|done|solve [raw_set]|done]
  end.

Lemma on_route_raw f st st' :
  on_route f st = Some st' ->
  (forall r', f (rs_route st) = Some r' -> route_raw cfg (rs_route st) -> route_raw cfg r') ->
  route_raw cfg (rs_route st) -> route_raw cfg (rs_route st').
Proof. unfold on_route. intros H Hf Hr. orun. simpl. eauto. Qed.

Lemma qname_rules_raw n st st' :
  filter_qname_rules doc n st = Some st' ->
  route_raw cfg (rs_route st) -> route_raw cfg (rs_route st').
Proof.
  unfold filter_qname_rules. intros H Hr. orun.
  match type of Hrun with opt_bound _ _ _ _ ?st = _ =>
    assert (route_raw cfg (rs_route st)) by (cbn [setf rs_route]; raw) end. rawb. done.
Qed.

Lemma inline_filters_raw n st st' :
  route_inline_filters doc n st = Some st' ->
  route_raw cfg (rs_route st) -> route_raw cfg (rs_route st').
Proof.
  unfold route_inline_filters. intros H Hr. orun.
  match type of Hrun with opt_bound _ _ _ _ ?st = _ =>
    assert (route_raw cfg (rs_route st)) by (cbn [setf rs_route]; raw) end. rawb.
  apply on_route_raw in Hrun3; [|intros; raw|done]. eapply on_route_raw; [done|intros; raw|done].
Qed.

Lemma route_filters_raw n st st' :
  zereh_parse_route_filters doc n st = Some st' ->
  route_raw cfg (rs_route st) -> route_raw cfg (rs_route st').
Proof.
  unfold zereh_parse_route_filters. intros H Hr. orun.
  eapply on_route_raw in Hrun; [|eauto using in_mapping_raw, filter_pow_raw|done].
  assert (route_raw cfg (rs_route a0)).
  { unfold in_mapping in Hrun0. destruct (get doc n (str "qname_rules")) as [m|]; [|by simplify_eq].
    destruct (is_mapping m); [by eapply qname_rules_raw|by simplify_eq]. }
  eapply on_route_raw in Hrun1; [|eauto using in_mapping_raw, filter_rate_limit_raw|done].
  eapply on_route_raw in Hrun2; [| |done].
  2: { intros r' Hd ?. destruct (get doc n (str "dns_types")); [by eapply dns_types_raw|by simplify_eq]. }
  eapply on_route_raw; [done|eauto using in_mapping_raw, filter_bloom_raw|done].
Qed.

Lemma route_identity_raw n r :
  word 16 (c_default_kernel_port cfg) -> route_identity doc n cfg = Some r -> route_raw cfg r.
Proof.
  unfold route_identity. intros Hport H. orun. case_bool_decide as Hne; [done|]. orun.
  assert (held (ZEREH_MAX_DOMAIN_LEN + 1) (snprintf_s (ZEREH_MAX_DOMAIN_LEN + 1) a))
    by (eapply held_snprintf; [apply Nat.lt_0_succ|done]).
  constructor; cbn [r_domain r_hash r_xsk_queue r_kernel_port r_prog_index r_prog_name r_prefix
    r_suffix r_min_labels r_max_labels r_qname_min_len r_qname_max_len r_rrtype_mask
    r_pow_enabled r_pow_difficulty r_pow_time_window r_bloom_enabled r_bloom_size
    r_bloom_hash_functions r_bloom_time_window r_bloom_seeds r_rate_limit_qps];
    auto using held_nil, Nat.lt_0_succ; try (by apply (bool_decide_unpack _)).
  by destruct a.
Qed.

(** ** Well-formed routes *)

Record route_wf (r : zereh_route) : Prop := {
  wf_raw : route_raw cfg r;
  wf_labels : 1 <= r_min_labels r <= r_max_labels r /\ r_max_labels r <= 127;
  wf_length : 1 <= r_qname_min_len r <= r_qname_max_len r /\ r_qname_max_len r <= 255;
  wf_pow : r_pow_difficulty r <= 63 /\
    (r_pow_enabled r = 0 -> r_pow_difficulty r = 0 /\ r_pow_time_window r = 0);
  wf_bloom :
    (r_bloom_enabled r = 0 /\ r_bloom_size r = 0 /\ r_bloom_hash_functions r = 0 /\
       r_bloom_time_window r = 0 /\ r_bloom_seeds r = []) \/
    (r_bloom_enabled r = 1 /\ 64 <= r_bloom_size r <= 65536 /\
       1 <= r_bloom_hash_functions r <= 8 /\ r_bloom_seeds r <> [])
}.

Lemma fill_bounds_word w hmin hmax dmin dmax vmin vmax lo hi :
  fill_bounds hmin hmax dmin dmax vmin vmax = (lo, hi) ->
  word w dmin -> word w dmax -> word w vmin -> word w vmax -> word w lo /\ word w hi.
Proof. unfold fill_bounds. repeat destruct_if; intros; simplify_eq; done. Qed.

Lemma route_bounds_ok st r :
  route_raw cfg (rs_route st) -> route_bounds st = Some r ->
  route_raw cfg r /\ (1 <= r_min_labels r <= r_max_labels r /\ r_max_labels r <= 127) /\
  (1 <= r_qname_min_len r <= r_qname_max_len r /\ r_qname_max_len r <= 255).
Proof.
  unfold route_bounds. intros Hr H. destruct (fill_bounds _ _ 1 127 _ _) as [lo hi] eqn:E1.
  destruct (fill_bounds _ _ 1 255 _ _) as [lo' hi'] eqn:E2. cbn in H. orun.
  apply (fill_bounds_word 8) in E1 as [Hlo Hhi]; [|unfold word; lia..|apply Hr|apply Hr].
  apply (fill_bounds_word 16) in E2 as [Hlo' Hhi']; [|unfold word; lia..|apply Hr|apply Hr].
  split; [destruct Hr; by constructor|]. unfold word in *. cbn. lia.
Qed.

Lemma route_pow_ok r r' :
  route_raw cfg r -> route_pow r = Some r' ->
  route_raw cfg r' /\
  (r_pow_difficulty r' <= 63 /\
     (r_pow_enabled r' = 0 -> r_pow_difficulty r' = 0 /\ r_pow_time_window r' = 0)) /\
  r_min_labels r' = r_min_labels r /\ r_max_labels r' = r_max_labels r /\
  r_qname_min_len r' = r_qname_min_len r /\ r_qname_max_len r' = r_qname_max_len r.
Proof.
  unfold route_pow. intros Hr H. destruct (Z.eqb_spec (r_pow_enabled r) 0) as [Hp|Hp]; orun.
  - split; [|cbn; lia]. destruct Hr; constructor; cbn; (done || unfold word; lia).
  - split; [done|]. split; [split; [lia|done]|done].
Qed.

Lemma seeds_default r : route_raw cfg r ->
  route_raw cfg (r <| r_bloom_seeds := [take ZEREH_MAX_DOMAIN_LEN (r_domain r)] |>).
Proof.
  intros []. constructor; cbn; try done; [unfold ZEREH_MAX_BLOOM_SEEDS; lia|].
  unfold held, ZEREH_MAX_DOMAIN_LEN in *. destruct raw_domain0.
  apply Forall_singleton. rewrite take_ge by lia. done.
Qed.

Lemma route_bloom_ok r r' :
  route_raw cfg r -> route_bloom r = Some r' ->
  route_raw cfg r' /\
  ((r_bloom_enabled r' = 0 /\ r_bloom_size r' = 0 /\ r_bloom_hash_functions r' = 0 /\
       r_bloom_time_window r' = 0 /\ r_bloom_seeds r' = []) \/
    (r_bloom_enabled r' = 1 /\ 64 <= r_bloom_size r' <= 65536 /\
       1 <= r_bloom_hash_functions r' <= 8 /\ r_bloom_seeds r' <> [])) /\
  (r_min_labels r', r_max_labels r', r_qname_min_len r', r_qname_max_len r',
     r_pow_enabled r', r_pow_difficulty r', r_pow_time_window r') =
  (r_min_labels r, r_max_labels r, r_qname_min_len r, r_qname_max_len r,
     r_pow_enabled r, r_pow_difficulty r, r_pow_time_window r).
Proof.
  unfold route_bloom. intros Hr H. destruct (Z.eqb_spec (r_bloom_enabled r) 0) as [Hb|Hb]; orun.
  { split; [|split; [left; done|done]].
    destruct Hr; constructor; cbn; try done; unfold word; lia. }
  set (r1 := if r_bloom_size r =? 0 then _ else r) in *.
  assert (route_raw cfg r1) as Hr1.
  { subst r1. destruct_if; [|done]. destruct Hr; constructor; cbn; (done || unfold word; lia). }
  set (r2 := if r_bloom_hash_functions r1 =? 0 then _ else r1) in *.
  assert (route_raw cfg r2 /\ r_bloom_hash_functions r2 <> 0) as [Hr2 Hhf].
  { subst r2. destruct (Z.eqb_spec (r_bloom_hash_functions r1) 0); [|done]. split; [|done].
    destruct Hr1; constructor; cbn; (done || unfold word; lia). }
  assert (r_bloom_enabled r2 = 1) as Hen.
  { destruct (raw_bloom_enabled _ _ Hr); [lia|].
    subst r2 r1. repeat destruct_if; done. }
  assert (forall r3, r3 = r2 \/ r3 = r2 <| r_bloom_seeds := [take ZEREH_MAX_DOMAIN_LEN (r_domain r2)] |> ->
    (r_min_labels r3, r_max_labels r3, r_qname_min_len r3, r_qname_max_len r3,
     r_pow_enabled r3, r_pow_difficulty r3, r_pow_time_window r3) =
    (r_min_labels r, r_max_labels r, r_qname_min_len r, r_qname_max_len r,
     r_pow_enabled r, r_pow_difficulty r, r_pow_time_window r)) as Hsame.
  { intros r3 [->| ->]; subst r2 r1; repeat destruct_if; done. }
  pose proof (raw_bloom_hf _ _ Hr2) as Hw. unfold word in Hw.
  destruct (Nat.eqb_spec (length (r_bloom_seeds r2)) 0) as [Hs|Hs].
  - split; [by apply seeds_default|]. split; [|apply Hsame; auto]. right. cbn. split_and!; (done || lia).
  - split; [done|]. split; [|apply Hsame; auto]. right. split_and!; try (done || lia).
    by intros E; rewrite E in Hs.
Qed.

Lemma parse_route_wf n r :
  word 16 (c_default_kernel_port cfg) -> zereh_parse_route doc n cfg = Some r -> route_wf r.
Proof.
  unfold zereh_parse_route. intros Hport H. orun.
  apply route_identity_raw in Hrun0; [|done].
  apply destination_raw in Hrun1; [|done].
  apply inline_filters_raw in Hrun2; [|done].
  assert (route_raw cfg (rs_route a3)) as Hraw.
  { destruct (get doc a (str "filters")); [by eapply route_filters_raw|by simplify_eq]. }
  apply route_bounds_ok in Hrun4 as (Hr & Hl & Hn); [|done].
  apply route_pow_ok in Hrun5 as (Hr' & Hp & E1 & E2 & E3 & E4); [|done].
  apply route_bloom_ok in H as (Hr'' & Hb & [= E5 E6 E7 E8 E9 E10 E11]); [|done].
  by constructor; rewrite ?E5, ?E6, ?E7, ?E8, ?E9, ?E10, ?E11, ?E1, ?E2, ?E3, ?E4.
Qed.
End lemmas.

(** ** Well-formed configurations *)

Record config_base (cfg : zereh_config) : Prop := {
  cb_interface : held IFNAMSIZ (c_interface cfg);
  cb_template : held PATH_MAX (c_template_path cfg);
  cb_source : held PATH_MAX (c_generated_source cfg);
  cb_object : held PATH_MAX (c_generated_object cfg);
  cb_section : held 64 (c_xdp_section cfg);
  cb_packet_size : word 32 (c_max_packet_size cfg);
  cb_port : word 16 (c_default_kernel_port cfg);
  cb_opcodes : word 16 (c_allowed_opcode_mask cfg) /\ c_allowed_opcode_mask cfg <> 0;
  cb_truncated : c_drop_truncated cfg = 0 \/ c_drop_truncated cfg = 1;
  cb_blacklist : (length (c_blacklist cfg) <= ZEREH_MAX_BLACKLIST)%nat;
  cb_cidr : Forall (fun s => s <> [] /\ held ZEREH_MAX_CIDR_LEN s) (c_blacklist cfg)
}.

Record config_wf (cfg : zereh_config) : Prop := {
  cw_base : config_base cfg;
  cw_count : (1 <= length (c_routes cfg) <= ZEREH_MAX_ROUTES)%nat;
  cw_routes : Forall (route_wf cfg) (c_routes cfg)
}.

Lemma config_defaults_base : config_base zereh_config_init_defaults.
Proof.
  assert (forall size s, bool_decide (Forall (fun c => c <> 0) s) = true -> (length s < size)%nat ->
    held size (snprintf_s size s)) as Hh.
  { intros size s Hs Hl. rewrite snprintf_s_id by done. split; [done|].
    by apply bool_decide_eq_true_1 in Hs. }
  constructor; cbn [zereh_config_init_defaults c_interface c_template_path c_generated_source
    c_generated_object c_xdp_section c_max_packet_size c_default_kernel_port
    c_allowed_opcode_mask c_drop_truncated c_blacklist].
  1-5: apply Hh; [done|unfold IFNAMSIZ, PATH_MAX; simpl; lia].
  all: try (unfold word; lia); auto using Nat.le_0_l. by split.
Qed.

(** The opcodes of a mask. *)
Lemma add_opcode_bit mask o i :
  0 <= o <= 15 -> Z.testbit (add_opcode mask o) i = Z.testbit mask i || (i =? o).
Proof.
  intros Ho. unfold add_opcode. rewrite Z.shiftl_mul_pow2, Z.mul_1_l by lia.
  assert (word 16 (2 ^ o)) as Hw.
  { split; [apply Z.pow_nonneg; lia|apply Z.pow_lt_mono_r; lia]. }
  rewrite u32_id by (eapply word_mono; [|exact Hw]; lia). rewrite u16_id by done.
  rewrite Z.lor_spec. f_equal. destruct (Z.lt_ge_cases i 0).
  - rewrite Z.testbit_neg_r by done. lia.
  - rewrite Z.pow2_bits_eqb by lia. apply Z.eqb_sym.
Qed.

Lemma add_opcode_word mask o :
  0 <= o <= 15 -> word 16 mask -> word 16 (add_opcode mask o) /\ add_opcode mask o <> 0.
Proof.
  intros Ho Hm. split.
  - apply lor_word; [lia|done|apply u16_word].
  - intros H0. pose proof (add_opcode_bit mask o o Ho) as Hb. rewrite H0, Z.bits_0, Z.eqb_refl in Hb.
    by rewrite orb_true_r in Hb.
Qed.

Lemma parse_opcode_range n o : parse_opcode n = Some o -> 0 <= o <= 15.
Proof.
  unfold parse_opcode. intros H. orun. apply parse_u32_word in Hrun0. unfold word in *. lia.
Qed.

Lemma opcode_items_word doc items mask m :
  word 16 mask -> opcode_items doc items mask = Some m -> word 16 m.
Proof.
  revert mask. induction items as [|it items IH]; intros mask Hm H; simpl in H; [by simplify_eq|].
  orun. apply parse_opcode_range in Hrun. eapply IH, H. by apply add_opcode_word.
Qed.

Lemma parse_allowed_opcodes_word doc n m :
  zereh_parse_allowed_opcodes doc n = Some m -> word 16 m /\ m <> 0.
Proof.
  unfold zereh_parse_allowed_opcodes. intros H. assert (word 16 0) by (unfold word; lia).
  destruct n; try done; orun.
  - apply parse_opcode_range in Hrun. by apply add_opcode_word.
  - apply opcode_items_word in Hrun; [|done].
    destruct (Z.eqb_spec a 0); [|done]. by split; [unfold word|].
Qed.

Lemma blacklist_items_ok doc items acc l :
  (length acc <= ZEREH_MAX_BLACKLIST)%nat ->
  Forall (fun s => s <> [] /\ held ZEREH_MAX_CIDR_LEN s) acc ->
  blacklist_items doc items acc = Some l ->
  (length l <= ZEREH_MAX_BLACKLIST)%nat /\
  Forall (fun s => s <> [] /\ held ZEREH_MAX_CIDR_LEN s) l.
Proof.
  revert acc. induction items as [|it items IH]; intros acc Hl Ha H; cbn [blacklist_items] in H;
    [by simplify_eq|].
  orun. destruct (get_node doc it) as [entry|]; [|by eapply IH]. orun.
  case_bool_decide as Hne; [done|]. eapply IH, H.
  - rewrite length_app. unfold ZEREH_MAX_BLACKLIST in *. simpl. lia.
  - apply Forall_app. split; [done|]. apply Forall_singleton. split; [unfold snprintf_s; by destruct a|].
    unfold blacklist_cidr in Hrun. destruct entry; try done;
      (eapply held_snprintf; [apply Nat.lt_0_succ|done]).
Qed.

Lemma parse_blacklist_ok doc n l :
  zereh_parse_blacklist doc n = Some l ->
  (length l <= ZEREH_MAX_BLACKLIST)%nat /\
  Forall (fun s => s <> [] /\ held ZEREH_MAX_CIDR_LEN s) l.
Proof.
  unfold zereh_parse_blacklist. destruct n; try done.
  apply blacklist_items_ok; [apply Nat.le_0_l|constructor].
Qed.

Section config_lemmas.
Context (doc : yaml_document).

Ltac base_set :=
  intros; match goal with
          | H : config_base ?r |- config_base (@setf _ _ _ _ _ ?r) => destruct H
          end;
  constructor; cbn; eauto using parse_u32_word, parse_u16_word, parse_bool_01,
    parse_allowed_opcodes_word.

Lemma opt_field_base {A} v (parse : yaml_node -> option A) f `{!Setter f} r r' :
  opt_field v parse f r = Some r' ->
  (forall n a, parse n = Some a -> config_base (r <| f := a |>)) ->
  config_base r -> config_base r'.
Proof. intros H Hf Hr. apply opt_field_inv in H as [->|(n & a & _ & Hp & ->)]; eauto. Qed.

Lemma opt_string_base v size f `{!Setter f} r :
  (0 < size)%nat ->
  (forall s, held size s -> config_base r -> config_base (r <| f := s |>)) ->
  config_base r -> config_base (opt_string v size f r).
Proof.
  intros Hs Hf Hr. destruct (opt_string_inv v size f r) as [->|(s & Hv & ->)]; [done|].
  apply Hf; [|done]. by eapply held_snprintf.
Qed.

Ltac base :=
  repeat match goal with
  | H : opt_field _ _ _ ?r = Some ?r', Hr : config_base ?r |- _ =>
      apply opt_field_base in H; [|solve [base_set]|done]
  | |- config_base (opt_string _ _ _ _) =>
      apply opt_string_base; [apply Nat.lt_0_succ|solve [base_set]|]
  end; try done.

Lemma in_mapping_base node body r r' :
  in_mapping node body r = Some r' ->
  (forall n, body n r = Some r' -> config_base r -> config_base r') ->
  config_base r -> config_base r'.
Proof.
  unfold in_mapping. intros H Hb Hr. destruct node as [n|]; [|by simplify_eq].
  destruct (is_mapping n); [eauto|by simplify_eq].
Qed.

Lemma global_keys_base n c c' : global_keys doc n c = Some c' -> config_base c -> config_base c'.
Proof.
  unfold global_keys. intros H Hc. orun.
  assert (config_base (opt_string (get doc n (str "interface")) IFNAMSIZ c_interface c)) by base.
  base.
Qed.

Lemma filter_keys_base key n c c' :
  filter_keys doc key n c = Some c' -> config_base c -> config_base c'.
Proof.
  unfold filter_keys. intros H Hc. orun.
  apply opt_field_base in Hrun; [|intros n' l [? ?]%parse_blacklist_ok; solve [base_set]|done].
  base.
Qed.

Lemma hash_algorithm_base n c c' :
  zereh_parse_hash_algorithm n c = Some c' -> config_base c -> config_base c'.
Proof.
  unfold zereh_parse_hash_algorithm. intros H []. orun.
  repeat match goal with H : (if ?b then _ else _) = Some _ |- _ => destruct b end; orun;
    by constructor.
Qed.

Lemma codegen_keys_base n c c' :
  codegen_keys doc n c = Some c' -> config_base c -> config_base c'.
Proof.
  unfold codegen_keys. intros H Hc. orun.
  assert (config_base a).
  { destruct (get doc n (str "hash_algorithm")); [by eapply hash_algorithm_base|by simplify_eq]. }
  base.
Qed.

Lemma route_items_wf items cfg acc rs :
  word 16 (c_default_kernel_port cfg) -> (length acc <= ZEREH_MAX_ROUTES)%nat ->
  Forall (route_wf cfg) acc -> route_items doc items cfg acc = Some rs ->
  (length rs <= ZEREH_MAX_ROUTES)%nat /\ Forall (route_wf cfg) rs.
Proof.
  intros Hp. revert acc. induction items as [|it items IH]; intros acc Hl Ha H;
    cbn [route_items] in H; [by simplify_eq|].
  orun. apply parse_route_wf in Hrun; [|done]. eapply IH, H.
  - rewrite length_app. unfold ZEREH_MAX_ROUTES in *. simpl. lia.
  - apply Forall_app. split; [done|]. by apply Forall_singleton.
Qed.

Lemma route_wf_algo cfg cfg' r :
  c_hash_algo cfg' = c_hash_algo cfg -> route_wf cfg r -> route_wf cfg' r.
Proof. intros E [[]]. constructor; [constructor|..]; rewrite ?E; done. Qed.

Lemma global_section_base n c c' :
  zereh_parse_global_section doc n c = Some c' -> config_base c -> config_base c'.
Proof.
  unfold zereh_parse_global_section. intros H Hc. orun.
  eapply global_keys_base; [done|]. eapply in_mapping_base; eauto using global_keys_base.
Qed.

Lemma global_filters_base n c c' :
  zereh_parse_global_filters doc n c = Some c' -> config_base c -> config_base c'.
Proof.
  unfold zereh_parse_global_filters. intros H Hc. orun.
  eapply filter_keys_base; [done|]. eapply in_mapping_base; eauto using filter_keys_base.
Qed.

Lemma parse_routes_wf n cfg cfg' :
  config_base cfg -> zereh_parse_routes doc n cfg = Some cfg' ->
  config_base cfg' /\ (length (c_routes cfg') <= ZEREH_MAX_ROUTES)%nat /\
  Forall (route_wf cfg') (c_routes cfg').
Proof.
  unfold zereh_parse_routes. intros Hc H. destruct n as [| |items|]; try done. orun.
  apply route_items_wf in Hrun as [Hl Hwf]; [|apply Hc|apply Nat.le_0_l|constructor].
  split; [by destruct Hc|]. split; [done|].
  eapply Forall_impl; [exact Hwf|]. intros r. by apply route_wf_algo.
Qed.

Lemma parse_document_wf cfg cfg' :
  config_base cfg -> parse_document doc cfg = Some cfg' -> config_wf cfg'.
Proof.
  unfold parse_document. intros Hc H. orun.
  apply global_section_base in Hrun0; [|done]. apply global_filters_base in Hrun1; [|done].
  match type of Hrun2 with opt_field _ _ _ ?c = _ => assert (config_base c) by base end.
  apply opt_field_base in Hrun2; [|solve [base_set]|done].
  apply in_mapping_base in Hrun3; [|eauto using codegen_keys_base|done].
  apply parse_routes_wf in Hrun5 as (Hb & Hl & Hwf); [|done].
  constructor; [done| |done]. split; [|done].
  destruct (Nat.eqb_spec (length (c_routes cfg')) 0); [done|]. lia.
Qed.
End config_lemmas.

(** ** The opcodes of a list *)

(** A sequence of numbers, each written in decimal. *)
Lemma opcode_items_bits doc items os mask :
  Forall2 (fun it o => get_node doc it = Some (YAML_SCALAR_NODE (fmt_u o)) /\ 0 <= o <= 15) items os ->
  exists m, opcode_items doc items mask = Some m /\
    forall i, Z.testbit m i = Z.testbit mask i || bool_decide (i ∈ os).
Proof.
  intros H. revert mask. induction H as [|it o items os [Hn Ho] H IH]; intros mask; cbn [opcode_items].
  - exists mask. split; [done|]. intros i. rewrite bool_decide_eq_false_2 by apply not_elem_of_nil.
    by rewrite orb_false_r.
  - rewrite Hn. unfold parse_opcode. cbn [mbind option_bind]. rewrite parse_u32_fmt_u
      by (unfold word; lia). cbn [mbind option_bind]. replace (15 <? o) with false by lia.
    cbn [mbind option_bind]. destruct (IH (add_opcode mask o)) as (m & -> & Hm). exists m.
    split; [done|]. intros i. rewrite Hm, add_opcode_bit, <- orb_assoc by done. f_equal.
    apply eq_true_iff_eq. by rewrite orb_true_iff, !bool_decide_eq_true, elem_of_cons, Z.eqb_eq.
Qed.

Lemma config_yaml_wf yaml_load path cfg :
  zereh_parse_config_yaml yaml_load path = Some cfg -> config_wf cfg.
Proof.
  unfold zereh_parse_config_yaml. intros H. orun.
  eapply parse_document_wf; [apply config_defaults_base|done].
Qed.

(** ** A sample document *)

(** [blacklist: [10.0.0.0/8]], [allowed_opcodes: [0, 4]] and one route for
    [t.example.com] to the kernel, with a Bloom filter. *)
Definition sample_nodes : list yaml_node := [
  YAML_MAPPING_NODE [(2, 3); (4, 5); (17, 18)];
  YAML_SCALAR_NODE (str "blacklist"); YAML_SEQUENCE_NODE [6];
  YAML_SCALAR_NODE (str "routes"); YAML_SEQUENCE_NODE [7];
  YAML_SCALAR_NODE (str "10.0.0.0/8");
  YAML_MAPPING_NODE [(8, 9); (10, 11); (12, 13)];
  YAML_SCALAR_NODE (str "domain"); YAML_SCALAR_NODE (str "t.example.com");
  YAML_SCALAR_NODE (str "target"); YAML_SCALAR_NODE (str "kernel_space");
  YAML_SCALAR_NODE (str "filters"); YAML_MAPPING_NODE [(14, 15)];
  YAML_SCALAR_NODE (str "bloom_filter"); YAML_MAPPING_NODE [(16, 21)];
  YAML_SCALAR_NODE (str "enabled");
  YAML_SCALAR_NODE (str "allowed_opcodes"); YAML_SEQUENCE_NODE [19; 20];
  YAML_SCALAR_NODE (fmt_u 0); YAML_SCALAR_NODE (fmt_u 4);
  YAML_SCALAR_NODE (str "yes")
].

Definition sample_document : yaml_document :=
  YamlDocument (fun i => if i <=? 0 then None else sample_nodes !! Z.to_nat (i - 1))
    (head sample_nodes).

(** The configuration it gives. *)
Definition sample_config : zereh_config :=
  default zereh_config_init_defaults
    (zereh_parse_config_yaml (fun _ => Some sample_document) (str "config.yaml")).

Lemma sample_config_eq :
  zereh_parse_config_yaml (fun _ => Some sample_document) (str "config.yaml") = Some sample_config.
Proof. vm_compute. reflexivity. Qed.

Lemma sample_config_wf : config_wf sample_config.
Proof. exact (config_yaml_wf _ _ _ sample_config_eq). Qed.

(** ** Properties *)

(** C7: a configuration that the parser accepts is well formed: every
    string fits its array with its terminator, there are 1 to 1024 routes and at
    most 1024 blacklist entries, some opcode is allowed, and every route has a
    non-empty domain with the hash of the configured algorithm, label bounds
    [1 <= min <= max <= 127], length bounds [1 <= min <= max <= 255], a non-empty
    set of query types, a difficulty of at most 63, and either no Bloom filter
    at all or one of 64 to 65536 bits, 1 to 8 hash functions and 1 to 32
    seeds. *)
Theorem parse_config_yaml_wf (yaml_load : bytes -> option yaml_document) (path : bytes)
    (cfg : zereh_config) :
  zereh_parse_config_yaml yaml_load path = Some cfg -> config_wf cfg.
Proof. apply config_yaml_wf. Qed.

Lemma parse_config_yaml_wf_witness :
  zereh_parse_config_yaml (fun _ => Some sample_document) (str "config.yaml") = Some sample_config /\
  config_wf sample_config.
Proof. split; [exact sample_config_eq|]. exact (parse_config_yaml_wf _ _ _ sample_config_eq). Defined.

(** A number in decimal is read back exactly when it fits the field:
    every 32-bit value by [zereh_parse_u32], and by the 16-bit and 8-bit readers
    the values below 65536 and 256, which reject all others. *)
Theorem parse_numbers_roundtrip (n : Z) :
  word 32 n ->
  zereh_parse_u32 (YAML_SCALAR_NODE (fmt_u n)) = Some n /\
  zereh_parse_u16 (YAML_SCALAR_NODE (fmt_u n)) = (if n <? 65536 then Some n else None) /\
  zereh_parse_u8 (YAML_SCALAR_NODE (fmt_u n)) = (if n <? 256 then Some n else None).
Proof.
  intros Hn. unfold zereh_parse_u16, zereh_parse_u8. rewrite parse_u32_fmt_u by done.
  cbn [mbind option_bind]. unfold word in Hn. split_and!; [done|..].
  - destruct (Z.ltb_spec n 65536), (Z.ltb_spec 0xffff n); try lia; [|done].
    by rewrite u16_id by (unfold word; lia).
  - destruct (Z.ltb_spec n 256), (Z.ltb_spec 0xff n); try lia; [|done].
    by rewrite u8_id by (unfold word; lia).
Qed.

(** A list of opcodes becomes the mask with exactly their bits; the
    empty list means opcode 0. *)
Theorem parse_allowed_opcodes_bits (doc : yaml_document) (items os : list Z) :
  Forall2 (fun it o => get_node doc it = Some (YAML_SCALAR_NODE (fmt_u o)) /\ 0 <= o <= 15) items os ->
  exists m, zereh_parse_allowed_opcodes doc (YAML_SEQUENCE_NODE items) = Some m /\
    forall i, Z.testbit m i = bool_decide (i ∈ (if bool_decide (os = []) then [0] else os)).
Proof.
  intros H. unfold zereh_parse_allowed_opcodes.
  destruct (opcode_items_bits doc items os 0 H) as (m & -> & Hm). cbn [mbind option_bind].
  eexists. split; [done|]. intros i. destruct os as [|o os].
  - assert (m = 0) as ->.
    { apply Z.bits_inj'. intros j _. rewrite Hm, Z.bits_0.
      by rewrite bool_decide_eq_false_2 by apply not_elem_of_nil. }
    change (u16 (u32 (Z.shiftl 1 0))) with (2 ^ 0). rewrite Z.eqb_refl, (bool_decide_eq_true_2 (@nil Z = [])) by done.
    apply eq_true_iff_eq. rewrite bool_decide_eq_true, list_elem_of_singleton.
    destruct (Z.lt_ge_cases i 0); [rewrite Z.testbit_neg_r by done; split; [done|lia]|].
    rewrite Z.pow2_bits_eqb by lia. lia.
  - rewrite (bool_decide_eq_false_2 (o :: os = [])) by done.
    destruct (Z.eqb_spec m 0) as [->|_].
    + specialize (Hm o). rewrite !Z.bits_0, orb_false_l in Hm. symmetry in Hm.
      apply bool_decide_eq_false in Hm. destruct Hm. by left.
    + by rewrite Hm, Z.bits_0.
Qed.

