(* ===== verification/Log.v ===== *)
(** * control/loader.c: log lines

    The switch between plain and structured lines, the timestamp, and the
    text of a line.  [getenv] is the environment, [gmtime] the library's
    conversion of a time; a line is the bytes written to the stream. *)
From S2P Require Import Prelude CLib Config.
#[local] Open Scope Z_scope.

(** ** The switch *)

(** The two static variables of [zereh_structured_logs_enabled]. *)
Record log_state : Type := LogState { initialized : bool; enabled : bool }.

Definition log_start : log_state := LogState false false.

(** [mode] is [getenv("ZEREH_LOG_MODE")] at the time of the call. *)
Definition zereh_structured_logs_enabled (mode : option bytes) (st : log_state) : bool * log_state :=
  let st := if negb (initialized st)
            then LogState true (match mode with
                                | Some m => strcmp_eq m (str "structured")
                                | None => false
                                end)
            else st in
  (enabled st, st).

(** ** The timestamp *)

Record tm : Type := Tm {
  tm_year : Z;                (* the year itself, not the years since 1900 *)
  tm_mon : Z;                 (* from 1 *)
  tm_mday : Z;
  tm_hour : Z;
  tm_min : Z;
  tm_sec : Z
}.

(** [%m], [%d], [%H], [%M], [%S] *)
Definition two_digits (n : Z) : bytes := [48 + n / 10 mod 10; 48 + n mod 10].

(** [strftime] with the format of the sources. *)
Definition strftime (t : tm) : bytes :=
  fmt_u (tm_year t) ++ str "-" ++ two_digits (tm_mon t) ++ str "-" ++ two_digits (tm_mday t) ++ str "T" ++
  two_digits (tm_hour t) ++ str ":" ++ two_digits (tm_min t) ++ str ":" ++ two_digits (tm_sec t) ++ str "Z".

(** [now] is [gmtime_r] of the current time. *)
Definition zereh_log_timestamp_utc (now : option tm) (out_len : nat) : bytes :=
  match now with
  | Some t => strftime t
  | None => snprintf_s out_len (str "unknown")
  end.

(** ** Lines *)

(** The characters of [in] as they appear in a structured line; [room] is the
    space left before the terminator. *)
Fixpoint sanitize_loop (s : bytes) (room : nat) : bytes :=
  match room, s with
  | S room', c :: s' =>
      (if c =? 34 then 39
       else if (c =? 10) || (c =? 13) || (c =? 9) then 32 else c) :: sanitize_loop s' room'
  | _, _ => []
  end.

Definition zereh_log_sanitize_message (s : bytes) (out_len : nat) : bytes :=
  sanitize_loop s (out_len - 1).

(** [text] is what the format and its arguments expand to. *)
Definition zereh_log_emit (mode : option bytes) (now : option tm) (level text : bytes)
    (st : log_state) : bytes * log_state :=
  let message := snprintf_s 512 text in
  let '(structured, st) := zereh_structured_logs_enabled mode st in
  (if structured : bool then
     let ts := zereh_log_timestamp_utc now 32 in
     let sanitized := zereh_log_sanitize_message message 512 in
     str "ts=" ++ ts ++ str " level=" ++ level ++ str " component=loader msg=" ++ [34] ++ sanitized ++
     [34; 10]
   else str "[loader] [" ++ level ++ str "] " ++ message ++ [10], st).

Definition zereh_xdp_mode_name (mode : zereh_xdp_mode) : bytes :=
  match mode with
  | ZEREH_XDP_MODE_SKB => str "skb"
  | ZEREH_XDP_MODE_OFFLOAD => str "offload"
  | ZEREH_XDP_MODE_NATIVE => str "native"
  end.

(** ** Structured lines are one record each *)

(** A character that can stand in a field: no quote, no line break, no tab. *)
Definition field_char (c : Z) : Prop := c <> 34 /\ c <> 10 /\ c <> 13 /\ c <> 9.

#[global] Instance field_char_dec c : Decision (field_char c).
Proof. unfold field_char. apply _. Defined.

Lemma sanitize_chars s room : Forall field_char (sanitize_loop s room).
Proof.
  revert room. induction s as [|c s IH]; intros [|room]; cbn [sanitize_loop]; try constructor; [|apply IH].
  unfold field_char. repeat case_match; lia.
Qed.

Lemma sanitize_length s room : length (sanitize_loop s room) = Nat.min (length s) room.
Proof. revert room. induction s as [|c s IH]; intros [|room]; simpl; [done..|]. by rewrite IH. Qed.

(** Every character keeps its place; only quotes, line breaks and tabs change. *)
Lemma sanitize_lookup s room i c :
  (i < room)%nat -> s !! i = Some c ->
  sanitize_loop s room !! i =
    Some (if c =? 34 then 39 else if bool_decide (field_char c) then c else 32).
Proof.
  revert room i. induction s as [|x s IH]; intros [|room] i Hi; [lia|done|lia|]. destruct i as [|i].
  - cbn [sanitize_loop lookup list_lookup]. intros [= ->]. f_equal. unfold field_char.
    repeat case_match; try done; case_bool_decide; try done; lia.
  - cbn [sanitize_loop lookup list_lookup]. apply IH. lia.
Qed.

Lemma two_digits_chars n : Forall field_char (two_digits n).
Proof.
  pose proof (Z.mod_pos_bound (n / 10) 10 ltac:(lia)). pose proof (Z.mod_pos_bound n 10 ltac:(lia)).
  repeat constructor; lia.
Qed.

Lemma fmt_u_field n : 0 <= n < 2 ^ 64 -> Forall field_char (fmt_u n).
Proof.
  intros Hn. apply Forall_forall. intros c Hc%fmt_u_chars; [|done]. unfold field_char. lia.
Qed.

Lemma field_chars_dec s : bool_decide (Forall field_char s) = true -> Forall field_char s.
Proof. apply bool_decide_eq_true_1. Qed.

Lemma timestamp_chars now :
  (forall t, now = Some t -> 0 <= tm_year t < 2 ^ 64) -> Forall field_char (zereh_log_timestamp_utc now 32).
Proof.
  intros Hy. destruct now as [t|]; [|by apply field_chars_dec]. specialize (Hy t eq_refl).
  unfold zereh_log_timestamp_utc, strftime.
  repeat first [apply Forall_app; split | apply two_digits_chars | by apply fmt_u_field | by apply field_chars_dec].
Qed.

(** ** Properties *)

(** C39: once [ZEREH_LOG_MODE] was [structured] at the first message,
    every message is written as one line of fields, whatever it contains: the
    line ends in a quote and a line break, has exactly the quotes around the
    message, no other line break, and between the quotes the message, cut at
    511 characters, with each quote made an apostrophe and each line break or
    tab a space.  Later changes of the variable have no effect. *)
Theorem structured_log_line (mode : option bytes) (now : option tm) (level text : bytes)
    (st : log_state) :
  st = (zereh_structured_logs_enabled (Some (str "structured")) log_start).2 ->
  (forall t, now = Some t -> 0 <= tm_year t < 2 ^ 64) -> Forall field_char level ->
  exists before msg,
    zereh_log_emit mode now level text st = (before ++ [34] ++ msg ++ [34; 10], st) /\
    Forall field_char before /\ Forall field_char msg /\
    length msg = Nat.min (length text) 511 /\
    forall i c, (i < 511)%nat -> text !! i = Some c ->
      msg !! i = Some (if c =? 34 then 39 else if bool_decide (field_char c) then c else 32).
Proof.
  intros -> Hy Hl.
  exists (str "ts=" ++ zereh_log_timestamp_utc now 32 ++ str " level=" ++ level ++
    str " component=loader msg="), (zereh_log_sanitize_message (snprintf_s 512 text) 512). split_and!.
  - unfold zereh_log_emit. cbn [zereh_structured_logs_enabled]. rewrite <- !app_assoc. reflexivity.
  - repeat first [apply Forall_app; split | by apply timestamp_chars | done | by apply field_chars_dec].
  - apply sanitize_chars.
  - unfold zereh_log_sanitize_message. rewrite sanitize_length. unfold snprintf_s. rewrite length_take. lia.
  - intros i c Hi Hc. apply sanitize_lookup; [lia|]. unfold snprintf_s. by rewrite lookup_take_lt by lia.
Qed.

Lemma structured_log_line_witness :
  exists before msg,
    zereh_log_emit None None (str "error") ([34] ++ str "x" ++ [10])
      (zereh_structured_logs_enabled (Some (str "structured")) log_start).2 =
      (before ++ [34] ++ msg ++ [34; 10],
       (zereh_structured_logs_enabled (Some (str "structured")) log_start).2) /\
    Forall field_char msg.
Proof.
  destruct (structured_log_line None None (str "error") ([34] ++ str "x" ++ [10])
    (zereh_structured_logs_enabled (Some (str "structured")) log_start).2 eq_refl ltac:(intros t Ht; discriminate Ht)
    ltac:(by_compute)) as (b & m & H1 & _ & H2 & _). exists b, m. split; [exact H1|exact H2].
Defined.
