(* ===== verification/Loader.v ===== *)
(** * control/loader.c: seeding the maps

    The contents the loader writes in the maps of the freshly loaded object:
    the blacklist from the CIDR strings, the Bloom filter from the seed names,
    the program array from the routes.  A map is known by its
    [bpf_map_update_elem] only: [update s k v] is whether the call succeeds
    and the state after it. *)
From S2P Require Import Prelude CLib Hash DnsParser XdpHash BpfMaps XdpFilters Config Yaml.
#[local] Open Scope Z_scope.

Definition ZEREH_PROG_ARRAY_MAX : Z := 64.

(** ** The blacklist *)

Definition zereh_parse_cidr_v4 (cidr : bytes) : option lpm_v4_key :=
  let tmp := snprintf_s ZEREH_MAX_CIDR_LEN cidr in
  '(tmp, prefix) ← (match strchr_split tmp 47 with
                    | Some (tmp, digits) =>
                        '(prefix, rest) ← strtol digits;
                        if negb (bool_decide (rest = [])) || (prefix <? 0) || (32 <? prefix)
                        then None else Some (tmp, prefix)
                    | None => Some (tmp, 32)
                    end);
  addr ← inet_pton tmp;
  Some (LpmV4Key (u32 prefix) addr).

Fixpoint zereh_seed_blacklist_map {S} (update : S -> lpm_v4_key -> Z -> bool * S) (s : S)
    (blacklist : list bytes) : bool * S :=
  match blacklist with
  | [] => (true, s)
  | cidr :: blacklist' =>
      match zereh_parse_cidr_v4 cidr with
      | None => (false, s)
      | Some key =>
          let '(ok, s) := update s key 1 in
          if negb ok then (false, s) else zereh_seed_blacklist_map update s blacklist'
      end
  end.

(** ** The Bloom filter *)

Definition zereh_mix64 (x : Z) : Z :=
  let x := Z.lxor x (Z.shiftr x 33) in
  let x := u64 (x * 0xff51afd7ed558ccd) in
  let x := Z.lxor x (Z.shiftr x 33) in
  let x := u64 (x * 0xc4ceb9fe1a85ec53) in
  Z.lxor x (Z.shiftr x 33).

Definition zereh_route_bloom_bits (route : zereh_route) : Z :=
  if r_bloom_enabled route =? 0 then 0
  else
    let bits := r_bloom_size route in
    let bits := if bits <? 64 then 64 else bits in
    if ZEREH_BLOOM_BITS <? bits then ZEREH_BLOOM_BITS else bits.

Definition zereh_route_bloom_hash_functions (route : zereh_route) : Z :=
  let hf := r_bloom_hash_functions route in
  if r_bloom_enabled route =? 0 then 0
  else
    let hf := if hf =? 0 then 3 else hf in
    if Z.of_nat ZEREH_MAX_HASH_FUNCTIONS <? hf then Z.of_nat ZEREH_MAX_HASH_FUNCTIONS else hf.

(** The loop over the hash functions; [n] counts the iterations left, [k] is
    below 256. *)
Fixpoint set_bits (n : nat) (k : Z) (words : list Z) (route_hash bloom_bits bucket : Z) :
    res (list Z) :=
  match n with
  | O => Ret words
  | S n' =>
      if bloom_bits =? 0 then Fault
      else
        let mixed := zereh_mix64 (Z.lxor (Z.lxor route_hash (u64 ((k + 1) * 0x9e3779b97f4a7c15)))
                                         (u64 (bucket * 0x517cc1b727220a95))) in
        let bit := u32 (mixed mod bloom_bits) in
        let idx := Z.shiftr bit 6 in
        let off := Z.land bit 63 in
        words ← (if idx <? ZEREH_BLOOM_WORDS then
                   w ← rd words (Z.to_nat idx);
                   wr words (Z.to_nat idx) (Z.lor w (u64 (Z.shiftl 1 off)))
                 else Ret words);
        set_bits n' (k + 1) words route_hash bloom_bits bucket
  end.

Definition zereh_bloom_set_bits_for_seed (words : list Z)
    (route_hash bloom_bits hash_functions bucket : Z) : res (list Z) :=
  set_bits (Z.to_nat hash_functions) 0 words route_hash bloom_bits bucket.

(** One seed: the current window and the one before it. *)
Definition seed_bits (words : list Z) (algo : zereh_hash_algorithm) (route : zereh_route)
    (bloom_bits hash_functions bucket : Z) (seed : bytes) : res (list Z) :=
  let seed_hash := zereh_hash_domain seed algo in
  if seed_hash =? 0 then Ret words
  else
    words ← zereh_bloom_set_bits_for_seed words seed_hash bloom_bits hash_functions bucket;
    if (0 <? r_bloom_time_window route) && (0 <? bucket)
    then zereh_bloom_set_bits_for_seed words seed_hash bloom_bits hash_functions (bucket - 1)
    else Ret words.

Fixpoint seeds_bits (words : list Z) (algo : zereh_hash_algorithm) (route : zereh_route)
    (bloom_bits hash_functions bucket : Z) (seeds : list bytes) : res (list Z) :=
  match seeds with
  | [] => Ret words
  | seed :: seeds' =>
      words ← seed_bits words algo route bloom_bits hash_functions bucket seed;
      seeds_bits words algo route bloom_bits hash_functions bucket seeds'
  end.

(** One route; [now] is [time(NULL)] when it is read. *)
Definition route_bits (words : list Z) (algo : zereh_hash_algorithm) (now : Z)
    (route : zereh_route) : res (list Z) :=
  if r_bloom_enabled route =? 0 then Ret words
  else
    let bloom_bits := zereh_route_bloom_bits route in
    let hash_functions := zereh_route_bloom_hash_functions route in
    if (bloom_bits =? 0) || (hash_functions =? 0) then Ret words
    else
      let bucket := if 0 <? r_bloom_time_window route
                    then u64 now / r_bloom_time_window route else 0 in
      seeds_bits words algo route bloom_bits hash_functions bucket (r_bloom_seeds route).

(** The routes in order; [time i] is the clock at route [i]. *)
Fixpoint routes_bits (words : list Z) (algo : zereh_hash_algorithm) (time : nat -> Z) (i : nat)
    (routes : list zereh_route) : res (list Z) :=
  match routes with
  | [] => Ret words
  | route :: routes' =>
      words ← route_bits words algo (time i) route;
      routes_bits words algo time (S i) routes'
  end.

Fixpoint write_words {S} (update : S -> Z -> Z -> bool * S) (s : S) (key : Z) (words : list Z) :
    bool * S :=
  match words with
  | [] => (true, s)
  | value :: words' =>
      let '(ok, s) := update s key value in
      if negb ok then (false, s) else write_words update s (key + 1) words'
  end.

Definition zereh_seed_bloom_map {S} (update : S -> Z -> Z -> bool * S) (time : nat -> Z) (s : S)
    (cfg : zereh_config) : res (bool * S) :=
  words ← routes_bits (replicate (Z.to_nat ZEREH_BLOOM_WORDS) 0) (c_hash_algo cfg) time 0
            (c_routes cfg);
  Ret (write_words update s 0 words).

(** ** The program array *)

Section programs.
(** [bpf_object__find_program_by_name] and [bpf_program__fd] of the loaded
    object. *)
Context {P : Type} (find_program : bytes -> option P) (program_fd : P -> Z).

(** The program and the name it was found by. *)
Definition zereh_resolve_tail_program (route : zereh_route) (default_tail : option P) :
    option (P * bytes) :=
  if negb (bool_decide (r_prog_name route = [])) then
    tail_prog ← find_program (r_prog_name route);
    Some (tail_prog, snprintf_s ZEREH_MAX_PROG_NAME (r_prog_name route))
  else
    let indexed_name :=
      snprintf_s ZEREH_MAX_PROG_NAME (str "zereh_app_" ++ fmt_u (r_prog_index route)) in
    match find_program indexed_name with
    | Some tail_prog => Some (tail_prog, snprintf_s ZEREH_MAX_PROG_NAME indexed_name)
    | None =>
        default_tail ← default_tail;
        Some (default_tail, snprintf_s ZEREH_MAX_PROG_NAME (str "zereh_app_default"))
    end.

(** What is written for a route: [None] is an error, [Some None] nothing. *)
Definition prog_entry (default_tail : option P) (route : zereh_route) : option (option (Z * Z)) :=
  if negb (bool_decide (r_target route = ZEREH_TARGET_XDP_PROG)) then Some None
  else
    let key := r_prog_index route in
    if ZEREH_PROG_ARRAY_MAX <=? key then None
    else
      '(tail_prog, _) ← zereh_resolve_tail_program route default_tail;
      let value := program_fd tail_prog in
      if value <? 0 then None else Some (Some (key, value)).

Fixpoint seed_prog_routes {S} (update : S -> Z -> Z -> bool * S) (s : S)
    (default_tail : option P) (routes : list zereh_route) : bool * S :=
  match routes with
  | [] => (true, s)
  | route :: routes' =>
      match prog_entry default_tail route with
      | None => (false, s)
      | Some None => seed_prog_routes update s default_tail routes'
      | Some (Some (key, value)) =>
          let '(ok, s) := update s key value in
          if negb ok then (false, s) else seed_prog_routes update s default_tail routes'
      end
  end.

Definition zereh_seed_prog_array {S} (update : S -> Z -> Z -> bool * S) (s : S)
    (cfg : zereh_config) : bool * S :=
  let default_tail := find_program (str "zereh_app_default") in
  seed_prog_routes update s default_tail (c_routes cfg).
End programs.

(** The [update] of a BPF map. *)
Definition map_update {M K V} `{!BpfMap M K V} (m : M) (k : K) (v : V) : bool * M :=
  match bpf_map_update_elem m k v with
  | Some m' => (true, m')
  | None => (false, m)
  end.

(** The [update] of a program array. *)
Definition prog_update {M P} `{!BpfProgArray M P} (m : M) (k fd : Z) : bool * M :=
  match prog_array_update_elem m k fd with
  | Some m' => (true, m')
  | None => (false, m)
  end.

(** ** CIDR strings *)

Lemma parse_cidr_fmt a b c d p :
  is_byte a -> is_byte b -> is_byte c -> is_byte d -> 0 <= p <= 32 ->
  zereh_parse_cidr_v4 (fmt_ip a b c d ++ 47 :: fmt_u p) =
    Some (LpmV4Key p (s_addr [a; b; c; d])).
Proof.
  intros Ha Hb Hc Hd Hp. unfold zereh_parse_cidr_v4.
  pose proof (length_fmt_ip a b c d Ha Hb Hc Hd).
  pose proof (length_fmt_byte p ltac:(unfold is_byte, word; lia)).
  rewrite snprintf_s_id by (rewrite length_app; simpl; unfold ZEREH_MAX_CIDR_LEN; lia).
  rewrite strchr_split_app by by apply fmt_ip_no_slash.
  rewrite strtol_fmt_u by lia. cbn [mbind option_bind].
  rewrite bool_decide_eq_true_2 by done.
  replace (negb true || (p <? 0) || (32 <? p)) with false by lia. cbn [mbind option_bind].
  rewrite inet_pton_fmt_ip by done. cbn [mbind option_bind]. by rewrite u32_id by (unfold word; lia).
Qed.

Lemma parse_cidr_host a b c d :
  is_byte a -> is_byte b -> is_byte c -> is_byte d ->
  zereh_parse_cidr_v4 (fmt_ip a b c d) = Some (LpmV4Key 32 (s_addr [a; b; c; d])).
Proof.
  intros Ha Hb Hc Hd. unfold zereh_parse_cidr_v4. pose proof (length_fmt_ip a b c d Ha Hb Hc Hd).
  rewrite snprintf_s_id by (unfold ZEREH_MAX_CIDR_LEN; lia).
  rewrite strchr_split_none by by apply fmt_ip_no_slash. cbn [mbind option_bind].
  by rewrite inet_pton_fmt_ip by done.
Qed.

Lemma parse_cidr_prefix s key : zereh_parse_cidr_v4 s = Some key -> 0 <= prefixlen key <= 32.
Proof.
  unfold zereh_parse_cidr_v4. intros H. apply bind_some_inv in H as ([tmp p] & Hp & H).
  apply bind_some_inv in H as (addr & _ & H). injection H as <-. cbn [prefixlen].
  destruct (strchr_split _ 47) as [[t ds]|].
  - apply bind_some_inv in Hp as ([q rest] & _ & Hp). destruct_if; [done|]. injection Hp as <- <-.
    rewrite u32_id by (unfold word; lia). lia.
  - injection Hp as <- <-. rewrite u32_id by (unfold word; lia). lia.
Qed.

(** The networks of a blacklist. *)
Definition denied (blacklist : list bytes) (a : Z) : Prop :=
  exists cidr key, cidr ∈ blacklist /\ zereh_parse_cidr_v4 cidr = Some key /\ covers key a.

Section blacklist.
Context {BL : Type} `{!BpfMap BL lpm_v4_key Z, !LpmTrieLaws BL Z}.

Lemma seed_blacklist_spec (m m' : BL) l a :
  zereh_seed_blacklist_map map_update m l = (true, m') ->
  is_Some (bpf_map_lookup_elem m' (LpmV4Key 32 a)) <->
    denied l a \/ is_Some (bpf_map_lookup_elem m (LpmV4Key 32 a)).
Proof.
  revert m. induction l as [|cidr l IH]; intros m H; simpl in H.
  { injection H as <-. split; [auto|]. intros [(? & ? & Hin & _)|?]; [|done].
    by apply not_elem_of_nil in Hin. }
  destruct (zereh_parse_cidr_v4 cidr) as [key|] eqn:Hk; [|done].
  unfold map_update in H at 1. destruct (bpf_map_update_elem m key 1) as [m1|] eqn:Hu; [|done].
  simpl in H. rewrite (IH m1 H), (lpm_update m key 1 m1 Hu). unfold denied. split.
  - intros [(c & k & Hin & Hc)|[Hc|?]]; [left|left|by right].
    + exists c, k. rewrite elem_of_cons. auto.
    + exists cidr, key. rewrite elem_of_cons. auto.
  - intros [(c & k & [->|Hin]%elem_of_cons & Hp & Hc)|?]; [|eauto 10..].
    rewrite Hk in Hp. injection Hp as <-. auto.
Qed.

(** Seeding succeeds exactly when every entry parses and the map takes it. *)
Lemma seed_blacklist_parses (m m' : BL) l :
  zereh_seed_blacklist_map map_update m l = (true, m') ->
  Forall (fun cidr => is_Some (zereh_parse_cidr_v4 cidr)) l.
Proof.
  revert m. induction l as [|cidr l IH]; intros m H; simpl in H; [by constructor|].
  destruct (zereh_parse_cidr_v4 cidr) as [key|] eqn:Hk; [|done].
  destruct (map_update m key 1) as [[] m1]; [|done]. constructor; [rewrite Hk; eauto|]. exact (IH m1 H).
Qed.
End blacklist.

(** ** The Bloom filter *)

Lemma mix64_eq : zereh_mix64 = XdpHash.zereh_mix64.
Proof. reflexivity. Qed.

(** Bit [b] of the array of words. *)
Definition wbit (words : list Z) (b : Z) : Prop :=
  Z.testbit (words !!! Z.to_nat (b / 64)) (b mod 64) = true.

Definition bloom_array (words : list Z) : Prop := length words = Z.to_nat ZEREH_BLOOM_WORDS.

Lemma set_word_bit words p b :
  bloom_array words -> 0 <= p < ZEREH_BLOOM_BITS -> 0 <= b < ZEREH_BLOOM_BITS ->
  let i := Z.to_nat (p / 64) in
  wbit (<[i := Z.lor (words !!! i) (u64 (Z.shiftl 1 (p mod 64)))]> words) b <-> wbit words b \/ b = p.
Proof.
  intros Hl Hp Hb i. unfold bloom_array, ZEREH_BLOOM_BITS, ZEREH_BLOOM_WORDS, wbit in *.
  pose proof (Z.mod_pos_bound p 64 ltac:(lia)) as Hpm. pose proof (Z.mod_pos_bound b 64 ltac:(lia)) as Hbm.
  assert (0 <= p / 64 < 1024) by (split; [apply Z.div_pos|apply Z.div_lt_upper_bound]; lia).
  assert (0 <= b / 64) by (apply Z.div_pos; lia).
  pose proof (Z.div_mod p 64 ltac:(lia)). pose proof (Z.div_mod b 64 ltac:(lia)).
  destruct (Z.eq_dec (b / 64) (p / 64)) as [He|Hne].
  - rewrite He. fold i. rewrite list_lookup_total_insert_eq by lia.
    rewrite Z.lor_spec, Z.shiftl_mul_pow2, Z.mul_1_l by lia.
    rewrite u64_id by (split; [apply Z.pow_nonneg|apply Z.pow_lt_mono_r]; lia).
    rewrite Z.pow2_bits_eqb, orb_true_iff, Z.eqb_eq by lia.
    split; (intros [?|?]; [by left|right; lia]).
  - rewrite list_lookup_total_insert_ne by lia. split; [auto|]. intros [?| ->]; [done|lia].
Qed.

(** Setting the bits of a seed sets exactly its positions. *)
Lemma set_bits_spec n k words h bits bucket :
  bloom_array words -> 0 < bits <= ZEREH_BLOOM_BITS ->
  exists words', set_bits n k words h bits bucket = Ret words' /\ bloom_array words' /\
    forall b, 0 <= b < ZEREH_BLOOM_BITS ->
      wbit words' b <-> wbit words b \/
        exists i, k <= i < k + Z.of_nat n /\ b = bloom_pos h i bits bucket.
Proof.
  revert k words. induction n as [|n IH]; intros k words Hw Hbits; cbn [set_bits].
  { exists words. split_and!; [done..|]. intros b Hb. split; [auto|]. intros [?|(i & ? & _)]; [done|lia]. }
  replace (bits =? 0) with false by lia. rewrite mix64_eq. fold (bloom_pos h k bits bucket).
  pose proof (bloom_pos_range h k bits bucket ltac:(lia)) as Hr.
  set (p := bloom_pos h k bits bucket) in *. unfold bloom_array in Hw.
  rewrite (u32_id p) by (unfold word, ZEREH_BLOOM_BITS, ZEREH_BLOOM_WORDS in *; lia).
  destruct (word_index p) as [-> ->]; [lia|].
  assert (0 <= p / 64 < ZEREH_BLOOM_WORDS) as Hi.
  { unfold ZEREH_BLOOM_BITS in *. split; [apply Z.div_pos|apply Z.div_lt_upper_bound]; lia. }
  replace (p / 64 <? ZEREH_BLOOM_WORDS) with true by lia.
  unfold rd. rewrite (list_lookup_lookup_total_lt words (Z.to_nat (p / 64))) by lia.
  cbn [mbind res_bind]. unfold wr. rewrite decide_True by lia. cbn [mbind res_bind].
  destruct (IH (k + 1) (<[Z.to_nat (p / 64) := Z.lor (words !!! Z.to_nat (p / 64))
    (u64 (Z.shiftl 1 (p mod 64)))]> words)) as (words' & -> & Hw' & Hb'); [|done|].
  { unfold bloom_array. by rewrite length_insert. }
  exists words'. split_and!; [done..|]. intros b Hb. rewrite Hb' by done.
  rewrite set_word_bit by (done || lia). subst p. split.
  - intros [[?| ->]|(i & ? & ->)]; [by left|right; exists k; split; [lia|done]|right; exists i; split; [lia|done]].
  - intros [?|(i & Hi' & ->)]; [auto|]. destruct (Z.eq_dec i k) as [->|]; [auto|].
    right. exists i. split; [lia|done].
Qed.

(** The window of a route at the time [now]. *)
Definition route_bucket (route : zereh_route) (now : Z) : Z :=
  if 0 <? r_bloom_time_window route then u64 now / r_bloom_time_window route else 0.

(** [b] is a position of [h] in the filter of the route. *)
Definition route_pos (route : zereh_route) (h bucket b : Z) : Prop :=
  exists i, 0 <= i < zereh_route_bloom_hash_functions route /\
    b = bloom_pos h i (zereh_route_bloom_bits route) bucket.

(** [b] is one of the bits the loader sets for a seed of the route: the
    positions of its hash in the current window, and in the one before. *)
Definition seed_sets (algo : zereh_hash_algorithm) (route : zereh_route) (now : Z) (seed : bytes)
    (b : Z) : Prop :=
  let h := zereh_hash_domain seed algo in
  h <> 0 /\
  (route_pos route h (route_bucket route now) b \/
   (0 < r_bloom_time_window route /\ 0 < route_bucket route now /\
      route_pos route h (route_bucket route now - 1) b)).

Lemma bloom_bits_range route :
  r_bloom_enabled route <> 0 -> 64 <= zereh_route_bloom_bits route <= ZEREH_BLOOM_BITS.
Proof.
  intros He. unfold zereh_route_bloom_bits, ZEREH_BLOOM_BITS, ZEREH_BLOOM_WORDS. bool_lia.
Qed.

Section bloom_seeding.
Context (algo : zereh_hash_algorithm).

(** A step that adds the bits [P] to an array of words. *)
Definition adds_bits (m : res (list Z)) (words : list Z) (P : Z -> Prop) : Prop :=
  exists words', m = Ret words' /\ bloom_array words' /\
    forall b, 0 <= b < ZEREH_BLOOM_BITS -> wbit words' b <-> wbit words b \/ P b.

Lemma adds_bits_none words : bloom_array words -> adds_bits (Ret words) words (fun _ => False).
Proof. intros Hw. exists words. split_and!; [done..|]. tauto. Qed.

Lemma adds_bits_ext m words P Q :
  (forall b, P b <-> Q b) -> adds_bits m words P -> adds_bits m words Q.
Proof.
  intros H (w & ? & ? & Hb). exists w. split_and!; [done..|]. intros b ?. by rewrite <- H, Hb.
Qed.

Lemma adds_bits_seq m f words P Q :
  adds_bits m words P -> (forall w, bloom_array w -> adds_bits (f w) w Q) ->
  adds_bits (m ≫= f) words (fun b => P b \/ Q b).
Proof.
  intros (w & -> & Hw & Hp) Hf. destruct (Hf w Hw) as (w' & E & Hw' & Hq). exists w'.
  cbn [mbind res_bind]. split_and!; [done..|]. intros b Hb. rewrite Hq, Hp by done. tauto.
Qed.

Lemma seed_hash_bits route words h bucket :
  r_bloom_enabled route <> 0 -> bloom_array words ->
  adds_bits (zereh_bloom_set_bits_for_seed words h (zereh_route_bloom_bits route)
               (zereh_route_bloom_hash_functions route) bucket)
    words (route_pos route h bucket).
Proof.
  intros He Hw. pose proof (bloom_bits_range route He).
  destruct (set_bits_spec (Z.to_nat (zereh_route_bloom_hash_functions route)) 0 words h
    (zereh_route_bloom_bits route) bucket Hw) as (w & E & Hw' & Hb); [lia|].
  exists w. split_and!; [done..|]. intros b Hr. rewrite Hb by done. unfold route_pos.
  split; (intros [?|(i & ? & ?)]; [by left|right; exists i; split; [lia|done]]).
Qed.

Lemma seed_bits_adds route now words seed :
  r_bloom_enabled route <> 0 -> bloom_array words ->
  adds_bits (seed_bits words algo route (zereh_route_bloom_bits route)
               (zereh_route_bloom_hash_functions route) (route_bucket route now) seed)
    words (seed_sets algo route now seed).
Proof.
  intros He Hw. unfold seed_bits, seed_sets. cbv zeta. set (h := zereh_hash_domain seed algo).
  destruct (Z.eqb_spec h 0) as [H0|H0].
  { eapply adds_bits_ext, adds_bits_none, Hw. tauto. }
  eapply adds_bits_ext; [|apply adds_bits_seq with (P := route_pos route h (route_bucket route now))
    (Q := fun b => 0 < r_bloom_time_window route /\ 0 < route_bucket route now /\
            route_pos route h (route_bucket route now - 1) b)].
  - intros b. simpl. tauto.
  - by apply seed_hash_bits.
  - intros w Hw'. destruct ((0 <? r_bloom_time_window route) && (0 <? route_bucket route now)) eqn:E.
    + eapply adds_bits_ext; [|by apply seed_hash_bits]. intros b. simpl.
      split; [intros; split_and!; (done || lia)|tauto].
    + eapply adds_bits_ext; [|by apply adds_bits_none]. intros b. simpl. split; [done|]. lia.
Qed.

Lemma route_bits_adds route now words :
  bloom_array words ->
  adds_bits (route_bits words algo now route) words
    (fun b => r_bloom_enabled route <> 0 /\
       exists seed, seed ∈ r_bloom_seeds route /\ seed_sets algo route now seed b).
Proof.
  intros Hw. unfold route_bits. destruct (Z.eqb_spec (r_bloom_enabled route) 0) as [He|He].
  { eapply adds_bits_ext; [|by apply adds_bits_none]. intros b. simpl. tauto. }
  pose proof (bloom_bits_range route He). replace (_ =? 0) with false at 1 by lia.
  assert ((zereh_route_bloom_hash_functions route =? 0) = false) as ->.
  { unfold zereh_route_bloom_hash_functions, ZEREH_MAX_HASH_FUNCTIONS. bool_lia. }
  cbn [orb]. fold (route_bucket route now).
  eapply adds_bits_ext with (P := fun b => exists seed, seed ∈ r_bloom_seeds route /\
    seed_sets algo route now seed b); [tauto|].
  revert words Hw. induction (r_bloom_seeds route) as [|seed seeds IH]; intros words Hw; cbn [seeds_bits].
  - eapply adds_bits_ext; [|by apply adds_bits_none]. intros b. split; [done|].
    intros (s & Hs & _). by apply not_elem_of_nil in Hs.
  - eapply adds_bits_ext; [|apply adds_bits_seq; [by apply seed_bits_adds|exact IH]].
    intros b. simpl. setoid_rewrite elem_of_cons. split.
    + intros [?|(s & ? & ?)]; eauto.
    + intros (s & [->|?] & ?); eauto.
Qed.

Lemma routes_bits_adds time i routes words :
  bloom_array words ->
  adds_bits (routes_bits words algo time i routes) words
    (fun b => exists j route seed, routes !! j = Some route /\ r_bloom_enabled route <> 0 /\
       seed ∈ r_bloom_seeds route /\ seed_sets algo route (time (i + j)%nat) seed b).
Proof.
  revert i words. induction routes as [|route routes IH]; intros i words Hw; cbn [routes_bits].
  - eapply adds_bits_ext; [|by apply adds_bits_none]. intros b. split; [done|]. by intros (j & ? & ? & ? & _).
  - eapply adds_bits_ext; [|apply adds_bits_seq; [by apply route_bits_adds|intros w; apply IH]].
    intros b. simpl. split.
    + intros [(He & s & Hs & Hb)|(j & r & s & Hj & H)].
      * exists 0%nat, route, s. rewrite Nat.add_0_r. done.
      * exists (S j), r, s. replace (i + S j)%nat with (S (i + j))%nat by lia. exact (conj Hj H).
    + intros ([|j] & r & s & Hj & He & Hs & Hb); simpl in Hj.
      * injection Hj as <-. rewrite Nat.add_0_r in Hb. eauto.
      * right. exists j, r, s. replace (i + S j)%nat with (S (i + j))%nat in Hb by lia. done.
Qed.
End bloom_seeding.

Section bloom_map.
Context {PB : Type} `{!BpfMap PB Z Z, !BpfArrayLaws PB Z ZEREH_BLOOM_WORDS}.

Lemma write_words_spec words key (m m' : PB) :
  write_words map_update m key words = (true, m') ->
  forall k, bpf_map_lookup_elem m' k =
    if decide (key <= k < key + Z.of_nat (length words))
    then words !! Z.to_nat (k - key) else bpf_map_lookup_elem m k.
Proof.
  revert key m. induction words as [|v words IH]; intros key m H k; simpl in H.
  { injection H as <-. rewrite decide_False by (simpl; lia). done. }
  unfold map_update in H at 1. destruct (bpf_map_update_elem m key v) as [m1|] eqn:Hu; [|done].
  simpl in H. rewrite (IH _ _ H k), (array_update m key v m1 Hu k). simpl length.
  destruct (decide (k = key)) as [->|Hne].
  - rewrite decide_False, decide_True by lia. by rewrite Z.sub_diag.
  - case_decide as H1; case_decide as H2; try done; try lia.
    replace (Z.to_nat (k - key)) with (S (Z.to_nat (k - (key + 1)))) by lia. done.
Qed.

(** The filter after seeding: a bit is set exactly when a seed of a route
    set it. *)
Lemma seed_bloom_spec (m : PB) time cfg ok m' :
  zereh_seed_bloom_map map_update time m cfg = Ret (ok, m') -> ok = true ->
  forall b, 0 <= b < ZEREH_BLOOM_BITS ->
    bit_set m' b <->
    exists j route seed, c_routes cfg !! j = Some route /\ r_bloom_enabled route <> 0 /\
      seed ∈ r_bloom_seeds route /\ seed_sets (c_hash_algo cfg) route (time j) seed b.
Proof.
  unfold zereh_seed_bloom_map. intros H -> b Hb. set (w0 := replicate _ 0) in H.
  assert (bloom_array w0) as Hw0 by apply length_replicate.
  destruct (routes_bits_adds (c_hash_algo cfg) time 0 (c_routes cfg) w0 Hw0) as (w & E & Hw & Hbits).
  rewrite E in H. cbn [mbind res_bind] in H. injection H as H.
  specialize (Hbits b Hb). simpl in Hbits.
  assert (~ wbit w0 b) as Hz.
  { unfold wbit, w0. rewrite lookup_total_replicate_2; [by rewrite Z.bits_0|].
    unfold ZEREH_BLOOM_BITS, ZEREH_BLOOM_WORDS in *.
    assert (b / 64 < 1024) by (apply Z.div_lt_upper_bound; lia).
    assert (0 <= b / 64) by (apply Z.div_pos; lia). lia. }
  transitivity (wbit w b); [|tauto].
  assert (0 <= b / 64 < ZEREH_BLOOM_WORDS) as Hi.
  { unfold ZEREH_BLOOM_BITS in *. split; [apply Z.div_pos|apply Z.div_lt_upper_bound]; lia. }
  unfold bit_set. rewrite (write_words_spec w 0 m m' H).
  unfold bloom_array in Hw. rewrite decide_True by lia. rewrite Z.sub_0_r.
  rewrite (list_lookup_lookup_total_lt w) by lia. unfold wbit. split.
  - by intros (v & [= <-] & ?).
  - intros ?. eauto.
Qed.
End bloom_map.

(** ** The program array *)

Section prog_map.
Context {P : Type} (find_program : bytes -> option P) (program_fd : P -> Z).
Context (fd_program : Z -> option P).
Context {PA : Type} `{!BpfProgArray PA P, !ProgArrayLaws PA P fd_program ZEREH_PROG_ARRAY_MAX}.
Context (default_tail : option P).

Definition is_tail (r : zereh_route) : Prop := r_target r = ZEREH_TARGET_XDP_PROG.

(** A route's entry, spelled out. *)
Lemma prog_entry_tail r e :
  is_tail r -> prog_entry find_program program_fd default_tail r = Some e ->
  exists prog name, e = Some (r_prog_index r, program_fd prog) /\
    zereh_resolve_tail_program find_program r default_tail = Some (prog, name) /\
    r_prog_index r < ZEREH_PROG_ARRAY_MAX /\ 0 <= program_fd prog.
Proof.
  unfold prog_entry, is_tail. intros Ht H. rewrite bool_decide_eq_true_2 in H by done. cbn [negb] in H.
  destruct (Z.leb_spec ZEREH_PROG_ARRAY_MAX (r_prog_index r)); [done|].
  apply bind_some_inv in H as ([prog name] & Hr & H). destruct (Z.ltb_spec (program_fd prog) 0); [done|].
  injection H as <-. eauto 10.
Qed.

Lemma prog_entry_other r :
  ~ is_tail r -> prog_entry find_program program_fd default_tail r = Some None.
Proof. unfold prog_entry, is_tail. intros H. by rewrite bool_decide_eq_false_2. Qed.

Lemma seed_prog_frame routes (m m' : PA) k :
  seed_prog_routes find_program program_fd prog_update m default_tail routes = (true, m') ->
  Forall (fun r => is_tail r -> r_prog_index r <> k) routes ->
  prog_array_program m' k = prog_array_program m k.
Proof.
  revert m. induction routes as [|r routes IH]; intros m H Hk; cbn [seed_prog_routes] in H.
  { by injection H as <-. }
  apply Forall_cons in Hk as [Hr Hk].
  destruct (prog_entry _ _ default_tail r) as [e|] eqn:He; [|done].
  destruct (decide (r_target r = ZEREH_TARGET_XDP_PROG)) as [Ht|Ht].
  - apply prog_entry_tail in He as (p & n & -> & _); [|done]. unfold prog_update in H at 1.
    destruct (prog_array_update_elem m _ _) as [m1|] eqn:Hu; [|done]. cbn [negb] in H.
    apply prog_array_update in Hu as (_ & q & _ & Hu). rewrite (IH m1 H Hk), (Hu k).
    rewrite decide_False; [done|]. intros ->. by apply Hr.
  - rewrite prog_entry_other in He by done. injection He as <-. by apply IH.
Qed.

(** After a successful seeding every tail route was resolved, and the last
    route of an index owns its slot. *)
Lemma seed_prog_spec pre r post (m m' : PA) :
  (forall p, 0 <= program_fd p -> fd_program (program_fd p) = Some p) ->
  seed_prog_routes find_program program_fd prog_update m default_tail (pre ++ r :: post) = (true, m') ->
  is_tail r -> Forall (fun r' => is_tail r' -> r_prog_index r' <> r_prog_index r) post ->
  exists prog name, zereh_resolve_tail_program find_program r default_tail = Some (prog, name) /\
    r_prog_index r < ZEREH_PROG_ARRAY_MAX /\
    prog_array_program m' (r_prog_index r) = Some prog.
Proof.
  intros Hfds H Ht Hpost. revert m H. induction pre as [|r' pre IH]; intros m H; cbn [app seed_prog_routes] in H.
  - destruct (prog_entry _ _ default_tail r) as [e|] eqn:He; [|done].
    apply prog_entry_tail in He as (p & n & -> & Hres & Hidx & Hfd); [|done].
    unfold prog_update in H at 1. destruct (prog_array_update_elem m _ _) as [m1|] eqn:Hu; [|done].
    cbn [negb] in H. exists p, n. split_and!; [done..|].
    apply prog_array_update in Hu as (_ & p' & Hp & Hu). rewrite (Hfds p Hfd) in Hp. injection Hp as <-.
    rewrite (seed_prog_frame post m1 m' _ H Hpost), Hu. by rewrite decide_True.
  - destruct (prog_entry _ _ default_tail r') as [[[k v]|]|]; [|by eapply IH|done].
    destruct (prog_update m k v) as [[] m1]; [|done]. exact (IH m1 H).
Qed.

(** The order in which a tail program is looked for. *)
Lemma resolve_tail_program_spec r prog name :
  zereh_resolve_tail_program find_program r default_tail = Some (prog, name) <->
  let indexed := snprintf_s ZEREH_MAX_PROG_NAME (str "zereh_app_" ++ fmt_u (r_prog_index r)) in
  (r_prog_name r <> [] /\ find_program (r_prog_name r) = Some prog /\
     name = snprintf_s ZEREH_MAX_PROG_NAME (r_prog_name r)) \/
  (r_prog_name r = [] /\ find_program indexed = Some prog /\
     name = snprintf_s ZEREH_MAX_PROG_NAME indexed) \/
  (r_prog_name r = [] /\ find_program indexed = None /\ default_tail = Some prog /\
     name = str "zereh_app_default").
Proof.
  unfold zereh_resolve_tail_program. cbv zeta. case_bool_decide as Hn; cbn [negb].
  - destruct (find_program (snprintf_s _ _)) as [p|]; [|destruct default_tail as [p|]];
      cbn [mbind option_bind].
    + split; [intros [= <- <-]; auto|]. intros [[]|[(?&[= ->]&->)|(?&?&?)]]; done.
    + split; [intros [= <- <-]; auto 10|]. intros [[]|[(?&?&?)|(?&?&[= ->]&->)]]; done.
    + split; [done|]. intros [[]|[(?&?&?)|(?&?&?&?)]]; done.
  - destruct (find_program (r_prog_name r)) as [p|]; cbn [mbind option_bind].
    + split; [intros [= <- <-]; auto|]. intros [(?&[= ->]&->)|[[]|[]]]; done.
    + split; [done|]. intros [(?&?&?)|[[]|[]]]; done.
Qed.
End prog_map.

(** ** Properties *)

(** C35: a CIDR string [a.b.c.d/p], and an address alone as [/32], becomes
    the key with that prefix length and the address in network byte order; any
    key the parser returns has a prefix length of 0 to 32. *)
Theorem parse_cidr_roundtrip (a b c d p : Z) :
  is_byte a -> is_byte b -> is_byte c -> is_byte d -> 0 <= p <= 32 ->
  zereh_parse_cidr_v4 (fmt_ip a b c d ++ 47 :: fmt_u p) = Some (LpmV4Key p (s_addr [a; b; c; d])) /\
  zereh_parse_cidr_v4 (fmt_ip a b c d) = Some (LpmV4Key 32 (s_addr [a; b; c; d])) /\
  forall s key, zereh_parse_cidr_v4 s = Some key -> 0 <= prefixlen key <= 32.
Proof.
  intros. split_and!; [by apply parse_cidr_fmt|by apply parse_cidr_host|apply parse_cidr_prefix].
Qed.

Lemma parse_cidr_roundtrip_witness :
  zereh_parse_cidr_v4 (fmt_ip 192 168 0 0 ++ 47 :: fmt_u 16) = Some (LpmV4Key 16 43200).
Proof.
  apply (parse_cidr_roundtrip 192 168 0 0 16); first [lia | by_compute].
Defined.

(** C27: after a successful seeding of the blacklist, a lookup of
    an address finds an entry exactly when some CIDR of the configuration covers
    it (or the map already held it), and every CIDR was valid. *)
Theorem seed_blacklist_iff {BL : Type} `{!BpfMap BL lpm_v4_key Z, !LpmTrieLaws BL Z}
    (m m' : BL) (blacklist : list bytes) (a : Z) :
  zereh_seed_blacklist_map map_update m blacklist = (true, m') ->
  Forall (fun cidr => is_Some (zereh_parse_cidr_v4 cidr)) blacklist /\
  (is_Some (bpf_map_lookup_elem m' (LpmV4Key 32 a)) <->
     denied blacklist a \/ is_Some (bpf_map_lookup_elem m (LpmV4Key 32 a))).
Proof.
  intros H. split; [by eapply seed_blacklist_parses|by apply seed_blacklist_spec].
Qed.

Lemma seed_blacklist_iff_witness :
  let m' := [(LpmV4Key 8 10, 1)] : lpm_list Z in
  zereh_seed_blacklist_map map_update ([] : lpm_list Z) [str "10.0.0.0/8"] = (true, m') /\
  is_Some (bpf_map_lookup_elem m' (LpmV4Key 32 (s_addr [10; 1; 2; 3]))).
Proof.
  intros m'.
  assert (zereh_seed_blacklist_map map_update ([] : lpm_list Z) [str "10.0.0.0/8"] = (true, m')) as E
    by (vm_compute; reflexivity).
  split; [exact E|].
  apply (seed_blacklist_iff ([] : lpm_list Z) m' [str "10.0.0.0/8"] (s_addr [10; 1; 2; 3]) E).
  left. exists (str "10.0.0.0/8"), (LpmV4Key 8 10).
  split; [left|]. split; [vm_compute; reflexivity|vm_compute; reflexivity].
Defined.

(** C26: after a successful seeding of the Bloom filter, a bit of the
    map is set exactly when it is a position of the hash of some seed of an
    enabled route, in the window of the time of loading or the one before. *)
Theorem seed_bloom_iff {PB : Type} `{!BpfMap PB Z Z, !BpfArrayLaws PB Z ZEREH_BLOOM_WORDS}
    (m m' : PB) (time : nat -> Z) (cfg : zereh_config) (b : Z) :
  zereh_seed_bloom_map map_update time m cfg = Ret (true, m') -> 0 <= b < ZEREH_BLOOM_BITS ->
  bit_set m' b <->
  exists j route seed, c_routes cfg !! j = Some route /\ r_bloom_enabled route <> 0 /\
    seed ∈ r_bloom_seeds route /\ seed_sets (c_hash_algo cfg) route (time j) seed b.
Proof. intros H Hb. by eapply seed_bloom_spec. Qed.

Lemma seed_bloom_iff_witness :
  exists m' : farray 1024 Z,
    zereh_seed_bloom_map (S := farray 1024 Z) map_update (fun _ => 0) (fun _ => 0) sample_config
      = Ret (true, m') /\
    (bit_set m' 0 <-> exists j route seed, c_routes sample_config !! j = Some route /\
       r_bloom_enabled route <> 0 /\ seed ∈ r_bloom_seeds route /\
       seed_sets (c_hash_algo sample_config) route 0 seed 0).
Proof.
  assert (match zereh_seed_bloom_map (S := farray 1024 Z) map_update (fun _ => 0) (fun _ => 0)
    sample_config with Ret (ok, _) => ok | _ => false end = true) as H by (vm_compute; reflexivity).
  destruct (zereh_seed_bloom_map (S := farray 1024 Z) map_update (fun _ => 0) (fun _ => 0) sample_config)
    as [[[] m']| |] eqn:E.
  - exists m'. split; [reflexivity|].
    exact (seed_bloom_iff (PB := farray 1024 Z) (fun _ => 0) m' (fun _ => 0) sample_config 0 E
             ltac:(unfold ZEREH_BLOOM_BITS, ZEREH_BLOOM_WORDS; lia)).
  - discriminate H.
  - discriminate H.
  - discriminate H.
Defined.

(** The tail program of a route is the one of its explicit name,
    which must exist; without a name, the one called [zereh_app_<index>]; failing
    that, the default program. *)
Theorem resolve_tail_program_order {P : Type} (find_program : bytes -> option P)
    (route : zereh_route) (default_tail : option P) (prog : P) (name : bytes) :
  zereh_resolve_tail_program find_program route default_tail = Some (prog, name) <->
  let indexed := snprintf_s ZEREH_MAX_PROG_NAME (str "zereh_app_" ++ fmt_u (r_prog_index route)) in
  (r_prog_name route <> [] /\ find_program (r_prog_name route) = Some prog /\
     name = snprintf_s ZEREH_MAX_PROG_NAME (r_prog_name route)) \/
  (r_prog_name route = [] /\ find_program indexed = Some prog /\
     name = snprintf_s ZEREH_MAX_PROG_NAME indexed) \/
  (r_prog_name route = [] /\ find_program indexed = None /\ default_tail = Some prog /\
     name = str "zereh_app_default").
Proof. apply resolve_tail_program_spec. Qed.

(** C34: after a successful seeding of the program array, a tail call with the
    index of a tail-call route jumps to the program resolved for the route, unless
    a later tail-call route has the same index; the index is below 64.  The
    descriptor that libbpf gives for a program refers to that program, and the
    kernel's array takes a descriptor only as a reference to a program. *)
Theorem seed_prog_array_slot {P : Type} (find_program : bytes -> option P) (program_fd : P -> Z)
    (fd_program : Z -> option P) {PA : Type}
    `{!BpfProgArray PA P, !ProgArrayLaws PA P fd_program ZEREH_PROG_ARRAY_MAX}
    (m m' : PA) (cfg : zereh_config) (pre post : list zereh_route) (r : zereh_route) :
  (forall p, 0 <= program_fd p -> fd_program (program_fd p) = Some p) ->
  zereh_seed_prog_array find_program program_fd prog_update m cfg = (true, m') ->
  c_routes cfg = pre ++ r :: post -> is_tail r ->
  Forall (fun r' => is_tail r' -> r_prog_index r' <> r_prog_index r) post ->
  exists prog name,
    zereh_resolve_tail_program find_program r (find_program (str "zereh_app_default")) = Some (prog, name) /\
    r_prog_index r < ZEREH_PROG_ARRAY_MAX /\
    prog_array_program m' (r_prog_index r) = Some prog.
Proof.
  unfold zereh_seed_prog_array. intros Hfd H E. rewrite E in H. by eapply seed_prog_spec.
Qed.

Definition sample_tail_route : zereh_route :=
  ZerehRoute (str "x.example.com") 1 ZEREH_TARGET_XDP_PROG 0 0 3 [] [] [] 1 127 1 255 7 1 0 0 0 0 0 0 [] 0.

(** The programs are names; the descriptor of a program is 9, which refers to
    [zereh_app_3]. *)
Lemma seed_prog_array_slot_witness :
  exists (m' : prog_table (fun fd => if fd =? 9 then Some (str "zereh_app_3") else None) 64) prog name,
    zereh_resolve_tail_program (fun n => if decide (n = str "zereh_app_3") then Some n else None)
      sample_tail_route None = Some (prog, name) /\
    prog_array_program m' 3 = Some prog.
Proof.
  pose (find := fun n => if decide (n = str "zereh_app_3") then Some n else None : option bytes).
  pose (fd := fun p => if decide (p = str "zereh_app_3") then 9 else -1 : Z).
  pose (fd_prog := fun fd => if fd =? 9 then Some (str "zereh_app_3") else None : option bytes).
  pose (cfg := zereh_config_init_defaults <| c_routes := [sample_tail_route] |>).
  pose (m' := (fun i => if i =? 3 then Some (str "zereh_app_3") else None) : prog_table fd_prog 64).
  destruct (seed_prog_array_slot (PA := prog_table fd_prog 64) find fd fd_prog (fun _ => None) m' cfg [] []
    sample_tail_route) as (prog & name & H1 & _ & H2).
  - intros p. unfold fd. case_decide as E; [|intros Hp; exfalso; apply Hp; reflexivity]. rewrite E. reflexivity.
  - vm_compute. reflexivity.
  - reflexivity.
  - reflexivity.
  - constructor.
  - exists m', prog, name. split; [exact H1|exact H2].
Defined.
