(* ===== verification/Attach.v ===== *)
(** * control/loader.c: attaching and detaching the program

    The calls to libbpf and the kernel are events of a trace: [answer tr c] is
    what the call [c] returns after the events [tr] (a negative result stands
    for [-errno]).  Descriptors, links and the loaded object live in the
    kernel; what the sources promise about them (every descriptor and link opened
    is released, the object is closed on every path, nothing is attached before
    the maps are seeded) is a property of the trace. *)
From S2P Require Import Prelude CLib Hash BpfMaps XdpFilters Config Yaml Loader.
#[local] Open Scope Z_scope.

Inductive call : Type :=
| IfNameToIndex (name : bytes)              (* the index, 0 on error *)
| SetMemlock                                (* setrlimit(RLIMIT_MEMLOCK, ...) *)
| SetStrictMode
| ObjectOpen (path : bytes)
| ObjectLoad
| ObjectClose
| FindMap (name : bytes)                    (* 0 is NULL *)
| UpdateBlacklist (key : lpm_v4_key) (deny : Z)
| UpdateBloom (key value : Z)
| UpdateProgArray (key value : Z)
| Stat (path : bytes)                       (* 1 a directory, 0 something else *)
| Mkdir (path : bytes)
| XdpQueryId (ifindex flags : Z)            (* the program id, 0 when none or on error *)
| ProgGetFdById (id : Z)
| XdpAttach (ifindex prog_fd flags old_prog_fd : Z)
| XdpDetach (ifindex flags : Z)
| ObjGet (path : bytes)
| LinkUpdate (link_fd prog_fd : Z)
| AttachXdpLink (prog_fd ifindex : Z)       (* bpf_program__attach_xdp *)
| LinkPin (path : bytes)
| LinkDestroy
| Unlink (path : bytes)
| Close (fd : Z)
| WriteFile (path text : bytes)             (* zereh_write_file of control/codegen.c *)
| ForkExec (argv : list bytes)              (* fork, execvp in the child; the pid *)
| WaitPid (pid : Z)                         (* the status *)
| Print (text : bytes).                     (* printf of control/main.c *)

Definition event : Type := call * Z.
Definition trace : Type := list event.

(** ** Computations that call *)

Definition io (A : Type) : Type := trace -> A * trace.

#[global] Instance io_ret : MRet io := fun A a tr => (a, tr).
#[global] Instance io_bind : MBind io := fun A B f m tr => let '(a, tr) := m tr in f a tr.

Definition ENOENT : Z := 2.
Definition EEXIST : Z := 17.
Definition EINVAL : Z := 22.
Definition EOPNOTSUPP : Z := 95.            (* ENOTSUP is the same number *)

Definition XDP_FLAGS_SKB_MODE : Z := 2.
Definition XDP_FLAGS_DRV_MODE : Z := 4.
Definition XDP_FLAGS_HW_MODE : Z := 8.

(** ** Pure parts *)

Definition pin_dir : bytes := str "/sys/fs/bpf/zereh".
Definition link_prefix : bytes := str "/xdp_link_".

Definition zereh_build_pin_path (out_len : nat) (ifname : bytes) : option bytes :=
  if (out_len =? 0)%nat || bool_decide (ifname = []) then None
  else
    let ifname_len := Nat.min (length ifname) IFNAMSIZ in
    if (ifname_len =? 0)%nat || (IFNAMSIZ <=? ifname_len)%nat then None
    else
      let need := (length pin_dir + length link_prefix + ifname_len + 1)%nat in
      if (out_len <? need)%nat then None
      else Some (pin_dir ++ link_prefix ++ take ifname_len ifname).

Definition zereh_xdp_mode_to_flags (mode : zereh_xdp_mode) : Z :=
  match mode with
  | ZEREH_XDP_MODE_SKB => XDP_FLAGS_SKB_MODE
  | ZEREH_XDP_MODE_OFFLOAD => XDP_FLAGS_HW_MODE
  | ZEREH_XDP_MODE_NATIVE => XDP_FLAGS_DRV_MODE
  end.

Section loader.
Context (answer : trace -> call -> Z).

Definition sys (c : call) : io Z := fun tr => let r := answer tr c in (r, tr ++ [(c, r)]).

(** [if (fd >= 0) close(fd);] *)
Definition close_if_open (fd : Z) : io unit :=
  if 0 <=? fd then _ ← sys (Close fd); mret tt else mret tt.

Definition zereh_raise_memlock : io bool := rc ← sys SetMemlock; mret (rc =? 0).

Definition zereh_ensure_dir (path : bytes) : io bool :=
  st ← sys (Stat path);
  if 0 <=? st then mret (negb (st =? 0))
  else
    rc ← sys (Mkdir path);
    mret ((rc =? 0) || (- rc =? EEXIST)).

Definition zereh_attach_xdp_replace (ifindex prog_fd : Z) (mode : zereh_xdp_mode) : io bool :=
  let flags := zereh_xdp_mode_to_flags mode in
  old_prog_id ← sys (XdpQueryId ifindex flags);
  old_prog_fd ← (if 0 <? old_prog_id then sys (ProgGetFdById old_prog_id) else mret (-1));
  rc ← sys (XdpAttach ifindex prog_fd flags (if 0 <=? old_prog_fd then old_prog_fd else 0));
  _ ← close_if_open old_prog_fd;
  mret (rc =? 0).

(** [prog_fd] is [bpf_program__fd(prog)]. *)
Definition zereh_attach_or_update_link (prog_fd ifindex : Z) (pin_path : bytes)
    (mode : zereh_xdp_mode) : io bool :=
  if negb (bool_decide (mode = ZEREH_XDP_MODE_NATIVE))
  then zereh_attach_xdp_replace ifindex prog_fd mode
  else
    old_link_fd ← sys (ObjGet pin_path);
    if 0 <=? old_link_fd then
      rc ← sys (LinkUpdate old_link_fd prog_fd);
      _ ← sys (Close old_link_fd);
      mret (rc =? 0)
    else if negb (- old_link_fd =? ENOENT) then mret false
    else
      err ← sys (AttachXdpLink prog_fd ifindex);
      if negb (err =? 0) then mret false
      else
        rc ← sys (LinkPin pin_path);
        _ ← sys LinkDestroy;
        mret (rc =? 0).

(** The effective mode, or [None]. *)
Definition zereh_attach_with_fallback (prog_fd ifindex : Z) (pin_path : bytes)
    (requested_mode : zereh_xdp_mode) : io (option zereh_xdp_mode) :=
  let attach := zereh_attach_or_update_link prog_fd ifindex pin_path in
  ok ← attach requested_mode;
  if (ok : bool) then mret (Some requested_mode)
  else
    match requested_mode with
    | ZEREH_XDP_MODE_OFFLOAD =>
        ok ← attach ZEREH_XDP_MODE_NATIVE;
        if (ok : bool) then mret (Some ZEREH_XDP_MODE_NATIVE)
        else
          ok ← attach ZEREH_XDP_MODE_SKB;
          if (ok : bool) then mret (Some ZEREH_XDP_MODE_SKB) else mret None
    | ZEREH_XDP_MODE_NATIVE =>
        ok ← attach ZEREH_XDP_MODE_SKB;
        if (ok : bool) then mret (Some ZEREH_XDP_MODE_SKB) else mret None
    | ZEREH_XDP_MODE_SKB => mret None
    end.

(** Whether the call succeeded, and the new [detached_any]. *)
Definition zereh_detach_mode (ifindex flags : Z) (detached_any : bool) : io (bool * bool) :=
  rc ← sys (XdpDetach ifindex flags);
  if rc =? 0 then mret (true, true)
  else if (- rc =? ENOENT) || (- rc =? EINVAL) || (- rc =? EOPNOTSUPP)
  then mret (true, detached_any)
  else mret (false, detached_any).

(** ** Loading *)

(** The object's programs, and the clock at each route. *)
Context {P : Type} (find_program : bytes -> option P) (program_fd : P -> Z) (time : nat -> Z).

Definition update_with {K} (c : K -> Z -> call) (tr : trace) (k : K) (v : Z) : bool * trace :=
  let '(rc, tr) := sys (c k v) tr in (rc =? 0, tr).

(** [if (map && seed(map) != 0) goto out;] *)
Definition seed_map (name : bytes) (seed : io bool) : io bool :=
  map ← sys (FindMap name);
  if map =? 0 then mret true else seed.

Definition seed_blacklist (cfg : zereh_config) : io bool := fun tr =>
  zereh_seed_blacklist_map (update_with UpdateBlacklist) tr (c_blacklist cfg).

(** [zereh_seed_bloom_map] always returns ([seed_bloom_returns]). *)
Definition seed_bloom (cfg : zereh_config) : io bool := fun tr =>
  match zereh_seed_bloom_map (update_with UpdateBloom) time tr cfg with
  | Ret r => r
  | _ => (false, tr)
  end.

Definition seed_programs (cfg : zereh_config) : io bool := fun tr =>
  zereh_seed_prog_array find_program program_fd (update_with UpdateProgArray) tr cfg.

(** The three maps, in order; the first failure ends. *)
Definition seed_maps (cfg : zereh_config) : io bool :=
  ok ← seed_map (str "ip_blacklist") (seed_blacklist cfg);
  if negb ok then mret false
  else
    ok ← seed_map (str "pow_bloom") (seed_bloom cfg);
    if negb ok then mret false
    else seed_map (str "prog_array") (seed_programs cfg).

(** From the loaded object to the attached program. *)
Definition install (cfg : zereh_config) (ifname : bytes) (ifindex : Z) :
    io (option zereh_xdp_mode) :=
  rc ← sys ObjectLoad;
  if negb (rc =? 0) then mret None
  else
    ok ← seed_maps cfg;
    if negb ok then mret None
    else
      match find_program (c_xdp_section cfg) with
      | None => mret None
      | Some prog =>
          ok ← zereh_ensure_dir pin_dir;
          if negb ok then mret None
          else
            match zereh_build_pin_path PATH_MAX ifname with
            | None => mret None
            | Some pin_path =>
                zereh_attach_with_fallback (program_fd prog) ifindex pin_path (c_xdp_mode cfg)
            end
      end.

(** [ifname_override] is [None] for NULL. *)
Definition choose_ifname (cfg : zereh_config) (ifname_override : option bytes) : bytes :=
  match ifname_override with
  | Some name => if bool_decide (name = []) then c_interface cfg else name
  | None => c_interface cfg
  end.

Definition zereh_load_and_swap_xdp (cfg : zereh_config) (ifname_override : option bytes) :
    io (option zereh_xdp_mode) :=
  let ifname := choose_ifname cfg ifname_override in
  ifindex ← sys (IfNameToIndex ifname);
  if ifindex =? 0 then mret None
  else
    ok ← zereh_raise_memlock;
    if negb ok then mret None
    else
      _ ← sys SetStrictMode;
      err ← sys (ObjectOpen (c_generated_object cfg));
      if negb (err =? 0) then mret None
      else
        r ← install cfg ifname ifindex;
        _ ← sys ObjectClose;
        mret r.

(** ** Detaching *)

(** The three modes, in order; the first failure ends. *)
Definition detach_modes (ifindex : Z) : io (option bool) :=
  '(ok, any) ← zereh_detach_mode ifindex XDP_FLAGS_DRV_MODE false;
  if negb ok then mret None
  else
    '(ok, any) ← zereh_detach_mode ifindex XDP_FLAGS_HW_MODE any;
    if negb ok then mret None
    else
      '(ok, any) ← zereh_detach_mode ifindex XDP_FLAGS_SKB_MODE any;
      if negb ok then mret None else mret (Some any).

Definition zereh_detach_xdp (cfg : zereh_config) (ifname_override : option bytes) : io bool :=
  let ifname := choose_ifname cfg ifname_override in
  ifindex ← sys (IfNameToIndex ifname);
  if ifindex =? 0 then mret false
  else
    match zereh_build_pin_path PATH_MAX ifname with
    | None => mret false
    | Some pin_path =>
        link_fd ← sys (ObjGet pin_path);
        ok ← (if 0 <=? link_fd then
                _ ← sys (Close link_fd);
                rc ← sys (Unlink pin_path);
                mret ((rc =? 0) || (- rc =? ENOENT))
              else mret true);
        if negb ok then mret false
        else
          any ← detach_modes ifindex;
          mret (match any with Some _ => true | None => false end)
    end.
End loader.

(** ** Reasoning about traces *)

(** Whatever the answers, [m] returns some [a] after events [evs] with
    [Q a evs]. *)
Definition emits {A} (m : io A) (Q : A -> trace -> Prop) : Prop :=
  forall tr, exists a evs, m tr = (a, tr ++ evs) /\ Q a evs.

Lemma emits_ret {A} (a : A) (Q : A -> trace -> Prop) : Q a [] -> emits (mret a) Q.
Proof. intros H tr. exists a, []. by rewrite app_nil_r. Qed.

Lemma emits_bind {A B} (m : io A) (f : A -> io B) Q1 (Q : B -> trace -> Prop) :
  emits m Q1 ->
  (forall a e1, Q1 a e1 -> emits (f a) (fun b e2 => Q b (e1 ++ e2))) -> emits (m ≫= f) Q.
Proof.
  intros Hm Hf tr. destruct (Hm tr) as (a & e1 & E1 & H1).
  destruct (Hf a e1 H1 (tr ++ e1)) as (b & e2 & E2 & H2). exists b, (e1 ++ e2).
  split; [|done]. unfold mbind, io_bind. by rewrite E1, E2, app_assoc.
Qed.

Lemma emits_weaken {A} (m : io A) (Q Q' : A -> trace -> Prop) :
  emits m Q -> (forall a e, Q a e -> Q' a e) -> emits m Q'.
Proof. intros Hm H tr. destruct (Hm tr) as (a & e & ? & ?). eauto. Qed.

Section sys.
Context (answer : trace -> call -> Z).

Lemma emits_sys c (Q : Z -> trace -> Prop) :
  (forall r, Q r [(c, r)]) -> emits (sys answer c) Q.
Proof. intros H tr. by exists (answer tr c), [(c, answer tr c)]. Qed.

Lemma emits_sys_bind {B} c (f : Z -> io B) (Q : B -> trace -> Prop) :
  (forall r, emits (f r) (fun b e => Q b ((c, r) :: e))) -> emits (sys answer c ≫= f) Q.
Proof.
  intros H. eapply emits_bind with (Q1 := fun r e => e = [(c, r)]); [by apply emits_sys|].
  intros r e ->. apply H.
Qed.
End sys.

Lemma emits_ret_bind {A B} (a : A) (f : A -> io B) Q : emits (f a) Q -> emits (mret a ≫= f) Q.
Proof. done. Qed.

Lemma emits_assoc {A B C} (m : io A) (f : A -> io B) (g : B -> io C) Q :
  emits (m ≫= fun a => f a ≫= g) Q -> emits ((m ≫= f) ≫= g) Q.
Proof.
  intros H tr. destruct (H tr) as (c & e & E & ?). exists c, e. split; [|done]. rewrite <- E.
  unfold mbind, io_bind. by destruct (m tr).
Qed.

(** [io_step] runs a computation symbolically, call by call. *)
Ltac io_step :=
  repeat first
    [ progress cbv zeta
    | apply emits_ret
    | apply emits_sys; intros ?
    | apply emits_sys_bind; intros ?
    | apply emits_ret_bind
    | apply emits_assoc
    | match goal with
      | |- emits (mbind _ (if ?b then _ else _)) _ => destruct b eqn:?
      | |- emits (if ?b then _ else _) _ => destruct b eqn:?
      end ].

(** What a process holds: descriptors, and the links that
    [bpf_program__attach_xdp] returns, which [bpf_link__destroy] frees. *)
Inductive handle : Type := Fd (fd : Z) | Link.

#[global] Instance handle_eq_dec : EqDecision handle.
Proof. solve_decision. Defined.

(** The handle that a call has opened, and the one it releases. *)
Definition opens (e : event) : option handle :=
  match e with
  | (ObjGet _, r) | (ProgGetFdById _, r) => if 0 <=? r then Some (Fd r) else None
  | (AttachXdpLink _ _, r) => if r =? 0 then Some Link else None
  | _ => None
  end.
Definition closes (e : event) : option handle :=
  match e with
  | (Close fd, _) => Some (Fd fd)
  | (LinkDestroy, _) => Some Link
  | _ => None
  end.

(** The handles held after a trace, the last one first; [None] when something is
    released that was not opened last. *)
Fixpoint handles_after (hs : list handle) (evs : trace) : option (list handle) :=
  match evs with
  | [] => Some hs
  | e :: evs' =>
      match closes e with
      | Some h =>
          match hs with
          | h' :: hs' => if decide (h = h') then handles_after hs' evs' else None
          | [] => None
          end
      | None => handles_after (match opens e with Some h => h :: hs | None => hs end) evs'
      end
  end.

(** Every handle that is opened is released once, and nothing else is. *)
Definition balanced (evs : trace) : Prop := forall hs, handles_after hs evs = Some hs.

Lemma handles_after_app hs e1 e2 : handles_after hs (e1 ++ e2) = handles_after hs e1 ≫= fun hs' => handles_after hs' e2.
Proof.
  revert hs. induction e1 as [|e e1 IH]; intros hs; [done|]. cbn [app handles_after].
  destruct (closes e) as [h|]; [|apply IH].
  destruct hs as [|h' hs]; [done|]. case_decide; [apply IH|done].
Qed.

Lemma balanced_app e1 e2 : balanced e1 -> balanced e2 -> balanced (e1 ++ e2).
Proof. intros H1 H2 hs. rewrite handles_after_app, H1. apply H2. Qed.

(** Kinds of calls. *)
Definition is_update (c : call) : bool :=
  match c with UpdateBlacklist _ _ | UpdateBloom _ _ | UpdateProgArray _ _ => true | _ => false end.
Definition is_attach (c : call) : bool :=
  match c with XdpAttach _ _ _ _ | LinkUpdate _ _ | AttachXdpLink _ _ | LinkPin _ => true
  | _ => false end.
Definition is_handle (c : call) : bool :=
  match c with
  | ObjGet _ | ProgGetFdById _ | Close _ | AttachXdpLink _ _ | LinkDestroy => true
  | _ => false
  end.

(** How often a trace opens an object, and closes it. *)
Definition objects_opened (evs : trace) : nat :=
  length (omap (fun e => match e with
                         | (ObjectOpen _, r) => if r =? 0 then Some tt else None
                         | _ => None
                         end) evs).
Definition objects_closed (evs : trace) : nat :=
  length (omap (fun e => match e with (ObjectClose, _) => Some tt | _ => None end) evs).
Definition no_object (evs : trace) : Prop := objects_opened evs = 0%nat /\ objects_closed evs = 0%nat.

Lemma no_object_app e1 e2 : no_object e1 -> no_object e2 -> no_object (e1 ++ e2).
Proof.
  unfold no_object, objects_opened, objects_closed. rewrite !omap_app, !length_app. lia.
Qed.

(** The events of an attachment: descriptors and links are released, maps are not
    touched. *)
Record attach_events (evs : trace) : Prop := {
  ae_balanced : balanced evs;
  ae_object : no_object evs;
  ae_update : Forall (fun e => is_update e.1 = false) evs
}.

(** The events of the seeding: nothing is attached, and a success means that
    every update succeeded. *)
Record seed_events (ok : bool) (evs : trace) : Prop := {
  se_attach : Forall (fun e => is_attach e.1 = false /\ is_handle e.1 = false) evs;
  se_object : no_object evs;
  se_update : ok = true -> Forall (fun e => is_update e.1 = true -> e.2 = 0) evs
}.

Lemma attach_events_app e1 e2 : attach_events e1 -> attach_events e2 -> attach_events (e1 ++ e2).
Proof.
  intros [] []. constructor; [by apply balanced_app|by apply no_object_app|by apply Forall_app].
Qed.

Lemma seed_events_app ok e1 e2 : seed_events true e1 -> seed_events ok e2 -> seed_events ok (e1 ++ e2).
Proof.
  intros [] []. constructor; [by apply Forall_app|by apply no_object_app|].
  intros. apply Forall_app. auto.
Qed.

(** [events] checks a list of events that is spelled out. *)
Ltac events :=
  constructor;
  [ intros ?; cbn [app handles_after opens closes];
    repeat match goal with
    | H : (0 <=? _) = _ |- _ => rewrite H
    | H : negb (?r =? 0) = _ |- context [?r =? 0] => destruct (r =? 0); try discriminate H
    | |- context [decide (?h = ?h)] => rewrite (decide_True (P := h = h)) by done
    end; done
  | done
  | repeat (apply Forall_cons; split; [done|]); apply Forall_nil; done ].

Section attach_lemmas.
Context (answer : trace -> call -> Z) (prog_fd ifindex : Z) (pin_path : bytes).

Lemma emits_attach_replace mode :
  emits (zereh_attach_xdp_replace answer ifindex prog_fd mode) (fun _ evs => attach_events evs).
Proof.
  unfold zereh_attach_xdp_replace, close_if_open. io_step; events.
Qed.

Lemma emits_attach_link mode :
  emits (zereh_attach_or_update_link answer prog_fd ifindex pin_path mode)
    (fun _ evs => attach_events evs).
Proof.
  unfold zereh_attach_or_update_link. destruct (negb _); [apply emits_attach_replace|].
  io_step; events.
Qed.

(** The modes that are tried for a requested mode, in order. *)
Definition mode_chain (mode : zereh_xdp_mode) : list zereh_xdp_mode :=
  match mode with
  | ZEREH_XDP_MODE_OFFLOAD => [ZEREH_XDP_MODE_OFFLOAD; ZEREH_XDP_MODE_NATIVE; ZEREH_XDP_MODE_SKB]
  | ZEREH_XDP_MODE_NATIVE => [ZEREH_XDP_MODE_NATIVE; ZEREH_XDP_MODE_SKB]
  | ZEREH_XDP_MODE_SKB => [ZEREH_XDP_MODE_SKB]
  end.

(** The first mode that attaches. *)
Fixpoint try_modes (modes : list zereh_xdp_mode) : io (option zereh_xdp_mode) :=
  match modes with
  | [] => mret None
  | mode :: modes' =>
      ok ← zereh_attach_or_update_link answer prog_fd ifindex pin_path mode;
      if (ok : bool) then mret (Some mode) else try_modes modes'
  end.

Lemma attach_with_fallback_eq mode tr :
  zereh_attach_with_fallback answer prog_fd ifindex pin_path mode tr =
    try_modes (mode_chain mode) tr.
Proof. by destruct mode. Qed.

Lemma emits_try_modes modes : emits (try_modes modes) (fun _ evs => attach_events evs).
Proof.
  induction modes as [|mode modes IH]; cbn [try_modes]; [io_step; events|].
  eapply emits_bind; [apply emits_attach_link|]. intros ok e1 H1. destruct ok.
  - apply emits_ret. by rewrite app_nil_r.
  - eapply emits_weaken; [exact IH|]. intros r e2 H2. by apply attach_events_app.
Qed.

Lemma emits_attach_with_fallback mode :
  emits (zereh_attach_with_fallback answer prog_fd ifindex pin_path mode)
    (fun _ evs => attach_events evs).
Proof.
  intros tr. rewrite attach_with_fallback_eq. apply emits_try_modes.
Qed.
End attach_lemmas.

(** ** Seeding through calls *)

Section seed_lemmas.
Context (answer : trace -> call -> Z).

Lemma update_with_events {K} (c : K -> Z -> call) tr k v :
  (forall k v, is_update (c k v) = true /\ is_attach (c k v) = false /\ is_handle (c k v) = false) ->
  (forall k v r, no_object [(c k v, r)]) ->
  exists ok evs, update_with answer c tr k v = (ok, tr ++ evs) /\ seed_events ok evs.
Proof.
  intros Hc Ho. destruct (Hc k v) as (Hu & Ha & Hf).
  exists (answer tr (c k v) =? 0), [(c k v, answer tr (c k v))]. split; [done|]. constructor.
  - by apply Forall_singleton.
  - apply Ho.
  - intros E. apply Forall_singleton. simpl. intros _. lia.
Qed.

Lemma seed_events_nil ok : seed_events ok [].
Proof. by constructor. Qed.

Lemma emits_seed_blacklist cfg : emits (seed_blacklist answer cfg) seed_events.
Proof.
  unfold seed_blacklist. intros tr. revert tr.
  induction (c_blacklist cfg) as [|cidr l IH]; intros tr; cbn [zereh_seed_blacklist_map].
  { exists true, []. rewrite app_nil_r. split; [done|apply seed_events_nil]. }
  destruct (zereh_parse_cidr_v4 cidr) as [key|].
  2: { exists false, []. rewrite app_nil_r. split; [done|apply seed_events_nil]. }
  destruct (update_with_events UpdateBlacklist tr key 1) as (ok & e1 & -> & H1); [done..|].
  destruct ok; cbn [negb]; [|by exists false, e1].
  destruct (IH (tr ++ e1)) as (ok & e2 & -> & H2). exists ok, (e1 ++ e2).
  rewrite app_assoc. split; [done|by apply seed_events_app].
Qed.

Lemma write_words_events words key tr :
  exists ok evs, write_words (update_with answer UpdateBloom) tr key words = (ok, tr ++ evs) /\
    seed_events ok evs.
Proof.
  revert key tr. induction words as [|v words IH]; intros key tr; cbn [write_words].
  { exists true, []. rewrite app_nil_r. split; [done|apply seed_events_nil]. }
  destruct (update_with_events UpdateBloom tr key v) as (ok & e1 & -> & H1); [done..|].
  destruct ok; cbn [negb]; [|by exists false, e1].
  destruct (IH (key + 1) (tr ++ e1)) as (ok & e2 & -> & H2). exists ok, (e1 ++ e2).
  rewrite app_assoc. split; [done|by apply seed_events_app].
Qed.

(** The Bloom filter's seeding never leaves its array, and returns. *)
Lemma seed_bloom_returns {S} (update : S -> Z -> Z -> bool * S) time s cfg :
  exists words, zereh_seed_bloom_map update time s cfg = Ret (write_words update s 0 words) /\
    length words = Z.to_nat ZEREH_BLOOM_WORDS.
Proof.
  unfold zereh_seed_bloom_map.
  destruct (routes_bits_adds (c_hash_algo cfg) time 0 (c_routes cfg)
    (replicate (Z.to_nat ZEREH_BLOOM_WORDS) 0)) as (w & -> & Hw & _); [apply length_replicate|].
  by exists w.
Qed.

Lemma emits_seed_bloom time cfg : emits (seed_bloom answer time cfg) seed_events.
Proof.
  intros tr. unfold seed_bloom.
  destruct (seed_bloom_returns (update_with answer UpdateBloom) time tr cfg) as (w & -> & _).
  apply write_words_events.
Qed.

Context {P : Type} (find_program : bytes -> option P) (program_fd : P -> Z) (time : nat -> Z).

Lemma emits_seed_programs cfg :
  emits (seed_programs answer find_program program_fd cfg) seed_events.
Proof.
  unfold seed_programs, zereh_seed_prog_array. intros tr. revert tr.
  induction (c_routes cfg) as [|r l IH]; intros tr; cbn [seed_prog_routes].
  { exists true, []. rewrite app_nil_r. split; [done|apply seed_events_nil]. }
  destruct (prog_entry _ _ _ r) as [[[key v]|]|]; [|apply IH|].
  2: { exists false, []. rewrite app_nil_r. split; [done|apply seed_events_nil]. }
  destruct (update_with_events UpdateProgArray tr key v) as (ok & e1 & -> & H1); [done..|].
  destruct ok; cbn [negb]; [|by exists false, e1].
  destruct (IH (tr ++ e1)) as (ok & e2 & -> & H2). exists ok, (e1 ++ e2).
  rewrite app_assoc. split; [done|by apply seed_events_app].
Qed.

Lemma emits_seed_map name seed :
  emits seed seed_events -> emits (seed_map answer name seed) seed_events.
Proof.
  intros Hs. unfold seed_map. assert (forall r, seed_events true [(FindMap name, r)]) as Hf.
  { intros r. constructor; [by apply Forall_singleton|done|]. intros _. by apply Forall_singleton. }
  apply emits_sys_bind. intros r. destruct (r =? 0); [apply emits_ret, Hf|].
  eapply emits_weaken; [exact Hs|]. intros ok e H. apply (seed_events_app ok [_] e); [apply Hf|done].
Qed.

Lemma emits_seed_maps cfg :
  emits (seed_maps answer find_program program_fd time cfg) seed_events.
Proof.
  unfold seed_maps. eapply emits_bind; [apply emits_seed_map, emits_seed_blacklist|].
  intros ok e1 H1. destruct ok; cbn [negb]; [|apply emits_ret; by rewrite app_nil_r].
  eapply emits_bind; [apply emits_seed_map, emits_seed_bloom|].
  intros ok e2 H2. destruct ok; cbn [negb].
  - eapply emits_weaken; [apply emits_seed_map, emits_seed_programs|]. intros ok e3 H3.
    apply seed_events_app; [done|]. by apply seed_events_app.
  - apply emits_ret. rewrite app_nil_r. by apply seed_events_app.
Qed.
End seed_lemmas.

(** ** Loading and detaching *)

(** What a load does to descriptors, objects and maps: nothing is attached
    before every update of every map has succeeded, and no map is touched
    after. *)
Record load_events (evs : trace) : Prop := {
  le_balanced : balanced evs;
  le_object : objects_opened evs = objects_closed evs;
  le_order : exists pre post, evs = pre ++ post /\
    Forall (fun e => is_attach e.1 = false) pre /\
    Forall (fun e => is_update e.1 = false) post /\
    (Exists (fun e => is_attach e.1 = true) post ->
       Forall (fun e => is_update e.1 = true -> e.2 = 0) pre)
}.

Lemma no_handle_balanced evs : Forall (fun e => is_handle e.1 = false) evs -> balanced evs.
Proof. induction 1 as [|[c r] evs He H IH]; intros hs; [done|]. destruct c; try done; apply IH. Qed.

(** Events that are neither updates nor attachments nor about objects or
    descriptors. *)
Definition plain (e : event) : Prop :=
  is_update e.1 = false /\ is_attach e.1 = false /\ is_handle e.1 = false /\ no_object [e].

(** The events of an installation: a seeding, then an attachment. *)
Definition install_events (evs : trace) : Prop :=
  exists ok pre post, evs = pre ++ post /\ seed_events ok pre /\ attach_events post /\
    (ok = false -> Forall plain post).

Section load_lemmas.
Context (answer : trace -> call -> Z).
Context {P : Type} (find_program : bytes -> option P) (program_fd : P -> Z) (time : nat -> Z).

Lemma emits_ensure_dir path :
  emits (zereh_ensure_dir answer path) (fun _ evs => attach_events evs).
Proof. unfold zereh_ensure_dir. io_step; events. Qed.

Lemma seed_events_plain ok e evs : plain e -> seed_events ok evs -> seed_events ok (e :: evs).
Proof.
  intros (Hu & Ha & Hf & Ho) Hs. apply (seed_events_app ok [e]); [|done].
  constructor; [by apply Forall_singleton|done|]. intros _. apply Forall_singleton. congruence.
Qed.

Lemma emits_install cfg ifname ifindex :
  emits (install answer find_program program_fd time cfg ifname ifindex)
    (fun _ evs => install_events evs).
Proof.
  unfold install. apply emits_sys_bind. intros rc.
  assert (plain (ObjectLoad, rc)) as Hp by done.
  destruct (negb (rc =? 0)).
  { apply emits_ret. exists false, [(ObjectLoad, rc)], []. split_and!; [done| |by constructor|done].
    apply seed_events_plain; [done|apply seed_events_nil]. }
  eapply emits_bind; [apply emits_seed_maps|]. intros ok e1 H1.
  apply (seed_events_plain ok _ e1 Hp) in H1.
  assert (forall post, attach_events post -> (ok = false -> Forall plain post) ->
    install_events ((ObjectLoad, rc) :: e1 ++ post)) as Hi.
  { intros post Ha Hpl. exists ok, ((ObjectLoad, rc) :: e1), post. done. }
  assert (attach_events []) by (by constructor).
  destruct ok; cbn [negb]; [|apply emits_ret, Hi; [done|constructor]].
  destruct (find_program (c_xdp_section cfg)) as [prog|]; [|apply emits_ret, Hi; done].
  eapply emits_bind; [apply emits_ensure_dir|]. intros ok e2 H2.
  destruct ok; cbn [negb]; [|apply emits_ret, Hi; [by rewrite app_nil_r|done]].
  destruct (zereh_build_pin_path PATH_MAX ifname); [|apply emits_ret, Hi; [by rewrite app_nil_r|done]].
  eapply emits_weaken; [apply emits_attach_with_fallback|]. intros m e3 H3.
  apply Hi; [|done]. by apply attach_events_app.
Qed.

(** Putting plain events before and after an installation. *)
Lemma install_load pre0 evs post0 :
  install_events evs -> Forall (fun e => is_update e.1 = false /\ is_attach e.1 = false /\ is_handle e.1 = false) pre0 ->
  Forall (fun e => is_update e.1 = false /\ is_attach e.1 = false /\ is_handle e.1 = false) post0 ->
  (objects_opened (pre0 ++ post0) = objects_closed (pre0 ++ post0)) ->
  load_events (pre0 ++ evs ++ post0).
Proof.
  intros (ok & pre & post & -> & Hs & Ha & Hok) Hpre Hpost Hobj. destruct Hs as [Hs1 Hs2 Hs3], Ha as [Hb Hno Hu].
  constructor.
  - apply balanced_app; [|apply balanced_app; [apply balanced_app|]]; try done; apply no_handle_balanced.
    + eapply Forall_impl; [exact Hpre|]. simpl. tauto.
    + eapply Forall_impl; [exact Hs1|]. simpl. tauto.
    + eapply Forall_impl; [exact Hpost|]. simpl. tauto.
  - revert Hs2 Hno Hobj. unfold no_object, objects_opened, objects_closed.
    rewrite !omap_app, !length_app. lia.
  - exists (pre0 ++ pre), (post ++ post0). split_and!.
    + by rewrite <- !app_assoc.
    + apply Forall_app. split; (eapply Forall_impl; [done|]); simpl; tauto.
    + apply Forall_app. split; [done|]. eapply Forall_impl; [exact Hpost|]. simpl. tauto.
    + intros Hex. apply Forall_app. split.
      { eapply Forall_impl; [exact Hpre|]. simpl. intros e (H & _) ?. congruence. }
      apply Hs3. destruct ok; [done|]. exfalso. specialize (Hok eq_refl).
      apply Exists_app in Hex as [Hex|Hex]; apply Exists_exists in Hex as (e & He & Hae).
      * rewrite Forall_forall in Hok. destruct (Hok e He) as (_ & ? & _). congruence.
      * rewrite Forall_forall in Hpost. destruct (Hpost e He) as (_ & ? & _). congruence.
Qed.

Lemma plain_load evs :
  Forall (fun e => is_update e.1 = false /\ is_attach e.1 = false /\ is_handle e.1 = false) evs ->
  objects_opened evs = objects_closed evs -> load_events evs.
Proof.
  intros Hf Ho. rewrite <- (app_nil_r evs), <- (app_nil_l []).
  apply (install_load evs [] []); [|done|constructor|by rewrite app_nil_r].
  exists true, [], []. split_and!; [done|apply seed_events_nil|by constructor|done].
Qed.

Lemma emits_load_and_swap cfg override :
  emits (zereh_load_and_swap_xdp answer find_program program_fd time cfg override)
    (fun _ evs => load_events evs).
Proof.
  unfold zereh_load_and_swap_xdp, zereh_raise_memlock. cbv zeta.
  apply emits_sys_bind. intros r1. destruct (r1 =? 0).
  { apply emits_ret. apply plain_load; [|done]. by repeat constructor. }
  apply emits_assoc, emits_sys_bind. intros r2. apply emits_ret_bind.
  destruct (r2 =? 0); cbn [negb].
  2: { apply emits_ret. apply plain_load; [|done]. by repeat constructor. }
  do 2 (apply emits_sys_bind; intros ?). destruct (r0 =? 0) eqn:E; cbn [negb].
  2: { apply emits_ret. apply plain_load; [by repeat constructor|].
       unfold objects_opened, objects_closed. cbn. by rewrite E. }
  eapply emits_bind; [apply emits_install|]. intros m e1 H1.
  apply emits_sys_bind. intros r3. apply emits_ret.
  apply (install_load [_; _; _; _] e1 [_] H1); [by repeat constructor..|].
  unfold objects_opened, objects_closed. cbn. by rewrite E.
Qed.
End load_lemmas.

(** ** What a successful load has done *)

Lemma emits_and {A} (m : io A) (Q1 Q2 : A -> trace -> Prop) :
  emits m Q1 -> emits m Q2 -> emits m (fun a e => Q1 a e /\ Q2 a e).
Proof.
  intros H1 H2 tr. destruct (H1 tr) as (a & e & E & ?), (H2 tr) as (a' & e' & E' & ?).
  rewrite E in E'. injection E' as <- ->%app_inv_head. eauto.
Qed.

(** The events attach the program to the interface in the mode: natively a
    pinned link is updated, or made and pinned; otherwise the program is
    attached with the flags of the mode. *)
Definition attached (prog_fd ifindex : Z) (pin_path : bytes) (mode : zereh_xdp_mode) (evs : trace) :
    Prop :=
  match mode with
  | ZEREH_XDP_MODE_NATIVE =>
      (exists link_fd, (ObjGet pin_path, link_fd) ∈ evs /\ (LinkUpdate link_fd prog_fd, 0) ∈ evs) \/
      ((AttachXdpLink prog_fd ifindex, 0) ∈ evs /\ (LinkPin pin_path, 0) ∈ evs)
  | _ => exists old, (XdpAttach ifindex prog_fd (zereh_xdp_mode_to_flags mode) old, 0) ∈ evs
  end.

Lemma attached_sub fd ifi pin mode e1 e2 : e1 ⊆ e2 -> attached fd ifi pin mode e1 -> attached fd ifi pin mode e2.
Proof.
  intros Hs. unfold attached. destruct mode.
  - intros [(fd' & ? & ?)|[? ?]]; [left; exists fd'|right]; split; by apply Hs.
  - intros [old ?]. exists old. by apply Hs.
  - intros [old ?]. exists old. by apply Hs.
Qed.

(** What the load of [cfg] on the interface [ifname] with index [ifindex] has
    done when it reports the mode [m]. *)
Record loaded {P : Type} (find_program : bytes -> option P) (program_fd : P -> Z) (cfg : zereh_config)
    (ifname : bytes) (ifindex : Z) (m : zereh_xdp_mode) (evs : trace) : Prop := {
  ld_index : (IfNameToIndex ifname, ifindex) ∈ evs /\ ifindex <> 0;
  ld_object : (ObjectOpen (c_generated_object cfg), 0) ∈ evs /\ (ObjectLoad, 0) ∈ evs;
  ld_mode : m ∈ mode_chain (c_xdp_mode cfg);
  ld_attached : exists prog, find_program (c_xdp_section cfg) = Some prog /\
    attached (program_fd prog) ifindex (pin_dir ++ link_prefix ++ ifname) m evs
}.

(** [in_events] finds an event in a list that is spelled out. *)
Ltac in_events := repeat first [apply list_elem_of_here | apply list_elem_of_further].

Lemma build_pin_path_eq n ifname :
  zereh_build_pin_path n ifname =
    if decide ((1 <= length ifname < IFNAMSIZ)%nat /\ (28 + length ifname <= n)%nat)
    then Some (pin_dir ++ link_prefix ++ ifname) else None.
Proof.
  unfold zereh_build_pin_path, IFNAMSIZ. change (length pin_dir) with 17%nat.
  change (length link_prefix) with 10%nat. cbv zeta.
  destruct (decide (ifname = [])) as [->|Hne].
  { rewrite bool_decide_eq_true_2, orb_true_r by done. rewrite decide_False by (simpl; lia). done. }
  rewrite bool_decide_eq_false_2, orb_false_r by done.
  assert (0 < length ifname)%nat by (destruct ifname; [done|simpl; lia]).
  destruct (Nat.eqb_spec n 0) as [->|]; [by rewrite decide_False by lia|].
  destruct (Nat.lt_ge_cases (length ifname) 16) as [Hlt|Hge].
  - rewrite Nat.min_l by lia. replace (_ || _) with false by lia.
    destruct (Nat.ltb_spec n (17 + 10 + length ifname + 1)); [by rewrite decide_False by lia|].
    by rewrite decide_True, take_ge by lia.
  - rewrite Nat.min_r by lia. by rewrite decide_False by lia.
Qed.

Lemma build_pin_path_some n ifname p :
  zereh_build_pin_path n ifname = Some p -> p = pin_dir ++ link_prefix ++ ifname.
Proof. rewrite build_pin_path_eq. case_decide; [by intros [= <-]|done]. Qed.

Section success.
Context (answer : trace -> call -> Z).

Lemma emits_attach_link_ok prog_fd ifindex pin_path mode :
  emits (zereh_attach_or_update_link answer prog_fd ifindex pin_path mode)
    (fun ok evs => ok = true -> attached prog_fd ifindex pin_path mode evs).
Proof.
  unfold zereh_attach_or_update_link, zereh_attach_xdp_replace, close_if_open.
  destruct mode; cbn [bool_decide negb decide]; io_step; try done;
    intros ->%Z.eqb_eq; cbn [attached].
  all: try (eexists; in_events).
  - left. eexists. split; in_events.
  - right. split; [|in_events]. by replace r0 with 0 in * by (destruct (Z.eqb_spec r0 0); done); in_events.
Qed.

Lemma emits_try_modes_ok prog_fd ifindex pin_path modes :
  emits (try_modes answer prog_fd ifindex pin_path modes)
    (fun r evs => forall m, r = Some m -> m ∈ modes /\ attached prog_fd ifindex pin_path m evs).
Proof.
  induction modes as [|mode modes IH]; cbn [try_modes]; [by apply emits_ret|].
  eapply emits_bind; [apply emits_attach_link_ok|]. intros ok e1 H1. destruct ok.
  - apply emits_ret. intros m [= <-]. rewrite app_nil_r. split; [left|auto].
  - eapply emits_weaken; [exact IH|]. intros r e2 H2 m E. destruct (H2 m E) as [? ?].
    split; [by right|]. eapply attached_sub; [|done]. intros e He. apply elem_of_app. by right.
Qed.
Context {P : Type} (find_program : bytes -> option P) (program_fd : P -> Z) (time : nat -> Z).

Lemma emits_install_ok cfg ifname ifindex :
  emits (install answer find_program program_fd time cfg ifname ifindex)
    (fun r evs => forall m, r = Some m ->
      (ObjectLoad, 0) ∈ evs /\ m ∈ mode_chain (c_xdp_mode cfg) /\
      exists prog, find_program (c_xdp_section cfg) = Some prog /\
        attached (program_fd prog) ifindex (pin_dir ++ link_prefix ++ ifname) m evs).
Proof.
  unfold install. apply emits_sys_bind. intros rc. destruct (Z.eqb_spec rc 0) as [->|]; [|by apply emits_ret].
  cbn [negb]. eapply emits_bind; [apply emits_seed_maps|]. intros ok e1 _.
  destruct ok; cbn [negb]; [|by apply emits_ret].
  destruct (find_program (c_xdp_section cfg)) as [prog|]; [|by apply emits_ret].
  eapply emits_bind; [apply emits_ensure_dir|]. intros ok e2 _.
  destruct ok; cbn [negb]; [|by apply emits_ret].
  destruct (zereh_build_pin_path PATH_MAX ifname) as [pin|] eqn:Epin; [|by apply emits_ret].
  apply build_pin_path_some in Epin as ->. intros tr.
  destruct (emits_try_modes_ok (program_fd prog) ifindex (pin_dir ++ link_prefix ++ ifname)
    (mode_chain (c_xdp_mode cfg)) tr) as (r & e3 & E & H3).
  exists r, e3. rewrite attach_with_fallback_eq. split; [done|]. intros m Em.
  destruct (H3 m Em) as [? Ha]. split; [left|]. split; [done|]. exists prog. split; [done|].
  eapply attached_sub; [|exact Ha]. intros e He. right. apply elem_of_app. right. apply elem_of_app. by right.
Qed.

Lemma emits_load_ok cfg override :
  emits (zereh_load_and_swap_xdp answer find_program program_fd time cfg override)
    (fun r evs => forall m, r = Some m ->
      exists ifindex, loaded find_program program_fd cfg (choose_ifname cfg override) ifindex m evs).
Proof.
  unfold zereh_load_and_swap_xdp, zereh_raise_memlock. cbv zeta.
  apply emits_sys_bind. intros ifindex. destruct (Z.eqb_spec ifindex 0); [by apply emits_ret|].
  apply emits_assoc, emits_sys_bind. intros r2. apply emits_ret_bind.
  destruct (r2 =? 0); cbn [negb]; [|by apply emits_ret].
  do 2 (apply emits_sys_bind; intros ?). destruct (Z.eqb_spec r0 0) as [->|]; cbn [negb]; [|by apply emits_ret].
  eapply emits_bind; [apply emits_install_ok|]. intros r' e1 H1.
  apply emits_sys_bind. intros r3. apply emits_ret. intros m Em.
  destruct (H1 m Em) as (Hl & Hm & prog & Hp & Ha). exists ifindex.
  assert (forall e, e ∈ e1 -> e ∈ [(IfNameToIndex (choose_ifname cfg override), ifindex); (SetMemlock, r2);
    (SetStrictMode, r); (ObjectOpen (c_generated_object cfg), 0)] ++ e1 ++ [(ObjectClose, r3)]) as Hin.
  { intros e He. apply elem_of_app. right. apply elem_of_app. by left. }
  constructor.
  - split; [left|done].
  - split; [in_events|by apply Hin].
  - done.
  - exists prog. split; [done|]. by eapply attached_sub; [|exact Ha].
Qed.
End success.

(** ** When a load succeeds *)

(** Whatever happened before, [m] returns [a]. *)
Definition always {A} (m : io A) (a : A) : Prop := forall tr, (m tr).1 = a.

Lemma always_ret {A} (a : A) : always (mret a) a.
Proof. done. Qed.

Lemma always_bind {A B} (m : io A) (f : A -> io B) a b :
  always m a -> always (f a) b -> always (m ≫= f) b.
Proof.
  intros Hm Hf tr. unfold mbind, io_bind. specialize (Hm tr). destruct (m tr) as [a' tr']. simpl in Hm.
  subst a'. apply Hf.
Qed.

(** A call whose answer has [Q]. *)
Lemma always_sys {B} answer c (f : Z -> io B) (Q : Z -> Prop) b :
  (forall tr, Q (answer tr c)) -> (forall r, Q r -> always (f r) b) -> always (sys answer c ≫= f) b.
Proof. intros Hc Hf tr. apply (Hf _ (Hc tr)). Qed.

(** The kernel grants every request but updates of maps: the interface exists,
    the object loads, attachments succeed, the pin directory is there or can be
    made, and looking up a pinned link finds it or reports that there is none. *)
Record willing (answer : trace -> call -> Z) : Prop := {
  wi_index tr name : answer tr (IfNameToIndex name) <> 0;
  wi_memlock tr : answer tr SetMemlock = 0;
  wi_open tr path : answer tr (ObjectOpen path) = 0;
  wi_load tr : answer tr ObjectLoad = 0;
  wi_attach tr c : is_attach c = true -> answer tr c = 0;
  wi_stat tr path : answer tr (Stat path) <> 0;
  wi_mkdir tr path : answer tr (Mkdir path) = 0;
  wi_get tr path : 0 <= answer tr (ObjGet path) \/ answer tr (ObjGet path) = - ENOENT
}.

(** The configuration can be loaded: its CIDRs are valid, the programs it
    names are in the object, and the interface name fits. *)
Record loadable {P : Type} (find_program : bytes -> option P) (program_fd : P -> Z)
    (cfg : zereh_config) (ifname : bytes) : Prop := {
  lo_cidrs : Forall (fun cidr => is_Some (zereh_parse_cidr_v4 cidr)) (c_blacklist cfg);
  lo_tails : Forall (fun r => is_Some (prog_entry find_program program_fd
                                         (find_program (str "zereh_app_default")) r)) (c_routes cfg);
  lo_main : is_Some (find_program (c_xdp_section cfg));
  lo_name : (1 <= length ifname < IFNAMSIZ)%nat
}.

Section liveness.
Context (answer : trace -> call -> Z) (Hwi : willing answer).
Context {P : Type} (find_program : bytes -> option P) (program_fd : P -> Z) (time : nat -> Z).
Context (cfg : zereh_config) (ifname : bytes) (Hlo : loadable find_program program_fd cfg ifname).

(** The maps of an object that was just loaded can be seeded. *)
Context (Hseed : forall tr : trace,
  (seed_maps answer find_program program_fd time cfg (tr ++ [(ObjectLoad, 0)])).1 = true).

Lemma always_ensure_dir path : always (zereh_ensure_dir answer path) true.
Proof.
  apply (always_sys answer _ _ (fun r => r <> 0)); [by intros; apply (wi_stat _ Hwi)|]. intros r Hr.
  destruct (0 <=? r); [by replace (r =? 0) with false by lia|].
  apply (always_sys answer _ _ (fun r => r = 0)); [by intros; apply (wi_mkdir _ Hwi)|]. by intros ? ->.
Qed.

(** A call that is an attachment succeeds. *)
Lemma always_attach {B} c (f : Z -> io B) b :
  is_attach c = true -> always (f 0) b -> always (sys answer c ≫= f) b.
Proof.
  intros Hc Hf. apply (always_sys answer _ _ (fun r => r = 0)); [by intros; apply (wi_attach _ Hwi)|].
  by intros ? ->.
Qed.

(** A call whose answer does not matter. *)
Lemma always_any {B} c (f : Z -> io B) b :
  (forall r, always (f r) b) -> always (sys answer c ≫= f) b.
Proof. intros Hf. by apply (always_sys answer _ _ (fun _ => True)). Qed.

Lemma always_attach_link prog_fd ifindex pin_path mode :
  always (zereh_attach_or_update_link answer prog_fd ifindex pin_path mode) true.
Proof.
  assert (forall mode, always (zereh_attach_xdp_replace answer ifindex prog_fd mode) true) as Hrep.
  { intros mode'. apply always_any. intros id.
    assert (forall fd, always
      (rc ← sys answer (XdpAttach ifindex prog_fd (zereh_xdp_mode_to_flags mode') (if 0 <=? fd then fd else 0));
       _ ← close_if_open answer fd; mret (rc =? 0)) true) as Hfd.
    { intros fd. apply always_attach; [done|]. apply (always_bind _ _ tt); [|done].
      unfold close_if_open. by destruct (0 <=? fd). }
    destruct (0 <? id); [by apply always_any|]. apply (always_bind _ _ (-1)); [done|apply Hfd]. }
  destruct mode; [|apply Hrep..].
  apply (always_sys answer _ _ (fun r => 0 <= r \/ r = - ENOENT)); [by intros; apply (wi_get _ Hwi)|].
  intros fd Hfd. destruct (Z.leb_spec 0 fd).
  - apply always_attach; [done|]. by apply always_any.
  - replace fd with (- ENOENT) by lia. apply always_attach; [done|]. cbn [negb Z.eqb].
    apply always_attach; [done|]. by apply always_any.
Qed.

Lemma always_install ifindex :
  always (install answer find_program program_fd time cfg ifname ifindex) (Some (c_xdp_mode cfg)).
Proof.
  intros tr. unfold install, mbind at 1, io_bind at 1. cbn [sys]. rewrite (wi_load _ Hwi). cbn [negb Z.eqb].
  unfold mbind at 1, io_bind at 1. pose proof (Hseed tr) as Hs.
  destruct (seed_maps _ _ _ _ _ (tr ++ [(ObjectLoad, 0)])) as [ok tr']. cbn [fst] in Hs. subst ok. cbn [negb].
  destruct (lo_main _ _ _ _ Hlo) as [prog ->]. revert tr'. eapply always_bind; [apply always_ensure_dir|]. cbn [negb].
  rewrite build_pin_path_eq, decide_True.
  2: { pose proof (lo_name _ _ _ _ Hlo). unfold IFNAMSIZ, PATH_MAX in *. lia. }
  intros tr'. rewrite attach_with_fallback_eq. revert tr'.
  destruct (c_xdp_mode cfg); cbn [mode_chain try_modes]; (eapply always_bind; [apply always_attach_link|done]).
Qed.
End liveness.

Lemma always_load answer {P} (find_program : bytes -> option P) program_fd time cfg override :
  willing answer -> loadable find_program program_fd cfg (choose_ifname cfg override) ->
  (forall tr : trace, (seed_maps answer find_program program_fd time cfg (tr ++ [(ObjectLoad, 0)])).1 = true) ->
  always (zereh_load_and_swap_xdp answer find_program program_fd time cfg override)
    (Some (c_xdp_mode cfg)).
Proof.
  intros Hwi Hlo Hseed. unfold zereh_load_and_swap_xdp. cbv zeta.
  apply (always_sys answer _ _ (fun r => r <> 0)); [by intros; apply (wi_index _ Hwi)|]. intros i Hi.
  replace (i =? 0) with false by lia. apply (always_bind _ _ true).
  { apply (always_sys answer _ _ (fun r => r = 0)); [by intros; apply (wi_memlock _ Hwi)|]. by intros ? ->. }
  cbn [negb]. apply always_any. intros _.
  apply (always_sys answer _ _ (fun r => r = 0)); [by intros; apply (wi_open _ Hwi)|]. intros ? ->.
  cbn [negb Z.eqb]. eapply always_bind; [by apply always_install|]. by apply always_any.
Qed.

(** The modes a trace detaches, in order. *)
Definition detached_flags (evs : trace) : list Z :=
  omap (fun e => match e with (XdpDetach _ flags, _) => Some flags | _ => None end) evs.

Lemma emits_detach answer cfg override :
  emits (zereh_detach_xdp answer cfg override) (fun ok evs =>
    (exists i rest, evs = (IfNameToIndex (choose_ifname cfg override), i) :: rest) /\
    attach_events evs /\ Forall (fun e => is_attach e.1 = false) evs /\
    (ok = true -> detached_flags evs = [XDP_FLAGS_DRV_MODE; XDP_FLAGS_HW_MODE; XDP_FLAGS_SKB_MODE])).
Proof.
  unfold zereh_detach_xdp. cbv zeta. apply emits_sys_bind. intros r1.
  set (e0 := (IfNameToIndex (choose_ifname cfg override), r1)).
  assert (forall evs, attach_events (e0 :: evs) -> Forall (fun e => is_attach e.1 = false) (e0 :: evs) ->
    (exists i rest, e0 :: evs = (IfNameToIndex (choose_ifname cfg override), i) :: rest) /\
    attach_events (e0 :: evs) /\ Forall (fun e => is_attach e.1 = false) (e0 :: evs) /\
    (false = true ->
     detached_flags (e0 :: evs) = [XDP_FLAGS_DRV_MODE; XDP_FLAGS_HW_MODE; XDP_FLAGS_SKB_MODE]))
    as Hfalse by (intros; split_and!; [by eexists _, _|done..]). subst e0.
  destruct (r1 =? 0); [apply emits_ret, Hfalse; [events|by repeat constructor]|].
  destruct (zereh_build_pin_path _ _) as [pin|]; [|apply emits_ret, Hfalse; [events|by repeat constructor]].
  unfold detach_modes, zereh_detach_mode. io_step; cbn [negb] in *; try done;
    repeat match goal with
    | |- context [if negb ?b then _ else _] => destruct b eqn:?; cbn [negb]
    end; io_step.
  all: try (apply Hfalse; [events|by repeat constructor]).
  all: split_and!; [by eexists _, _|events|by repeat constructor|done].
Qed.

(** ** Properties *)

(** C20: whatever libbpf and the kernel answer, a load closes every descriptor it
    opens, destroys every link that it makes, once and before the next is opened,
    and closes the object it opens; it makes no attachment call before all map
    updates have been made and have succeeded, and no map is touched after the
    first attachment call. *)
Theorem load_and_swap_ordered (answer : trace -> call -> Z) {P : Type}
    (find_program : bytes -> option P) (program_fd : P -> Z) (time : nat -> Z)
    (cfg : zereh_config) (ifname_override : option bytes) (tr : trace) :
  exists result evs,
    zereh_load_and_swap_xdp answer find_program program_fd time cfg ifname_override tr
      = (result, tr ++ evs) /\ load_events evs.
Proof. apply emits_load_and_swap. Qed.

(** C21: when a load reports success with a mode, the mode is the
    requested one or one of its fallbacks (native and generic after offload,
    generic after native), the compiled object of the configuration was opened
    and loaded, and the main program of the configuration was attached to the
    interface in that mode: natively through the pinned link, otherwise with the
    flags of the mode. *)
Theorem load_and_swap_attaches (answer : trace -> call -> Z) {P : Type}
    (find_program : bytes -> option P) (program_fd : P -> Z) (time : nat -> Z)
    (cfg : zereh_config) (ifname_override : option bytes) (tr : trace) :
  exists result evs,
    zereh_load_and_swap_xdp answer find_program program_fd time cfg ifname_override tr
      = (result, tr ++ evs) /\
    forall m, result = Some m -> exists ifindex,
      loaded find_program program_fd cfg (choose_ifname cfg ifname_override) ifindex m evs.
Proof. apply emits_load_ok. Qed.

(** An answer that grants every request; no link is pinned yet. *)
Definition granting (tr : trace) (c : call) : Z :=
  match c with
  | IfNameToIndex _ => 2
  | Stat _ => 1
  | ObjGet _ => - ENOENT
  | _ => 0
  end.

Lemma granting_willing : willing granting.
Proof. constructor; try done; [by intros tr []|by right]. Qed.

(** C36: whatever the answers, a detach first asks for the index of the chosen
    interface, closes every descriptor it opens, attaches nothing and touches no
    map; when it reports success it has asked to detach the native, the
    offloaded and the generic program, in that order. *)
Theorem detach_xdp_all_modes (answer : trace -> call -> Z) (cfg : zereh_config)
    (ifname_override : option bytes) (tr : trace) :
  exists ok evs, zereh_detach_xdp answer cfg ifname_override tr = (ok, tr ++ evs) /\
    (exists i rest, evs = (IfNameToIndex (choose_ifname cfg ifname_override), i) :: rest) /\
    attach_events evs /\ Forall (fun e => is_attach e.1 = false) evs /\
    (ok = true -> detached_flags evs = [XDP_FLAGS_DRV_MODE; XDP_FLAGS_HW_MODE; XDP_FLAGS_SKB_MODE]).
Proof. apply emits_detach. Qed.

(** The path of a pinned link exists exactly for interface names of
    1 to 15 characters, when the buffer has room for it with its terminator, and is
    the directory, the prefix and the whole name. *)
Theorem build_pin_path_spec (out_len : nat) (ifname : bytes) :
  (zereh_build_pin_path out_len ifname = Some (pin_dir ++ link_prefix ++ ifname) <->
     (1 <= length ifname < IFNAMSIZ)%nat /\ (28 + length ifname <= out_len)%nat) /\
  forall p, zereh_build_pin_path out_len ifname = Some p -> p = pin_dir ++ link_prefix ++ ifname.
Proof.
  split; [|apply build_pin_path_some]. rewrite build_pin_path_eq. case_decide; [done|].
  split; [done|lia].
Qed.
