(* ===== verification/Files.v ===== *)
(** * control/codegen.c: reading the template, writing the source

    The two functions over stdio.  [fault n] says that the library call number
    [n] fails; when the data of a stream cannot be written, [reached] says how
    many of its bytes reach the file.  The disk also counts the open streams. *)
From S2P Require Import Prelude CLib.
#[local] Open Scope Z_scope.

Record disk : Type := Disk {
  files : bytes -> option bytes;
  streams : nat;
  calls : nat
}.

Definition put_file (d : disk) (path content : bytes) : disk :=
  Disk (fun p => if bool_decide (p = path) then Some content else files d p) (streams d) (calls d).

Section files.
Context (fault : nat -> bool) (reached : nat -> nat) (alloc : nat -> bool).

(** A library call: whether it succeeds. *)
Definition lib (d : disk) : bool * disk :=
  (negb (fault (calls d)), Disk (files d) (streams d) (S (calls d))).

Definition opened_stream (d : disk) : disk := Disk (files d) (S (streams d)) (calls d).

(** [fclose] of a stream that was only read; its result is ignored. *)
Definition fclose (d : disk) : disk :=
  let '(_, d) := lib d in Disk (files d) (pred (streams d)) (calls d).

(** The content of the file; [buf] has one byte more, which is 0. *)
Definition zereh_read_file (path : bytes) (d : disk) : option bytes * disk :=
  let '(ok, d) := lib d in                                    (* fopen *)
  match files d path with
  | Some content =>
      if negb ok then (None, d)
      else
        let d := opened_stream d in
        let '(ok, d) := lib d in                              (* fseek to the end *)
        if negb ok then (None, fclose d)
        else
          let '(ok, d) := lib d in                            (* ftell *)
          if negb ok then (None, fclose d)
          else
            let '(ok, d) := lib d in                          (* fseek to the start *)
            if negb ok then (None, fclose d)
            else if negb (alloc (length content + 1)) then (None, fclose d)
            else
              let '(ok, d) := lib d in                        (* fread *)
              if negb ok then (None, fclose d) else (Some content, fclose d)
  | None => (None, d)
  end.

(** [fclose] of a stream with the data [text] still in its buffer. *)
Definition fclose_flush (path text : bytes) (d : disk) : disk :=
  let '(ok, d) := lib d in
  let d := put_file d path (if ok : bool then text else take (reached (calls d)) text) in
  Disk (files d) (pred (streams d)) (calls d).

Definition zereh_write_file (path content : bytes) (d : disk) : bool * disk :=
  let '(ok, d) := lib d in                                    (* fopen, which truncates *)
  if negb ok then (false, d)
  else
    let d := opened_stream (put_file d path []) in
    let '(ok, d) := lib d in                                  (* fwrite *)
    if negb ok then (false, fclose_flush path (take (reached (calls d)) content) d)
    else (true, fclose_flush path content d).

(** ** What the functions do *)

(** On every path the streams are closed. *)
Lemma read_file_streams path d : streams (zereh_read_file path d).2 = streams d.
Proof. unfold zereh_read_file, fclose, lib. repeat (case_match; simplify_eq/=; try done). Qed.

Lemma write_file_streams path content d : streams (zereh_write_file path content d).2 = streams d.
Proof. unfold zereh_write_file, fclose_flush, lib. repeat (case_match; simplify_eq/=; try done). Qed.

(** Reading changes no file, and what it returns is the content of the file. *)
Lemma read_file_content path d :
  files (zereh_read_file path d).2 = files d /\
  forall content, (zereh_read_file path d).1 = Some content -> files d path = Some content.
Proof.
  unfold zereh_read_file, fclose, lib. cbn [files].
  destruct (files d path) as [c|] eqn:E; [|by split].
  repeat (destruct (negb _); [by split|]; cbn [calls opened_stream files streams]). by split.
Qed.

(** Writing changes no other file. *)
Lemma write_file_other path content d p :
  p <> path -> files (zereh_write_file path content d).2 p = files d p.
Proof.
  intros Hp. unfold zereh_write_file, fclose_flush, lib.
  repeat (destruct (negb _); cbn; rewrite ?bool_decide_eq_false_2 by done; try done).
Qed.

Lemma read_file_success path content d :
  (forall n, fault n = false) -> (forall n, alloc n = true) -> files d path = Some content ->
  (zereh_read_file path d).1 = Some content.
Proof.
  intros Hf Ha Hd. unfold zereh_read_file, fclose, lib. cbn [files]. rewrite Hd, !Hf, Ha. done.
Qed.

(** A successful write whose stream is closed without an error is complete. *)
Lemma write_file_success path content d :
  (forall n, fault n = false) ->
  (zereh_write_file path content d).1 = true /\
  files (zereh_write_file path content d).2 path = Some content.
Proof.
  intros Hf. unfold zereh_write_file, fclose_flush, lib. rewrite !Hf. cbn.
  by rewrite bool_decide_eq_true_2.
Qed.
End files.

(** ** Properties *)

(** C40: reading and writing a file leave no stream open on any path, and
    writing touches no other file; what is read is the content of the file; and
    when no library call fails, a source that was written is read back
    unchanged. *)
Theorem files_roundtrip (fault : nat -> bool) (reached : nat -> nat) (alloc : nat -> bool)
    (path content : bytes) (d : disk) :
  let '(ok, d1) := zereh_write_file fault reached path content d in
  let '(back, d2) := zereh_read_file fault alloc path d1 in
  streams d1 = streams d /\ streams d2 = streams d /\
  (forall p, p <> path -> files d2 p = files d p) /\
  (forall text, back = Some text -> files d1 path = Some text) /\
  ((forall n, fault n = false) -> (forall n, alloc n = true) -> ok = true /\ back = Some content).
Proof.
  pose proof (write_file_streams fault reached path content d) as Hw.
  pose proof (write_file_other fault reached path content d) as Ho.
  pose proof (write_file_success fault reached path content d) as Hs.
  destruct (zereh_write_file fault reached path content d) as [ok d1]. cbn [fst snd] in *.
  pose proof (read_file_streams fault alloc path d1) as Hr.
  pose proof (read_file_content fault alloc path d1) as [Hc Hb].
  pose proof (read_file_success fault alloc path content d1) as Hrs.
  destruct (zereh_read_file fault alloc path d1) as [back d2]. cbn [fst snd] in *.
  split_and!; [done|congruence|by intros p Hp; rewrite Hc; apply Ho|done|].
  intros Hf Ha. destruct (Hs Hf) as [-> Hd]. split; [done|]. by apply Hrs.
Qed.

Lemma files_roundtrip_witness :
  let d := Disk (fun _ => None) 0 0 in
  let '(ok, d1) := zereh_write_file (fun _ => false) (fun _ => 0%nat) (str "out.c") (str "int x;") d in
  ok = true /\ (zereh_read_file (fun _ => false) (fun _ => true) (str "out.c") d1).1 = Some (str "int x;").
Proof.
  pose proof (files_roundtrip (fun _ => false) (fun _ => 0%nat) (fun _ => true) (str "out.c") (str "int x;")
    (Disk (fun _ => None) 0 0)) as H.
  cbv zeta. destruct (zereh_write_file _ _ _ _ _) as [ok d1].
  destruct (zereh_read_file _ _ _ d1) as [back d2].
  exact (proj2 (proj2 (proj2 (proj2 H))) (fun _ => eq_refl) (fun _ => eq_refl)).
Defined.

(** The result of [fclose] is ignored: a write can report success although
    nothing reached the file. *)
Example write_file_lost :
  let '(ok, d) := zereh_write_file (fun n => n =? 2)%nat (fun _ => 0%nat) (str "out.c") (str "int x;")
                    (Disk (fun _ => None) 0 0) in
  ok = true /\ files d (str "out.c") = Some [].
Proof. vm_compute. done. Qed.
