(* ===== verification/Codegen.v ===== *)
(** * control/codegen.c: generating the XDP source

    The growable string buffer, the escaping of C strings, the substitution of
    tokens in the template, and the text written for each route.  [alloc n]
    says whether an allocation of [n] bytes succeeds, [junk] is the content of
    memory that [realloc] adds. *)
From S2P Require Import Prelude CLib Hash Config.
#[local] Open Scope Z_scope.

(** ** The string buffer *)

(** [sb_data] has [sb_cap] bytes. *)
Record zereh_sb : Type := ZerehSb {
  sb_data : bytes;
  sb_len : nat;
  sb_cap : nat
}.

(** [while (cap < required) cap *= 2;]: from a capacity of at least 1,
    [required] rounds are enough.  Sizes are taken to stay below [SIZE_MAX]. *)
Fixpoint sb_grow (fuel : nat) (cap required : nat) : nat :=
  match fuel with
  | O => cap
  | S fuel' => if (cap <? required)%nat then sb_grow fuel' (cap * 2) required else cap
  end.

(** [memcpy(data + off, text, n)] *)
Definition blit (data : bytes) (off : nat) (text : bytes) : res bytes :=
  if (off + length text <=? length data)%nat
  then Ret (take off data ++ text ++ drop (off + length text) data)
  else Fault.

(** Hexadecimal digits, lower case. *)
Definition hex_digit (d : Z) : Z := if d <? 10 then 48 + d else 87 + d.

(** [%0<k>llx] of a value below [16 ^ k]. *)
Fixpoint fmt_hex (k : nat) (n : Z) : bytes :=
  match k with
  | O => []
  | S k' => fmt_hex k' (n / 16) ++ [hex_digit (n mod 16)]
  end.

(** [%x] of a 32-bit value: at most 8 digits. *)
Fixpoint hex_loop (fuel : nat) (n : Z) (acc : bytes) : bytes :=
  match fuel with
  | O => acc
  | S fuel' =>
      let acc := hex_digit (n mod 16) :: acc in
      if n / 16 =? 0 then acc else hex_loop fuel' (n / 16) acc
  end.

Definition fmt_x (n : Z) : bytes := hex_loop 8 n [].

Section codegen.
Context (alloc : nat -> bool) (junk : Z).

Definition zereh_sb_init (cap : nat) : res zereh_sb :=
  if alloc cap then Ret (ZerehSb (replicate cap 0) 0 cap) else Fail.

Definition zereh_sb_reserve (sb : zereh_sb) (extra : nat) : res zereh_sb :=
  let required := (sb_len sb + extra + 1)%nat in
  if (required <=? sb_cap sb)%nat then Ret sb
  else
    let cap := sb_grow required (sb_cap sb) required in
    if alloc cap
    then Ret (ZerehSb (take cap (sb_data sb ++ replicate (cap - sb_cap sb) junk)) (sb_len sb) cap)
    else Fail.

Definition zereh_sb_appendn (sb : zereh_sb) (text : bytes) : res zereh_sb :=
  sb ← zereh_sb_reserve sb (length text);
  data ← blit (sb_data sb) (sb_len sb) text;
  let len := (sb_len sb + length text)%nat in
  data ← wr data len 0;
  Ret (ZerehSb data len (sb_cap sb)).

(** [text] is what the format and its arguments expand to; [vsnprintf]
    writes at most [cap - len] bytes of it, with the terminator. *)
Definition zereh_sb_appendf (sb : zereh_sb) (text : bytes) : res zereh_sb :=
  let need := length text in
  _ ← guard_r (Z.of_nat need <? 2 ^ 31);
  sb ← zereh_sb_reserve sb need;
  let room := (sb_cap sb - sb_len sb)%nat in
  data ← (if (room =? 0)%nat then Ret (sb_data sb)
          else blit (sb_data sb) (sb_len sb) (take (room - 1) text ++ [0]));
  Ret (ZerehSb data (sb_len sb + need) (sb_cap sb)).

(** ** Escaping *)

Fixpoint escape_loop (sb : zereh_sb) (text : bytes) : res zereh_sb :=
  match text with
  | [] => Ret sb
  | c :: text' =>
      sb ← (if (c =? 92) || (c =? 34) then zereh_sb_appendf sb [92; c]
            else if c =? 10 then zereh_sb_appendn sb (str "\n")
            else if c =? 13 then zereh_sb_appendn sb (str "\r")
            else if c =? 9 then zereh_sb_appendn sb (str "\t")
            else zereh_sb_appendn sb [c]);
      escape_loop sb text'
  end.

Definition zereh_escape_c_string (text : bytes) : res bytes :=
  sb ← zereh_sb_init 64;
  sb ← escape_loop sb text;
  Ret (cstr (sb_data sb)).

(** ** Substitution *)

(** [strstr(s, token)]: the offset of the first occurrence. *)
Fixpoint strstr (s token : bytes) : option nat :=
  if bool_decide (token `prefix_of` s) then Some 0%nat
  else
    match s with
    | [] => None
    | _ :: s' => S <$> strstr s' token
    end.

(** Each round consumes the token, which is not empty. *)
Fixpoint replace_loop (fuel : nat) (sb : zereh_sb) (cursor token replacement : bytes) :
    res zereh_sb :=
  match fuel with
  | O => Fault
  | S fuel' =>
      match strstr cursor token with
      | Some hit =>
          sb ← zereh_sb_appendn sb (take hit cursor);
          sb ← zereh_sb_appendn sb replacement;
          replace_loop fuel' sb (drop (hit + length token) cursor) token replacement
      | None => zereh_sb_appendn sb cursor
      end
  end.

Definition zereh_replace_all (input token replacement : bytes) : res bytes :=
  _ ← guard_r (negb (length token =? 0)%nat);
  sb ← zereh_sb_init (length input + length replacement + 256);
  sb ← replace_loop (S (length input)) sb input token replacement;
  Ret (cstr (sb_data sb)).
End codegen.

(** ** The text of a route *)

Definition nl : bytes := [10].
Definition quote : bytes := [34].

(** The lines of the call of [zereh_apply_app_filters], which both formats
    share; each argument is on a line of its own, in one column. *)
Definition arg_indent : bytes := str "                                     ".
Definition arg_line (value : bytes) : bytes := arg_indent ++ value ++ str "," ++ nl.

Definition filters_text (route : zereh_route) (route_id : Z) (prefix suffix : bytes) : bytes :=
  str "        if (!zereh_apply_app_filters(qmeta," ++ nl ++
  arg_line (quote ++ prefix ++ quote) ++
  arg_line (fmt_u (Z.of_nat (length (r_prefix route)))) ++
  arg_line (quote ++ suffix ++ quote) ++
  arg_line (fmt_u (Z.of_nat (length (r_suffix route)))) ++
  arg_line (fmt_u (r_min_labels route)) ++
  arg_line (fmt_u (r_max_labels route)) ++
  arg_line (fmt_u (r_qname_min_len route)) ++
  arg_line (fmt_u (r_qname_max_len route)) ++
  arg_line (str "route_hash") ++
  arg_line (fmt_u route_id) ++
  arg_line (str "0x" ++ fmt_x (r_rrtype_mask route) ++ str "u") ++
  arg_line (fmt_u (r_pow_difficulty route)) ++
  arg_line (fmt_u (r_pow_time_window route)) ++
  arg_line (fmt_u (r_bloom_enabled route)) ++
  arg_line (fmt_u (r_bloom_size route)) ++
  arg_line (fmt_u (r_bloom_hash_functions route)) ++
  arg_line (fmt_u (r_bloom_time_window route)) ++
  arg_indent ++ fmt_u (r_rate_limit_qps route) ++ str ")) {" ++ nl ++
  str "            return XDP_DROP;" ++ nl ++
  str "        }" ++ nl.

(** The action of a route, at the indentation of its block. *)
Definition action_text (indent : bytes) (route : zereh_route) : bytes :=
  match r_target route with
  | ZEREH_TARGET_USER_SPACE =>
      indent ++ str "return bpf_redirect_map(&xsk_map, " ++ fmt_u (r_xsk_queue route) ++
      str ", 0);" ++ nl
  | ZEREH_TARGET_KERNEL_SPACE =>
      indent ++ str "return zereh_route_kernel_space(iph, udp, bpf_htons(" ++
      fmt_u (r_kernel_port route) ++ str "), 0);" ++ nl
  | ZEREH_TARGET_XDP_PROG =>
      indent ++ str "bpf_tail_call(ctx, &prog_array, " ++ fmt_u (r_prog_index route) ++ str ");" ++ nl ++
      indent ++ str "return XDP_DROP;" ++ nl
  end.

Definition case_text (route : zereh_route) (route_id : Z) (prefix suffix : bytes) : bytes :=
  str "    case 0x" ++ fmt_hex 16 (r_hash route) ++ str "ULL:" ++ nl ++
  filters_text route route_id prefix suffix ++
  action_text (str "        ") route.

Definition fallback_text (route : zereh_route) (route_id : Z) (domain prefix suffix : bytes) : bytes :=
  str "    if (zereh_match_suffix(qmeta->qname, qmeta->qname_len, " ++ quote ++ domain ++ quote ++
  str ", " ++ fmt_u (Z.of_nat (length (r_domain route))) ++ str ")) {" ++ nl ++
  filters_text route route_id prefix suffix ++
  action_text (str "            ") route ++
  str "    }" ++ nl.

Section generate.
Context (alloc : nat -> bool) (junk : Z).

(** [asprintf] of the action. *)
Definition asprintf (text : bytes) : res bytes :=
  if alloc (length text + 1) then Ret text else Fail.

Definition zereh_append_route_case (sb : zereh_sb) (route : zereh_route) (route_id : Z) :
    res zereh_sb :=
  prefix ← zereh_escape_c_string alloc junk (r_prefix route);
  suffix ← zereh_escape_c_string alloc junk (r_suffix route);
  _ ← asprintf (action_text (str "        ") route);
  zereh_sb_appendf alloc junk sb (case_text route route_id prefix suffix).

Definition zereh_append_fallback_rule (sb : zereh_sb) (route : zereh_route) (route_id : Z) :
    res zereh_sb :=
  domain ← zereh_escape_c_string alloc junk (r_domain route);
  prefix ← zereh_escape_c_string alloc junk (r_prefix route);
  suffix ← zereh_escape_c_string alloc junk (r_suffix route);
  _ ← asprintf (action_text (str "            ") route);
  zereh_sb_appendf alloc junk sb (fallback_text route route_id domain prefix suffix).

(** The loop over the routes, with their numbers. *)
Fixpoint append_routes (append : zereh_sb -> zereh_route -> Z -> res zereh_sb) (sb : zereh_sb)
    (i : Z) (routes : list zereh_route) : res zereh_sb :=
  match routes with
  | [] => Ret sb
  | route :: routes' =>
      sb ← append sb route i;
      append_routes append sb (i + 1) routes'
  end.

Definition zereh_generate_route_cases (cfg : zereh_config) : res bytes :=
  sb ← zereh_sb_init alloc 2048;
  sb ← zereh_sb_appendf alloc junk sb
         (str "    /* Generated from YAML: " ++ fmt_u (Z.of_nat (length (c_routes cfg))) ++
          str " routes, " ++ fmt_u (Z.of_nat (length (c_blacklist cfg))) ++
          str " blacklist CIDRs */" ++ nl);
  sb ← append_routes zereh_append_route_case sb 0 (c_routes cfg);
  Ret (cstr (sb_data sb)).

Definition zereh_generate_fallback_rules (cfg : zereh_config) : res bytes :=
  sb ← zereh_sb_init alloc 1024;
  sb ← append_routes zereh_append_fallback_rule sb 0 (c_routes cfg);
  Ret (cstr (sb_data sb)).

(** The nine substitutions, in order. *)
Definition substitutions (cfg : zereh_config) (route_cases fallback_rules : bytes) :
    list (bytes * bytes) :=
  [ (str "/*__ZEREH_ROUTE_CASES__*/", route_cases);
    (str "/*__ZEREH_FALLBACK_RULES__*/", fallback_rules);
    (str "__ZEREH_MAX_PACKET_SIZE__", snprintf_s 32 (fmt_u (c_max_packet_size cfg)));
    (str "__ZEREH_ALLOWED_OPCODE_MASK__", snprintf_s 32 (fmt_u (c_allowed_opcode_mask cfg)));
    (str "__ZEREH_DROP_TRUNCATED__",
      snprintf_s 8 (fmt_u (if c_drop_truncated cfg =? 0 then 0 else 1)));
    (str "__ZEREH_DEFAULT_ACTION__",
      match c_default_action cfg with
      | ZEREH_ACTION_DROP => str "XDP_DROP"
      | ZEREH_ACTION_PASS => str "XDP_PASS"
      end);
    (str "__ZEREH_INLINE_CHECKSUMS__",
      snprintf_s 8 (fmt_u (if c_inline_checksums cfg =? 0 then 0 else 1)));
    (str "__ZEREH_HASH_ALGO__",
      snprintf_s 8 (fmt_u (match c_hash_algo cfg with
                           | ZEREH_HASH_SIPHASH => 1
                           | ZEREH_HASH_FNV1A => 0
                           end)));
    (str "__ZEREH_RATE_STATE_ENTRIES__",
      snprintf_s 16 (fmt_u (if (length (c_routes cfg) =? 0)%nat then 1
                            else Z.of_nat (length (c_routes cfg))))) ].

Fixpoint replace_each (text : bytes) (subs : list (bytes * bytes)) : res bytes :=
  match subs with
  | [] => Ret text
  | (token, replacement) :: subs' =>
      text ← zereh_replace_all alloc junk text token replacement;
      replace_each text subs'
  end.

(** [zereh_generate_xdp_source] between reading the template and writing the
    file: the text that is written. *)
Definition generate_text (cfg : zereh_config) (template_text : bytes) : res bytes :=
  route_cases ← zereh_generate_route_cases cfg;
  fallback_rules ← zereh_generate_fallback_rules cfg;
  replace_each template_text (substitutions cfg route_cases fallback_rules).
End generate.

(** ** The buffer holds a string *)

(** [sb] holds the string [s], with its terminator. *)
Record sb_holds (sb : zereh_sb) (s : bytes) : Prop := {
  sh_cap : length (sb_data sb) = sb_cap sb;
  sh_len : sb_len sb = length s;
  sh_data : at_off (sb_data sb) 0 (s ++ [0])
}.

Lemma sb_grow_spec fuel cap required :
  (1 <= cap)%nat -> (required <= cap + fuel)%nat ->
  (required <= sb_grow fuel cap required /\ cap <= sb_grow fuel cap required)%nat.
Proof.
  revert cap. induction fuel as [|fuel IH]; intros cap Hc Hr; cbn [sb_grow]; [lia|].
  destruct (Nat.ltb_spec cap required); [|lia]. destruct (IH (cap * 2)%nat); lia.
Qed.

Lemma at_off_prefix {A} (l k : list A) : at_off l 0 k <-> k `prefix_of` l.
Proof.
  split.
  - intros H. exists (drop (length k) l). rewrite <- (take_drop (length k) l) at 1. f_equal.
    apply list_eq_same_length with (length k); [done| |].
    + rewrite length_take. destruct k as [|x k]; [simpl; lia|].
      pose proof (at_off_length l 0 (x :: k) H ltac:(done)). cbn [length] in *. lia.
    + intros i x y Hi Hx Hy. apply H in Hy. simpl in Hy. apply lookup_take_Some in Hx as [Hx _]. congruence.
  - intros [r ->] i x Hi. simpl. by apply lookup_app_l_Some.
Qed.

Lemma sb_holds_room sb s : sb_holds sb s -> (length s < sb_cap sb)%nat.
Proof.
  intros [Hc _ Hd]. apply at_off_length in Hd; [|by destruct s]. rewrite length_app in Hd. simpl in Hd. lia.
Qed.

Lemma sb_holds_cstr sb s : sb_holds sb s -> Forall (fun c => c <> 0) s -> cstr (sb_data sb) = s.
Proof.
  intros [_ _ Hd] Hs. apply at_off_prefix in Hd as [r ->]. rewrite <- app_assoc. simpl.
  induction Hs as [|c s Hc Hs IH]; simpl; [done|]. by replace (c =? 0) with false by lia; rewrite IH.
Qed.

Section codegen_lemmas.
Context (alloc : nat -> bool) (junk : Z).

(** Some allocation fails. *)
Definition oom : Prop := exists n, alloc n = false.

Lemma sb_init_spec cap :
  (0 < cap)%nat ->
  (zereh_sb_init alloc cap = Fail /\ oom) \/
  exists sb, zereh_sb_init alloc cap = Ret sb /\ sb_holds sb [].
Proof.
  intros Hc. unfold zereh_sb_init. destruct (alloc cap) eqn:Ha; [right|left; split; [done|by exists cap]].
  eexists. split; [done|]. constructor; simpl; [by rewrite length_replicate|done|].
  intros [|i] x Hi; [|done]. injection Hi as <-. by apply lookup_replicate_2.
Qed.

Lemma sb_reserve_spec sb s extra :
  sb_holds sb s ->
  (zereh_sb_reserve alloc junk sb extra = Fail /\ oom) \/
  exists sb', zereh_sb_reserve alloc junk sb extra = Ret sb' /\ sb_holds sb' s /\
    (length s + extra < sb_cap sb')%nat.
Proof.
  intros Hh. pose proof (sb_holds_room sb s Hh) as Hroom. destruct Hh as [Hc Hl Hd].
  unfold zereh_sb_reserve. cbv zeta. set (required := (sb_len sb + extra + 1)%nat).
  destruct (Nat.leb_spec required (sb_cap sb)) as [Hle|Hgt].
  { right. exists sb. split; [done|]. split; [done|lia]. }
  destruct (sb_grow_spec required (sb_cap sb) required) as [Hg1 Hg2]; [lia|lia|].
  set (cap := sb_grow required (sb_cap sb) required) in *.
  destruct (alloc cap) eqn:Ha; [right|left; split; [done|by exists cap]]. eexists. split; [done|]. simpl.
  rewrite take_ge by (rewrite length_app, length_replicate; lia).
  split; [|lia]. constructor; simpl; [rewrite length_app, length_replicate; lia|done|].
  intros i x Hi. apply Hd in Hi. simpl in *. by apply lookup_app_l_Some.
Qed.

Lemma blit_spec data off text :
  (off + length text <= length data)%nat ->
  exists data', blit data off text = Ret data' /\ length data' = length data /\
    data' = take off data ++ text ++ drop (off + length text) data.
Proof.
  intros Hl. unfold blit. replace (_ <=? _)%nat with true by lia. eexists. split_and!; [done| |done].
  rewrite !length_app, length_take, length_drop. lia.
Qed.

Lemma take_holds sb s : sb_holds sb s -> take (sb_len sb) (sb_data sb) = s.
Proof.
  intros [_ Hl Hd]. apply at_off_prefix in Hd as [r E]. rewrite E, Hl, <- app_assoc.
  by rewrite take_app_length.
Qed.

Lemma sb_appendn_spec sb s text :
  sb_holds sb s ->
  (zereh_sb_appendn alloc junk sb text = Fail /\ oom) \/
  exists sb', zereh_sb_appendn alloc junk sb text = Ret sb' /\ sb_holds sb' (s ++ text).
Proof.
  intros Hh. unfold zereh_sb_appendn.
  destruct (sb_reserve_spec sb s (length text) Hh) as [[-> Ho]|(sb1 & -> & Hh1 & Hr)]; [by left|right].
  pose proof (take_holds sb1 s Hh1) as Ht. destruct Hh1 as [Hc Hl Hd]. cbn [mbind res_bind].
  destruct (blit_spec (sb_data sb1) (sb_len sb1) text) as (d & -> & Hdl & Hdd); [lia|].
  cbn [mbind res_bind]. unfold wr. rewrite decide_True by lia. cbn [mbind res_bind].
  eexists. split; [done|]. constructor; cbn [sb_data sb_len sb_cap].
  - by rewrite length_insert, Hdl.
  - by rewrite length_app, Hl.
  - apply at_off_app. split.
    + intros i x Hi. apply lookup_lt_Some in Hi as Hil. rewrite length_app in Hil. simpl.
      rewrite list_lookup_insert_ne by lia. rewrite Hdd, Ht, app_assoc.
      apply lookup_app_l_Some. done.
    + rewrite length_app. intros [|i] x Hi; [|done]. injection Hi as <-.
      rewrite Hl, Nat.add_0_l, Nat.add_0_r. apply list_lookup_insert_eq. lia.
Qed.

Lemma sb_appendf_spec sb s text :
  sb_holds sb s -> Z.of_nat (length text) < 2 ^ 31 ->
  (zereh_sb_appendf alloc junk sb text = Fail /\ oom) \/
  exists sb', zereh_sb_appendf alloc junk sb text = Ret sb' /\ sb_holds sb' (s ++ text).
Proof.
  intros Hh Hlen. unfold zereh_sb_appendf. pass.
  destruct (sb_reserve_spec sb s (length text) Hh) as [[-> Ho]|(sb1 & -> & Hh1 & Hr)]; [by left|right].
  pose proof (take_holds sb1 s Hh1) as Ht. destruct Hh1 as [Hc Hl Hd]. cbn [mbind res_bind].
  destruct (Nat.eqb_spec (sb_cap sb1 - sb_len sb1) 0); [lia|].
  rewrite (take_ge text) by lia.
  destruct (blit_spec (sb_data sb1) (sb_len sb1) (text ++ [0])) as (d & -> & Hdl & Hdd).
  { rewrite length_app. simpl. lia. }
  cbn [mbind res_bind]. eexists. split; [done|]. constructor; cbn [sb_data sb_len sb_cap].
  - lia.
  - by rewrite length_app, Hl.
  - apply at_off_prefix. rewrite Hdd, Ht. exists (drop (sb_len sb1 + length (text ++ [0])) (sb_data sb1)). by rewrite <- !app_assoc.
Qed.

(** ** Escaping *)

Definition escape_char (c : Z) : bytes :=
  if (c =? 92) || (c =? 34) then [92; c]
  else if c =? 10 then [92; 110]
  else if c =? 13 then [92; 114]
  else if c =? 9 then [92; 116]
  else [c].

Definition escape (s : bytes) : bytes := concat (map escape_char s).

Lemma escape_no_nul s : Forall (fun c => c <> 0) s -> Forall (fun c => c <> 0) (escape s).
Proof.
  induction 1 as [|c s Hc Hs IH]; [by constructor|]. unfold escape. simpl. apply Forall_app.
  split; [|done]. unfold escape_char. by repeat destruct_if; repeat constructor.
Qed.

Lemma escape_loop_spec sb s text :
  sb_holds sb s ->
  (escape_loop alloc junk sb text = Fail /\ oom) \/
  exists sb', escape_loop alloc junk sb text = Ret sb' /\ sb_holds sb' (s ++ escape text).
Proof.
  revert sb s. induction text as [|c text IH]; intros sb s Hh; cbn [escape_loop].
  { right. exists sb. split; [done|]. by rewrite app_nil_r. }
  assert (exists m, (if (c =? 92) || (c =? 34) then zereh_sb_appendf alloc junk sb [92; c]
    else if c =? 10 then zereh_sb_appendn alloc junk sb (str "\n")
    else if c =? 13 then zereh_sb_appendn alloc junk sb (str "\r")
    else if c =? 9 then zereh_sb_appendn alloc junk sb (str "\t")
    else zereh_sb_appendn alloc junk sb [c]) = m /\
    ((m = Fail /\ oom) \/ exists sb', m = Ret sb' /\ sb_holds sb' (s ++ escape_char c)))
    as (m & -> & [[-> Ho]|(sb1 & -> & H1)]).
  { eexists. split; [done|]. unfold escape_char.
    repeat destruct_if; auto using sb_appendn_spec. apply sb_appendf_spec; [done|simpl; lia]. }
  - by left.
  - cbn [mbind res_bind]. destruct (IH sb1 _ H1) as [[-> Ho]|(sb2 & -> & H2)]; [by left|right].
    exists sb2. split; [done|]. by rewrite <- app_assoc in H2.
Qed.

Lemma escape_c_string_spec text :
  Forall (fun c => c <> 0) text ->
  (zereh_escape_c_string alloc junk text = Fail /\ oom) \/
  zereh_escape_c_string alloc junk text = Ret (escape text).
Proof.
  intros Ht. unfold zereh_escape_c_string.
  destruct (sb_init_spec 64) as [[-> Ho]|(sb & -> & H0)]; [lia|by left|]. cbn [mbind res_bind].
  destruct (escape_loop_spec sb [] text H0) as [[-> Ho]|(sb1 & -> & H1)]; [by left|right].
  cbn [mbind res_bind]. f_equal. apply sb_holds_cstr; [done|by apply escape_no_nul].
Qed.

(** ** Substitution *)

(** [out] is [s] with the leftmost occurrence of [token] replaced, and so on
    in what follows it. *)
Inductive replaced (token replacement : bytes) : bytes -> bytes -> Prop :=
| replaced_none s :
    (forall a b, s <> a ++ token ++ b) -> replaced token replacement s s
| replaced_hit a b out :
    (forall a' b', a ++ token ++ b = a' ++ token ++ b' -> (length a <= length a')%nat) ->
    replaced token replacement b out ->
    replaced token replacement (a ++ token ++ b) (a ++ replacement ++ out).

Lemma strstr_spec s token :
  match strstr s token with
  | Some hit => s = take hit s ++ token ++ drop (hit + length token) s /\
      (hit <= length s)%nat /\
      forall a b, s = a ++ token ++ b -> (hit <= length a)%nat
  | None => forall a b, s <> a ++ token ++ b
  end.
Proof.
  induction s as [|c s IH]; cbn [strstr].
  - case_bool_decide as Hp.
    + destruct Hp as [r E]. symmetry in E. apply app_nil in E as [-> ->]. simpl.
      split_and!; [done|lia|lia].
    + intros a b E. symmetry in E. apply app_nil in E as [-> E]. apply app_nil in E as [-> ->].
      apply Hp. by exists [].
  - case_bool_decide as Hp.
    + destruct Hp as [r E]. rewrite E. simpl. rewrite drop_app_length. split_and!; [done|lia|intros; lia].
    + assert (forall a b, c :: s = a ++ token ++ b -> exists a', a = c :: a' /\ s = a' ++ token ++ b)
        as Hcons.
      { intros [|x a] b E; [destruct Hp; by exists b|]. simpl in E. injection E as -> ->. eauto. }
      destruct (strstr s token) as [hit|]; cbn [fmap option_fmap option_map].
      * destruct IH as (E & Hl & Hmin). split_and!.
        -- simpl. by rewrite <- E.
        -- simpl. lia.
        -- intros a b (a' & -> & Es)%Hcons. apply Hmin in Es. simpl. lia.
      * intros a b (a' & -> & Es)%Hcons. by apply IH in Es.
Qed.

Lemma replace_loop_spec fuel sb s cursor token replacement :
  token <> [] -> (length cursor < fuel)%nat -> sb_holds sb s ->
  (replace_loop alloc junk fuel sb cursor token replacement = Fail /\ oom) \/
  exists sb' out, replace_loop alloc junk fuel sb cursor token replacement = Ret sb' /\
    replaced token replacement cursor out /\ sb_holds sb' (s ++ out).
Proof.
  intros Hne. revert sb s cursor. induction fuel as [|fuel IH]; intros sb s cursor Hf Hh; [lia|].
  cbn [replace_loop]. pose proof (strstr_spec cursor token) as Hs.
  destruct (strstr cursor token) as [hit|].
  - destruct Hs as (E & Hl & Hmin).
    destruct (sb_appendn_spec sb s (take hit cursor) Hh) as [[-> Ho]|(sb1 & -> & H1)]; [by left|].
    cbn [mbind res_bind].
    destruct (sb_appendn_spec sb1 _ replacement H1) as [[-> Ho]|(sb2 & -> & H2)]; [by left|].
    cbn [mbind res_bind]. set (rest := drop (hit + length token) cursor) in *.
    assert (length rest < fuel)%nat.
    { assert (0 < length cursor)%nat by (rewrite E, !length_app; destruct token; [done|simpl; lia]).
      subst rest. rewrite length_drop. destruct token; [done|]. cbn [length]. lia. }
    destruct (IH sb2 _ rest ltac:(done) H2) as [[-> Ho]|(sb3 & out & -> & Hr & H3)]; [by left|right].
    exists sb3, (take hit cursor ++ replacement ++ out). split; [done|]. split.
    + rewrite E at 1. constructor; [|done]. rewrite <- E. intros a' b' E'.
      rewrite length_take. apply Hmin in E'. lia.
    + by rewrite !app_assoc in *.
  - destruct (sb_appendn_spec sb s cursor Hh) as [[-> Ho]|(sb1 & -> & H1)]; [by left|right].
    exists sb1, cursor. split; [done|]. split; [by constructor|done].
Qed.

Lemma replaced_no_nul token replacement s out :
  replaced token replacement s out -> Forall (fun c => c <> 0) replacement ->
  Forall (fun c => c <> 0) s -> Forall (fun c => c <> 0) out.
Proof.
  induction 1 as [|a b out _ _ IH]; [done|]. intros Hr Hs.
  rewrite !Forall_app in *. tauto.
Qed.

Lemma replace_all_spec input token replacement :
  token <> [] -> Forall (fun c => c <> 0) input -> Forall (fun c => c <> 0) replacement ->
  (zereh_replace_all alloc junk input token replacement = Fail /\ oom) \/
  exists out, zereh_replace_all alloc junk input token replacement = Ret out /\
    replaced token replacement input out.
Proof.
  intros Hne Hi Hr. unfold zereh_replace_all.
  destruct (Nat.eqb_spec (length token) 0) as [H0|_]; [by destruct token|].
  cbn [negb guard_r mbind res_bind].
  destruct (sb_init_spec (length input + length replacement + 256)) as [[-> Ho]|(sb & -> & H0)];
    [lia|by left|]. cbn [mbind res_bind].
  destruct (replace_loop_spec (S (length input)) sb [] input token replacement Hne ltac:(lia) H0)
    as [[-> Ho]|(sb1 & out & -> & Hrep & H1)]; [by left|right].
  exists out. split; [|done]. cbn [mbind res_bind]. f_equal. apply sb_holds_cstr; [done|].
  by eapply replaced_no_nul.
Qed.
(** [out] is [text] after the substitutions, one after the other. *)
Inductive replaced_each : list (bytes * bytes) -> bytes -> bytes -> Prop :=
| replaced_each_nil text : replaced_each [] text text
| replaced_each_cons token replacement subs text mid out :
    replaced token replacement text mid -> replaced_each subs mid out ->
    replaced_each ((token, replacement) :: subs) text out.

Lemma replace_each_spec subs text :
  Forall (fun p => p.1 <> [] /\ Forall (fun c => c <> 0) p.2) subs -> Forall (fun c => c <> 0) text ->
  (replace_each alloc junk text subs = Fail /\ oom) \/
  exists out, replace_each alloc junk text subs = Ret out /\ replaced_each subs text out.
Proof.
  intros Hs. revert text. induction Hs as [|[token replacement] subs [Hne Hr] _ IH]; intros text Ht.
  { right. exists text. split; [done|constructor]. }
  cbn [replace_each]. cbn [fst snd] in *.
  destruct (replace_all_spec text token replacement Hne Ht Hr) as [[-> ?]|(mid & -> & Hm)]; [by left|].
  cbn [mbind res_bind].
  destruct (IH mid (replaced_no_nul _ _ _ _ Hm Hr Ht)) as [[-> ?]|(out & -> & Ho)]; [by left|right].
  exists out. split; [done|by econstructor].
Qed.
End codegen_lemmas.

(** ** Properties *)

(** C38: appending to a string buffer never writes outside its
    allocation: it fails only when an allocation fails, and otherwise the buffer
    holds the old string followed by the new text, with the terminator.  This
    holds for raw text and for formatted text below the limit of [vsnprintf]. *)
Theorem sb_append_safe (alloc : nat -> bool) (junk : Z) (sb : zereh_sb) (s text : bytes) :
  sb_holds sb s -> Z.of_nat (length text) < 2 ^ 31 ->
  ((zereh_sb_appendn alloc junk sb text = Fail /\ oom alloc) \/
   exists sb', zereh_sb_appendn alloc junk sb text = Ret sb' /\ sb_holds sb' (s ++ text)) /\
  ((zereh_sb_appendf alloc junk sb text = Fail /\ oom alloc) \/
   exists sb', zereh_sb_appendf alloc junk sb text = Ret sb' /\ sb_holds sb' (s ++ text)).
Proof. intros Hh Hl. split; [by apply sb_appendn_spec|by apply sb_appendf_spec]. Qed.

Lemma sb_append_safe_witness :
  sb_holds (ZerehSb [97; 0] 1 2) [97] /\
  exists sb', zereh_sb_appendn (fun _ => true) 7 (ZerehSb [97; 0] 1 2) (str "bcd") = Ret sb' /\
    sb_holds sb' (str "abcd").
Proof.
  assert (sb_holds (ZerehSb [97; 0] 1 2) [97]) as H.
  { constructor; [reflexivity|reflexivity|]. apply at_off_prefix. by_compute. }
  split; [exact H|].
  destruct (sb_append_safe (fun _ => true) 7 (ZerehSb [97; 0] 1 2) [97] (str "bcd") H) as [[[E _]|Hn] _].
  - vm_compute. reflexivity.
  - vm_compute in E. discriminate E.
  - exact Hn.
Defined.

(** C28: substituting a token in the template returns the text in
    which every occurrence, found from the left without overlap, is replaced;
    it fails only when an allocation fails, and never leaves its buffer. *)
Theorem replace_all_correct (alloc : nat -> bool) (junk : Z) (input token replacement : bytes) :
  token <> [] -> Forall (fun c => c <> 0) input -> Forall (fun c => c <> 0) replacement ->
  (zereh_replace_all alloc junk input token replacement = Fail /\ oom alloc) \/
  exists out, zereh_replace_all alloc junk input token replacement = Ret out /\
    replaced token replacement input out.
Proof. apply replace_all_spec. Qed.

Lemma replace_all_correct_witness :
  exists out, zereh_replace_all (fun _ => true) 0 (str "a@b@c") (str "@") (str "--") = Ret out /\
    replaced (str "@") (str "--") (str "a@b@c") out.
Proof.
  destruct (replace_all_correct (fun _ => true) 0 (str "a@b@c") (str "@") (str "--")) as [[E _]|H].
  - discriminate.
  - by_compute.
  - by_compute.
  - vm_compute in E. discriminate E.
  - exact H.
Defined.
