(* ===== verification/CodegenSem.v ===== *)
(** * What the generated text says

    The text control/codegen.c writes for a route is C; the template compiles
    it as a [case] of the dispatch or as a fallback rule.  Here the text is
    read back: a lexer for the tokens it uses (words, string literals with
    their escapes, punctuation) and readers for its two shapes give the
    [route_block] that the router of XdpRouter runs.  The theorems say that
    the text of a route reads as [block_of_route]. *)
From S2P Require Import Prelude CLib Hash DnsParser XdpHash BpfMaps XdpFilters XdpRouter Config Yaml Codegen.
#[local] Open Scope Z_scope.

(** ** From a configuration to the router *)

Definition filters_of_route (route : zereh_route) (route_id : Z) : app_filters := {|
  prefix := r_prefix route;
  prefix_len := Z.of_nat (length (r_prefix route));
  suffix := r_suffix route;
  suffix_len := Z.of_nat (length (r_suffix route));
  min_labels := r_min_labels route;
  max_labels := r_max_labels route;
  qname_min_len := r_qname_min_len route;
  qname_max_len := r_qname_max_len route;
  route_id := route_id;
  rrtype_mask := r_rrtype_mask route;
  pow_difficulty := r_pow_difficulty route;
  pow_time_window := r_pow_time_window route;
  bloom_required := r_bloom_enabled route;
  bloom_size := r_bloom_size route;
  bloom_hash_functions := r_bloom_hash_functions route;
  bloom_time_window := r_bloom_time_window route;
  rate_limit_qps := r_rate_limit_qps route
|}.

Definition action_of_route (route : zereh_route) : route_action :=
  match r_target route with
  | ZEREH_TARGET_USER_SPACE => RedirectMap (r_xsk_queue route)
  | ZEREH_TARGET_KERNEL_SPACE => RouteKernelSpace (r_kernel_port route)
  | ZEREH_TARGET_XDP_PROG => TailCall (r_prog_index route)
  end.

Definition block_of_route (route : zereh_route) (route_id : Z) : route_block :=
  RouteBlock (r_hash route) (r_domain route) (filters_of_route route route_id)
    (action_of_route route).

Definition blocks_of_config (cfg : zereh_config) : list route_block :=
  imap (fun i route => block_of_route route (Z.of_nat i)) (c_routes cfg).

(** The values substituted in the template. *)
Definition params_of_config (cfg : zereh_config) : template_params := {|
  tp_max_packet_size := c_max_packet_size cfg;
  tp_allowed_opcode_mask := c_allowed_opcode_mask cfg;
  tp_drop_truncated := if c_drop_truncated cfg =? 0 then 0 else 1;
  tp_default_action := match c_default_action cfg with
                       | ZEREH_ACTION_DROP => XDP_DROP
                       | ZEREH_ACTION_PASS => XDP_PASS
                       end;
  tp_hash_algo := c_hash_algo cfg;
  tp_rate_state_entries := if (length (c_routes cfg) =? 0)%nat then 1
                           else Z.of_nat (length (c_routes cfg))
|}.

(** ** Tokens *)

Inductive token : Type :=
| TWord (w : bytes)          (* an identifier, a keyword or a number *)
| TStr (s : bytes)           (* a string literal, its escapes resolved *)
| TPunct (c : Z).

#[global] Instance token_eq_dec : EqDecision token.
Proof. solve_decision. Defined.

Inductive lex_mode : Type :=
| LIdle
| LWord (w : bytes)
| LStr (s : bytes)
| LEsc (s : bytes)           (* after a backslash *)
| LBad.

Definition is_word_char (c : Z) : bool :=
  isdigit c || (65 <=? c) && (c <=? 90) || (97 <=? c) && (c <=? 122) || (c =? 95).

(** A character between tokens; the tokens are kept last first. *)
Definition lex_idle (out : list token) (c : Z) : lex_mode * list token :=
  if isspace c then (LIdle, out)
  else if is_word_char c then (LWord [c], out)
  else if c =? 34 then (LStr [], out)
  else (LIdle, TPunct c :: out).

Definition lex_step (st : lex_mode * list token) (c : Z) : lex_mode * list token :=
  let '(mode, out) := st in
  match mode with
  | LIdle => lex_idle out c
  | LWord w => if is_word_char c then (LWord (w ++ [c]), out) else lex_idle (TWord w :: out) c
  | LStr s =>
      if c =? 34 then (LIdle, TStr s :: out)
      else if c =? 92 then (LEsc s, out)
      else if c =? 10 then (LBad, out)
      else (LStr (s ++ [c]), out)
  | LEsc s =>
      if (c =? 92) || (c =? 34) then (LStr (s ++ [c]), out)
      else if c =? 110 then (LStr (s ++ [10]), out)
      else if c =? 114 then (LStr (s ++ [13]), out)
      else if c =? 116 then (LStr (s ++ [9]), out)
      else (LBad, out)
  | LBad => (LBad, out)
  end.

Definition lex_from (st : lex_mode * list token) (text : bytes) : lex_mode * list token :=
  fold_left lex_step text st.

(** The tokens of a text that ends between tokens. *)
Definition lex (text : bytes) : option (list token) :=
  match lex_from (LIdle, []) text with
  | (LIdle, out) => Some (reverse out)
  | _ => None
  end.

(** ** Readers *)

Definition hex_val_digit (c : Z) : option Z :=
  if isdigit c then Some (c - 48)
  else if (97 <=? c) && (c <=? 102) then Some (c - 87) else None.

Fixpoint hex_val (v : Z) (w : bytes) : Z * bytes :=
  match w with
  | c :: w' => match hex_val_digit c with Some d => hex_val (16 * v + d) w' | None => (v, w) end
  | [] => (v, [])
  end.

(** An integer constant, with the suffixes the generator writes. *)
Definition c_number (w : bytes) : option Z :=
  let '(v, suffix, any) :=
    if bool_decide (take 2 w = str "0x")
    then let '(v, rest) := hex_val 0 (drop 2 w) in (v, rest, negb (bool_decide (drop 2 w = [])))
    else let '(ds, rest) := span_digits w in (digits_val 0 ds, rest, negb (bool_decide (ds = []))) in
  if any && bool_decide (suffix ∈ [[]; str "u"; str "ULL"]) then Some v else None.

Definition reader (A : Type) : Type := list token -> option (A * list token).
#[global] Instance reader_ret : MRet reader := fun A a ts => Some (a, ts).
#[global] Instance reader_bind : MBind reader := fun A B f m ts =>
  match m ts with Some (a, ts) => f a ts | None => None end.

Definition expect (t : token) : reader unit := fun ts =>
  match ts with
  | t' :: ts' => if bool_decide (t = t') then Some (tt, ts') else None
  | [] => None
  end.

Fixpoint expects (l : list token) : reader unit :=
  match l with
  | [] => mret tt
  | t :: l' => _ ← expect t; expects l'
  end.

Definition read_num : reader Z := fun ts =>
  match ts with
  | TWord w :: ts' => v ← c_number w; Some (v, ts')
  | _ => None
  end.

Definition read_str : reader bytes := fun ts =>
  match ts with
  | TStr s :: ts' => Some (s, ts')
  | _ => None
  end.

Definition kw (s : String.string) : token := TWord (str s).
Arguments kw s%_string_scope.
Definition comma : token := TPunct 44.
Definition lparen : token := TPunct 40.
Definition rparen : token := TPunct 41.
Definition semi : token := TPunct 59.
Definition lbrace : token := TPunct 123.
Definition rbrace : token := TPunct 125.

Definition num_arg : reader Z := v ← read_num; _ ← expect comma; mret v.
Definition str_arg : reader bytes := v ← read_str; _ ← expect comma; mret v.

(** [if (!zereh_apply_app_filters(qmeta, ...)) { return XDP_DROP; }], its
    arguments bound to the parameters of the function in order. *)
Definition read_filters : reader app_filters :=
  _ ← expects [kw "if"; lparen; TPunct 33; kw "zereh_apply_app_filters"; lparen; kw "qmeta"; comma];
  prefix ← str_arg;
  prefix_len ← num_arg;
  suffix ← str_arg;
  suffix_len ← num_arg;
  min_labels ← num_arg;
  max_labels ← num_arg;
  qname_min_len ← num_arg;
  qname_max_len ← num_arg;
  _ ← expects [kw "route_hash"; comma];
  route_id ← num_arg;
  rrtype_mask ← num_arg;
  pow_difficulty ← num_arg;
  pow_time_window ← num_arg;
  bloom_required ← num_arg;
  bloom_size ← num_arg;
  bloom_hash_functions ← num_arg;
  bloom_time_window ← num_arg;
  rate_limit_qps ← read_num;
  _ ← expects [rparen; rparen; lbrace; kw "return"; kw "XDP_DROP"; semi; rbrace];
  mret (AppFilters prefix prefix_len suffix suffix_len min_labels max_labels qname_min_len
          qname_max_len route_id rrtype_mask pow_difficulty pow_time_window bloom_required
          bloom_size bloom_hash_functions bloom_time_window rate_limit_qps).

(** One of the three actions. *)
Definition read_action : reader route_action := fun ts =>
  match ts with
  | TWord w :: TWord f :: _ =>
      if bool_decide (f = str "bpf_redirect_map") then
        (_ ← expects [kw "return"; kw "bpf_redirect_map"; lparen; TPunct 38; kw "xsk_map"; comma];
         queue ← num_arg;
         _ ← expects [kw "0"; rparen; semi];
         mret (RedirectMap queue)) ts
      else
        (_ ← expects [kw "return"; kw "zereh_route_kernel_space"; lparen; kw "iph"; comma; kw "udp";
                      comma; kw "bpf_htons"; lparen];
         port ← read_num;
         _ ← expects [rparen; comma; kw "0"; rparen; semi];
         mret (RouteKernelSpace port)) ts
  | _ =>
      (_ ← expects [kw "bpf_tail_call"; lparen; kw "ctx"; comma; TPunct 38; kw "prog_array"; comma];
       index ← read_num;
       _ ← expects [rparen; semi; kw "return"; kw "XDP_DROP"; semi];
       mret (TailCall index)) ts
  end.

(** A [case]: the hash, the filters and the action. *)
Definition read_case : reader (Z * app_filters * route_action) :=
  _ ← expect (kw "case");
  hash ← read_num;
  _ ← expect (TPunct 58);
  filters ← read_filters;
  action ← read_action;
  mret (hash, filters, action).

(** A fallback rule: the domain and its length, the filters and the action. *)
Definition read_fallback : reader (bytes * Z * app_filters * route_action) :=
  _ ← expects [kw "if"; lparen; kw "zereh_match_suffix"; lparen; kw "qmeta"; TPunct 45; TPunct 62;
               kw "qname"; comma; kw "qmeta"; TPunct 45; TPunct 62; kw "qname_len"; comma];
  domain ← str_arg;
  len ← read_num;
  _ ← expects [rparen; rparen; lbrace];
  filters ← read_filters;
  action ← read_action;
  _ ← expect rbrace;
  mret (domain, len, filters, action).

(** ** Numbers *)

Definition hex_digits (w : bytes) : Prop := Forall (fun c => is_Some (hex_val_digit c)) w.

Definition hex_fold (v : Z) (w : bytes) : Z :=
  fold_left (fun v c => 16 * v + default 0 (hex_val_digit c)) w v.

Lemma hex_val_app v w rest :
  hex_digits w -> (forall c r, rest = c :: r -> hex_val_digit c = None) ->
  hex_val v (w ++ rest) = (hex_fold v w, rest).
Proof.
  intros Hw Hr. revert v. induction Hw as [|c w [d Hd] Hw IH]; intros v; cbn [app hex_val].
  - destruct rest as [|c r]; [done|]. cbn [hex_val]. by rewrite (Hr c r).
  - rewrite Hd, IH. unfold hex_fold. cbn [fold_left]. by rewrite Hd.
Qed.

Lemma hex_digit_val d : 0 <= d < 16 -> hex_val_digit (hex_digit d) = Some d.
Proof.
  intros Hd. unfold hex_val_digit, hex_digit, isdigit. repeat destruct_if; f_equal; lia.
Qed.

Lemma fmt_hex_spec k n :
  0 <= n < 16 ^ Z.of_nat k ->
  length (fmt_hex k n) = k /\ hex_digits (fmt_hex k n) /\ hex_fold 0 (fmt_hex k n) = n.
Proof.
  revert n. induction k as [|k IH]; intros n Hn; cbn [fmt_hex].
  { simpl in Hn. split_and!; [done|constructor|]. unfold hex_fold. simpl. lia. }
  rewrite Nat2Z.inj_succ, Z.pow_succ_r in Hn by lia.
  pose proof (Z.mod_pos_bound n 16 ltac:(lia)). pose proof (Z.div_mod n 16 ltac:(lia)).
  destruct (IH (n / 16)) as (Hl & Hd & Hf).
  { split; [apply Z.div_pos; lia|apply Z.div_lt_upper_bound; lia]. }
  pose proof (hex_digit_val (n mod 16) ltac:(lia)) as Hx. split_and!.
  - rewrite length_app, Hl. simpl. lia.
  - apply Forall_app. split; [done|]. apply Forall_singleton. eauto.
  - unfold hex_fold in *. rewrite fold_left_app, Hf. cbn [fold_left]. rewrite Hx. cbn. lia.
Qed.

Lemma hex_loop_spec fuel n acc :
  0 <= n < 16 ^ Z.of_nat fuel -> (0 < fuel)%nat ->
  exists w, hex_loop fuel n acc = w ++ acc /\ w <> [] /\ hex_digits w /\ hex_fold 0 w = n.
Proof.
  revert n acc. induction fuel as [|fuel IH]; intros n acc Hn Hf; [lia|]. cbn [hex_loop].
  pose proof (Z.mod_pos_bound n 16 ltac:(lia)) as Hm. pose proof (Z.div_mod n 16 ltac:(lia)) as Hdm.
  pose proof (hex_digit_val (n mod 16) ltac:(lia)) as Hx.
  assert (hex_digits [hex_digit (n mod 16)]) as Hd1 by (apply Forall_singleton; eauto).
  destruct (Z.eqb_spec (n / 16) 0) as [H0|H0].
  - exists [hex_digit (n mod 16)]. split_and!; [done..|]. unfold hex_fold. cbn [fold_left]. rewrite Hx. cbn. lia.
  - rewrite Nat2Z.inj_succ, Z.pow_succ_r in Hn by lia.
    destruct fuel as [|fuel]; [simpl in Hn; lia|].
    assert (0 <= n / 16 < 16 ^ Z.of_nat (S fuel)).
    { split; [apply Z.div_pos; lia|apply Z.div_lt_upper_bound; lia]. }
    destruct (IH (n / 16) (hex_digit (n mod 16) :: acc)) as (w & -> & Hne & Hw & Hv); [done|lia|].
    exists (w ++ [hex_digit (n mod 16)]). split_and!.
    + by rewrite <- app_assoc.
    + by destruct w.
    + by apply Forall_app.
    + unfold hex_fold in *. rewrite fold_left_app, Hv. cbn [fold_left]. rewrite Hx. cbn. lia.
Qed.

Lemma fmt_x_spec n : word 32 n -> fmt_x n <> [] /\ hex_digits (fmt_x n) /\ hex_fold 0 (fmt_x n) = n.
Proof.
  unfold word, fmt_x. intros Hn. destruct (hex_loop_spec 8 n []) as (w & -> & H); [simpl; lia|lia|].
  by rewrite app_nil_r.
Qed.

Lemma c_number_hex w v suffix :
  hex_digits w -> w <> [] -> hex_fold 0 w = v -> suffix = str "u" \/ suffix = str "ULL" ->
  c_number (str "0x" ++ w ++ suffix) = Some v.
Proof.
  intros Hw Hne Hv Hs. unfold c_number. change (drop 2 (str "0x" ++ w ++ suffix)) with (w ++ suffix).
  change (take 2 (str "0x" ++ w ++ suffix)) with (str "0x" ++ take 0 (w ++ suffix)).
  rewrite take_0, app_nil_r, bool_decide_eq_true_2 by done.
  rewrite hex_val_app; [|done|by destruct Hs as [->| ->]; intros c r [= <- _]].
  rewrite Hv, bool_decide_eq_false_2 by (by destruct w). cbn [negb andb].
  by destruct Hs as [->| ->].
Qed.

Lemma c_number_fmt_u n : 0 <= n < 2 ^ 64 -> c_number (fmt_u n) = Some n.
Proof.
  intros Hn. destruct (fmt_u_spec n Hn) as (ds & -> & Hne & Hds & Hv). unfold c_number.
  rewrite bool_decide_eq_false_2.
  - assert (span_digits ds = (ds, [])) as ->.
    { rewrite <- (app_nil_r ds) at 1. by apply span_digits_app. }
    by rewrite bool_decide_eq_false_2, Hv.
  - intros E. rewrite <- (take_drop 2 ds), E in Hds. apply Forall_app in Hds as [Hds _].
    apply Forall_cons in Hds as [_ Hds]. by apply Forall_cons in Hds as [? _].
Qed.

(** ** Lexing *)

(** Read between tokens, [text] gives the tokens [ts] and ends between
    tokens. *)
Definition lexes (text : bytes) (ts : list token) : Prop :=
  forall out, lex_from (LIdle, out) text = (LIdle, reverse ts ++ out).

Lemma lexes_app t1 t2 ts1 ts2 : lexes t1 ts1 -> lexes t2 ts2 -> lexes (t1 ++ t2) (ts1 ++ ts2).
Proof.
  intros H1 H2 out. unfold lexes, lex_from in *. by rewrite fold_left_app, H1, H2, reverse_app, app_assoc.
Qed.

Lemma lexes_lex text ts : lexes text ts -> lex text = Some ts.
Proof. intros H. unfold lex. by rewrite H, app_nil_r, reverse_involutive. Qed.

(** A word that a comma or a parenthesis ends. *)
Lemma lex_word w out acc :
  Forall (fun c => is_word_char c = true) w ->
  lex_from (LWord acc, out) w = (LWord (acc ++ w), out).
Proof.
  intros Hw. revert acc. induction Hw as [|c w Hc Hw IH]; intros acc; [by rewrite app_nil_r|].
  change (lex_from (LWord acc, out) (c :: w)) with (lex_from (lex_step (LWord acc, out) c) w).
  cbn [lex_step]. rewrite Hc, IH. by rewrite <- app_assoc.
Qed.

Lemma lexes_word w p :
  Forall (fun c => is_word_char c = true) w -> w <> [] -> p = 44 \/ p = 41 \/ p = 58 ->
  lexes (w ++ [p]) [TWord w; TPunct p].
Proof.
  intros Hw Hne Hp out. destruct w as [|c w]; [done|]. apply Forall_cons in Hw as [Hc Hw].
  unfold lex_from. rewrite fold_left_app.
  change (fold_left lex_step (c :: w) (LIdle, out)) with (lex_from (lex_step (LIdle, out) c) w).
  cbn [lex_step]. unfold lex_idle. rewrite Hc.
  replace (isspace c) with false by (unfold isspace, is_word_char, isdigit in *; lia).
  rewrite lex_word by done. by destruct Hp as [->|[->| ->]].
Qed.

(** A string literal gives back the string that was escaped. *)
Lemma lex_escaped s out acc : lex_from (LStr acc, out) (escape s) = (LStr (acc ++ s), out).
Proof.
  revert acc. induction s as [|c s IH]; intros acc; [by rewrite app_nil_r|].
  unfold escape. cbn [map concat]. unfold lex_from. rewrite fold_left_app. fold (escape s).
  assert (fold_left lex_step (escape_char c) (LStr acc, out) = (LStr (acc ++ [c]), out)) as ->.
  { unfold escape_char. destruct ((c =? 92) || (c =? 34)) eqn:E1.
    { by assert (c = 92 \/ c = 34) as [->| ->] by lia. }
    destruct (Z.eqb_spec c 10) as [->|]; [done|]. destruct (Z.eqb_spec c 13) as [->|]; [done|].
    destruct (Z.eqb_spec c 9) as [->|]; [done|]. cbn [fold_left lex_step].
    apply orb_false_iff in E1 as [-> ->]. by replace (c =? 10) with false by lia. }
  change (lex_from (LStr (acc ++ [c]), out) (escape s) = (LStr (acc ++ c :: s), out)).
  by rewrite IH, <- app_assoc.
Qed.

Lemma lexes_string s : lexes (quote ++ escape s ++ quote) [TStr s].
Proof.
  intros out. unfold lex_from. rewrite !fold_left_app.
  change (fold_left lex_step quote (LIdle, out)) with (LStr [], out).
  change (fold_left lex_step (escape s) (LStr [], out)) with (lex_from (LStr [], out) (escape s)).
  by rewrite lex_escaped.
Qed.

Lemma lexes_word_then w p rest ts :
  Forall (fun c => is_word_char c = true) w -> w <> [] -> p = 44 \/ p = 41 \/ p = 58 ->
  lexes rest ts -> lexes (w ++ p :: rest) (TWord w :: TPunct p :: ts).
Proof.
  intros Hw Hne Hp Hr. change (w ++ p :: rest) with (w ++ [p] ++ rest). rewrite app_assoc.
  apply (lexes_app _ _ [TWord w; TPunct p]); [by apply lexes_word|done].
Qed.

Lemma lexes_eq text ts ts' : lexes text ts -> ts = ts' -> lexes text ts'.
Proof. by intros ? <-. Qed.

Lemma digits_word n : 0 <= n < 2 ^ 64 ->
  Forall (fun c => is_word_char c = true) (fmt_u n) /\ fmt_u n <> [].
Proof.
  intros Hn. destruct (fmt_u_spec n Hn) as (ds & -> & Hne & Hds & _). split; [|done].
  eapply Forall_impl; [exact Hds|]. simpl. unfold is_word_char. by intros c ->.
Qed.

Lemma hex_word w : hex_digits w -> Forall (fun c => is_word_char c = true) w.
Proof.
  intros Hw. eapply Forall_impl; [exact Hw|]. simpl. intros c [d Hd].
  unfold hex_val_digit in Hd. unfold is_word_char. repeat destruct_if; done || lia.
Qed.

Lemma lexes_num_then n p rest ts :
  0 <= n < 2 ^ 64 -> p = 44 \/ p = 41 \/ p = 58 -> lexes rest ts ->
  lexes (fmt_u n ++ p :: rest) (TWord (fmt_u n) :: TPunct p :: ts).
Proof. intros Hn. by destruct (digits_word n Hn); apply lexes_word_then. Qed.

Lemma lexes_arg_u n : 0 <= n < 2 ^ 64 -> lexes (arg_line (fmt_u n)) [TWord (fmt_u n); comma].
Proof.
  intros Hn. unfold arg_line. apply (lexes_app _ _ []); [done|].
  apply (lexes_num_then n 44 nl []); auto. done.
Qed.

Lemma lexes_arg_str s : lexes (arg_line (quote ++ escape s ++ quote)) [TStr s; comma].
Proof.
  unfold arg_line. apply (lexes_app _ _ []); [done|].
  apply (lexes_app _ _ [TStr s]); [apply lexes_string|done].
Qed.

Lemma lexes_arg_x n : word 32 n ->
  lexes (arg_line (str "0x" ++ fmt_x n ++ str "u")) [TWord (str "0x" ++ fmt_x n ++ str "u"); comma].
Proof.
  intros Hn. destruct (fmt_x_spec n Hn) as (Hne & Hx & _). unfold arg_line. apply (lexes_app _ _ []); [done|].
  apply (lexes_word_then _ 44 nl []); [|done|by left|done].
  apply Forall_app. split; [by repeat constructor|]. apply Forall_app.
  split; [by apply hex_word|by repeat constructor].
Qed.

(** ** The values of a route *)

(** What the readers need of a route: strings without NUL and fields of their
    declared widths. *)
Record printable (route : zereh_route) (route_id : Z) : Prop := {
  pt_hash : word 64 (r_hash route);
  pt_queue : word 32 (r_xsk_queue route);
  pt_port : word 16 (r_kernel_port route);
  pt_index : word 32 (r_prog_index route);
  pt_domain : (length (r_domain route) <= 255)%nat;
  pt_prefix : (length (r_prefix route) <= 128)%nat;
  pt_suffix : (length (r_suffix route) <= 128)%nat;
  pt_min_labels : word 8 (r_min_labels route);
  pt_max_labels : word 8 (r_max_labels route);
  pt_min_len : word 16 (r_qname_min_len route);
  pt_max_len : word 16 (r_qname_max_len route);
  pt_id : word 32 route_id;
  pt_mask : word 32 (r_rrtype_mask route);
  pt_pow : word 8 (r_pow_difficulty route);
  pt_pow_window : word 16 (r_pow_time_window route);
  pt_bloom : word 8 (r_bloom_enabled route);
  pt_bloom_size : word 32 (r_bloom_size route);
  pt_bloom_hf : word 8 (r_bloom_hash_functions route);
  pt_bloom_window : word 16 (r_bloom_time_window route);
  pt_qps : word 32 (r_rate_limit_qps route)
}.

Definition num_tokens (n : Z) : list token := [TWord (fmt_u n); comma].

Definition filters_tokens (r : zereh_route) (id : Z) : list token :=
  [kw "if"; lparen; TPunct 33; kw "zereh_apply_app_filters"; lparen; kw "qmeta"; comma;
   TStr (r_prefix r); comma] ++ num_tokens (Z.of_nat (length (r_prefix r))) ++
  [TStr (r_suffix r); comma] ++ num_tokens (Z.of_nat (length (r_suffix r))) ++
  num_tokens (r_min_labels r) ++ num_tokens (r_max_labels r) ++
  num_tokens (r_qname_min_len r) ++ num_tokens (r_qname_max_len r) ++
  [kw "route_hash"; comma] ++ num_tokens id ++
  [TWord (str "0x" ++ fmt_x (r_rrtype_mask r) ++ str "u"); comma] ++
  num_tokens (r_pow_difficulty r) ++ num_tokens (r_pow_time_window r) ++
  num_tokens (r_bloom_enabled r) ++ num_tokens (r_bloom_size r) ++
  num_tokens (r_bloom_hash_functions r) ++ num_tokens (r_bloom_time_window r) ++
  [TWord (fmt_u (r_rate_limit_qps r)); rparen; rparen; lbrace; kw "return"; kw "XDP_DROP"; semi;
   rbrace].

Definition action_tokens (r : zereh_route) : list token :=
  match r_target r with
  | ZEREH_TARGET_USER_SPACE =>
      [kw "return"; kw "bpf_redirect_map"; lparen; TPunct 38; kw "xsk_map"; comma;
       TWord (fmt_u (r_xsk_queue r)); comma; kw "0"; rparen; semi]
  | ZEREH_TARGET_KERNEL_SPACE =>
      [kw "return"; kw "zereh_route_kernel_space"; lparen; kw "iph"; comma; kw "udp"; comma;
       kw "bpf_htons"; lparen; TWord (fmt_u (r_kernel_port r)); rparen; comma; kw "0"; rparen; semi]
  | ZEREH_TARGET_XDP_PROG =>
      [kw "bpf_tail_call"; lparen; kw "ctx"; comma; TPunct 38; kw "prog_array"; comma;
       TWord (fmt_u (r_prog_index r)); rparen; semi; kw "return"; kw "XDP_DROP"; semi]
  end.

(** ** Running the readers *)

Section readers.
Context {A : Type}.

Lemma bind_expect t (f : unit -> reader A) ts : (expect t ≫= f) (t :: ts) = f tt ts.
Proof. unfold mbind, reader_bind, expect. by rewrite bool_decide_eq_true_2. Qed.

Lemma bind_expects_cons t l (f : unit -> reader A) ts :
  (expects (t :: l) ≫= f) (t :: ts) = (expects l ≫= f) ts.
Proof.
  cbn [expects]. unfold mbind, reader_bind, expect. by rewrite bool_decide_eq_true_2.
Qed.

Lemma bind_expects_nil (f : unit -> reader A) ts : (expects [] ≫= f) ts = f tt ts.
Proof. done. Qed.

Lemma bind_str_arg s (f : bytes -> reader A) ts : (str_arg ≫= f) (TStr s :: comma :: ts) = f s ts.
Proof. done. Qed.

Lemma bind_hex_num w v (f : Z -> reader A) ts :
  c_number w = Some v -> (read_num ≫= f) (TWord w :: ts) = f v ts.
Proof. intros H. unfold mbind, reader_bind, read_num. by rewrite H. Qed.

Lemma bind_read_num n (f : Z -> reader A) ts :
  0 <= n < 2 ^ 64 -> (read_num ≫= f) (TWord (fmt_u n) :: ts) = f n ts.
Proof. intros Hn. by apply bind_hex_num, c_number_fmt_u. Qed.

Lemma bind_num_arg n (f : Z -> reader A) ts :
  0 <= n < 2 ^ 64 -> (num_arg ≫= f) (TWord (fmt_u n) :: comma :: ts) = f n ts.
Proof. intros Hn. unfold num_arg, mbind, reader_bind, read_num. by rewrite c_number_fmt_u. Qed.

Lemma bind_hex_arg n (f : Z -> reader A) ts :
  word 32 n ->
  (num_arg ≫= f) (TWord (str "0x" ++ fmt_x n ++ str "u") :: comma :: ts) = f n ts.
Proof.
  intros Hn. destruct (fmt_x_spec n Hn) as (Hne & Hx & Hv).
  unfold num_arg, mbind, reader_bind, read_num. by rewrite (c_number_hex _ n) by auto.
Qed.
End readers.

(** [fits]: a field of the route fits in 64 bits. *)
Ltac fits := unfold word in *; lia.

Section route_text.
Context (r : zereh_route) (id : Z) (Hr : printable r id).

Lemma lexes_filters :
  lexes (filters_text r id (escape (r_prefix r)) (escape (r_suffix r))) (filters_tokens r id).
Proof.
  destruct Hr. unfold filters_text. eapply lexes_eq.
  - apply (lexes_app _ _ [kw "if"; lparen; TPunct 33; kw "zereh_apply_app_filters"; lparen;
      kw "qmeta"; comma]); [done|].
    apply (lexes_app _ _ []); [done|].
    apply lexes_app; [apply lexes_arg_str|]. apply lexes_app; [apply lexes_arg_u; fits|].
    apply lexes_app; [apply lexes_arg_str|]. do 5 (apply lexes_app; [apply lexes_arg_u; fits|]).
    apply (lexes_app _ _ [kw "route_hash"; comma]); [done|].
    apply lexes_app; [apply lexes_arg_u; fits|]. apply lexes_app; [by apply lexes_arg_x|].
    do 6 (apply lexes_app; [apply lexes_arg_u; fits|]). apply (lexes_app _ _ []); [done|].
    apply (lexes_num_then _ 41); [fits|auto|].
    instantiate (1 := [rparen; lbrace; kw "return"; kw "XDP_DROP"; semi; rbrace]). done.
  - done.
Qed.

Lemma lexes_action indent :
  lexes indent [] -> lexes (action_text indent r) (action_tokens r).
Proof.
  intros Hi. destruct Hr. unfold action_text, action_tokens. destruct (r_target r).
  - apply (lexes_app _ _ []); [done|].
    apply (lexes_app _ _ [kw "return"; kw "bpf_redirect_map"; lparen; TPunct 38; kw "xsk_map"; comma]);
      [done|]. apply (lexes_num_then _ 44); [fits|auto|done].
  - apply (lexes_app _ _ []); [done|].
    apply (lexes_app _ _ [kw "return"; kw "zereh_route_kernel_space"; lparen; kw "iph"; comma; kw "udp";
      comma; kw "bpf_htons"; lparen]); [done|]. apply (lexes_num_then _ 41); [fits|auto|done].
  - apply (lexes_app _ _ []); [done|].
    apply (lexes_app _ _ [kw "bpf_tail_call"; lparen; kw "ctx"; comma; TPunct 38; kw "prog_array"; comma]);
      [done|]. apply (lexes_num_then _ 41 (str ";" ++ nl ++ indent ++ str "return XDP_DROP;" ++ nl));
      [fits|auto|].
    apply (lexes_app _ _ [semi]); [done|]. apply (lexes_app _ _ []); [done|].
    by apply (lexes_app _ _ []).
Qed.

Lemma read_filters_tokens ts :
  read_filters (filters_tokens r id ++ ts) = Some (filters_of_route r id, ts).
Proof.
  destruct Hr. unfold read_filters, filters_tokens, num_tokens. cbn [app].
  repeat first [rewrite bind_expects_cons | rewrite bind_expects_nil | rewrite bind_str_arg
               | rewrite bind_num_arg by fits | rewrite bind_hex_arg by done
               | rewrite bind_read_num by fits ].
  done.
Qed.

Lemma read_action_tokens ts :
  read_action (action_tokens r ++ ts) = Some (action_of_route r, ts).
Proof.
  destruct Hr. unfold read_action, action_tokens, action_of_route.
  destruct (r_target r); cbn [app kw];
    [rewrite bool_decide_eq_true_2 by done|rewrite bool_decide_eq_false_2 by done|];
    repeat first [rewrite bind_expects_cons | rewrite bind_expects_nil
                 | rewrite bind_num_arg by fits | rewrite bind_read_num by fits ]; done.
Qed.

(** The text of a [case] and of a fallback rule read as the block. *)
Lemma read_case_text :
  exists ts, lex (case_text r id (escape (r_prefix r)) (escape (r_suffix r))) = Some ts /\
    read_case ts = Some (rb_hash (block_of_route r id), rb_filters (block_of_route r id),
                         rb_action (block_of_route r id), []).
Proof.
  assert (word 64 (r_hash r)) as Hh by apply Hr.
  destruct (fmt_hex_spec 16 (r_hash r)) as (Hl & Hx & Hv); [unfold word in Hh; simpl; lia|].
  assert (fmt_hex 16 (r_hash r) <> []) as Hne by (intros E; by rewrite E in Hl).
  set (w := str "0x" ++ fmt_hex 16 (r_hash r) ++ str "ULL").
  exists (kw "case" :: TWord w :: TPunct 58 :: filters_tokens r id ++ action_tokens r). split.
  - apply lexes_lex. unfold case_text.
    change (str "    case 0x" ++ fmt_hex 16 (r_hash r) ++ str "ULL:" ++ nl ++ ?rest)
      with (str "    case " ++ (str "0x" ++ fmt_hex 16 (r_hash r) ++ str "ULL" ++ 58 :: nl ++ rest)).
    apply (lexes_app _ _ [kw "case"]); [done|].
    rewrite (app_assoc (fmt_hex 16 _)), (app_assoc (str "0x")). fold w.
    apply (lexes_word_then w 58).
    + apply Forall_app. split; [by repeat constructor|]. apply Forall_app.
      split; [by apply hex_word|by repeat constructor].
    + by unfold w.
    + auto.
    + apply (lexes_app _ _ [] (filters_tokens r id ++ action_tokens r)); [done|].
      apply (lexes_app _ _ (filters_tokens r id)); [apply lexes_filters|by apply lexes_action].
  - unfold read_case. rewrite bind_expect. rewrite bind_hex_num with (v := r_hash r)
      by (by apply c_number_hex; auto). rewrite bind_expect.
    unfold mbind, reader_bind. rewrite read_filters_tokens, <- (app_nil_r (action_tokens r)).
    by rewrite read_action_tokens.
Qed.

Lemma read_fallback_text :
  exists ts, lex (fallback_text r id (escape (r_domain r)) (escape (r_prefix r))
                    (escape (r_suffix r))) = Some ts /\
    read_fallback ts = Some (rb_domain (block_of_route r id),
                             Z.of_nat (length (rb_domain (block_of_route r id))),
                             rb_filters (block_of_route r id), rb_action (block_of_route r id), []).
Proof.
  assert (0 <= Z.of_nat (length (r_domain r)) < 2 ^ 64) as Hd by (destruct Hr; lia).
  exists ([kw "if"; lparen; kw "zereh_match_suffix"; lparen; kw "qmeta"; TPunct 45; TPunct 62;
           kw "qname"; comma; kw "qmeta"; TPunct 45; TPunct 62; kw "qname_len"; comma;
           TStr (r_domain r); comma; TWord (fmt_u (Z.of_nat (length (r_domain r)))); rparen; rparen;
           lbrace] ++ filters_tokens r id ++ action_tokens r ++ [rbrace]). split.
  - apply lexes_lex. unfold fallback_text.
    apply (lexes_app _ _ [kw "if"; lparen; kw "zereh_match_suffix"; lparen; kw "qmeta"; TPunct 45;
      TPunct 62; kw "qname"; comma; kw "qmeta"; TPunct 45; TPunct 62; kw "qname_len"; comma]); [done|].
    rewrite (app_assoc (escape _)), (app_assoc quote).
    apply (lexes_app _ _ [TStr (r_domain r)]); [apply lexes_string|].
    apply (lexes_app _ _ [comma]); [done|].
    apply (lexes_num_then _ 41 (str ") {" ++ nl ++ _)); [done|auto|].
    apply (lexes_app _ _ [rparen; lbrace]); [done|].
    apply (lexes_app _ _ [] (filters_tokens r id ++ action_tokens r ++ [rbrace])); [done|].
    apply (lexes_app _ _ (filters_tokens r id)); [apply lexes_filters|].
    apply (lexes_app _ _ (action_tokens r)); [by apply lexes_action|done].
  - unfold read_fallback. cbn [app].
    repeat first [rewrite bind_expects_cons | rewrite bind_expects_nil | rewrite bind_str_arg
                 | rewrite bind_read_num by done].
    unfold mbind, reader_bind. rewrite read_filters_tokens. by rewrite read_action_tokens.
Qed.
End route_text.

(** ** The generated parts of the source *)

Lemma length_escape s : (length (escape s) <= 2 * length s)%nat.
Proof.
  induction s as [|c s IH]; [done|]. unfold escape in *. cbn [map concat length]. rewrite length_app.
  assert (length (escape_char c) <= 2)%nat by (unfold escape_char; repeat destruct_if; simpl; lia). lia.
Qed.

Lemma length_dec_loop_fuel fuel n acc : (length (dec_loop fuel n acc) <= fuel + length acc)%nat.
Proof.
  revert n acc. induction fuel as [|fuel IH]; intros n acc; cbn [dec_loop]; [lia|].
  destruct (n / 10 =? 0); [simpl; lia|]. specialize (IH (n / 10) (48 + n mod 10 :: acc)).
  cbn [length] in IH. lia.
Qed.

Lemma length_fmt_u n : (length (fmt_u n) <= 20)%nat.
Proof. apply (length_dec_loop_fuel 20 n []). Qed.

Lemma length_hex_loop fuel n acc : (length (hex_loop fuel n acc) <= fuel + length acc)%nat.
Proof.
  revert n acc. induction fuel as [|fuel IH]; intros n acc; cbn [hex_loop]; [lia|].
  destruct (n / 16 =? 0); [simpl; lia|]. specialize (IH (n / 16) (hex_digit (n mod 16) :: acc)).
  cbn [length] in IH. lia.
Qed.

Lemma length_fmt_x n : (length (fmt_x n) <= 8)%nat.
Proof. apply (length_hex_loop 8 n []). Qed.

Lemma length_fmt_hex k n : length (fmt_hex k n) = k.
Proof. revert n. induction k as [|k IH]; intros n; cbn [fmt_hex]; [done|]. rewrite length_app, IH. simpl. lia. Qed.

Lemma length_arg_line v : length (arg_line v) = (length v + 39)%nat.
Proof. unfold arg_line. rewrite !length_app. simpl. lia. Qed.

(** The text of a route stays far below what [vsnprintf] can count. *)
Lemma length_filters_text r id p s :
  (length (filters_text r id p s) <= length p + length s + 2000)%nat.
Proof.
  unfold filters_text. rewrite !length_app, !length_arg_line, !length_app.
  pose proof length_fmt_u as Hu. pose proof (length_fmt_x (r_rrtype_mask r)).
  repeat match goal with
  | |- context [length (fmt_u ?n)] =>
      let k := fresh "k" in pose proof (Hu n); set (k := length (fmt_u n)) in *; clearbody k
  end. simpl. lia.
Qed.

Lemma length_action_text indent r : (length (action_text indent r) <= 2 * length indent + 100)%nat.
Proof.
  unfold action_text. pose proof (length_fmt_u (r_xsk_queue r)).
  pose proof (length_fmt_u (r_kernel_port r)). pose proof (length_fmt_u (r_prog_index r)).
  destruct (r_target r); rewrite !length_app; simpl; lia.
Qed.

(** No byte of a printed text is NUL. *)
Definition no_nul (s : bytes) : Prop := Forall (fun c => c <> 0) s.

Record strings_ok (r : zereh_route) : Prop := {
  so_domain : no_nul (r_domain r);
  so_prefix : no_nul (r_prefix r);
  so_suffix : no_nul (r_suffix r)
}.

Section generate_lemmas.
Context (alloc : nat -> bool) (junk : Z).

Definition case_of (r : zereh_route) (id : Z) : bytes :=
  case_text r id (escape (r_prefix r)) (escape (r_suffix r)).
Definition fallback_of (r : zereh_route) (id : Z) : bytes :=
  fallback_text r id (escape (r_domain r)) (escape (r_prefix r)) (escape (r_suffix r)).

Lemma asprintf_spec text :
  (asprintf alloc text = Fail /\ oom alloc) \/ asprintf alloc text = Ret text.
Proof.
  unfold asprintf. destruct (alloc _) eqn:E; [by right|]. left. split; [done|]. by eexists.
Qed.

(** What an [append] does to the buffer. *)
Definition appends (append : zereh_sb -> zereh_route -> Z -> res zereh_sb)
    (text : zereh_route -> Z -> bytes) (r : zereh_route) (id : Z) : Prop :=
  forall sb s, sb_holds sb s ->
    (append sb r id = Fail /\ oom alloc) \/
    exists sb', append sb r id = Ret sb' /\ sb_holds sb' (s ++ text r id).

Lemma append_route_case_spec r id :
  printable r id -> strings_ok r -> appends (zereh_append_route_case alloc junk) case_of r id.
Proof.
  intros Hp [_ Hpre Hsuf] sb s Hh. unfold zereh_append_route_case.
  destruct (escape_c_string_spec alloc junk _ Hpre) as [[-> ?]| ->]; [by left|].
  destruct (escape_c_string_spec alloc junk _ Hsuf) as [[-> ?]| ->]; [by left|].
  cbn [mbind res_bind]. destruct (asprintf_spec (action_text (str "        ") r)) as [[-> ?]| ->]; [by left|].
  cbn [mbind res_bind]. apply sb_appendf_spec; [done|]. destruct Hp. unfold case_of, case_text.
  rewrite !length_app, length_fmt_hex.
  pose proof (length_filters_text r id (escape (r_prefix r)) (escape (r_suffix r))).
  pose proof (length_action_text (str "        ") r). pose proof (length_escape (r_prefix r)).
  pose proof (length_escape (r_suffix r)). simpl length in *. lia.
Qed.

Lemma append_fallback_rule_spec r id :
  printable r id -> strings_ok r -> appends (zereh_append_fallback_rule alloc junk) fallback_of r id.
Proof.
  intros Hp [Hdom Hpre Hsuf] sb s Hh. unfold zereh_append_fallback_rule.
  destruct (escape_c_string_spec alloc junk _ Hdom) as [[-> ?]| ->]; [by left|].
  destruct (escape_c_string_spec alloc junk _ Hpre) as [[-> ?]| ->]; [by left|].
  destruct (escape_c_string_spec alloc junk _ Hsuf) as [[-> ?]| ->]; [by left|].
  cbn [mbind res_bind]. destruct (asprintf_spec (action_text (str "            ") r)) as [[-> ?]| ->]; [by left|].
  cbn [mbind res_bind]. apply sb_appendf_spec; [done|]. destruct Hp. unfold fallback_of, fallback_text.
  rewrite !length_app. pose proof (length_fmt_u (Z.of_nat (length (r_domain r)))).
  pose proof (length_filters_text r id (escape (r_prefix r)) (escape (r_suffix r))).
  pose proof (length_action_text (str "            ") r). pose proof (length_escape (r_prefix r)).
  pose proof (length_escape (r_suffix r)). pose proof (length_escape (r_domain r)).
  simpl length in *. lia.
Qed.

(** The routes with their numbers. *)
Fixpoint numbered (i : Z) (rs : list zereh_route) : list (zereh_route * Z) :=
  match rs with
  | [] => []
  | r :: rs' => (r, i) :: numbered (i + 1) rs'
  end.

Lemma append_routes_spec append text i rs sb s :
  (forall r id, (r, id) ∈ numbered i rs -> appends append text r id) -> sb_holds sb s ->
  (append_routes append sb i rs = Fail /\ oom alloc) \/
  exists sb', append_routes append sb i rs = Ret sb' /\
    sb_holds sb' (s ++ concat (map (fun p => text p.1 p.2) (numbered i rs))).
Proof.
  revert i sb s. induction rs as [|r rs IH]; intros i sb s Ha Hh; cbn [append_routes numbered].
  { right. exists sb. split; [done|]. by rewrite app_nil_r. }
  destruct (Ha r i ltac:(by left) sb s Hh) as [[-> ?]|(sb1 & -> & H1)]; [by left|].
  cbn [mbind res_bind].
  destruct (IH (i + 1) sb1 _ ltac:(intros r' id' H; apply Ha; by right) H1)
    as [[-> ?]|(sb2 & -> & H2)]; [by left|right].
  exists sb2. split; [done|]. cbn [map concat]. by rewrite app_assoc.
Qed.
End generate_lemmas.

(** [nonul]: the pieces of a generated text. *)
Lemma no_nul_dec s : bool_decide (Forall (fun c => c <> 0) s) = true -> no_nul s.
Proof. apply bool_decide_eq_true_1. Qed.

Lemma hex_no_nul w : hex_digits w -> no_nul w.
Proof.
  intros Hw. eapply Forall_impl; [exact Hw|]. simpl. intros c [d Hd] ->. done.
Qed.

Ltac nonul :=
  unfold no_nul; repeat first
    [ assumption
    | apply fmt_u_no_nul; fits
    | by apply no_nul_dec
    | apply escape_no_nul; done
    | apply Forall_app; split ].

Section no_nul_lemmas.
Context (r : zereh_route) (id : Z) (Hp : printable r id) (Hs : strings_ok r).

Lemma filters_no_nul : no_nul (filters_text r id (escape (r_prefix r)) (escape (r_suffix r))).
Proof.
  destruct Hp, Hs. unfold filters_text, arg_line. nonul.
  by apply hex_no_nul, fmt_x_spec.
Qed.

Lemma action_no_nul indent : no_nul indent -> no_nul (action_text indent r).
Proof. intros Hi. destruct Hp. unfold action_text. destruct (r_target r); nonul. Qed.

Lemma case_no_nul : no_nul (case_of r id).
Proof.
  unfold case_of, case_text. destruct Hp.
  assert (no_nul (fmt_hex 16 (r_hash r)))
    by (apply hex_no_nul, fmt_hex_spec; unfold word in *; simpl; lia).
  pose proof filters_no_nul. pose proof (action_no_nul (str "        ") ltac:(by apply no_nul_dec)).
  nonul.
Qed.

Lemma fallback_no_nul : no_nul (fallback_of r id).
Proof.
  unfold fallback_of, fallback_text. destruct Hp, Hs.
  pose proof filters_no_nul. pose proof (action_no_nul (str "            ") ltac:(by apply no_nul_dec)).
  nonul.
Qed.
End no_nul_lemmas.

(** ** The constants of the template *)

Definition c_constant (w : bytes) : option Z :=
  if bool_decide (w = str "XDP_DROP") then Some XDP_DROP
  else if bool_decide (w = str "XDP_PASS") then Some XDP_PASS
  else c_number w.

(** The constant that is substituted for a token. *)
Definition value_of (subs : list (bytes * bytes)) (token : bytes) : option Z :=
  '(_, w) ← List.find (fun p => bool_decide (p.1 = token)) subs; c_constant w.

(** The parameters of the router, read from the substitutions. *)
Definition read_params (subs : list (bytes * bytes)) : option template_params :=
  max_packet_size ← value_of subs (str "__ZEREH_MAX_PACKET_SIZE__");
  allowed_opcode_mask ← value_of subs (str "__ZEREH_ALLOWED_OPCODE_MASK__");
  drop_truncated ← value_of subs (str "__ZEREH_DROP_TRUNCATED__");
  default_action ← value_of subs (str "__ZEREH_DEFAULT_ACTION__");
  hash_algo ← value_of subs (str "__ZEREH_HASH_ALGO__");
  rate_state_entries ← value_of subs (str "__ZEREH_RATE_STATE_ENTRIES__");
  Some (TemplateParams max_packet_size allowed_opcode_mask drop_truncated default_action
          (if hash_algo =? 1 then ZEREH_HASH_SIPHASH else ZEREH_HASH_FNV1A) rate_state_entries).

Lemma value_of_here subs token w : value_of ((token, w) :: subs) token = c_constant w.
Proof. unfold value_of. cbn [List.find fst]. by rewrite bool_decide_eq_true_2. Qed.

Lemma value_of_next subs token token' w :
  bool_decide (token' = token) = false -> value_of ((token', w) :: subs) token = value_of subs token.
Proof. intros H. unfold value_of. cbn [List.find fst]. by rewrite H. Qed.

Lemma c_constant_fmt_u k n :
  0 <= n < 10 ^ Z.of_nat k -> n < 2 ^ 64 -> (0 < k)%nat -> c_constant (snprintf_s (S k) (fmt_u n)) = Some n.
Proof.
  intros Hn Hn64 Hk. rewrite snprintf_s_id.
  2: { unfold fmt_u. pose proof (length_dec_loop k 20 n [] Hn Hk). cbn [length] in *. lia. }
  pose proof (c_number_fmt_u n ltac:(lia)) as Hc. unfold c_constant.
  assert (forall s, c_number s = None -> bool_decide (fmt_u n = s) = false) as Hne.
  { intros s Hs. apply bool_decide_eq_false. intros E. congruence. }
  by rewrite !Hne.
Qed.

(** ** Properties *)

Definition sample_route : zereh_route :=
  ZerehRoute (str "t.example.com") (zereh_hash_domain (str "t.example.com") ZEREH_HASH_FNV1A)
    ZEREH_TARGET_KERNEL_SPACE 0 5302 0 [] (quote ++ str "\x") [] 1 127 1 255 7 1 4 60 1 1024 3 0
    [str "t.example.com"] 100.

Lemma sample_printable : printable sample_route 0.
Proof. constructor; by_compute || (vm_compute; split; [discriminate|reflexivity]). Qed.


