(* ===== verification/System.v ===== *)
(** * The two planes together

    From a configuration that the parser accepts to the packets: the generated
    source reads as the blocks of the configuration, and the router that runs
    those blocks on the maps the loader has seeded does what the configuration
    says. *)
From S2P Require Import Prelude CLib Hash DnsParser XdpHash BpfMaps XdpFilters XdpRouter.
From S2P Require Import Config Yaml Loader Codegen CodegenSem.
#[local] Open Scope Z_scope.

(** ** Routes of an accepted configuration *)

(** The strings of a configuration are made of bytes. *)
Definition config_bytes (cfg : zereh_config) : Prop :=
  Forall (fun r => Forall is_byte (r_domain r)) (c_routes cfg).

Lemma route_wf_printable cfg r id :
  route_wf cfg r -> Forall is_byte (r_domain r) -> word 32 id -> printable r id /\ strings_ok r.
Proof.
  intros [[] ? ? ? ?] Hb Hid. unfold held, ZEREH_MAX_DOMAIN_LEN, ZEREH_MAX_PATTERN_LEN in *.
  destruct_and?. split; constructor; try done; try lia.
  - rewrite raw_hash. by apply hash_domain_word.
  - unfold word in *. lia.
  - unfold word. lia.
Qed.

Lemma route_wf_block cfg r id : route_wf cfg r -> block_wf (block_of_route r id).
Proof.
  intros [[] ? ? ? ?]. constructor; [by constructor|]. simpl. unfold action_of_route.
  by destruct (r_target r).
Qed.

(** The blocks, by the numbers of their routes. *)
Lemma blocks_numbered_from rs i :
  imap (fun j route => block_of_route route (Z.of_nat (i + j))) rs =
    map (fun p => block_of_route p.1 p.2) (numbered (Z.of_nat i) rs).
Proof.
  revert i. induction rs as [|r rs IH]; intros i; [done|]. cbn [imap numbered map].
  rewrite Nat.add_0_r. f_equal.
  replace (Z.of_nat i + 1) with (Z.of_nat (S i)) by lia. rewrite <- IH.
  apply imap_ext. intros j r' _. simpl. f_equal. lia.
Qed.

Lemma blocks_of_config_eq cfg :
  blocks_of_config cfg = map (fun p => block_of_route p.1 p.2) (numbered 0 (c_routes cfg)).
Proof. apply (blocks_numbered_from (c_routes cfg) 0). Qed.

Lemma numbered_in i rs r id :
  (r, id) ∈ numbered i rs -> r ∈ rs /\ i <= id < i + Z.of_nat (length rs).
Proof.
  revert i. induction rs as [|r' rs IH]; intros i; cbn [numbered].
  { intros H. by apply not_elem_of_nil in H. }
  intros [[= -> ->]|H]%elem_of_cons; [split; [by left|simpl; lia]|].
  apply IH in H as [H1 H2]. split; [by right|simpl; lia].
Qed.

Lemma config_route_printable cfg r id :
  config_wf cfg -> config_bytes cfg -> (r, id) ∈ numbered 0 (c_routes cfg) ->
  printable r id /\ strings_ok r.
Proof.
  intros [_ Hc Hw] Hb [Hin Hid]%numbered_in. unfold config_bytes in Hb.
  rewrite Forall_forall in Hw, Hb. eapply route_wf_printable; [by apply Hw|by apply Hb|].
  unfold word, ZEREH_MAX_ROUTES in *. lia.
Qed.

Lemma config_blocks_wf cfg : config_wf cfg -> Forall block_wf (blocks_of_config cfg).
Proof.
  intros [_ _ Hw]. rewrite blocks_of_config_eq. apply Forall_map, Forall_forall.
  intros [r id] [Hin _]%numbered_in. rewrite Forall_forall in Hw. eapply route_wf_block, Hw, Hin.
Qed.

(** ** The generated source *)

Section generated.
Context (alloc : nat -> bool) (junk : Z) (cfg : zereh_config).
Context (Hw : config_wf cfg) (Hb : config_bytes cfg).

Definition cases_header : bytes :=
  str "    /* Generated from YAML: " ++ fmt_u (Z.of_nat (length (c_routes cfg))) ++
  str " routes, " ++ fmt_u (Z.of_nat (length (c_blacklist cfg))) ++
  str " blacklist CIDRs */" ++ nl.

Lemma cases_header_ok : no_nul cases_header /\ Z.of_nat (length cases_header) < 2 ^ 31.
Proof.
  unfold cases_header. destruct Hw as [Hbase Hc _]. pose proof (cb_blacklist _ Hbase) as Hbl.
  unfold ZEREH_MAX_ROUTES, ZEREH_MAX_BLACKLIST in *. split.
  - unfold no_nul. repeat first [apply fmt_u_no_nul; lia|by apply no_nul_dec|apply Forall_app; split].
  - rewrite !length_app. pose proof (length_fmt_u (Z.of_nat (length (c_routes cfg)))).
    pose proof (length_fmt_u (Z.of_nat (length (c_blacklist cfg)))). simpl length. lia.
Qed.

Lemma texts_no_nul (text : zereh_route -> Z -> bytes) :
  (forall r id, (r, id) ∈ numbered 0 (c_routes cfg) -> no_nul (text r id)) ->
  no_nul (concat (map (fun p => text p.1 p.2) (numbered 0 (c_routes cfg)))).
Proof.
  intros Ht. unfold no_nul. apply Forall_concat, Forall_map, Forall_forall.
  intros [r id] Hin. by apply Ht.
Qed.

Lemma cases_no_nul :
  no_nul (cases_header ++ concat (map (fun p => case_of p.1 p.2) (numbered 0 (c_routes cfg)))).
Proof.
  apply Forall_app. split; [apply cases_header_ok|].
  apply texts_no_nul. intros r id [? ?]%config_route_printable; [by apply case_no_nul|done..].
Qed.

Lemma rules_no_nul :
  no_nul (concat (map (fun p => fallback_of p.1 p.2) (numbered 0 (c_routes cfg)))).
Proof.
  apply texts_no_nul. intros r id [? ?]%config_route_printable; [by apply fallback_no_nul|done..].
Qed.

Lemma generate_route_cases_spec :
  (zereh_generate_route_cases alloc junk cfg = Fail /\ oom alloc) \/
  zereh_generate_route_cases alloc junk cfg =
    Ret (cases_header ++ concat (map (fun p => case_of p.1 p.2) (numbered 0 (c_routes cfg)))).
Proof.
  unfold zereh_generate_route_cases. fold cases_header. destruct cases_header_ok as [Hn Hl].
  destruct (sb_init_spec alloc 2048) as [[-> ?]|(sb & -> & H0)]; [lia|by left|]. cbn [mbind res_bind].
  destruct (sb_appendf_spec alloc junk sb [] cases_header H0 Hl) as [[-> ?]|(sb1 & -> & H1)]; [by left|].
  cbn [mbind res_bind].
  destruct (append_routes_spec alloc (zereh_append_route_case alloc junk) case_of 0 (c_routes cfg)
    sb1 _ ltac:(intros r id [? ?]%config_route_printable; [by apply append_route_case_spec|done..]) H1)
    as [[-> ?]|(sb2 & -> & H2)]; [by left|right].
  cbn [mbind res_bind]. f_equal. apply sb_holds_cstr; [done|apply cases_no_nul].
Qed.

Lemma generate_fallback_rules_spec :
  (zereh_generate_fallback_rules alloc junk cfg = Fail /\ oom alloc) \/
  zereh_generate_fallback_rules alloc junk cfg =
    Ret (concat (map (fun p => fallback_of p.1 p.2) (numbered 0 (c_routes cfg)))).
Proof.
  unfold zereh_generate_fallback_rules.
  destruct (sb_init_spec alloc 1024) as [[-> ?]|(sb & -> & H0)]; [lia|by left|]. cbn [mbind res_bind].
  destruct (append_routes_spec alloc (zereh_append_fallback_rule alloc junk) fallback_of 0 (c_routes cfg)
    sb _ ltac:(intros r id [? ?]%config_route_printable; [by apply append_fallback_rule_spec|done..]) H0)
    as [[-> ?]|(sb2 & -> & H2)]; [by left|right].
  cbn [mbind res_bind]. f_equal. apply sb_holds_cstr; [done|apply rules_no_nul].
Qed.
End generated.

Lemma snprintf_fmt_no_nul k n : 0 <= n < 2 ^ 64 -> no_nul (snprintf_s k (fmt_u n)).
Proof. intros Hn. apply Forall_take. by apply fmt_u_no_nul. Qed.

Lemma substitutions_ok cfg cases rules :
  config_wf cfg -> no_nul cases -> no_nul rules ->
  Forall (fun p => p.1 <> [] /\ Forall (fun c => c <> 0) p.2) (substitutions cfg cases rules).
Proof.
  intros [[] Hc _] Hcases Hrules. unfold substitutions, ZEREH_MAX_ROUTES, word in *. destruct_and?.
  repeat (apply Forall_cons; split; [split; [done|]; cbn [snd]|]); try done.
  all: try (apply snprintf_fmt_no_nul; repeat case_match; lia).
  by destruct (c_default_action cfg); apply no_nul_dec.
Qed.

Lemma read_params_config cfg cases rules :
  config_wf cfg -> read_params (substitutions cfg cases rules) = Some (params_of_config cfg).
Proof.
  intros [[] Hc _]. unfold read_params, substitutions, ZEREH_MAX_ROUTES, word in *. destruct_and?.
  repeat match goal with
  | |- context [value_of ((?t, ?w) :: ?l) ?t] => rewrite (value_of_here l t w)
  | |- context [value_of ((?t', ?w) :: ?l) ?t] =>
      rewrite (value_of_next l t t' w) by (vm_compute; reflexivity)
  end.
  rewrite (c_constant_fmt_u 31), (c_constant_fmt_u 31) by lia. cbn [mbind option_bind].
  rewrite (c_constant_fmt_u 7) by (try case_match; lia). cbn [mbind option_bind].
  rewrite (c_constant_fmt_u 7) by (try case_match; lia).
  rewrite (c_constant_fmt_u 15) by (try case_match; lia). unfold params_of_config.
  by destruct (c_default_action cfg), (c_hash_algo cfg).
Qed.

(** A text that reads as the [case] of a block, and as its fallback rule. *)
Definition reads_as_case (text : bytes) (b : route_block) : Prop :=
  exists ts, lex text = Some ts /\ read_case ts = Some (rb_hash b, rb_filters b, rb_action b, []).
Definition reads_as_fallback (text : bytes) (b : route_block) : Prop :=
  exists ts, lex text = Some ts /\
    read_fallback ts = Some (rb_domain b, Z.of_nat (length (rb_domain b)), rb_filters b, rb_action b, []).

(** ** Selecting the block of a route *)

Lemma find_unique {A} (key : A -> Z) l i x :
  NoDup (map key l) -> l !! i = Some x -> List.find (fun y => key y =? key x) l = Some x.
Proof.
  revert i. induction l as [|y l IH]; intros i Hn Hi; [done|]. cbn [map List.find] in *.
  apply NoDup_cons in Hn as [Hy Hn]. destruct i as [|i]; simpl in Hi.
  - injection Hi as ->. by rewrite Z.eqb_refl.
  - destruct (Z.eqb_spec (key y) (key x)) as [E|_]; [|by eapply IH]. destruct Hy. rewrite E.
    apply list_elem_of_fmap_2, (list_elem_of_lookup_2 _ _ _ Hi).
Qed.

Lemma config_route_hash cfg i r q :
  config_wf cfg -> c_routes cfg !! i = Some r -> query_ok q -> names (r_domain r) (q_labels q) ->
  r_hash r = text_hash (c_hash_algo cfg) (dotted (q_labels q)).
Proof.
  intros [_ _ Hw] Hi Hq Hd. rewrite Forall_forall in Hw.
  pose proof (Hw r (list_elem_of_lookup_2 _ _ _ Hi)) as [[] _ _ _ _]. rewrite raw_hash.
  apply hash_domain_text; [done|apply Hq|apply dotted_nonempty; apply Hq].
Qed.

Lemma config_selects cfg i r q :
  config_wf cfg -> NoDup (map r_hash (c_routes cfg)) -> c_routes cfg !! i = Some r ->
  query_ok q -> names (r_domain r) (q_labels q) ->
  selected (blocks_of_config cfg) (text_hash (c_hash_algo cfg) (dotted (q_labels q))) q
    = Some (block_of_route r (Z.of_nat i)).
Proof.
  intros Hw Hn Hi Hq Hd. rewrite <- (config_route_hash cfg i r q Hw Hi Hq Hd).
  unfold selected. change (r_hash r) with (rb_hash (block_of_route r (Z.of_nat i))).
  rewrite (find_unique rb_hash (blocks_of_config cfg) i (block_of_route r (Z.of_nat i))); [done| |].
  - unfold blocks_of_config. change (map rb_hash) with (fmap (M := list) rb_hash).
    rewrite fmap_imap, (imap_ext _ (const r_hash)) by done. by rewrite imap_const.
  - unfold blocks_of_config. by rewrite list_lookup_imap, Hi.
Qed.

(** ** The Bloom filter across the planes *)

Lemma route_bloom_params cfg r :
  route_wf cfg r -> r_bloom_enabled r <> 0 ->
  zereh_route_bloom_bits r = r_bloom_size r /\
  zereh_route_bloom_hash_functions r = r_bloom_hash_functions r /\
  64 <= r_bloom_size r <= ZEREH_BLOOM_BITS /\ 1 <= r_bloom_hash_functions r <= 8.
Proof.
  intros [_ _ _ _ Hb] He. destruct Hb as [(? & _)|(_ & Hs & Hh & _)]; [done|].
  unfold zereh_route_bloom_bits, zereh_route_bloom_hash_functions, ZEREH_BLOOM_BITS, ZEREH_BLOOM_WORDS,
    ZEREH_MAX_HASH_FUNCTIONS. replace (r_bloom_enabled r =? 0) with false by lia.
  split_and!; bool_lia.
Qed.

Lemma seeded_member {PB} `{!BpfMap PB Z Z, !BpfArrayLaws PB Z ZEREH_BLOOM_WORDS}
    (m m' : PB) time cfg j r seed :
  zereh_seed_bloom_map map_update time m cfg = Ret (true, m') -> route_wf cfg r ->
  c_routes cfg !! j = Some r -> r_bloom_enabled r <> 0 -> seed ∈ r_bloom_seeds r ->
  zereh_hash_domain seed (c_hash_algo cfg) <> 0 ->
  bloom_member m' (zereh_hash_domain seed (c_hash_algo cfg)) (r_bloom_size r) (r_bloom_hash_functions r)
    (route_bucket r (time j)).
Proof.
  intros Hs Hwf Hj He Hseed Hh i Hi. destruct (route_bloom_params cfg r Hwf He) as (Eb & Ef & Hbits & _).
  pose proof (bloom_pos_range (zereh_hash_domain seed (c_hash_algo cfg)) i (r_bloom_size r)
    (route_bucket r (time j)) ltac:(lia)) as Hr.
  apply (seed_bloom_spec m time cfg true m' Hs eq_refl); [lia|].
  exists j, r, seed. split_and!; [done..|]. split; [done|]. left. exists i. rewrite Eb, Ef.
  split; [lia|done].
Qed.

(** The texts of the routes, in order. *)
Definition cases_of (cfg : zereh_config) : list bytes :=
  map (fun p => case_of p.1 p.2) (numbered 0 (c_routes cfg)).
Definition rules_of (cfg : zereh_config) : list bytes :=
  map (fun p => fallback_of p.1 p.2) (numbered 0 (c_routes cfg)).

Lemma route_texts_read cfg :
  config_wf cfg -> config_bytes cfg ->
  Forall2 reads_as_case (cases_of cfg) (blocks_of_config cfg) /\
  Forall2 reads_as_fallback (rules_of cfg) (blocks_of_config cfg).
Proof.
  intros Hw Hb. rewrite blocks_of_config_eq. split; apply Forall2_fmap, Forall_Forall2_diag, Forall_forall;
    intros [r id] [Hp _]%config_route_printable; try done.
  - exact (read_case_text r id Hp).
  - exact (read_fallback_text r id Hp).
Qed.

(** What the generator substitutes for [cfg]. *)
Definition config_substitutions (cfg : zereh_config) : list (bytes * bytes) :=
  substitutions cfg (cases_header cfg ++ concat (cases_of cfg)) (concat (rules_of cfg)).

Lemma generate_text_spec alloc junk cfg template_text :
  config_wf cfg -> config_bytes cfg -> no_nul template_text ->
  (generate_text alloc junk cfg template_text = Fail /\ oom alloc) \/
  exists out, generate_text alloc junk cfg template_text = Ret out /\
    replaced_each (config_substitutions cfg) template_text out.
Proof.
  intros Hw Hb Ht. unfold generate_text.
  destruct (generate_route_cases_spec alloc junk cfg Hw Hb) as [[-> ?]| ->]; [by left|].
  destruct (generate_fallback_rules_spec alloc junk cfg Hw Hb) as [[-> ?]| ->]; [by left|].
  cbn [mbind res_bind]. apply replace_each_spec; [|done].
  apply (substitutions_ok cfg _ _ Hw (cases_no_nul cfg Hw Hb) (rules_no_nul cfg Hw Hb)).
Qed.

Lemma sample_config_bytes : config_bytes sample_config.
Proof. unfold config_bytes. by_compute. Qed.

(** ** Packets under a configuration *)

Section end_to_end.
Context {BL PB RS : Type}.
Context `{!BpfMap BL lpm_v4_key Z, !BpfMap PB Z Z, !BpfMap RS Z rate_state}.
Context (ktime : nat -> Z) (bpf_redirect_map : Z -> Z) (bpf_tail_call : Z -> bool).
Local Abbreviation state := (dp_state BL PB RS).

(** The program generated from a configuration. *)
Definition configured_router (cfg : zereh_config) : state -> bytes -> res (outcome * bytes * state) :=
  xdp_router ktime bpf_redirect_map bpf_tail_call (params_of_config cfg) (blocks_of_config cfg).

(** The Bloom filter of the route [r] accepts the query in the data plane. *)
Definition passes_bloom (cfg : zereh_config) (r : zereh_route) (st : state) (q : dns_query) : Prop :=
  exists h st', zereh_route_hash (c_hash_algo cfg) (meta_of q) = Ret h /\
    zereh_bloom_allow ktime st h (r_bloom_size r) (r_bloom_hash_functions r)
      (r_bloom_time_window r) = Ret (true, st').

Lemma route_gets_queries (cfg : zereh_config) (i : nat) (r : zereh_route)
    (st : state) (pkt : bytes) (udp : nat) (q : dns_query) :
  config_wf cfg -> NoDup (map r_hash (c_routes cfg)) -> c_routes cfg !! i = Some r ->
  Forall is_byte pkt -> Z.of_nat (length pkt) < 2 ^ 32 -> dns_request pkt udp q ->
  admitted (params_of_config cfg) st pkt q -> names (r_domain r) (q_labels q) ->
  configured_router cfg st pkt =
    run_block ktime bpf_redirect_map bpf_tail_call (params_of_config cfg) st pkt 14 udp (meta_of q)
      (r_hash r) (block_of_route r (Z.of_nat i)).
Proof.
  intros Hw Hn Hi Hb Hl Hreq Had Hd. unfold configured_router.
  rewrite (xdp_router_selected ktime bpf_redirect_map bpf_tail_call (params_of_config cfg)
    (blocks_of_config cfg) st pkt udp q) by assumption.
  destruct Hreq as (_ & _ & Hq & _). cbn [params_of_config tp_hash_algo].
  rewrite (config_selects cfg i r q Hw Hn Hi Hq Hd).
  by rewrite <- (config_route_hash cfg i r q Hw Hi Hq Hd).
Qed.

Lemma denied_dropped `{!LpmTrieLaws BL Z} (cfg : zereh_config) (m : BL)
    (st : state) (pkt : bytes) (udp : nat) (q : dns_query) :
  (forall a, bpf_map_lookup_elem m (LpmV4Key 32 a) = None) ->
  zereh_seed_blacklist_map map_update m (c_blacklist cfg) = (true, ip_blacklist st) ->
  Forall is_byte pkt -> Z.of_nat (length pkt) < 2 ^ 32 -> dns_request pkt udp q ->
  (denied (c_blacklist cfg) (saddr_of pkt) ->
     configured_router cfg st pkt = Ret (Exit XDP_DROP, pkt, st)) /\
  (~ denied (c_blacklist cfg) (saddr_of pkt) ->
     bpf_map_lookup_elem (ip_blacklist st) (LpmV4Key 32 (saddr_of pkt)) = None).
Proof.
  intros Hm Hs Hb Hl Hreq.
  pose proof (seed_blacklist_spec m (ip_blacklist st) (c_blacklist cfg) (saddr_of pkt) Hs) as Hiff.
  rewrite Hm in Hiff. split.
  - intros Hd. unfold configured_router. apply (xdp_router_request ktime bpf_redirect_map bpf_tail_call (params_of_config cfg)
      (blocks_of_config cfg) st pkt udp q); [done..|]. intros [_ Hsrc _ _].
    rewrite Hsrc in Hiff. destruct Hiff as [_ [? ?]]; [by left|done].
  - intros Hd. destruct (bpf_map_lookup_elem (ip_blacklist st) _) eqn:E; [|done].
    destruct Hiff as [Hin _]. destruct Hin as [?|[? ?]]; [by eexists|done..].
Qed.

(** The loader has set [b] for a seed of some route; a seed with hash 0 sets
    nothing ([seed_sets]). *)
Definition seeded_bit (cfg : zereh_config) (time : nat -> Z) (b : Z) : Prop :=
  exists j route seed, c_routes cfg !! j = Some route /\ r_bloom_enabled route <> 0 /\
    seed ∈ r_bloom_seeds route /\ seed_sets (c_hash_algo cfg) route (time j) seed b.

Section seeded_bloom.
Context `{!BpfArrayLaws PB Z ZEREH_BLOOM_WORDS} (cfg : zereh_config) (m : PB) (time : nat -> Z).
Context (j : nat) (r : zereh_route) (st : state) (q : dns_query).
Context (Hw : config_wf cfg) (Hs : zereh_seed_bloom_map map_update time m cfg = Ret (true, pow_bloom st)).
Context (Hj : c_routes cfg !! j = Some r) (He : r_bloom_enabled r <> 0) (Htw : r_bloom_time_window r = 0).
Context (Hq : query_ok q) (Hlb : Forall (Forall is_byte) (q_labels q)).
Local Abbreviation h := (text_hash (c_hash_algo cfg) (dotted (q_labels q))).

Lemma seeded_route_wf : route_wf cfg r.
Proof. destruct Hw as [_ _ Hr]. rewrite Forall_forall in Hr. apply Hr. by eapply list_elem_of_lookup_2. Qed.

Lemma passes_member : passes_bloom cfg r st q <->
  bloom_member (pow_bloom st) h (r_bloom_size r) (r_bloom_hash_functions r) 0.
Proof.
  destruct (route_bloom_params cfg r seeded_route_wf He) as (_ & _ & Hbits & Hhf).
  unfold passes_bloom. rewrite Htw.
  destruct (bloom_allow_spec ktime st h (r_bloom_size r) (r_bloom_hash_functions r) 0 ltac:(lia) Hbits)
    as (b & st' & E & Hb).
  split.
  - intros (h' & st2 & Eh & Ea). rewrite route_hash_text in Eh by done. injection Eh as <-. rewrite E in Ea.
    injection Ea as Eb _. apply Hb in Eb. destruct Eb as [[_ ?]|[? _]]; done.
  - intros Hm. exists h, st'. split; [by apply route_hash_text|]. rewrite E. do 2 f_equal. apply Hb. by left.
Qed.

Lemma passes_bloom_iff : passes_bloom cfg r st q <->
  forall k, 0 <= k < r_bloom_hash_functions r -> seeded_bit cfg time (bloom_pos h k (r_bloom_size r) 0).
Proof.
  destruct (route_bloom_params cfg r seeded_route_wf He) as (_ & _ & Hbits & Hhf).
  rewrite passes_member. unfold bloom_member. rewrite Z.min_l by lia.
  assert (forall k, bit_set (pow_bloom st) (bloom_pos h k (r_bloom_size r) 0) <->
    seeded_bit cfg time (bloom_pos h k (r_bloom_size r) 0)) as Hbit; [|by setoid_rewrite Hbit].
  intros k. pose proof (bloom_pos_range h k (r_bloom_size r) 0 ltac:(lia)).
  apply (seed_bloom_spec m time cfg true _ Hs eq_refl). lia.
Qed.

Lemma seeds_pass seed :
  seed ∈ r_bloom_seeds r -> zereh_hash_domain seed (c_hash_algo cfg) <> 0 -> names seed (q_labels q) ->
  passes_bloom cfg r st q.
Proof.
  intros Hseed Hh Hn. apply passes_member.
  pose proof (seeded_member m (pow_bloom st) time cfg j r seed Hs seeded_route_wf Hj He Hseed Hh) as Hmem.
  unfold route_bucket in Hmem. rewrite Htw in Hmem. cbn [Z.ltb] in Hmem.
  pose proof (route_hash_domain q (c_hash_algo cfg) seed Hq Hlb Hn) as E.
  rewrite route_hash_text in E by done. injection E as E. by rewrite E.
Qed.
End seeded_bloom.

(** ** Properties *)

(** C4: with an accepted configuration whose routes have different
    hashes, an admitted query for the domain of a route (in any case, the
    domain written with or without a final dot) is handled by that route: its
    filters and its action. *)
Theorem configured_route_gets_its_queries (cfg : zereh_config) (i : nat) (r : zereh_route)
    (st : state) (pkt : bytes) (udp : nat) (q : dns_query) :
  config_wf cfg -> NoDup (map r_hash (c_routes cfg)) -> c_routes cfg !! i = Some r ->
  Forall is_byte pkt -> Z.of_nat (length pkt) < 2 ^ 32 -> dns_request pkt udp q ->
  admitted (params_of_config cfg) st pkt q -> names (r_domain r) (q_labels q) ->
  configured_router cfg st pkt =
    run_block ktime bpf_redirect_map bpf_tail_call (params_of_config cfg) st pkt 14 udp (meta_of q)
      (r_hash r) (block_of_route r (Z.of_nat i)).
Proof. apply route_gets_queries. Qed.

(** C5: once the loader has seeded an empty blacklist map from a configuration,
    every query from an address covered by a CIDR of the configuration is
    dropped, packet and maps unchanged, and the lookup the pre-route filter makes
    finds no other address. *)
Theorem blacklisted_sources_are_dropped `{!LpmTrieLaws BL Z} (cfg : zereh_config) (m : BL)
    (st : state) (pkt : bytes) (udp : nat) (q : dns_query) :
  (forall a, bpf_map_lookup_elem m (LpmV4Key 32 a) = None) ->
  zereh_seed_blacklist_map map_update m (c_blacklist cfg) = (true, ip_blacklist st) ->
  Forall is_byte pkt -> Z.of_nat (length pkt) < 2 ^ 32 -> dns_request pkt udp q ->
  (denied (c_blacklist cfg) (saddr_of pkt) ->
     configured_router cfg st pkt = Ret (Exit XDP_DROP, pkt, st)) /\
  (~ denied (c_blacklist cfg) (saddr_of pkt) ->
     bpf_map_lookup_elem (ip_blacklist st) (LpmV4Key 32 (saddr_of pkt)) = None).
Proof. apply denied_dropped. Qed.

(** C10: once the loader has seeded the Bloom filter, the filter of a route
    without time windows lets a query pass in the data plane exactly when every
    position of the hash of its name was set by the loader for a seed whose hash is
    not 0.  A query whose name is a seed of the route passes if the hash of the seed
    is not 0; the loader skips a seed whose hash is 0, and such a name passes only
    by the positions of other seeds. *)
Theorem seeded_names_pass_bloom `{!BpfArrayLaws PB Z ZEREH_BLOOM_WORDS} (cfg : zereh_config)
    (m : PB) (time : nat -> Z) (j : nat) (r : zereh_route) (st : state) (q : dns_query) :
  config_wf cfg -> zereh_seed_bloom_map map_update time m cfg = Ret (true, pow_bloom st) ->
  c_routes cfg !! j = Some r -> r_bloom_enabled r <> 0 -> r_bloom_time_window r = 0 ->
  query_ok q -> Forall (Forall is_byte) (q_labels q) ->
  (passes_bloom cfg r st q <->
     forall k, 0 <= k < r_bloom_hash_functions r ->
       seeded_bit cfg time
         (bloom_pos (text_hash (c_hash_algo cfg) (dotted (q_labels q))) k (r_bloom_size r) 0)) /\
  (forall seed, seed ∈ r_bloom_seeds r -> zereh_hash_domain seed (c_hash_algo cfg) <> 0 ->
     names seed (q_labels q) -> passes_bloom cfg r st q).
Proof. intros. split; [by eapply passes_bloom_iff|]. intros. by eapply seeds_pass. Qed.
End end_to_end.

(** ** Witnesses *)

Definition sample_route0 : zereh_route := default sample_route (head (c_routes sample_config)).

Definition seeded_state : dp_state (lpm_list Z) (farray 1024 Z) (farray 1 rate_state) :=
  DpState [(LpmV4Key 8 10, 1)]
    (match zereh_seed_bloom_map (S := farray 1024 Z) map_update (fun _ => 0) (fun _ => 0) sample_config with
     | Ret (_, m) => m
     | _ => fun _ => 0
     end) (fun _ => RateState 0 0) 0.

Lemma configured_route_gets_its_queries_witness :
  configured_router (fun _ => 0) (fun q => q) (fun _ => false) sample_config sample_state sample_packet =
  run_block (fun _ => 0) (fun q => q) (fun _ => false) (params_of_config sample_config) sample_state
    sample_packet 14 34 (meta_of sample_query) (r_hash sample_route0) (block_of_route sample_route0 0).
Proof.
  apply (configured_route_gets_its_queries (fun _ => 0) (fun q => q) (fun _ => false) sample_config 0
    sample_route0 sample_state sample_packet 34 sample_query).
  - exact sample_config_wf.
  - by_compute.
  - vm_compute. reflexivity.
  - exact sample_packet_bytes.
  - exact sample_length.
  - exact sample_request.
  - constructor; [by_compute|vm_compute; reflexivity..|right; vm_compute; reflexivity].
  - vm_compute. reflexivity.
Defined.

Lemma blacklisted_sources_are_dropped_witness :
  configured_router (fun _ => 0) (fun q => q) (fun _ => false) sample_config seeded_state sample_packet
  = Ret (Exit XDP_DROP, sample_packet, seeded_state).
Proof.
  apply (blacklisted_sources_are_dropped (fun _ => 0) (fun q => q) (fun _ => false) sample_config []
    seeded_state sample_packet 34 sample_query).
  - reflexivity.
  - vm_compute. reflexivity.
  - exact sample_packet_bytes.
  - exact sample_length.
  - exact sample_request.
  - exists (str "10.0.0.0/8"), (LpmV4Key 8 10). split; [by_compute|]. split; vm_compute; reflexivity.
Defined.

Lemma seeded_names_pass_bloom_witness :
  passes_bloom (fun _ => 0) sample_config sample_route0 seeded_state sample_query.
Proof.
  destruct (seeded_names_pass_bloom (PB := farray 1024 Z) (fun _ => 0) sample_config (fun _ => 0) (fun _ => 0) 0
    sample_route0 seeded_state sample_query) as [_ H].
  - exact sample_config_wf.
  - assert (match zereh_seed_bloom_map (S := farray 1024 Z) map_update (fun _ => 0) (fun _ => 0)
      sample_config with Ret (ok, _) => ok | _ => false end = true) as H by (vm_compute; reflexivity).
    unfold seeded_state. cbn [pow_bloom].
    destruct (zereh_seed_bloom_map _ _ _ _) as [[[] m']| |]; first [reflexivity|discriminate H].
  - vm_compute. reflexivity.
  - intros H. vm_compute in H. discriminate H.
  - vm_compute. reflexivity.
  - exact sample_query_ok.
  - by_compute.
  - apply (H (str "t.example.com")).
    + by_compute.
    + intros H0. vm_compute in H0. discriminate H0.
    + vm_compute. reflexivity.
Defined.
