(* ===== verification/Template.v ===== *)
(** * xdp/xdp_template.c as the text that control/codegen.c fills

    The template is text with nine kinds of holes, which the generator fills one
    kind after the other, each time searching the whole text so far.  This file
    has the template of the repository, and shows when that is the same as
    filling all holes at once. *)
From S2P Require Import Prelude CLib Hash XdpRouter Config Yaml Codegen CodegenSem System.
#[local] Open Scope Z_scope.

(** ** Templates *)

(** Text, then holes, each a position in the list of the tokens and followed by
    text. *)
Record template : Type := Template { tpl_head : bytes; tpl_rest : list (nat * bytes) }.

Definition fill_rest (env : list bytes) (rest : list (nat * bytes)) : bytes :=
  concat (map (fun p => (env !!! p.1) ++ p.2) rest).

(** The text with [env] in the holes. *)
Definition fill (env : list bytes) (t : template) : bytes := tpl_head t ++ fill_rest env (tpl_rest t).

(** The characters of the tokens: [A-Z _ / *]. *)
Definition token_char (c : Z) : bool :=
  (65 <=? c) && (c <=? 90) || (c =? 95) || (c =? 47) || (c =? 42).

Definition token_text (t : bytes) : Prop := t <> [] /\ Forall (fun c => token_char c = true) t.

(** [t] does not occur in [s]. *)
Definition absent (t s : bytes) : Prop := strstr s t = None.

#[global] Instance absent_dec t s : Decision (absent t s).
Proof. unfold absent. apply _. Defined.

(** The first and the last character are no characters of tokens. *)
Definition fenced_l (s : bytes) : bool :=
  match s with c :: _ => negb (token_char c) | [] => false end.
Definition fenced_r (s : bytes) : bool :=
  match last s with Some c => negb (token_char c) | None => false end.

Lemma absent_iff t s : absent t s <-> forall a b, s <> a ++ t ++ b.
Proof.
  unfold absent. pose proof (strstr_spec s t) as H. destruct (strstr s t) as [hit|]; [|tauto].
  destruct H as (E & _). split; [done|]. intros Hn. by destruct (Hn _ _ E).
Qed.

(** ** Where a token can occur *)

(** Every occurrence of [t] in [a ++ rest] lies in [rest]. *)
Definition clear (t a rest : bytes) : Prop :=
  forall x y, a ++ rest = x ++ t ++ y -> (length a <= length x)%nat.

Lemma fenced_l_app a b : fenced_l a = true -> fenced_l (a ++ b) = true.
Proof. by destruct a. Qed.

Lemma fenced_l_token t a : token_text t -> fenced_l (t ++ a) = false.
Proof.
  intros [Hne Ht]. destruct t as [|c t]; [done|]. apply Forall_cons in Ht as [Hc _]. simpl. by rewrite Hc.
Qed.

Lemma fenced_r_in a x : fenced_r (x ++ a) = true -> a <> [] -> ~ Forall (fun c => token_char c = true) a.
Proof.
  intros Hf Hne Ha. unfold fenced_r in Hf. rewrite last_app in Hf.
  destruct (last a) as [c|] eqn:E; [|by apply last_None in E].
  apply last_Some_elem_of in E. rewrite Forall_forall in Ha. by rewrite (Ha c E) in Hf.
Qed.

Lemma fence_clear t a rest :
  token_text t -> absent t a -> fenced_r a = true \/ fenced_l rest = true \/ rest = [] -> clear t a rest.
Proof.
  intros Ht Ha Hf x y E. destruct (Nat.le_gt_cases (length a) (length x)) as [|Hlt]; [done|exfalso].
  rewrite absent_iff in Ha. apply app_eq_inv in E as [(a' & -> & E)|(k & -> & _)];
    [|rewrite length_app in Hlt; lia].
  assert (a' <> []) as Hne by (intros ->; rewrite app_nil_r in Hlt; lia).
  symmetry in E. apply app_eq_inv in E as [(y' & -> & _)|(t' & -> & E)]; [by apply (Ha x y')|].
  destruct t' as [|c t'].
  { apply (Ha x []). by rewrite !app_nil_r. }
  destruct Ht as [_ Ht]. apply Forall_app in Ht as [Ht1 Ht2]. destruct Hf as [Hf|[Hf| ->]]; [|subst rest|done].
  - by destruct (fenced_r_in a' x Hf Hne).
  - apply Forall_cons in Ht2 as [Hc _]. simpl in Hf. by rewrite Hc in Hf.
Qed.

Lemma absent_app t a b :
  token_text t -> absent t a -> absent t b -> fenced_r a = true \/ fenced_l b = true -> absent t (a ++ b).
Proof.
  intros Ht Ha Hb Hf. rewrite absent_iff. intros x y E. assert (clear t a b) as Hc.
  { apply fence_clear; [done..|]. destruct Hf; auto. }
  specialize (Hc x y E). apply app_eq_inv in E as [(k & -> & E)|(k & -> & E)].
  - rewrite length_app in Hc. destruct k; [|simpl in Hc; lia]. simpl in E. subst b.
    rewrite absent_iff in Hb. by apply (Hb [] y).
  - rewrite absent_iff in Hb. by apply (Hb k y).
Qed.

(** Text without any character of tokens. *)
Definition inert (s : bytes) : Prop := Forall (fun c => token_char c = false) s.

Lemma absent_cons t c s : token_text t -> token_char c = false -> absent t (c :: s) <-> absent t s.
Proof.
  intros [Hne Ht] Hc. unfold absent. cbn [strstr]. rewrite bool_decide_eq_false_2.
  - destruct (strstr s t); done.
  - intros [k E]. destruct t as [|d t]; [done|]. injection E as <- _.
    apply Forall_cons in Ht as [Hd _]. congruence.
Qed.

Lemma absent_nil t : token_text t -> absent t [].
Proof. intros [Hne _]. unfold absent. simpl. rewrite bool_decide_eq_false_2; [done|]. by intros ->%prefix_nil_inv. Qed.

Lemma absent_inert_app t a b : token_text t -> inert a -> absent t b -> absent t (a ++ b).
Proof. intros Ht Ha Hb. induction Ha as [|c a Hc _ IH]; [done|]. by apply absent_cons. Qed.

Lemma absent_inert t a : token_text t -> inert a -> absent t a.
Proof. intros Ht Ha. rewrite <- (app_nil_r a). apply absent_inert_app; [done..|]. by apply absent_nil. Qed.

(** Escaping neither adds nor removes a character of tokens. *)
Lemma prefix_escape t s :
  Forall (fun c => token_char c = true) t -> t `prefix_of` escape s -> t `prefix_of` s.
Proof.
  intros Ht. revert s. induction Ht as [|d t Hd _ IH]; intros s Hp; [apply prefix_nil|].
  destruct s as [|c s]; [by apply prefix_nil_inv in Hp|].
  unfold escape in Hp. cbn [map concat] in Hp. fold (escape s) in Hp.
  unfold escape_char in Hp. destruct Hp as [k E].
  repeat case_match; cbn [app] in E; injection E as <- E; try discriminate Hd.
  apply prefix_cons, IH. by exists k.
Qed.

Lemma absent_escape t s : token_text t -> absent t s -> absent t (escape s).
Proof.
  intros Ht. induction s as [|c s IH]; intros Ha; [done|]. unfold absent in Ha. cbn [strstr] in Ha.
  case_bool_decide as Hp; [done|]. assert (absent t (escape s)) as Hs.
  { apply IH. unfold absent. by destruct (strstr s t). }
  unfold escape. cbn [map concat]. fold (escape s). unfold escape_char.
  repeat case_match; cbn [app]; try (apply absent_cons; [done|done|]; apply absent_cons; [done|lia|done]).
  all: try (apply absent_cons; [done|done|]; by apply absent_cons).
  - apply absent_cons; [done..|]. apply absent_cons; [done| |done]. unfold token_char. lia.
  - unfold absent. cbn [strstr]. rewrite bool_decide_eq_false_2; [by rewrite Hs|].
    intros Hq. apply Hp. apply (prefix_escape t (c :: s)); [apply Ht|].
    unfold escape. cbn [map concat]. unfold escape_char. by repeat (case_match; [lia|]).
Qed.

(** ** Filling one hole after the other *)

Lemma clear_replaced t v a rest out :
  clear t a rest -> replaced t v rest out -> replaced t v (a ++ rest) (a ++ out).
Proof.
  intros Hc Hr. destruct Hr as [rest Hn|b c out Hmin Hr].
  - constructor. intros x y E. pose proof (Hc x y E) as Hl. apply app_eq_inv in E as [(k & -> & E)|(k & -> & E)].
    + rewrite length_app in Hl. destruct k; [|simpl in Hl; lia]. by apply (Hn [] y).
    + by apply (Hn k y).
  - rewrite app_assoc, (app_assoc a b (v ++ out)). constructor; [|done]. intros x y E.
    rewrite <- app_assoc in E. pose proof (Hc x y E) as Hl.
    apply app_eq_inv in E as [(k & -> & E)|(k & -> & E)].
    + rewrite !length_app in *. destruct k; [|simpl in Hl; lia]. specialize (Hmin [] y (eq_sym E)). simpl in *. lia.
    + rewrite !length_app. specialize (Hmin k y E). lia.
Qed.

Lemma replaced_fun t v s o1 o2 : t <> [] -> replaced t v s o1 -> replaced t v s o2 -> o1 = o2.
Proof.
  intros Hne H1. revert o2. induction H1 as [s Hn|a b o1 Hmin _ IH]; intros o2 H2.
  - inversion H2 as [|a b]; subst; [done|]. by destruct (Hn a b).
  - inversion H2 as [s Hn|a' b' o' Hmin' Hr E]; subst; [by destruct (Hn a b)|].
    assert (a' = a /\ b' = b) as [-> ->]; [|by rewrite (IH o' Hr)].
    pose proof (Hmin _ _ (eq_sym E)). pose proof (Hmin' _ _ E).
    apply app_inj_1 in E as [-> E]; [|lia]. by apply app_inv_head in E.
Qed.

(** The texts of a template keep the tokens apart. *)
Definition text_ok (tokens : list bytes) (s : bytes) : Prop := Forall (fun t => absent t s) tokens.

Record template_ok (tokens : list bytes) (t : template) : Prop := {
  to_head : text_ok tokens (tpl_head t) /\ fenced_r (tpl_head t) = true;
  to_rest : Forall (fun p => text_ok tokens p.2 /\ fenced_l p.2 = true /\ fenced_r p.2 = true) (tpl_rest t)
}.

Lemma fill_rest_replaced tokens t v pre post rest :
  token_text t -> t ∈ tokens -> Forall (absent t) (pre ++ post) ->
  Forall (fun p => text_ok tokens p.2 /\ fenced_l p.2 = true /\ fenced_r p.2 = true) rest ->
  replaced t v (fill_rest (pre ++ t :: post) rest) (fill_rest (pre ++ v :: post) rest).
Proof.
  intros Ht Hin Henv. induction 1 as [|[h s] rest (Hs & Hl & Hr) _ IH].
  { constructor. apply absent_iff, absent_nil, Ht. }
  unfold fill_rest. cbn [map concat fst snd] in *. fold (fill_rest (pre ++ t :: post) rest).
  fold (fill_rest (pre ++ v :: post) rest). rewrite <- !app_assoc.
  unfold text_ok in Hs. rewrite Forall_forall in Hs. specialize (Hs t Hin).
  assert (replaced t v (s ++ fill_rest (pre ++ t :: post) rest) (s ++ fill_rest (pre ++ v :: post) rest)) as H1.
  { apply clear_replaced; [|done]. apply fence_clear; auto. }
  destruct (Nat.eq_dec h (length pre)) as [->|Hne].
  - rewrite !list_lookup_total_middle by done. apply (replaced_hit t v []); [intros; simpl; lia|done].
  - rewrite (list_lookup_total_alt (pre ++ t :: post)), (list_lookup_total_alt (pre ++ v :: post)).
    assert ((pre ++ t :: post) !! h = (pre ++ v :: post) !! h) as E.
    { rewrite !lookup_app. destruct (pre !! h) eqn:Hh; [done|]. apply lookup_ge_None in Hh.
      destruct (h - length pre)%nat eqn:Hk; [lia|done]. }
    rewrite <- E. destruct ((pre ++ t :: post) !! h) as [e|] eqn:He; [|done]. cbn [default].
    apply clear_replaced; [|done]. apply fence_clear; [done| |right; left; by apply fenced_l_app].
    rewrite Forall_forall in Henv. apply Henv, elem_of_app.
    apply lookup_app_Some in He as [He|[Hk He]]; [left; by eapply list_elem_of_lookup_2|right].
    destruct (h - length pre)%nat eqn:Hd; [lia|]. by eapply list_elem_of_lookup_2.
Qed.

Lemma fill_replaced tokens t v pre post tpl :
  token_text t -> t ∈ tokens -> Forall (absent t) (pre ++ post) -> template_ok tokens tpl ->
  replaced t v (fill (pre ++ t :: post) tpl) (fill (pre ++ v :: post) tpl).
Proof.
  intros Ht Hin Henv [[Hh Hf] Hr]. unfold fill. apply clear_replaced; [|by eapply fill_rest_replaced].
  unfold text_ok in Hh. rewrite Forall_forall in Hh. apply fence_clear; auto.
Qed.

(** No token occurs in another one, nor in what was substituted before. *)
Fixpoint apart (filled : list bytes) (subs : list (bytes * bytes)) : Prop :=
  match subs with
  | [] => True
  | (t, v) :: subs' => token_text t /\ Forall (absent t) (filled ++ map fst subs') /\ apart (filled ++ [v]) subs'
  end.

Lemma fill_each tokens tpl filled subs out :
  template_ok tokens tpl -> Forall (fun p => p.1 ∈ tokens) subs -> apart filled subs ->
  replaced_each subs (fill (filled ++ map fst subs) tpl) out -> out = fill (filled ++ map snd subs) tpl.
Proof.
  intros Hok. revert filled. induction subs as [|[t v] subs IH]; intros filled Hin Ha Hr.
  { by inversion Hr. }
  cbn [map fst snd apart] in *. apply Forall_cons in Hin as [Ht Hin]. destruct Ha as (Htok & Habs & Ha).
  inversion Hr as [|? ? ? ? mid ? Hm Hrest]; subst.
  rewrite (replaced_fun _ _ _ _ _ (proj1 Htok) Hm (fill_replaced tokens t v filled (map fst subs) tpl Htok Ht Habs Hok))
    in Hrest.
  rewrite (cons_middle v filled (map fst subs)), app_assoc in Hrest. rewrite (IH _ Hin Ha Hrest).
  by rewrite <- app_assoc.
Qed.

(** No token occurs in a later one. *)
Fixpoint distinct_tokens (ts : list bytes) : Prop :=
  match ts with [] => True | t :: ts' => Forall (absent t) ts' /\ distinct_tokens ts' end.

Lemma apart_intro tokens filled subs :
  Forall token_text (map fst subs) -> distinct_tokens (map fst subs) ->
  Forall (fun p => p.1 ∈ tokens) subs -> Forall (text_ok tokens) (filled ++ map snd subs) -> apart filled subs.
Proof.
  revert filled. induction subs as [|[t v] subs IH]; intros filled Ht Hd Hin Hv; [done|].
  cbn [map fst snd distinct_tokens apart] in *. apply Forall_cons in Ht as [Ht Hts], Hin as [Hin Hins].
  destruct Hd as [Hd Hds]. split_and!; [done| |].
  - apply Forall_app. split; [|done]. apply Forall_app in Hv as [Hv _]. eapply Forall_impl; [exact Hv|].
    cbv beta. unfold text_ok. intros s Hs. rewrite Forall_forall in Hs. by apply Hs.
  - apply IH; [done..|]. by rewrite <- app_assoc.
Qed.
