(* ===== verification/XdpTemplate.v ===== *)
(** * xdp/xdp_template.c, the text

    The template file as it is in the repository, cut at its nine holes (a
    double quote is written [`]), and the source that the generator makes of
    it. *)
From S2P Require Import Prelude CLib Hash XdpRouter Config Yaml Codegen CodegenSem System Template.
#[local] Open Scope Z_scope.

(** ** The file *)

Definition c_text (s : String.string) : bytes := map (fun c => if c =? 96 then 34 else c) (str s).
Arguments c_text s%_string_scope.

(** The holes, by the position of their token in [substitutions]. *)
Definition hole_route_cases : nat := 0.
Definition hole_fallback_rules : nat := 1.
Definition hole_max_packet_size : nat := 2.
Definition hole_allowed_opcode_mask : nat := 3.
Definition hole_drop_truncated : nat := 4.
Definition hole_default_action : nat := 5.
Definition hole_inline_checksums : nat := 6.
Definition hole_hash_algo : nat := 7.
Definition hole_rate_state_entries : nat := 8.

Definition xdp_template_head : bytes := c_text "/*
 * Zereh - eBPF/XDP Zero-Latency DNS Router & Edge Filter
 * SPDX-License-Identifier: AGPL-3.0-or-later
 *
 * Commercial licensing available from IO-SEC Nordic AB.
 */

#include `dns_parser.h`

#include <linux/bpf.h>
#include <linux/if_ether.h>
#include <linux/ip.h>
#include <linux/udp.h>

#include <bpf/bpf_endian.h>
#include <bpf/bpf_helpers.h>

char LICENSE[] SEC(`license`) = `Dual AGPL-3.0-or-later OR Proprietary`;

#define ZEREH_MAX_PACKET_SIZE ".

Definition text_after_rate_state_entries : bytes := c_text "

#define ZEREH_HASH_FNV1A 0u
#define ZEREH_HASH_SIPHASH 1u

#define ZEREH_RRTYPE_A 0x1u
#define ZEREH_RRTYPE_AAAA 0x2u
#define ZEREH_RRTYPE_TXT 0x4u
#define ZEREH_RRTYPE_ANY 0x8u

#define ZEREH_BLOOM_WORDS 1024u
#define ZEREH_BLOOM_BITS (ZEREH_BLOOM_WORDS * 64u)
#define ZEREH_MAX_HASH_FUNCTIONS 8u

#define ZEREH_SIPHASH_K0 0x0706050403020100ULL
#define ZEREH_SIPHASH_K1 0x0f0e0d0c0b0a0908ULL

#if ZEREH_INLINE_CHECKSUMS
#define ZEREH_CSUM_INLINE __always_inline
#else
#define ZEREH_CSUM_INLINE
#endif

struct lpm_v4_key {
    __u32 prefixlen;
    __u32 addr;
};

struct rate_state {
    __u64 window_sec;
    __u32 count;
    __u32 _pad;
};

struct {
    __uint(type, BPF_MAP_TYPE_LPM_TRIE);
    __uint(max_entries, 1024);
    __uint(map_flags, BPF_F_NO_PREALLOC);
    __type(key, struct lpm_v4_key);
    __type(value, __u8);
} ip_blacklist SEC(`.maps`);

struct {
    __uint(type, BPF_MAP_TYPE_XSKMAP);
    __uint(max_entries, 64);
    __type(key, __u32);
    __type(value, __u32);
} xsk_map SEC(`.maps`);

struct {
    __uint(type, BPF_MAP_TYPE_PROG_ARRAY);
    __uint(max_entries, 64);
    __type(key, __u32);
    __type(value, __u32);
} prog_array SEC(`.maps`);

struct {
    __uint(type, BPF_MAP_TYPE_ARRAY);
    __uint(max_entries, ZEREH_BLOOM_WORDS);
    __type(key, __u32);
    __type(value, __u64);
} pow_bloom SEC(`.maps`);

struct {
    __uint(type, BPF_MAP_TYPE_PERCPU_ARRAY);
    __uint(max_entries, ZEREH_RATE_STATE_ENTRIES);
    __type(key, __u32);
    __type(value, struct rate_state);
} route_rate_state SEC(`.maps`);

static __always_inline __u64 zereh_rotl64(__u64 x, __u32 b)
{
    return (x << b) | (x >> (64U - b));
}

static __always_inline void zereh_sipround(__u64 *v0, __u64 *v1, __u64 *v2, __u64 *v3)
{
    *v0 += *v1;
    *v1 = zereh_rotl64(*v1, 13);
    *v1 ^= *v0;
    *v0 = zereh_rotl64(*v0, 32);

    *v2 += *v3;
    *v3 = zereh_rotl64(*v3, 16);
    *v3 ^= *v2;

    *v0 += *v3;
    *v3 = zereh_rotl64(*v3, 21);
    *v3 ^= *v0;

    *v2 += *v1;
    *v1 = zereh_rotl64(*v1, 17);
    *v1 ^= *v2;
    *v2 = zereh_rotl64(*v2, 32);
}

static __always_inline __u64 zereh_siphash24_qname(const char *qname, __u16 qname_len)
{
    __u64 v0 = 0x736f6d6570736575ULL ^ ZEREH_SIPHASH_K0;
    __u64 v1 = 0x646f72616e646f6dULL ^ ZEREH_SIPHASH_K1;
    __u64 v2 = 0x6c7967656e657261ULL ^ ZEREH_SIPHASH_K0;
    __u64 v3 = 0x7465646279746573ULL ^ ZEREH_SIPHASH_K1;
    __u64 b = ((__u64)qname_len) << 56;
    __u32 blk;
    __u32 off = 0;

#pragma clang loop unroll(disable)
    for (blk = 0; blk < 31; blk++) {
        __u64 m = 0;
        __u32 j;

        off = blk * 8;
        if (off + 8 > qname_len) {
            break;
        }

#pragma clang loop unroll(full)
        for (j = 0; j < 8; j++) {
            m |= ((__u64)(__u8)qname[off + j]) << (8 * j);
        }

        v3 ^= m;
        zereh_sipround(&v0, &v1, &v2, &v3);
        zereh_sipround(&v0, &v1, &v2, &v3);
        v0 ^= m;
    }

    off = (qname_len / 8) * 8;

#pragma clang loop unroll(full)
    for (__u32 i = 0; i < 7; i++) {
        if (off + i >= qname_len) {
            break;
        }
        b |= ((__u64)(__u8)qname[off + i]) << (8 * i);
    }

    v3 ^= b;
    zereh_sipround(&v0, &v1, &v2, &v3);
    zereh_sipround(&v0, &v1, &v2, &v3);
    v0 ^= b;

    v2 ^= 0xff;
    zereh_sipround(&v0, &v1, &v2, &v3);
    zereh_sipround(&v0, &v1, &v2, &v3);
    zereh_sipround(&v0, &v1, &v2, &v3);
    zereh_sipround(&v0, &v1, &v2, &v3);

    return v0 ^ v1 ^ v2 ^ v3;
}

static __always_inline __u64 zereh_route_hash(const struct dns_query_meta *qmeta)
{
    if (ZEREH_HASH_ALGO == ZEREH_HASH_SIPHASH) {
        return zereh_siphash24_qname(qmeta->qname, qmeta->qname_len);
    }
    return qmeta->qname_hash;
}

static ZEREH_CSUM_INLINE void zereh_csum_replace_u16(__sum16 *check, __be16 oldv, __be16 newv)
{
    __u32 csum;

    csum = ~((__u16)*check) & 0xffff;
    csum += (~(__u16)oldv) & 0xffff;
    csum += (__u16)newv;
    csum = (csum & 0xffff) + (csum >> 16);
    csum = (csum & 0xffff) + (csum >> 16);
    *check = (__sum16)(~csum);
}

static ZEREH_CSUM_INLINE void zereh_csum_replace_u32(__sum16 *check, __be32 oldv, __be32 newv)
{
    zereh_csum_replace_u16(check, (__be16)(oldv >> 16), (__be16)(newv >> 16));
    zereh_csum_replace_u16(check, (__be16)(oldv & 0xffff), (__be16)(newv & 0xffff));
}

static __always_inline bool zereh_type_allowed(__u16 qtype, __u32 mask)
{
    if (qtype == 1 && (mask & ZEREH_RRTYPE_A)) {
        return true;
    }
    if (qtype == 28 && (mask & ZEREH_RRTYPE_AAAA)) {
        return true;
    }
    if (qtype == 16 && (mask & ZEREH_RRTYPE_TXT)) {
        return true;
    }
    if (qtype == 255 && (mask & ZEREH_RRTYPE_ANY)) {
        return true;
    }
    return false;
}

static __always_inline bool zereh_match_prefix(const char *qname,
                                                __u16 qname_len,
                                                const char *prefix,
                                                __u16 prefix_len)
{
    __u16 i;

    if (prefix_len == 0) {
        return true;
    }
    if (prefix_len > qname_len) {
        return false;
    }

#pragma clang loop unroll(disable)
    for (i = 0; i < 128; i++) {
        if (i >= prefix_len) {
            return true;
        }
        if (qname[i] != prefix[i]) {
            return false;
        }
    }

    return false;
}

static __always_inline bool zereh_match_suffix(const char *qname,
                                                __u16 qname_len,
                                                const char *suffix,
                                                __u16 suffix_len)
{
    __u16 start;
    __u16 i;

    if (suffix_len == 0) {
        return true;
    }
    if (suffix_len > qname_len) {
        return false;
    }

    start = qname_len - suffix_len;

#pragma clang loop unroll(disable)
    for (i = 0; i < 128; i++) {
        if (i >= suffix_len) {
            return true;
        }
        if (qname[start + i] != suffix[i]) {
            return false;
        }
    }

    return false;
}

static __always_inline __u64 zereh_mix64(__u64 x)
{
    x ^= x >> 33;
    x *= 0xff51afd7ed558ccdULL;
    x ^= x >> 33;
    x *= 0xc4ceb9fe1a85ec53ULL;
    x ^= x >> 33;
    return x;
}

static __always_inline bool zereh_bloom_test_bit(__u32 bit, __u32 bloom_bits)
{
    __u32 idx = bit >> 6;
    __u32 off = bit & 63;
    __u64 *word;

    if (bloom_bits == 0 || bloom_bits > ZEREH_BLOOM_BITS || bit >= bloom_bits) {
        return false;
    }

    if (idx >= ZEREH_BLOOM_WORDS) {
        return false;
    }

    word = bpf_map_lookup_elem(&pow_bloom, &idx);
    if (!word) {
        return false;
    }

    return (((*word) >> off) & 1ULL) != 0;
}

static __always_inline bool zereh_bloom_bucket_match(__u64 qname_hash,
                                                      __u32 bloom_bits,
                                                      __u8 hash_functions,
                                                      __u64 bucket)
{
    __u8 k;

#pragma clang loop unroll(disable)
    for (k = 0; k < ZEREH_MAX_HASH_FUNCTIONS; k++) {
        __u64 mixed;
        __u32 bit;

        if (k >= hash_functions) {
            break;
        }

        mixed = zereh_mix64(qname_hash ^ (((__u64)k + 1ULL) * 0x9e3779b97f4a7c15ULL) ^ (bucket * 0x517cc1b727220a95ULL));
        bit = (__u32)(mixed % bloom_bits);

        if (!zereh_bloom_test_bit(bit, bloom_bits)) {
            return false;
        }
    }

    return true;
}

static __always_inline bool zereh_bloom_allow(__u64 qname_hash,
                                               __u32 bloom_bits,
                                               __u8 hash_functions,
                                               __u16 time_window)
{
    __u64 now_sec;
    __u64 bucket;

    if (hash_functions == 0 || bloom_bits < 64 || bloom_bits > ZEREH_BLOOM_BITS) {
        return false;
    }

    if (time_window == 0) {
        return zereh_bloom_bucket_match(qname_hash, bloom_bits, hash_functions, 0);
    }

    now_sec = bpf_ktime_get_ns() / 1000000000ULL;
    bucket = now_sec / (__u64)time_window;

    if (zereh_bloom_bucket_match(qname_hash, bloom_bits, hash_functions, bucket)) {
        return true;
    }

    if (bucket > 0 && zereh_bloom_bucket_match(qname_hash, bloom_bits, hash_functions, bucket - 1)) {
        return true;
    }

    return false;
}

static __always_inline bool zereh_pow_bucket_ok(__u64 qname_hash,
                                                 __u16 dns_id,
                                                 __u8 difficulty,
                                                 __u64 bucket)
{
    __u64 mixed;
    __u8 leading;

    mixed = qname_hash ^ (((__u64)dns_id) * 0x9e3779b97f4a7c15ULL) ^ (bucket * 0x517cc1b727220a95ULL);
    mixed = zereh_mix64(mixed);

    if (mixed == 0) {
        leading = 64;
    } else {
        leading = (__u8)__builtin_clzll(mixed);
    }

    return leading >= difficulty;
}

static __always_inline bool zereh_pow_allow(__u64 qname_hash,
                                             __u16 dns_id,
                                             __u8 difficulty,
                                             __u16 time_window)
{
    __u64 now_sec;
    __u64 bucket;

    if (difficulty == 0) {
        return true;
    }

    if (time_window == 0) {
        return zereh_pow_bucket_ok(qname_hash, dns_id, difficulty, 0);
    }

    now_sec = bpf_ktime_get_ns() / 1000000000ULL;
    bucket = now_sec / (__u64)time_window;

    if (zereh_pow_bucket_ok(qname_hash, dns_id, difficulty, bucket)) {
        return true;
    }

    if (bucket > 0 && zereh_pow_bucket_ok(qname_hash, dns_id, difficulty, bucket - 1)) {
        return true;
    }

    return false;
}

static __always_inline bool zereh_rate_limit_allow(__u32 route_id, __u32 qps)
{
    struct rate_state *state;
    __u64 now_sec;

    if (qps == 0) {
        return true;
    }

    if (route_id >= ZEREH_RATE_STATE_ENTRIES) {
        return false;
    }

    state = bpf_map_lookup_elem(&route_rate_state, &route_id);
    if (!state) {
        return false;
    }

    now_sec = bpf_ktime_get_ns() / 1000000000ULL;

    if (state->window_sec != now_sec) {
        state->window_sec = now_sec;
        state->count = 1;
        return true;
    }

    if (state->count >= qps) {
        return false;
    }

    state->count++;
    return true;
}

static __always_inline bool zereh_apply_app_filters(const struct dns_query_meta *qmeta,
                                                     const char *prefix,
                                                     __u16 prefix_len,
                                                     const char *suffix,
                                                     __u16 suffix_len,
                                                     __u8 min_labels,
                                                     __u8 max_labels,
                                                     __u16 qname_min_len,
                                                     __u16 qname_max_len,
                                                     __u64 route_hash,
                                                     __u32 route_id,
                                                     __u32 rrtype_mask,
                                                     __u8 pow_difficulty,
                                                     __u16 pow_time_window,
                                                     __u8 bloom_required,
                                                     __u32 bloom_size,
                                                     __u8 bloom_hash_functions,
                                                     __u16 bloom_time_window,
                                                     __u32 rate_limit_qps)
{
    if (qmeta->label_depth < min_labels || qmeta->label_depth > max_labels) {
        return false;
    }

    if (qmeta->qname_len < qname_min_len || qmeta->qname_len > qname_max_len) {
        return false;
    }

    if (!zereh_type_allowed(qmeta->qtype, rrtype_mask)) {
        return false;
    }

    if (!zereh_match_prefix(qmeta->qname, qmeta->qname_len, prefix, prefix_len)) {
        return false;
    }

    if (!zereh_match_suffix(qmeta->qname, qmeta->qname_len, suffix, suffix_len)) {
        return false;
    }

    if (!zereh_rate_limit_allow(route_id, rate_limit_qps)) {
        return false;
    }

    if (!zereh_pow_allow(route_hash, qmeta->dns_id, pow_difficulty, pow_time_window)) {
        return false;
    }

    if (bloom_required && !zereh_bloom_allow(route_hash,
                                             bloom_size,
                                             bloom_hash_functions,
                                             bloom_time_window)) {
        return false;
    }

    return true;
}

static __always_inline int zereh_global_pre_route(const struct iphdr *iph,
                                                   const struct dns_query_meta *qmeta,
                                                   __u32 packet_len)
{
    struct lpm_v4_key key = {
        .prefixlen = 32,
        .addr = iph->saddr,
    };
    __u8 *deny;

    if (packet_len > ZEREH_MAX_PACKET_SIZE) {
        return -1;
    }

    deny = bpf_map_lookup_elem(&ip_blacklist, &key);
    if (deny) {
        return -1;
    }

    if (qmeta->opcode > 15) {
        return -1;
    }

    if ((ZEREH_ALLOWED_OPCODE_MASK & (1u << qmeta->opcode)) == 0) {
        return -1;
    }

    if (ZEREH_DROP_TRUNCATED && qmeta->is_truncated) {
        return -1;
    }

    return 0;
}

static __always_inline int zereh_route_kernel_space(struct iphdr *iph,
                                                     struct udphdr *udp,
                                                     __be16 new_dport,
                                                     __be32 new_daddr)
{
    if (new_daddr != 0 && iph->daddr != new_daddr) {
        zereh_csum_replace_u32(&iph->check, iph->daddr, new_daddr);
        if (udp->check) {
            zereh_csum_replace_u32(&udp->check, iph->daddr, new_daddr);
        }
        iph->daddr = new_daddr;
    }

    if (udp->dest != new_dport) {
        if (udp->check) {
            zereh_csum_replace_u16(&udp->check, udp->dest, new_dport);
        }
        udp->dest = new_dport;
    }

    return XDP_PASS;
}

static __always_inline int zereh_dispatch(struct xdp_md *ctx,
                                          struct iphdr *iph,
                                          struct udphdr *udp,
                                          const struct dns_query_meta *qmeta)
{
    __u64 route_hash = zereh_route_hash(qmeta);

    switch (route_hash) {
    ".

Definition text_after_fallback_rules : bytes := c_text "

    return ZEREH_DEFAULT_ACTION;
}

SEC(`xdp`)
int xdp_router(struct xdp_md *ctx)
{
    void *data = (void *)(long)ctx->data;
    void *data_end = (void *)(long)ctx->data_end;
    struct ethhdr *eth;
    struct iphdr *iph;
    struct udphdr *udp;
    struct dns_query_meta qmeta;
    __u32 packet_len;

    if (zereh_parse_eth_ipv4_udp(data, data_end, &eth, &iph, &udp) != 0) {
        return XDP_PASS;
    }

    if (udp->dest != bpf_htons(53)) {
        return XDP_PASS;
    }

    if (zereh_parse_dns_query(data_end, udp, &qmeta) != 0) {
        return XDP_PASS;
    }

    packet_len = (__u32)((unsigned long)data_end - (unsigned long)data);
    if (zereh_global_pre_route(iph, &qmeta, packet_len) != 0) {
        return XDP_DROP;
    }

    return zereh_dispatch(ctx, iph, udp, &qmeta);
}

SEC(`xdp_app_default`)
int zereh_app_default(struct xdp_md *ctx)
{
    (void)ctx;
    return XDP_PASS;
}
".

Definition xdp_template : template := Template xdp_template_head
  [(hole_max_packet_size, c_text "
#define ZEREH_ALLOWED_OPCODE_MASK (");
   (hole_allowed_opcode_mask, c_text "u)
#define ZEREH_DROP_TRUNCATED (");
   (hole_drop_truncated, c_text "u)
#define ZEREH_DEFAULT_ACTION ");
   (hole_default_action, c_text "
#define ZEREH_INLINE_CHECKSUMS (");
   (hole_inline_checksums, c_text "u)
#define ZEREH_HASH_ALGO (");
   (hole_hash_algo, c_text "u)
#define ZEREH_RATE_STATE_ENTRIES ");
   (hole_rate_state_entries, text_after_rate_state_entries);
   (hole_route_cases, c_text "
    default:
        break;
    }

    ");
   (hole_fallback_rules, text_after_fallback_rules)].

(** ** The tokens *)

Definition tokens : list bytes := map fst (substitutions zereh_config_init_defaults [] []).

Lemma tokens_eq cfg cases rules : map fst (substitutions cfg cases rules) = tokens.
Proof. reflexivity. Qed.

Lemma tokens_ok : Forall token_text tokens.
Proof. unfold token_text. by_compute. Qed.

#[global] Instance text_ok_dec s : Decision (text_ok tokens s).
Proof. unfold text_ok. apply _. Defined.

(** The file keeps its holes apart. *)
Lemma xdp_template_ok : template_ok tokens xdp_template.
Proof. constructor; by_compute. Qed.

(** The constants of the data plane as the file has them. *)
Fixpoint line (s : bytes) : bytes :=
  match s with c :: s' => if c =? 10 then [] else c :: line s' | [] => [] end.
Definition macro (name text : bytes) : option Z :=
  let key := str "#define " ++ name ++ str " " in
  i ← strstr text key; c_number (line (drop (i + length key) text)).

Example template_constants :
  map (fun name => macro name text_after_rate_state_entries)
    [str "ZEREH_RRTYPE_A"; str "ZEREH_RRTYPE_AAAA"; str "ZEREH_RRTYPE_TXT"; str "ZEREH_RRTYPE_ANY";
     str "ZEREH_BLOOM_WORDS"; str "ZEREH_MAX_HASH_FUNCTIONS"; str "ZEREH_SIPHASH_K0"; str "ZEREH_SIPHASH_K1"] =
  map Some [XdpFilters.ZEREH_RRTYPE_A; XdpFilters.ZEREH_RRTYPE_AAAA; XdpFilters.ZEREH_RRTYPE_TXT;
            XdpFilters.ZEREH_RRTYPE_ANY; XdpFilters.ZEREH_BLOOM_WORDS;
            Z.of_nat XdpFilters.ZEREH_MAX_HASH_FUNCTIONS; Hash.ZEREH_SIPHASH_K0; Hash.ZEREH_SIPHASH_K1].
Proof. vm_compute. reflexivity. Qed.

(** ** The generated texts have no tokens *)

(** No string that is written into the source has a token. *)
Definition plain_route (r : zereh_route) : Prop :=
  text_ok tokens (r_domain r) /\ text_ok tokens (r_prefix r) /\ text_ok tokens (r_suffix r).
Definition plain_config (cfg : zereh_config) : Prop := Forall plain_route (c_routes cfg).

#[global] Instance plain_config_dec cfg : Decision (plain_config cfg).
Proof. unfold plain_config, plain_route. apply _. Defined.

Lemma text_ok_each s : (forall t, token_text t -> t ∈ tokens -> absent t s) -> text_ok tokens s.
Proof.
  intros H. unfold text_ok. apply Forall_forall. intros t Hin. apply H; [|done].
  pose proof tokens_ok as Ht. rewrite Forall_forall in Ht. by apply Ht.
Qed.

Lemma text_ok_absent s t : text_ok tokens s -> t ∈ tokens -> absent t s.
Proof. unfold text_ok. rewrite Forall_forall. auto. Qed.

Lemma text_ok_app_r a b : fenced_r a = true -> text_ok tokens a -> text_ok tokens b -> text_ok tokens (a ++ b).
Proof. intros Hf Ha Hb. apply text_ok_each. intros t Ht Hin. apply absent_app; eauto using text_ok_absent. Qed.

Lemma text_ok_app_l a b : fenced_l b = true -> text_ok tokens a -> text_ok tokens b -> text_ok tokens (a ++ b).
Proof. intros Hf Ha Hb. apply text_ok_each. intros t Ht Hin. apply absent_app; eauto using text_ok_absent. Qed.

Lemma text_ok_inert a b : inert a -> text_ok tokens b -> text_ok tokens (a ++ b).
Proof. intros Ha Hb. apply text_ok_each. intros t Ht Hin. apply absent_inert_app; eauto using text_ok_absent. Qed.

Lemma text_ok_escape s : text_ok tokens s -> text_ok tokens (escape s).
Proof. intros Hs. apply text_ok_each. intros t Ht Hin. apply absent_escape; eauto using text_ok_absent. Qed.

Lemma fmt_u_inert n : 0 <= n < 2 ^ 64 -> inert (fmt_u n).
Proof. intros Hn. apply Forall_forall. intros c Hc%fmt_u_chars; [|done]. unfold token_char. lia. Qed.

Lemma hex_inert w : hex_digits w -> inert w.
Proof.
  intros Hw. eapply Forall_impl; [exact Hw|]. simpl. intros c [d Hd]. unfold hex_val_digit, isdigit in Hd.
  unfold token_char. repeat case_match; lia || done.
Qed.

(** [untoken]: a text from its pieces: literals, numbers, and strings between
    quotes. *)
Ltac untoken :=
  rewrite <- ?app_assoc; repeat
    match goal with
    | H : text_ok _ ?s |- text_ok _ ?s => exact H
    | H : text_ok _ ?s |- text_ok _ (?s ++ _) => apply text_ok_app_l; [reflexivity|exact H|]
    | |- text_ok _ (fmt_u _ ++ _) => apply text_ok_inert; [apply fmt_u_inert; fits|]
    | H : inert ?s |- text_ok _ (?s ++ _) => apply text_ok_inert; [exact H|]
    | |- text_ok _ (_ ++ _) => apply text_ok_app_r; [reflexivity|by_compute|]
    | |- text_ok _ (str _ ++ _) => apply text_ok_app_l; [reflexivity|by_compute|]
    | |- text_ok _ (str _) => by_compute
    | |- text_ok _ nl => by_compute
    end.

Section route_texts.
Context (r : zereh_route) (id : Z) (Hp : printable r id) (Hr : plain_route r).

Lemma filters_untoken : text_ok tokens (filters_text r id (escape (r_prefix r)) (escape (r_suffix r))).
Proof.
  destruct Hp, Hr as (_ & Hpre & Hsuf). apply text_ok_escape in Hpre, Hsuf.
  assert (inert (fmt_x (r_rrtype_mask r))) by (by apply hex_inert, fmt_x_spec).
  unfold filters_text, arg_line. untoken.
Qed.

Lemma action_untoken indent : fenced_r indent = true -> text_ok tokens indent -> text_ok tokens (action_text indent r).
Proof.
  intros Hf Hi. destruct Hp. unfold action_text.
  destruct (r_target r); repeat (apply text_ok_app_r; [done..|]; untoken).
Qed.

Lemma action_fenced indent : fenced_l indent = true -> fenced_l (action_text indent r) = true.
Proof. intros Hi. unfold action_text. destruct (r_target r); by apply fenced_l_app. Qed.

Lemma case_untoken : text_ok tokens (case_of r id) /\ fenced_l (case_of r id) = true.
Proof.
  split; [|done]. unfold case_of, case_text. pose proof filters_untoken.
  pose proof (action_untoken (str "        ") eq_refl ltac:(by_compute)). destruct Hp.
  assert (inert (fmt_hex 16 (r_hash r)))
    by (apply hex_inert, fmt_hex_spec; unfold word in *; simpl; lia).
  untoken. apply text_ok_app_l; [by apply action_fenced|done..].
Qed.

Lemma fallback_untoken : text_ok tokens (fallback_of r id) /\ fenced_l (fallback_of r id) = true.
Proof.
  split; [|done]. unfold fallback_of, fallback_text. pose proof filters_untoken.
  pose proof (action_untoken (str "            ") eq_refl ltac:(by_compute)).
  destruct Hp, Hr as (Hd & _). apply text_ok_escape in Hd. untoken.
  apply text_ok_app_l; [by apply fenced_l_app, action_fenced|done|]. untoken.
Qed.
End route_texts.

Lemma text_ok_concat l :
  Forall (fun s => text_ok tokens s /\ fenced_l s = true) l -> text_ok tokens (concat l).
Proof.
  induction 1 as [|s l [Hs _] Hl IH]; [by_compute|]. cbn [concat]. destruct l as [|s' l].
  - by rewrite app_nil_r.
  - apply Forall_cons in Hl as [[_ Hf] _]. apply text_ok_app_l; [by apply fenced_l_app|done..].
Qed.

Section config_texts.
Context (cfg : zereh_config) (Hw : config_wf cfg) (Hb : config_bytes cfg) (Hc : plain_config cfg).

Lemma texts_untoken (text : zereh_route -> Z -> bytes) :
  (forall r id, printable r id -> plain_route r -> text_ok tokens (text r id) /\ fenced_l (text r id) = true) ->
  text_ok tokens (concat (map (fun p => text p.1 p.2) (numbered 0 (c_routes cfg)))).
Proof.
  intros Ht. apply text_ok_concat, Forall_map, Forall_forall. intros [r id] Hin.
  destruct (config_route_printable cfg r id Hw Hb Hin) as [Hp _]. apply Ht; [done|].
  unfold plain_config in Hc. rewrite Forall_forall in Hc. by apply Hc, (numbered_in 0 _ _ id).
Qed.

Lemma cases_untoken :
  text_ok tokens (cases_header cfg ++ concat (map (fun p => case_of p.1 p.2) (numbered 0 (c_routes cfg)))).
Proof.
  pose proof (texts_untoken case_of case_untoken). destruct Hw as [Hbase Hn _].
  pose proof (cb_blacklist _ Hbase). unfold ZEREH_MAX_ROUTES, ZEREH_MAX_BLACKLIST, cases_header in *. untoken.
Qed.

Lemma constants_untoken cases rules :
  text_ok tokens cases -> text_ok tokens rules -> Forall (text_ok tokens) (map snd (substitutions cfg cases rules)).
Proof.
  intros H1 H2. destruct Hw as [[] Hn _]. unfold ZEREH_MAX_ROUTES, word in *. destruct_and?.
  assert (forall k n, 0 <= n < 2 ^ 64 -> text_ok tokens (snprintf_s k (fmt_u n))) as Hnum.
  { intros k n Hk. rewrite <- (app_nil_r (snprintf_s k _)). apply text_ok_inert; [|by_compute].
    apply Forall_take. by apply fmt_u_inert. }
  unfold substitutions. cbn [map snd]. rewrite !Forall_cons. split_and!; try assumption.
  all: try (apply Hnum; repeat case_match; lia).
  - destruct (c_default_action cfg); by_compute.
  - by constructor.
Qed.
End config_texts.

(** ** The generated source *)

Lemma substitutions_tokens cfg cases rules : Forall (fun p => p.1 ∈ tokens) (substitutions cfg cases rules).
Proof. apply Forall_forall. intros p Hin. rewrite <- (tokens_eq cfg cases rules). by apply list_elem_of_fmap_2. Qed.

Lemma substitutions_apart cfg cases rules :
  Forall (text_ok tokens) (map snd (substitutions cfg cases rules)) -> apart [] (substitutions cfg cases rules).
Proof.
  intros Hv. apply (apart_intro tokens); [exact tokens_ok| |apply substitutions_tokens|exact Hv].
  rewrite tokens_eq. repeat (split; [by_compute|]). done.
Qed.

(** The source of the router for [cfg]: the file with every hole filled. *)
Definition filled_source (cfg : zereh_config) (out : bytes) : Prop :=
  exists cases rules,
    Forall2 reads_as_case cases (blocks_of_config cfg) /\
    Forall2 reads_as_fallback rules (blocks_of_config cfg) /\
    let subs := substitutions cfg (cases_header cfg ++ concat cases) (concat rules) in
    read_params subs = Some (params_of_config cfg) /\ out = fill (map snd subs) xdp_template.

Lemma xdp_template_no_nul : no_nul (fill tokens xdp_template).
Proof. apply no_nul_dec. vm_compute. reflexivity. Qed.

Lemma generate_text_filled alloc junk cfg :
  config_wf cfg -> config_bytes cfg -> plain_config cfg ->
  (generate_text alloc junk cfg (fill tokens xdp_template) = Fail /\ oom alloc) \/
  exists out, generate_text alloc junk cfg (fill tokens xdp_template) = Ret out /\ filled_source cfg out.
Proof.
  intros Hw Hb Hp.
  destruct (generate_text_spec alloc junk cfg _ Hw Hb xdp_template_no_nul) as [?|(out & E & Ho)]; [by left|right].
  exists out. split; [done|]. destruct (route_texts_read cfg Hw Hb) as [Hc Hr].
  exists (cases_of cfg), (rules_of cfg). cbv zeta. split_and!; [done..|by apply read_params_config|].
  rewrite <- (tokens_eq cfg (cases_header cfg ++ concat (cases_of cfg)) (concat (rules_of cfg))) in Ho at 1.
  apply (fill_each tokens xdp_template [] _ out xdp_template_ok) in Ho; [done|apply substitutions_tokens|].
  apply substitutions_apart, constants_untoken; [done|by apply cases_untoken|].
  by apply texts_untoken, fallback_untoken.
Qed.

(** ** Properties *)

(** C8: from the template of the repository and an accepted configuration whose
    strings contain none of the nine tokens, the generator makes, unless an
    allocation fails, the file with all holes filled and nothing else changed,
    although it substitutes one token after the other in the text so far.  Where
    the file has its switch and its fallback rules stand one text per route in
    order, each reading as the block of its route; the constants read as the
    parameters: the blocks and the parameters that the model of the router runs
    with. *)
Theorem generated_source_is_filled_template (alloc : nat -> bool) (junk : Z) (cfg : zereh_config) :
  config_wf cfg -> config_bytes cfg -> plain_config cfg ->
  let source := generate_text alloc junk cfg (fill tokens xdp_template) in
  (source = Fail /\ oom alloc) \/ exists out, source = Ret out /\ filled_source cfg out.
Proof. apply generate_text_filled. Qed.

Lemma generated_source_is_filled_template_witness :
  exists out, generate_text (fun _ => true) 0 sample_config (fill tokens xdp_template) = Ret out /\
    filled_source sample_config out.
Proof.
  destruct (generated_source_is_filled_template (fun _ => true) 0 sample_config sample_config_wf
    sample_config_bytes ltac:(by_compute)) as [[_ [n Hn]]|H].
  - discriminate Hn.
  - exact H.
Defined.

(** A string with a token is rewritten: the prefix of this route is not the one
    of the configuration any more. *)
Example token_in_prefix :
  let route := sample_route <| r_prefix := str "__ZEREH_HASH_ALGO__" |> in
  let cfg := sample_config <| c_routes := [route] |> in
  match generate_text (fun _ => true) 0 cfg (str "/*__ZEREH_ROUTE_CASES__*/") with
  | Ret out => strstr out (quote ++ r_prefix route ++ quote) = None /\ strstr out (str "zereh_apply") <> None
  | _ => False
  end.
Proof. vm_compute. done. Qed.
