(* ===== verification/Main.v ===== *)
(** * control/compiler.c and control/main.c: the command line

    The argument vector of the compiler, the stages of a command and their
    order, as computations over the trace of Attach.  The template is read by
    [read_file] (zereh_read_file of control/codegen.c); messages on stderr and
    the log lines of the loader are left out. *)
From S2P Require Import Prelude CLib Hash BpfMaps XdpFilters Config Yaml Loader Attach Codegen System.
From S2P Require Import Template XdpTemplate.
#[local] Open Scope Z_scope.

(** ** control/compiler.c *)

(** The predefined macro that selects an include path. *)
Inductive architecture : Type := X86_64 | AARCH64 | OTHER_ARCHITECTURE.

Definition compile_argv (arch : architecture) (cfg : zereh_config) : list bytes :=
  [str "clang"; str "-O3"; str "-g"; str "-target"; str "bpf"; str "-D__TARGET_ARCH_x86"; str "-Wall";
   str "-Werror"] ++
  (if c_optimize_jump_tables cfg =? 0 then [str "-fno-jump-tables"] else []) ++
  [str "-I./xdp"; str "-I./include"; str "-I/usr/include"] ++
  match arch with
  | X86_64 => [str "-I/usr/include/x86_64-linux-gnu"]
  | AARCH64 => [str "-I/usr/include/aarch64-linux-gnu"]
  | OTHER_ARCHITECTURE => []
  end ++
  [str "-c"; c_generated_source cfg; str "-o"; c_generated_object cfg].

Definition WIFEXITED (status : Z) : bool := Z.land status 0x7f =? 0.
Definition WEXITSTATUS (status : Z) : Z := Z.land (Z.shiftr status 8) 0xff.

Section commands.
Context (answer : trace -> call -> Z).
Context (alloc : nat -> bool) (junk : Z).
Context (read_file : bytes -> option bytes) (yaml_load : bytes -> option yaml_document).
Context (arch : architecture).
Context {P : Type} (find_program : bytes -> option P) (program_fd : P -> Z) (time : nat -> Z).

(** In the child, [execvp] runs the compiler or the child exits with 127,
    which the status says. *)
Definition zereh_compile_generated_bpf (cfg : zereh_config) : io bool :=
  pid ← sys answer (ForkExec (compile_argv arch cfg));
  if pid <? 0 then mret false
  else
    status ← sys answer (WaitPid pid);
    if status <? 0 then mret false
    else mret (negb (negb (WIFEXITED status) || negb (WEXITSTATUS status =? 0))).

(** ** control/codegen.c: reading the template and writing the source *)

Definition zereh_generate_xdp_source (cfg : zereh_config) : io bool :=
  match read_file (c_template_path cfg) with
  | None => mret false
  | Some template_text =>
      match generate_text alloc junk cfg (cstr template_text) with
      | Ret text => rc ← sys answer (WriteFile (c_generated_source cfg) text); mret (rc =? 0)
      | _ => mret false
      end
  end.

(** ** control/main.c *)

(** The loop over [argv] from index 2; [None] prints the usage. *)
Fixpoint parse_options (args : list bytes) (config_path : bytes) (ifname_override : option bytes) :
    option (bytes * option bytes) :=
  match args with
  | [] => Some (config_path, ifname_override)
  | [_] => None
  | arg :: value :: args' =>
      if strcmp_eq arg (str "-c") then parse_options args' value ifname_override
      else if strcmp_eq arg (str "-i") then parse_options args' config_path (Some value)
      else None
  end.

(** What [zereh_parse_config_yaml] leaves in [cfg->interface] when it fails;
    [zereh_detach_xdp] reads no other field. *)
Definition interface_after_failure (path : bytes) : bytes :=
  let cfg := zereh_config_init_defaults in
  match doc ← yaml_load path; root ← get_root doc; Some (doc, root) with
  | None => c_interface cfg
  | Some (doc, root) =>
      if negb (is_mapping root) then c_interface cfg
      else
        let global := get doc root (str "global") in
        match in_mapping global (global_keys doc) cfg with
        | Some cfg => c_interface (opt_string (get doc root (str "interface")) IFNAMSIZ c_interface cfg)
        | None =>
            match global with
            | Some node => c_interface (opt_string (get doc node (str "interface")) IFNAMSIZ c_interface cfg)
            | None => c_interface cfg
            end
        end
  end.

Definition config_after_failure (path : bytes) : zereh_config :=
  zereh_config_init_defaults <| c_interface := interface_after_failure path |>.

(** [if (stage(cfg) != 0) return 1;] *)
Definition stage (m : io bool) (next : io Z) : io Z := ok ← m; if negb ok then mret 1 else next.

Definition load (cfg : zereh_config) (ifname_override : option bytes) : io bool :=
  r ← zereh_load_and_swap_xdp answer find_program program_fd time cfg ifname_override;
  mret (match r with Some _ => true | None => false end).

Definition hash_command (args : list bytes) : io Z :=
  match args with
  | [] => mret 1
  | domain :: rest =>
      let algo := match rest with
                  | [] => Some ZEREH_HASH_FNV1A
                  | name :: _ =>
                      if strcasecmp_eq name (str "siphash") then Some ZEREH_HASH_SIPHASH
                      else if strcasecmp_eq name (str "fnv1a") || strcasecmp_eq name (str "fnv-1a")
                      then Some ZEREH_HASH_FNV1A else None
                  end in
      match algo with
      | None => mret 1
      | Some algo =>
          _ ← sys answer (Print (str "0x" ++ fmt_hex 16 (zereh_hash_domain domain algo) ++ nl));
          mret 0
      end
  end.

Definition unload_command (config_path : bytes) (ifname_override : option bytes) : io Z :=
  match zereh_parse_config_yaml yaml_load config_path, ifname_override with
  | None, None => mret 1
  | None, Some _ =>
      stage (zereh_detach_xdp answer (config_after_failure config_path) ifname_override) (mret 0)
  | Some cfg, _ => stage (zereh_detach_xdp answer cfg ifname_override) (mret 0)
  end.

(** The commands that need a valid configuration. *)
Definition config_command (cmd : bytes) (cfg : zereh_config) (ifname_override : option bytes) : io Z :=
  if strcmp_eq cmd (str "generate") then
    stage (zereh_generate_xdp_source cfg) (
    stage (zereh_compile_generated_bpf cfg) (
    _ ← sys answer (Print (str "generated and compiled: " ++ c_generated_source cfg ++ str " -> " ++
                           c_generated_object cfg ++ nl));
    mret 0))
  else if strcmp_eq cmd (str "load") then stage (load cfg ifname_override) (mret 0)
  else if strcmp_eq cmd (str "generate-load") then
    stage (zereh_generate_xdp_source cfg) (
    stage (zereh_compile_generated_bpf cfg) (
    stage (load cfg ifname_override) (mret 0)))
  else mret 1.

(** The texts of include/zereh_license.h. *)
Definition ZEREH_LICENSE_SPDX : bytes := str "AGPL-3.0-or-later".
Definition ZEREH_COMMERCIAL_LICENSE_HOLDER : bytes := str "IO-SEC Nordic AB".
Definition ZEREH_COMMERCIAL_LICENSE_CONTACT : bytes := str "commercial-license@io-sec.eu".

(** Version, revision and time of the build: from the header the build generates
    where there is one, else the three fixed texts. *)
Definition build_info (generated : option (bytes * bytes * bytes)) : bytes * bytes * bytes :=
  match generated with
  | Some info => info
  | None => (str "0.1.0-dev", str "nogit", str "unknown")
  end.

(** What the [version] command prints. *)
Definition version_text (version revision timestamp : bytes) : bytes :=
  str "zereh version: " ++ version ++ nl ++
  str "zereh revision: " ++ revision ++ nl ++
  str "zereh build timestamp (UTC): " ++ timestamp ++ nl ++
  str "license: " ++ ZEREH_LICENSE_SPDX ++ nl ++
  str "commercial holder: " ++ ZEREH_COMMERCIAL_LICENSE_HOLDER ++ nl ++
  str "commercial contact: " ++ ZEREH_COMMERCIAL_LICENSE_CONTACT ++ nl.

(** [alloc_config]: the allocation of [cfg] succeeds. *)
Definition main (alloc_config : bool) (version revision timestamp : bytes) (argv : list bytes) : io Z :=
  match argv with
  | _ :: cmd :: args =>
      if strcmp_eq cmd (str "hash") then hash_command args
      else if strcmp_eq cmd (str "version") then
        _ ← sys answer (Print (version_text version revision timestamp)); mret 0
      else if negb alloc_config then mret 1
      else
        match parse_options args (str "config.yaml") None with
        | None => mret 1
        | Some (config_path, ifname_override) =>
            if strcmp_eq cmd (str "unload") then unload_command config_path ifname_override
            else
              match zereh_parse_config_yaml yaml_load config_path with
              | None => mret 1
              | Some cfg => config_command cmd cfg ifname_override
              end
        end
  | _ => mret 1
  end.
End commands.

(** ** The stages of a command *)

Lemma compile_argv_fits arch cfg : (length (compile_argv arch cfg) < 20)%nat.
Proof. unfold compile_argv. destruct (_ =? 0), arch; simpl; lia. Qed.

(** The compiler ran and reported success. *)
Definition compiled (arch : architecture) (cfg : zereh_config) (evs : trace) : Prop :=
  exists pid status, evs = [(ForkExec (compile_argv arch cfg), pid); (WaitPid pid, status)] /\
    0 <= pid /\ WIFEXITED status = true /\ WEXITSTATUS status = 0.

(** The source was generated and written: it is the text of the template file
    with the tokens replaced for the configuration, one after the other; from the
    template of the repository and a configuration whose strings hold no token, it
    is the template with its holes filled. *)
Definition generated alloc junk (read_file : bytes -> option bytes) (cfg : zereh_config) (evs : trace) :
    Prop :=
  exists template_text text, read_file (c_template_path cfg) = Some template_text /\
    generate_text alloc junk cfg (cstr template_text) = Ret text /\
    replaced_each (config_substitutions cfg) (cstr template_text) text /\
    (template_text = fill tokens xdp_template -> plain_config cfg -> filled_source cfg text) /\
    evs = [(WriteFile (c_generated_source cfg) text, 0)].

(** No map is updated and nothing is attached. *)
Definition harmless (evs : trace) : Prop :=
  Forall (fun e => is_update e.1 = false /\ is_attach e.1 = false) evs.

Lemma harmless_app e1 e2 : harmless (e1 ++ e2) <-> harmless e1 /\ harmless e2.
Proof. apply Forall_app. Qed.

Lemma emits_stage m next (Q1 : bool -> trace -> Prop) (Q : Z -> trace -> Prop) :
  emits m Q1 -> (forall e, Q1 false e -> Q 1 e) ->
  (forall e1, Q1 true e1 -> emits next (fun b e2 => Q b (e1 ++ e2))) -> emits (stage m next) Q.
Proof.
  intros Hm Hf Ht. unfold stage. eapply emits_bind; [exact Hm|]. intros [] e1 H1; cbn [negb]; [by apply Ht|].
  apply emits_ret. rewrite app_nil_r. by apply Hf.
Qed.

Section command_lemmas.
Context (answer : trace -> call -> Z).
Context (alloc : nat -> bool) (junk : Z).
Context (read_file : bytes -> option bytes) (yaml_load : bytes -> option yaml_document).
Context (arch : architecture).
Context {P : Type} (find_program : bytes -> option P) (program_fd : P -> Z) (time : nat -> Z).

Lemma emits_compile cfg :
  emits (zereh_compile_generated_bpf answer arch cfg)
    (fun ok evs => harmless evs /\ (ok = true -> compiled arch cfg evs)).
Proof.
  unfold zereh_compile_generated_bpf. apply emits_sys_bind. intros pid.
  destruct (Z.ltb_spec pid 0); [apply emits_ret; split; [by repeat constructor|done]|].
  apply emits_sys_bind. intros status.
  destruct (status <? 0); apply emits_ret; (split; [by repeat constructor|]); [done|].
  intros Hs. exists pid, status. split_and!; [done|done|..];
    destruct (WIFEXITED status); [done|done|lia|done].
Qed.

Lemma emits_generate cfg :
  config_wf cfg -> config_bytes cfg ->
  emits (zereh_generate_xdp_source answer alloc junk read_file cfg)
    (fun ok evs => harmless evs /\ (ok = true -> generated alloc junk read_file cfg evs)).
Proof.
  intros Hw Hb. unfold zereh_generate_xdp_source, generated.
  destruct (read_file (c_template_path cfg)) as [t|]; [|apply emits_ret; split; [constructor|done]].
  destruct (generate_text_spec alloc junk cfg (cstr t) Hw Hb (cstr_no_nul t)) as [[-> _]|(text & E & Hr)];
    [apply emits_ret; split; [constructor|done]|]. rewrite E.
  apply emits_sys_bind. intros rc. apply emits_ret. split; [by repeat constructor|].
  intros ->%Z.eqb_eq. exists t, text. split_and!; [done..| |done]. intros -> Hp.
  rewrite cstr_id in E by apply xdp_template_no_nul.
  destruct (generate_text_filled alloc junk cfg Hw Hb Hp) as [[E' _]|(out & E' & Hf)]; [congruence|].
  by replace text with out by congruence.
Qed.

Lemma emits_load_bool cfg override :
  emits (load answer find_program program_fd time cfg override)
    (fun ok evs => load_events evs /\ (ok = true -> exists ifindex m,
       loaded find_program program_fd cfg (choose_ifname cfg override) ifindex m evs)).
Proof.
  unfold load. eapply emits_bind; [apply emits_and; [apply emits_load_and_swap|apply emits_load_ok]|].
  intros r e [H1 H2]. apply emits_ret. rewrite app_nil_r. split; [done|].
  destruct r as [m|]; [|done]. intros _. destruct (H2 m eq_refl) as [i ?]. eauto.
Qed.

(** A whole [generate-load], stage by stage. *)
Definition pipeline (cfg : zereh_config) (override : option bytes) (status : Z) (evs : trace) : Prop :=
  (status = 1 /\ harmless evs) \/
  exists e1 e2 e3, evs = e1 ++ e2 ++ e3 /\ generated alloc junk read_file cfg e1 /\
    compiled arch cfg e2 /\ load_events e3 /\
    (status = 1 \/ status = 0 /\ exists ifindex m,
       loaded find_program program_fd cfg (choose_ifname cfg override) ifindex m e3).

Lemma emits_generate_load cfg override :
  config_wf cfg -> config_bytes cfg ->
  emits (config_command answer alloc junk read_file arch find_program program_fd time
           (str "generate-load") cfg override)
    (pipeline cfg override).
Proof.
  intros Hw Hb. unfold config_command.
  replace (strcmp_eq (str "generate-load") (str "generate")) with false by (vm_compute; reflexivity).
  replace (strcmp_eq (str "generate-load") (str "load")) with false by (vm_compute; reflexivity).
  replace (strcmp_eq (str "generate-load") (str "generate-load")) with true by (vm_compute; reflexivity).
  eapply emits_stage; [by apply emits_generate|intros e [? _]; by left|]. intros e1 [Hh1 H1].
  eapply emits_stage; [apply emits_compile|intros e [? _]; left; split; [done|by apply harmless_app]|].
  intros e2 [Hh2 H2].
  eapply emits_stage; [apply emits_load_bool|..].
  - intros e3 [? _]. right. exists e1, e2, e3. split_and!; auto.
  - intros e3 [? H3]. apply emits_ret. right. exists e1, e2, e3. rewrite app_nil_r. split_and!; auto.
Qed.
End command_lemmas.

(** ** Properties *)

Section main_properties.
Context (answer : trace -> call -> Z).
Context (alloc : nat -> bool) (junk : Z).
Context (read_file : bytes -> option bytes) (yaml_load : bytes -> option yaml_document).
Context (arch : architecture).
Context {P : Type} (find_program : bytes -> option P) (program_fd : P -> Z) (time : nat -> Z).
Context (version revision timestamp argv0 : bytes).
Local Abbreviation run := (main answer alloc junk read_file yaml_load arch find_program program_fd time
                          true version revision timestamp).

Lemma main_generate_load opts path ifname cfg :
  parse_options opts (str "config.yaml") None = Some (path, ifname) ->
  zereh_parse_config_yaml yaml_load path = Some cfg ->
  run (argv0 :: str "generate-load" :: opts) =
    config_command answer alloc junk read_file arch find_program program_fd time (str "generate-load") cfg ifname.
Proof.
  intros Ho Hc. cbn [main].
  replace (strcmp_eq (str "generate-load") (str "hash")) with false by (vm_compute; reflexivity).
  replace (strcmp_eq (str "generate-load") (str "version")) with false by (vm_compute; reflexivity).
  replace (strcmp_eq (str "generate-load") (str "unload")) with false by (vm_compute; reflexivity).
  cbn [negb]. by rewrite Ho, Hc.
Qed.

(** C12: with an accepted configuration, [generate-load] ends with
    status 0 or 1.  Unless the source was written, which is the template file with
    its tokens replaced, and the compiler ran on it and reported success, no map is
    updated and nothing is attached and the status is 1; then the load runs,
    ordered as ever, and status 0 means that the compiled object was loaded and its
    program attached.  When the file is the template of the repository and no
    string of the configuration holds a token, the source is the template with its
    holes filled for the configuration.  The argument vector of the compiler fits
    its array. *)
Theorem generate_load_pipeline (opts : list bytes) (path : bytes) (ifname : option bytes)
    (cfg : zereh_config) (tr : trace) :
  parse_options opts (str "config.yaml") None = Some (path, ifname) ->
  zereh_parse_config_yaml yaml_load path = Some cfg -> config_bytes cfg ->
  (length (compile_argv arch cfg) < 20)%nat /\
  exists status evs, run (argv0 :: str "generate-load" :: opts) tr = (status, tr ++ evs) /\
    pipeline alloc junk read_file arch find_program program_fd cfg ifname status evs.
Proof.
  intros Ho Hc Hb. split; [apply compile_argv_fits|]. rewrite (main_generate_load opts path ifname cfg Ho Hc).
  apply emits_generate_load; [by apply (config_yaml_wf yaml_load path)|done].
Qed.

(** C37: [unload] with an interface on the command line works without
    a valid configuration: whatever the answers, it first asks for the index of
    that interface, attaches nothing, touches no map and closes every descriptor,
    and status 0 means that it has asked to detach all three modes.  Without an
    interface and without a valid configuration it makes no call and ends with
    status 1. *)
Theorem unload_without_configuration (opts : list bytes) (path : bytes) (ifname : option bytes)
    (tr : trace) :
  parse_options opts (str "config.yaml") None = Some (path, ifname) ->
  zereh_parse_config_yaml yaml_load path = None ->
  match ifname with
  | None => run (argv0 :: str "unload" :: opts) tr = (1, tr)
  | Some name => exists status evs,
      run (argv0 :: str "unload" :: opts) tr = (status, tr ++ evs) /\
      (name <> [] -> exists i rest, evs = (IfNameToIndex name, i) :: rest) /\
      attach_events evs /\ Forall (fun e => is_attach e.1 = false) evs /\
      (status = 0 ->
       detached_flags evs = [XDP_FLAGS_DRV_MODE; XDP_FLAGS_HW_MODE; XDP_FLAGS_SKB_MODE])
  end.
Proof.
  intros Ho Hc. cbn [main].
  replace (strcmp_eq (str "unload") (str "hash")) with false by (vm_compute; reflexivity).
  replace (strcmp_eq (str "unload") (str "version")) with false by (vm_compute; reflexivity).
  replace (strcmp_eq (str "unload") (str "unload")) with true by (vm_compute; reflexivity).
  cbn [negb]. rewrite Ho. unfold unload_command. rewrite Hc. destruct ifname as [name|]; [|done].
  unfold stage, mbind, io_bind.
  destruct (emits_detach answer (config_after_failure yaml_load path) (Some name) tr)
    as (ok & evs & -> & (i & rest & ->) & Ha & Hf & Hok).
  exists (if ok then 0 else 1), ((IfNameToIndex (choose_ifname (config_after_failure yaml_load path)
    (Some name)), i) :: rest). split; [by destruct ok|]. split; [|split; [exact Ha|split; [exact Hf|]]].
  - intros Hne. exists i, rest. cbn [choose_ifname]. by rewrite bool_decide_eq_false_2.
  - destruct ok; [auto|done].
Qed.
End main_properties.

(** ** Witnesses *)

Definition sample_yaml (path : bytes) : option yaml_document :=
  if bool_decide (path = str "z.yaml") then Some sample_document else None.

Lemma sample_yaml_config : zereh_parse_config_yaml sample_yaml (str "z.yaml") = Some sample_config.
Proof. vm_compute. reflexivity. Qed.

Lemma generate_load_pipeline_witness :
  exists status evs,
    main granting (fun _ => true) 0 (fun _ => Some (fill tokens xdp_template)) sample_yaml X86_64
      (fun n => Some n) (fun _ => 5) (fun _ => 0) true (str "1") (str "r") (str "t")
      [str "zereh"; str "generate-load"; str "-c"; str "z.yaml"; str "-i"; str "eth1"] [] = (status, evs) /\
    pipeline (fun _ => true) 0 (fun _ => Some (fill tokens xdp_template)) X86_64 (fun n => Some n) (fun _ => 5)
      sample_config (Some (str "eth1")) status evs.
Proof.
  exact (proj2 (generate_load_pipeline granting (fun _ => true) 0 (fun _ => Some (fill tokens xdp_template)) sample_yaml
    X86_64 (fun n => Some n) (fun _ => 5) (fun _ => 0) (str "1") (str "r") (str "t") (str "zereh")
    [str "-c"; str "z.yaml"; str "-i"; str "eth1"] (str "z.yaml") (Some (str "eth1")) sample_config []
    ltac:(vm_compute; reflexivity) sample_yaml_config sample_config_bytes)).
Defined.

Lemma unload_without_configuration_witness :
  main granting (fun _ => true) 0 (fun _ => None) (fun _ => None) X86_64 (fun n => Some n)
    (fun _ => 5) (fun _ => 0) true (str "1") (str "r") (str "t") [str "zereh"; str "unload"] [] = (1, []).
Proof.
  exact (unload_without_configuration granting (fun _ => true) 0 (fun _ => None) (fun _ => None)
    X86_64 (fun n => Some n) (fun _ => 5) (fun _ => 0) (str "1") (str "r") (str "t") (str "zereh")
    [] (str "config.yaml") None [] eq_refl eq_refl).
Defined.

(** When every request is granted, the command succeeds. *)
Example generate_load_granted :
  (main granting (fun _ => true) 0 (fun _ => Some (fill tokens xdp_template)) sample_yaml X86_64 (fun n => Some n)
     (fun _ => 5) (fun _ => 0) true (str "1") (str "r") (str "t")
     [str "zereh"; str "generate-load"; str "-c"; str "z.yaml"; str "-i"; str "eth1"] []).1 = 0.
Proof. vm_compute. reflexivity. Qed.

(** Built without the generated header, [version] prints the fixed texts. *)
Example version_without_build_info answer :
  let '(version, revision, timestamp) := build_info None in
  main answer (fun _ => true) 0 (fun _ => None) (fun _ => None) X86_64 (fun n => Some n)
    (fun _ => 5) (fun _ => 0) true version revision timestamp [str "zereh"; str "version"] [] =
  (0, [(Print (str "zereh version: 0.1.0-dev" ++ nl ++ str "zereh revision: nogit" ++ nl ++
               str "zereh build timestamp (UTC): unknown" ++ nl ++ str "license: AGPL-3.0-or-later" ++ nl ++
               str "commercial holder: IO-SEC Nordic AB" ++ nl ++
               str "commercial contact: commercial-license@io-sec.eu" ++ nl),
        answer [] (Print (version_text version revision timestamp)))]).
Proof. vm_compute. reflexivity. Qed.
