(* ===== verification/Deploy.v ===== *)
(** * From the command line to the packets

    What the kernel holds after a sequence of calls: a successful load of an
    object makes fresh maps, and each successful update changes its map.  A
    [generate-load] that reports success leaves the maps as the configuration
    says, next to a source that is the filled template, so that the router of
    the configuration treats packets as configured. *)
From S2P Require Import Prelude CLib Hash DnsParser XdpHash BpfMaps XdpFilters XdpRouter Config Yaml.
From S2P Require Import Loader Attach Codegen CodegenSem System Template XdpTemplate Main.
#[local] Open Scope Z_scope.

(** ** Postconditions of computations that call *)

Definition triple {A} (Pre : trace -> Prop) (m : io A) (Post : A -> trace -> Prop) : Prop :=
  forall tr, Pre tr -> Post (m tr).1 (m tr).2.

Lemma triple_ret {A} (a : A) (Pre : trace -> Prop) (Post : A -> trace -> Prop) :
  (forall tr, Pre tr -> Post a tr) -> triple Pre (mret a) Post.
Proof. done. Qed.

Lemma triple_bind {A B} (m : io A) (f : A -> io B) Pre Mid Post :
  triple Pre m Mid -> (forall a, triple (Mid a) (f a) Post) -> triple Pre (m ≫= f) Post.
Proof.
  intros Hm Hf tr Hp. specialize (Hm tr Hp). unfold mbind, io_bind.
  destruct (m tr) as [a tr']. exact (Hf a tr' Hm).
Qed.

Lemma triple_weaken {A} (m : io A) (Pre Pre' : trace -> Prop) Post :
  (forall tr, Pre tr -> Pre' tr) -> triple Pre' m Post -> triple Pre m Post.
Proof. intros H Hm tr Hp. by apply Hm, H. Qed.

Lemma triple_any {A} (m : io A) Pre : triple Pre m (fun _ _ => True).
Proof. done. Qed.

Lemma triple_frame {A} (m : io A) (Q : trace -> Prop) (quiet : event -> Prop) :
  (forall tr evs, Q tr -> Forall quiet evs -> Q (tr ++ evs)) ->
  emits m (fun _ evs => Forall quiet evs) -> triple Q m (fun _ => Q).
Proof. intros HQ Hm tr Hp. destruct (Hm tr) as (a & evs & -> & Hq). by apply HQ. Qed.

(** ** Seeding by recorded calls and seeding a map *)

(** Every successful step of [u1] is one of [u2]. *)
Definition simulates {S1 S2 K V} (R : S1 -> S2 -> Prop) (u1 : S1 -> K -> V -> bool * S1)
    (u2 : S2 -> K -> V -> bool * S2) : Prop :=
  forall s1 s2 k v s1', R s1 s2 -> u1 s1 k v = (true, s1') -> exists s2', u2 s2 k v = (true, s2') /\ R s1' s2'.

Section simulation.
Context {S1 S2 : Type} (R : S1 -> S2 -> Prop).

Lemma seed_blacklist_sim (u1 : S1 -> lpm_v4_key -> Z -> bool * S1) (u2 : S2 -> lpm_v4_key -> Z -> bool * S2)
    l s1 s2 s1' :
  simulates R u1 u2 -> R s1 s2 -> zereh_seed_blacklist_map u1 s1 l = (true, s1') ->
  exists s2', zereh_seed_blacklist_map u2 s2 l = (true, s2') /\ R s1' s2'.
Proof.
  intros Hu. revert s1 s2. induction l as [|cidr l IH]; intros s1 s2 HR H; cbn [zereh_seed_blacklist_map] in *.
  { injection H as <-. eauto. }
  destruct (zereh_parse_cidr_v4 cidr) as [key|]; [|done]. destruct (u1 s1 key 1) as [[] t1] eqn:E; [|done].
  destruct (Hu _ _ _ _ _ HR E) as (t2 & -> & HR'). exact (IH t1 t2 HR' H).
Qed.

Lemma write_words_sim (u1 : S1 -> Z -> Z -> bool * S1) (u2 : S2 -> Z -> Z -> bool * S2) ws k s1 s2 s1' :
  simulates R u1 u2 -> R s1 s2 -> write_words u1 s1 k ws = (true, s1') ->
  exists s2', write_words u2 s2 k ws = (true, s2') /\ R s1' s2'.
Proof.
  intros Hu. revert k s1 s2. induction ws as [|w ws IH]; intros k s1 s2 HR H; cbn [write_words] in *.
  { injection H as <-. eauto. }
  destruct (u1 s1 k w) as [[] t1] eqn:E; [|done].
  destruct (Hu _ _ _ _ _ HR E) as (t2 & -> & HR'). exact (IH _ t1 t2 HR' H).
Qed.

Lemma seed_bloom_sim (u1 : S1 -> Z -> Z -> bool * S1) (u2 : S2 -> Z -> Z -> bool * S2) time cfg s1 s2 s1' :
  simulates R u1 u2 -> R s1 s2 -> zereh_seed_bloom_map u1 time s1 cfg = Ret (true, s1') ->
  exists s2', zereh_seed_bloom_map u2 time s2 cfg = Ret (true, s2') /\ R s1' s2'.
Proof.
  intros Hu HR. unfold zereh_seed_bloom_map. destruct (routes_bits _ _ _ _ _) as [ws| |]; [|done..].
  cbn [mbind res_bind]. intros [= H]. destruct (write_words_sim u1 u2 ws 0 s1 s2 s1' Hu HR H) as (s2' & -> & ?).
  eauto.
Qed.

Lemma seed_prog_sim {P} (find_program : bytes -> option P) program_fd (u1 : S1 -> Z -> Z -> bool * S1)
    (u2 : S2 -> Z -> Z -> bool * S2) cfg s1 s2 s1' :
  simulates R u1 u2 -> R s1 s2 -> zereh_seed_prog_array find_program program_fd u1 s1 cfg = (true, s1') ->
  exists s2', zereh_seed_prog_array find_program program_fd u2 s2 cfg = (true, s2') /\ R s1' s2'.
Proof.
  intros Hu. unfold zereh_seed_prog_array. generalize (c_routes cfg) as rs. intros rs. revert s1 s2.
  induction rs as [|r rs IH]; intros s1 s2 HR H; cbn [seed_prog_routes] in *.
  { injection H as <-. eauto. }
  destruct (prog_entry _ _ _ r) as [[[k v]|]|]; [|by eapply IH|done].
  destruct (u1 s1 k v) as [[] t1] eqn:E; [|done].
  destruct (Hu _ _ _ _ _ HR E) as (t2 & -> & HR'). exact (IH t1 t2 HR' H).
Qed.
End simulation.

(** ** The maps in the kernel *)

Section kernel.
Context {BL PB PA P : Type}.
Context `{!BpfMap BL lpm_v4_key Z, !BpfMap PB Z Z, !BpfProgArray PA P}.

Record kernel_maps : Type := KernelMaps { k_blacklist : BL; k_bloom : PB; k_prog_array : PA }.

(** The maps of a freshly loaded object, and the maps before the first call. *)
Context (fresh before : kernel_maps).

Definition kernel_event (k : kernel_maps) (e : event) : kernel_maps :=
  match e with
  | (ObjectLoad, rc) => if rc =? 0 then fresh else k
  | (UpdateBlacklist key v, rc) =>
      if rc =? 0 then KernelMaps (map_update (k_blacklist k) key v).2 (k_bloom k) (k_prog_array k) else k
  | (UpdateBloom key v, rc) =>
      if rc =? 0 then KernelMaps (k_blacklist k) (map_update (k_bloom k) key v).2 (k_prog_array k) else k
  | (UpdateProgArray key v, rc) =>
      if rc =? 0 then KernelMaps (k_blacklist k) (k_bloom k) (prog_update (k_prog_array k) key v).2 else k
  | _ => k
  end.

Definition kernel (tr : trace) : kernel_maps := fold_left kernel_event tr before.

Lemma kernel_snoc tr e : kernel (tr ++ [e]) = kernel_event (kernel tr) e.
Proof. apply fold_left_app. Qed.

(** The calls that leave the maps alone. *)
Definition quiet (e : event) : Prop := is_update e.1 = false /\ e.1 <> ObjectLoad.

Lemma quiet_kernel tr evs : Forall quiet evs -> kernel (tr ++ evs) = kernel tr.
Proof.
  intros H. revert tr. induction H as [|e evs He _ IH]; intros tr; [by rewrite app_nil_r|].
  rewrite cons_middle, app_assoc, IH, kernel_snoc. destruct e as [[] rc], He; done.
Qed.

(** The kernel reports success of an update only when the map has taken it, and
    the object has the maps of the template. *)
Record honest (answer : trace -> call -> Z) : Prop := {
  ho_blacklist tr k v : answer tr (UpdateBlacklist k v) = 0 ->
    is_Some (bpf_map_update_elem (k_blacklist (kernel tr)) k v);
  ho_bloom tr k v : answer tr (UpdateBloom k v) = 0 -> is_Some (bpf_map_update_elem (k_bloom (kernel tr)) k v);
  ho_prog tr k v : answer tr (UpdateProgArray k v) = 0 ->
    is_Some (prog_array_update_elem (k_prog_array (kernel tr)) k v);
  ho_maps tr name : name ∈ [str "ip_blacklist"; str "pow_bloom"; str "prog_array"] -> answer tr (FindMap name) <> 0
}.

Section load_kernel.
Context (answer : trace -> call -> Z) (Hh : honest answer).
Context (find_program : bytes -> option P) (program_fd : P -> Z) (time : nat -> Z).

Lemma blacklist_sim k :
  simulates (fun tr m => kernel tr = KernelMaps m (k_bloom k) (k_prog_array k))
    (update_with answer UpdateBlacklist) map_update.
Proof.
  intros tr m key v tr' HR Hu. unfold update_with, sys in Hu. injection Hu as Hrc%Z.eqb_eq <-.
  destruct (ho_blacklist _ Hh tr key v Hrc) as [m' Hm]. rewrite HR in Hm. cbn [k_blacklist] in Hm.
  exists m'. rewrite kernel_snoc, Hrc, HR. unfold kernel_event, map_update.
  cbn [k_blacklist k_bloom k_prog_array Z.eqb]. by rewrite Hm.
Qed.

Lemma bloom_sim k :
  simulates (fun tr m => kernel tr = KernelMaps (k_blacklist k) m (k_prog_array k))
    (update_with answer UpdateBloom) map_update.
Proof.
  intros tr m key v tr' HR Hu. unfold update_with, sys in Hu. injection Hu as Hrc%Z.eqb_eq <-.
  destruct (ho_bloom _ Hh tr key v Hrc) as [m' Hm]. rewrite HR in Hm. cbn [k_bloom] in Hm.
  exists m'. rewrite kernel_snoc, Hrc, HR. unfold kernel_event, map_update.
  cbn [k_blacklist k_bloom k_prog_array Z.eqb]. by rewrite Hm.
Qed.

Lemma prog_sim k :
  simulates (fun tr m => kernel tr = KernelMaps (k_blacklist k) (k_bloom k) m)
    (update_with answer UpdateProgArray) prog_update.
Proof.
  intros tr m key v tr' HR Hu. unfold update_with, sys in Hu. injection Hu as Hrc%Z.eqb_eq <-.
  destruct (ho_prog _ Hh tr key v Hrc) as [m' Hm]. rewrite HR in Hm. cbn [k_prog_array] in Hm.
  exists m'. rewrite kernel_snoc, Hrc, HR. unfold kernel_event, prog_update.
  cbn [k_blacklist k_bloom k_prog_array Z.eqb]. by rewrite Hm.
Qed.

(** The maps as the configuration says, from fresh ones. *)
Record seeded (cfg : zereh_config) (k : kernel_maps) : Prop := {
  sd_blacklist : zereh_seed_blacklist_map map_update (k_blacklist fresh) (c_blacklist cfg) = (true, k_blacklist k);
  sd_bloom : zereh_seed_bloom_map map_update time (k_bloom fresh) cfg = Ret (true, k_bloom k);
  sd_prog : zereh_seed_prog_array find_program program_fd prog_update (k_prog_array fresh) cfg =
    (true, k_prog_array k)
}.

(** After a step that succeeded. *)
Lemma triple_given {A X} (pure : X -> Prop) (K : X -> kernel_maps) (m : io A) Post :
  (forall x, pure x -> triple (fun tr => kernel tr = K x) m Post) ->
  triple (fun tr => true = true -> exists x, pure x /\ kernel tr = K x) m Post.
Proof. intros H tr Hx. destruct (Hx eq_refl) as (x & Hp & Hk). by apply (H x Hp). Qed.

(** Looking up a map that is there. *)
Lemma triple_seed_map name seed k Post :
  name ∈ [str "ip_blacklist"; str "pow_bloom"; str "prog_array"] ->
  triple (fun tr => kernel tr = k) seed Post -> triple (fun tr => kernel tr = k) (seed_map answer name seed) Post.
Proof.
  intros Hn Hs. unfold seed_map. apply triple_bind with (Mid := fun r tr => r <> 0 /\ kernel tr = k).
  - intros tr <-. cbn [sys fst snd]. split; [by apply (ho_maps _ Hh)|]. by rewrite kernel_snoc.
  - intros r tr [Hr Hk]. destruct (Z.eqb_spec r 0); [done|]. by apply Hs.
Qed.

Lemma triple_seed_maps cfg :
  triple (fun tr => kernel tr = fresh) (seed_maps answer find_program program_fd time cfg)
    (fun ok tr => ok = true -> seeded cfg (kernel tr)).
Proof.
  unfold seed_maps.
  apply triple_bind with (Mid := fun ok tr => ok = true ->
    exists m, zereh_seed_blacklist_map map_update (k_blacklist fresh) (c_blacklist cfg) = (true, m) /\
      kernel tr = KernelMaps m (k_bloom fresh) (k_prog_array fresh)).
  { apply triple_seed_map; [by_compute|]. intros tr Hk Hok. unfold seed_blacklist in *.
    destruct (zereh_seed_blacklist_map _ tr (c_blacklist cfg)) as [ok tr'] eqn:E. cbn [fst snd] in *. subst ok.
    by eapply (seed_blacklist_sim _ _ _ _ _ _ _ (blacklist_sim fresh)); [|exact E]; rewrite Hk; destruct fresh. }
  intros [] ; cbn [negb]; [|by apply triple_ret].
  apply triple_given. intros bl Hbl.
  apply triple_bind with (Mid := fun ok tr => ok = true ->
    exists m, zereh_seed_bloom_map map_update time (k_bloom fresh) cfg = Ret (true, m) /\
      kernel tr = KernelMaps bl m (k_prog_array fresh)).
  { apply triple_seed_map; [by_compute|]. intros tr Hk Hok. unfold seed_bloom in *.
    destruct (zereh_seed_bloom_map _ time tr cfg) as [[ok tr']| |] eqn:E; [|done..]. cbn [fst snd] in *. subst ok.
    by eapply (seed_bloom_sim _ _ _ _ _ _ _ _ (bloom_sim (KernelMaps bl (k_bloom fresh) (k_prog_array fresh))));
      [|exact E]. }
  intros [] ; cbn [negb]; [|by apply triple_ret].
  apply triple_given. intros pb Hpb.
  apply triple_seed_map; [by_compute|]. intros tr Hk Hok. unfold seed_programs in *.
  destruct (zereh_seed_prog_array find_program program_fd _ tr cfg) as [ok tr'] eqn:E. cbn [fst snd] in *. subst ok.
  destruct (seed_prog_sim _ find_program program_fd _ _ cfg tr (k_prog_array fresh) tr'
    (prog_sim (KernelMaps bl pb (k_prog_array fresh))) Hk E) as (pa & Hpa & ->). by constructor.
Qed.

Ltac quiet_events := repeat (apply Forall_cons; split; [done|]); apply Forall_nil; done.

Lemma emits_quiet_dir path : emits (zereh_ensure_dir answer path) (fun _ evs => Forall quiet evs).
Proof. unfold zereh_ensure_dir. io_step; quiet_events. Qed.

Lemma emits_quiet_attach prog_fd ifindex pin_path mode :
  emits (zereh_attach_with_fallback answer prog_fd ifindex pin_path mode) (fun _ evs => Forall quiet evs).
Proof.
  intros tr. rewrite attach_with_fallback_eq. revert tr. generalize (mode_chain mode) as modes. intros modes.
  change (emits (try_modes answer prog_fd ifindex pin_path modes) (fun _ evs => Forall quiet evs)).
  induction modes as [|md modes IH]; cbn [try_modes]; [by apply emits_ret|].
  apply emits_bind with (Q1 := fun _ evs => Forall quiet evs).
  - unfold zereh_attach_or_update_link, zereh_attach_xdp_replace, close_if_open.
    destruct (negb _); io_step; quiet_events.
  - intros ok e1 H1. destruct ok; [apply emits_ret; by rewrite app_nil_r|].
    eapply emits_weaken; [exact IH|]. intros r e2 H2. by apply Forall_app.
Qed.

(** Calls that leave the maps alone keep what was seeded. *)
Lemma triple_quiet {A} (m : io A) cfg :
  emits m (fun _ evs => Forall quiet evs) ->
  triple (fun tr => seeded cfg (kernel tr)) m (fun _ tr => seeded cfg (kernel tr)).
Proof. apply triple_frame. intros tr evs Hs Hq. by rewrite quiet_kernel. Qed.

Lemma triple_install cfg ifname ifindex :
  triple (fun _ => True) (install answer find_program program_fd time cfg ifname ifindex)
    (fun r tr => is_Some r -> seeded cfg (kernel tr)).
Proof.
  unfold install. apply triple_bind with (Mid := fun rc tr => rc = 0 -> kernel tr = fresh).
  { intros tr _. cbn [sys fst snd]. intros Hrc. by rewrite kernel_snoc, Hrc. }
  intros rc. destruct (Z.eqb_spec rc 0) as [->|]; cbn [negb]; [|apply triple_ret; by intros tr _ [? ?]].
  apply triple_bind with (Mid := fun ok tr => ok = true -> seeded cfg (kernel tr)).
  { intros tr Hk. exact (triple_seed_maps cfg tr (Hk eq_refl)). }
  intros []; cbn [negb]; [|apply triple_ret; by intros tr _ [? ?]].
  apply triple_weaken with (Pre' := fun tr => seeded cfg (kernel tr)); [auto|].
  destruct (find_program _) as [prog|]; [|by apply triple_ret].
  eapply triple_bind; [apply triple_quiet, emits_quiet_dir|]. intros []; cbn [negb]; [|by apply triple_ret].
  destruct (zereh_build_pin_path _ _) as [pin|]; [|by apply triple_ret].
  intros tr Hs _. by apply triple_quiet; [apply emits_quiet_attach|].
Qed.

Lemma triple_load cfg override :
  triple (fun _ => True) (zereh_load_and_swap_xdp answer find_program program_fd time cfg override)
    (fun r tr => is_Some r -> seeded cfg (kernel tr)).
Proof.
  assert (forall Pre, triple Pre (mret (@None zereh_xdp_mode)) (fun r tr => is_Some r -> seeded cfg (kernel tr))) as Hn.
  { intros Pre. apply triple_ret. by intros tr _ [? ?]. }
  unfold zereh_load_and_swap_xdp. cbv zeta. eapply triple_bind; [apply triple_any|]. intros i.
  destruct (i =? 0); [apply Hn|]. eapply triple_bind; [apply triple_any|]. intros []; cbn [negb]; [|apply Hn].
  eapply triple_bind; [apply triple_any|]. intros ?. eapply triple_bind; [apply triple_any|]. intros err.
  destruct (negb _); [apply Hn|]. eapply triple_bind; [apply triple_install|]. intros r.
  apply triple_bind with (Mid := fun _ tr => is_Some r -> seeded cfg (kernel tr)); [|by intros ?; apply triple_ret].
  intros tr Hs. cbn [sys fst snd]. intros Hr. rewrite kernel_snoc. exact (Hs Hr).
Qed.

(** A [generate-load] that reports success has seeded the maps. *)
Lemma triple_generate_load alloc junk read_file arch cfg override :
  triple (fun _ => True)
    (config_command answer alloc junk read_file arch find_program program_fd time (str "generate-load") cfg override)
    (fun status tr => status = 0 -> seeded cfg (kernel tr)).
Proof.
  unfold config_command.
  replace (strcmp_eq (str "generate-load") (str "generate")) with false by (vm_compute; reflexivity).
  replace (strcmp_eq (str "generate-load") (str "load")) with false by (vm_compute; reflexivity).
  replace (strcmp_eq (str "generate-load") (str "generate-load")) with true by (vm_compute; reflexivity).
  unfold stage, load. eapply triple_bind; [apply triple_any|]. intros []; cbn [negb]; [|by apply triple_ret].
  eapply triple_bind; [apply triple_any|]. intros []; cbn [negb]; [|by apply triple_ret].
  apply triple_bind with (Mid := fun ok tr => ok = true -> seeded cfg (kernel tr)).
  - eapply triple_bind; [apply triple_load|]. intros r. apply triple_ret. intros tr Hr Hok.
    apply Hr. destruct r; [eauto|done].
  - intros []; cbn [negb]; apply triple_ret; auto. done.
Qed.
End load_kernel.
End kernel.
Arguments kernel_maps : clear implicits.

(** ** Properties *)

Section deployment.
Context {BL PB PA RS P : Type} (fd_program : Z -> option P).
Context `{!BpfMap BL lpm_v4_key Z, !LpmTrieLaws BL Z, !BpfMap PB Z Z, !BpfArrayLaws PB Z ZEREH_BLOOM_WORDS}.
Context `{!BpfProgArray PA P, !ProgArrayLaws PA P fd_program ZEREH_PROG_ARRAY_MAX, !BpfMap RS Z rate_state}.
Context (fresh before : kernel_maps BL PB PA).
Context (answer : trace -> call -> Z).
Context (alloc : nat -> bool) (junk : Z).
Context (read_file : bytes -> option bytes) (yaml_load : bytes -> option yaml_document).
Context (arch : architecture).
Context (find_program : bytes -> option P) (program_fd : P -> Z) (time : nat -> Z).
Context (version revision timestamp argv0 : bytes).
Context (ktime : nat -> Z) (bpf_redirect_map : Z -> Z) (bpf_tail_call : Z -> bool).
Local Abbreviation run := (main answer alloc junk read_file yaml_load arch find_program program_fd time
                          true version revision timestamp).
Local Abbreviation router := (configured_router ktime bpf_redirect_map bpf_tail_call).

(** The rest of the pre-route filter: size, opcode, truncation. *)
Definition within_limits (cfg : zereh_config) (pkt : bytes) (q : dns_query) : Prop :=
  Z.of_nat (length pkt) <= c_max_packet_size cfg /\
  Z.testbit (c_allowed_opcode_mask cfg) (q_flags q / 2 ^ 11 mod 16) = true /\
  (c_drop_truncated cfg = 0 \/ Z.testbit (q_flags q) 9 = false).

(** The packets of a query are treated as [cfg] says: sources it denies are
    dropped, the query of a route reaches the route, and the seeds of a Bloom
    filter pass it. *)
Record as_configured (cfg : zereh_config) (st : dp_state BL PB RS) (pkt : bytes) (udp : nat) (q : dns_query) :
    Prop := {
  ac_denied : denied (c_blacklist cfg) (saddr_of pkt) -> router cfg st pkt = Ret (Exit XDP_DROP, pkt, st);
  ac_route i r : ~ denied (c_blacklist cfg) (saddr_of pkt) -> within_limits cfg pkt q ->
    NoDup (map r_hash (c_routes cfg)) -> c_routes cfg !! i = Some r -> names (r_domain r) (q_labels q) ->
    router cfg st pkt =
      run_block ktime bpf_redirect_map bpf_tail_call (params_of_config cfg) st pkt 14 udp (meta_of q)
        (r_hash r) (block_of_route r (Z.of_nat i));
  ac_seed j r seed : c_routes cfg !! j = Some r -> r_bloom_enabled r <> 0 -> r_bloom_time_window r = 0 ->
    seed ∈ r_bloom_seeds r -> zereh_hash_domain seed (c_hash_algo cfg) <> 0 -> names seed (q_labels q) ->
    passes_bloom ktime cfg r st q
}.

(** A tail call with the index of a tail-call route that no later one overrides
    jumps to the program of the route. *)
Definition tails_installed (cfg : zereh_config) (pa : PA) : Prop :=
  forall pre r post, c_routes cfg = pre ++ r :: post -> is_tail r ->
    Forall (fun r' => is_tail r' -> r_prog_index r' <> r_prog_index r) post ->
    exists prog name,
      zereh_resolve_tail_program find_program r (find_program (str "zereh_app_default")) = Some (prog, name) /\
      prog_array_program pa (r_prog_index r) = Some prog.

Lemma seeded_tails cfg k :
  (forall p, 0 <= program_fd p -> fd_program (program_fd p) = Some p) ->
  seeded fresh find_program program_fd time cfg k -> tails_installed cfg (k_prog_array k).
Proof.
  intros Hfd [_ _ Hp] pre r post E Ht Hpost. unfold zereh_seed_prog_array in Hp. rewrite E in Hp.
  destruct (seed_prog_spec find_program program_fd fd_program _ pre r post _ _ Hfd Hp Ht Hpost) as (prog & name & ? & _ & ?).
  eauto.
Qed.

Lemma seeded_as_configured cfg k (st : dp_state BL PB RS) pkt udp q :
  (forall a, bpf_map_lookup_elem (k_blacklist fresh) (LpmV4Key 32 a) = None) ->
  config_wf cfg -> seeded fresh find_program program_fd time cfg k ->
  ip_blacklist st = k_blacklist k -> pow_bloom st = k_bloom k ->
  Forall is_byte pkt -> Z.of_nat (length pkt) < 2 ^ 32 -> dns_request pkt udp q -> as_configured cfg st pkt udp q.
Proof.
  intros Hf Hw [Hbl Hpb _] E1 E2 Hb Hl Hreq. rewrite <- E1 in Hbl. rewrite <- E2 in Hpb.
  destruct (denied_dropped ktime bpf_redirect_map bpf_tail_call cfg _ st pkt udp q Hf Hbl Hb Hl Hreq) as [Hd Hn].
  constructor; [exact Hd| |].
  - intros i r Hnd (Hs & Ho & Ht) Hnodup Hi Hname. apply route_gets_queries; try done.
    constructor; [exact Hs|by apply Hn|exact Ho|]. destruct Ht as [Ht|]; [left|by right]. simpl. by rewrite Ht.
  - intros j r seed Hj He Ht Hseed Hh Hname. destruct Hreq as (_ & _ & Hq & Hat).
    eapply seeds_pass; try done. by eapply query_labels_bytes.
Qed.

(** C3: when [generate-load] on an accepted configuration reports success,
    with the template of the repository, no token in the strings of the
    configuration, and a kernel that reports success of an update only when the map
    has taken it, the source that was written is the template filled for the
    configuration, a tail call with the index of a tail-call route jumps to its
    program (unless a later route has the index), and every packet with a query
    that the router then sees with the maps in the kernel is treated as configured:
    denied sources are dropped; if the routes have different hashes, a query for
    the domain of a route that is not denied and within the limits reaches the
    route; and the seeds of a Bloom filter without time windows pass it, if their
    hash is not 0.  This holds whatever the maps of an earlier load held. *)
Theorem generate_load_deploys (opts : list bytes) (path : bytes) (ifname : option bytes) (cfg : zereh_config)
    (tr tr' : trace) :
  honest fresh before answer ->
  (forall p, 0 <= program_fd p -> fd_program (program_fd p) = Some p) ->
  (forall a, bpf_map_lookup_elem (k_blacklist fresh) (LpmV4Key 32 a) = None) ->
  parse_options opts (str "config.yaml") None = Some (path, ifname) ->
  zereh_parse_config_yaml yaml_load path = Some cfg -> config_bytes cfg -> plain_config cfg ->
  read_file (c_template_path cfg) = Some (fill tokens xdp_template) ->
  run (argv0 :: str "generate-load" :: opts) tr = (0, tr') ->
  let k := kernel fresh before tr' in
  (exists text, (WriteFile (c_generated_source cfg) text, 0) ∈ tr' /\ filled_source cfg text) /\
  tails_installed cfg (k_prog_array k) /\
  forall (st : dp_state BL PB RS) (pkt : bytes) (udp : nat) (q : dns_query),
    ip_blacklist st = k_blacklist k -> pow_bloom st = k_bloom k ->
    Forall is_byte pkt -> Z.of_nat (length pkt) < 2 ^ 32 -> dns_request pkt udp q ->
    as_configured cfg st pkt udp q.
Proof.
  intros Hh Hfd Hf Ho Hc Hb Hp Ht Hrun k. pose proof (config_yaml_wf yaml_load path cfg Hc) as Hw.
  rewrite (main_generate_load answer alloc junk read_file yaml_load arch find_program program_fd time version
    revision timestamp argv0 opts path ifname cfg Ho Hc) in Hrun.
  pose proof (triple_generate_load fresh before answer Hh find_program program_fd time alloc junk read_file arch
    cfg ifname tr I) as Hs.
  rewrite Hrun in Hs. specialize (Hs eq_refl). cbn [snd] in Hs. fold k in Hs. split; [|split].
  - destruct (emits_generate_load answer alloc junk read_file arch find_program program_fd time cfg ifname Hw Hb tr)
      as (status & evs & E & Hpipe).
    rewrite Hrun in E. injection E as <- ->. destruct Hpipe as [[? _]|(e1 & e2 & e3 & -> & Hg & _)]; [done|].
    destruct Hg as (t & text & Ht' & _ & _ & Hfill & ->). rewrite Ht in Ht'. injection Ht' as <-.
    exists text. split; [apply elem_of_app; right; left|]. by apply Hfill.
  - by apply seeded_tails.
  - intros st pkt udp q E1 E2 Hb' Hl Hreq. by eapply seeded_as_configured.
Qed.
End deployment.

(** ** Witness *)

(** The two programs of the template, as an object has them. *)
Inductive sample_program : Type := RouterProgram | DefaultApp.

Definition sample_find (name : bytes) : option sample_program :=
  if decide (name = str "xdp_router") then Some RouterProgram
  else if decide (name = str "zereh_app_default") then Some DefaultApp else None.
Definition sample_fd (p : sample_program) : Z := match p with RouterProgram => 5 | DefaultApp => 6 end.
Definition sample_fd_program (fd : Z) : option sample_program :=
  if fd =? 5 then Some RouterProgram else if fd =? 6 then Some DefaultApp else None.

Lemma sample_fds p : 0 <= sample_fd p -> sample_fd_program (sample_fd p) = Some p.
Proof. by destruct p. Qed.

Definition sample_maps : kernel_maps (lpm_list Z) (farray 1024 Z) (prog_table sample_fd_program 64) :=
  KernelMaps [] (fun _ => 0) (fun _ => None).

Lemma sample_maps_empty a : bpf_map_lookup_elem (k_blacklist sample_maps) (LpmV4Key 32 a) = None.
Proof. done. Qed.

(** A kernel that grants every request its maps can take. *)
Section map_kernel.
Context {BL PB PA P : Type} `{!BpfMap BL lpm_v4_key Z, !BpfMap PB Z Z, !BpfProgArray PA P}.
Context (fresh : kernel_maps BL PB PA).

Definition map_kernel (tr : trace) (c : call) : Z :=
  let k := kernel fresh fresh tr in
  match c with
  | UpdateBlacklist key v => if bpf_map_update_elem (k_blacklist k) key v is Some _ then 0 else -1
  | UpdateBloom key v => if bpf_map_update_elem (k_bloom k) key v is Some _ then 0 else -1
  | UpdateProgArray key v => if prog_array_update_elem (k_prog_array k) key v is Some _ then 0 else -1
  | FindMap _ => 1
  | _ => granting tr c
  end.

Lemma map_kernel_honest : honest fresh fresh map_kernel.
Proof.
  constructor; intros tr; [..|done]; intros k v; cbn [map_kernel];
    [by destruct (bpf_map_update_elem _ k v)..|by destruct (prog_array_update_elem _ k v)].
Qed.
End map_kernel.

Local Abbreviation sample_kernel := (map_kernel sample_maps).

Local Abbreviation sample_run :=
  (main sample_kernel (fun _ => true) 0 (fun _ => Some (fill tokens xdp_template)) sample_yaml X86_64
    sample_find sample_fd (fun _ => 0) true (str "1") (str "r") (str "t")
    [str "zereh"; str "generate-load"; str "-c"; str "z.yaml"] []).

Lemma sample_run_ok : sample_run = (0, sample_run.2).
Proof.
  assert (sample_run.1 = 0) as E by (vm_compute; reflexivity).
  revert E. generalize sample_run. intros [status tr] E. cbn [fst snd] in *. by rewrite E.
Qed.

Lemma generate_load_deploys_witness :
  exists st : dp_state (lpm_list Z) (farray 1024 Z) (farray 1 rate_state),
    ip_blacklist st = k_blacklist (kernel sample_maps sample_maps sample_run.2) /\
    configured_router (fun _ => 0) (fun q => q) (fun _ => false) sample_config st sample_packet
      = Ret (Exit XDP_DROP, sample_packet, st).
Proof.
  destruct (generate_load_deploys (RS := farray 1 rate_state) sample_fd_program sample_maps sample_maps sample_kernel
    (fun _ => true) 0 (fun _ => Some (fill tokens xdp_template)) sample_yaml X86_64 sample_find sample_fd
    (fun _ => 0) (str "1") (str "r") (str "t") (str "zereh") (fun _ => 0) (fun q => q) (fun _ => false)
    [str "-c"; str "z.yaml"] (str "z.yaml") None sample_config [] sample_run.2
    (map_kernel_honest sample_maps) sample_fds sample_maps_empty ltac:(vm_compute; reflexivity) sample_yaml_config
    sample_config_bytes ltac:(by_compute) eq_refl sample_run_ok) as (_ & _ & H).
  assert (forall st : dp_state (lpm_list Z) (farray 1024 Z) (farray 1 rate_state),
    ip_blacklist st = k_blacklist (kernel sample_maps sample_maps sample_run.2) ->
    pow_bloom st = k_bloom (kernel sample_maps sample_maps sample_run.2) ->
    configured_router (fun _ => 0) (fun q => q) (fun _ => false) sample_config st sample_packet
      = Ret (Exit XDP_DROP, sample_packet, st)) as Hd.
  { intros st E1 E2. apply (ac_denied _ _ _ _ _ _ _ _ (H st sample_packet 34%nat sample_query E1 E2
      sample_packet_bytes sample_length sample_request)).
    exists (str "10.0.0.0/8"), (LpmV4Key 8 10). split; [by_compute|]. split; vm_compute; reflexivity. }
  clear H. revert Hd. generalize (kernel sample_maps sample_maps sample_run.2). intros k Hd.
  exists (DpState (k_blacklist k) (k_bloom k) (fun _ => RateState 0 0) 0%nat). split; [reflexivity|].
  by apply Hd.
Defined.
