(* ===== verification/MapSizes.v ===== *)
(** * xdp/xdp_template.c: the maps and their sizes

    The maps that the template declares, read from its text, and what their sizes
    mean for the loader: the limits of the configuration, the constants of the
    loader and the [max_entries] of the template are written in three places and
    have to agree, or seeding fails half-way. *)
From S2P Require Import Prelude CLib Hash DnsParser XdpHash BpfMaps XdpFilters XdpRouter Config Yaml.
From S2P Require Import Loader Attach Codegen CodegenSem System Template XdpTemplate Main Deploy.
#[local] Open Scope Z_scope.

(** ** The declarations *)

Inductive map_type : Type :=
  BPF_MAP_TYPE_LPM_TRIE | BPF_MAP_TYPE_XSKMAP | BPF_MAP_TYPE_PROG_ARRAY | BPF_MAP_TYPE_ARRAY
| BPF_MAP_TYPE_PERCPU_ARRAY.

Record map_decl : Type := MapDecl {
  md_name : bytes;
  md_type : map_type;
  md_entries : Z;
  md_key : bytes;
  md_value : bytes
}.

Definition template_maps (rate_state_entries : Z) : list map_decl :=
  [MapDecl (str "ip_blacklist") BPF_MAP_TYPE_LPM_TRIE 1024 (str "struct lpm_v4_key") (str "__u8");
   MapDecl (str "xsk_map") BPF_MAP_TYPE_XSKMAP 64 (str "__u32") (str "__u32");
   MapDecl (str "prog_array") BPF_MAP_TYPE_PROG_ARRAY 64 (str "__u32") (str "__u32");
   MapDecl (str "pow_bloom") BPF_MAP_TYPE_ARRAY ZEREH_BLOOM_WORDS (str "__u32") (str "__u64");
   MapDecl (str "route_rate_state") BPF_MAP_TYPE_PERCPU_ARRAY rate_state_entries (str "__u32")
     (str "struct rate_state")].

Definition entries_of (name : bytes) (maps : list map_decl) : Z :=
  match filter (fun d => md_name d = name) maps with d :: _ => md_entries d | [] => 0 end.

(** ** Reading them from the text *)

Definition fields : Type := list (bytes * bytes).

Fixpoint lines (fuel : nat) (s : bytes) : list bytes :=
  match fuel with
  | O => []
  | S fuel' =>
      match strchr_split s 10 with
      | Some (l, rest) => l :: lines fuel' rest
      | None => [s]
      end
  end.

Definition strip (p s : bytes) : option bytes :=
  if decide (take (length p) s = p) then Some (drop (length p) s) else None.

(** [__uint(name, value);] or [__type(name, value);] *)
Definition read_field (l : bytes) : option (bytes * bytes) :=
  body ← (match strip (str "    __uint(") l with Some b => Some b | None => strip (str "    __type(") l end);
  '(name, rest) ← strchr_split body 44;
  value ← strip (str " ") rest;
  '(value, _) ← strchr_split value 41;
  Some (name, value).

(** The anonymous structures of a text, with their names; [open] has the fields
    of the structure whose end is still to come. *)
Fixpoint read_structs (ls : list bytes) (open : option fields) : list (bytes * fields) :=
  match ls with
  | [] => []
  | l :: ls' =>
      match open with
      | None => read_structs ls' (if bool_decide (l = str "struct {") then Some [] else None)
      | Some fs =>
          match strip (str "} ") l with
          | Some tail =>
              match strchr_split tail 32 with Some (name, _) => [(name, fs)] | None => [] end ++ read_structs ls' None
          | None => read_structs ls' (Some (match read_field l with Some f => fs ++ [f] | None => fs end))
          end
      end
  end.

Definition field (name : bytes) (fs : fields) : option bytes :=
  match filter (fun f => f.1 = name) fs with f :: _ => Some f.2 | [] => None end.

Definition map_type_of (s : bytes) : option map_type :=
  if decide (s = str "BPF_MAP_TYPE_LPM_TRIE") then Some BPF_MAP_TYPE_LPM_TRIE
  else if decide (s = str "BPF_MAP_TYPE_XSKMAP") then Some BPF_MAP_TYPE_XSKMAP
  else if decide (s = str "BPF_MAP_TYPE_PROG_ARRAY") then Some BPF_MAP_TYPE_PROG_ARRAY
  else if decide (s = str "BPF_MAP_TYPE_ARRAY") then Some BPF_MAP_TYPE_ARRAY
  else if decide (s = str "BPF_MAP_TYPE_PERCPU_ARRAY") then Some BPF_MAP_TYPE_PERCPU_ARRAY
  else None.

(** A number, the macro that the generator sets, or a macro of the text. *)
Definition constant (rate_state_entries : Z) (text v : bytes) : option Z :=
  match c_number v with
  | Some n => Some n
  | None => if decide (v = str "ZEREH_RATE_STATE_ENTRIES") then Some rate_state_entries else macro v text
  end.

Definition read_decl (rate_state_entries : Z) (text : bytes) (s : bytes * fields) : option map_decl :=
  type ← (field (str "type") s.2 ≫= map_type_of);
  entries ← (field (str "max_entries") s.2 ≫= constant rate_state_entries text);
  key ← field (str "key") s.2;
  value ← field (str "value") s.2;
  Some (MapDecl s.1 type entries key value).

Lemma template_declares_maps n :
  let text := text_after_rate_state_entries in
  map (read_decl n text) (read_structs (lines (length text) text) None) = map Some (template_maps n).
Proof. vm_compute. reflexivity. Qed.

(** ** Room *)

(** An array map takes every value at every index below its size. *)
Class ArrayRoom (M V : Type) `{BpfMap M Z V} (max_entries : Z) : Prop :=
  array_room (m : M) (k : Z) (v : V) : 0 <= k < max_entries -> is_Some (bpf_map_update_elem m k v).

(** A program array takes the descriptor of a program at every index below its
    size. *)
Class ProgArrayRoom (M P : Type) `{BpfProgArray M P} (fd_program : Z -> option P) (max_entries : Z) : Prop :=
  prog_array_room (m : M) (k fd : Z) :
    0 <= k < max_entries -> is_Some (fd_program fd) -> is_Some (prog_array_update_elem m k fd).

(** A trie takes every key while it has less entries than its size, and an update
    adds at most one entry. *)
Class TrieRoom (M V : Type) `{BpfMap M lpm_v4_key V} (max_entries : Z) : Type := {
  trie_entries : M -> nat;
  trie_room (m : M) (k : lpm_v4_key) (v : V) :
    0 <= prefixlen k <= 32 -> Z.of_nat (trie_entries m) < max_entries ->
    exists m', bpf_map_update_elem m k v = Some m' /\ (trie_entries m' <= S (trie_entries m))%nat
}.

Section room.
Context {BL PB PA P : Type} (fd_program : Z -> option P).
Context `{!BpfMap BL lpm_v4_key Z, !BpfMap PB Z Z, !BpfProgArray PA P}.
Context (rate_state_entries : Z).
Local Abbreviation size := (fun name => entries_of name (template_maps rate_state_entries)).
Context `{!TrieRoom BL Z (size (str "ip_blacklist")), !ArrayRoom PB Z (size (str "pow_bloom"))}.
Context `{!ProgArrayRoom PA P fd_program (size (str "prog_array"))}.
Context (find_program : bytes -> option P) (program_fd : P -> Z) (time : nat -> Z).
Context (Hfds : forall p, 0 <= program_fd p -> fd_program (program_fd p) = Some p).
Context (cfg : zereh_config).

Lemma seed_blacklist_room (m : BL) l :
  Forall (fun cidr => is_Some (zereh_parse_cidr_v4 cidr)) l ->
  Z.of_nat (trie_entries m + length l) <= size (str "ip_blacklist") ->
  exists m', zereh_seed_blacklist_map map_update m l = (true, m').
Proof.
  intros Hl. revert m. induction Hl as [|cidr l [key Hk] _ IH]; intros m Hm; cbn [zereh_seed_blacklist_map]; [eauto|].
  cbn [length] in Hm. rewrite Hk. unfold map_update at 1.
  destruct (trie_room m key 1 (parse_cidr_prefix _ _ Hk)) as (m' & -> & He); [lia|]. cbn [negb]. apply IH. lia.
Qed.

Lemma write_words_room ws k (m : PB) :
  0 <= k -> k + Z.of_nat (length ws) <= size (str "pow_bloom") -> exists m', write_words map_update m k ws = (true, m').
Proof.
  revert k m. induction ws as [|w ws IH]; intros k m Hk Hl; cbn [write_words]; [eauto|]. cbn [length] in Hl.
  unfold map_update at 1. destruct (array_room m k w) as [m' ->]; [lia|]. cbn [negb]. apply IH; lia.
Qed.

Lemma seed_prog_room (m : PA) default rs :
  Forall (fun r => 0 <= r_prog_index r) rs ->
  Forall (fun r => is_Some (prog_entry find_program program_fd default r)) rs ->
  exists m', seed_prog_routes find_program program_fd prog_update m default rs = (true, m').
Proof.
  intros Hr Hs. revert m. induction rs as [|r rs IH]; intros m; cbn [seed_prog_routes]; [eauto|].
  apply Forall_cons in Hr as [Hr Hrs], Hs as [[e He] Hss]. specialize (IH Hrs Hss). rewrite He.
  destruct e as [[k v]|]; [|apply IH]. unfold prog_update at 1.
  assert (0 <= k < 64 /\ is_Some (fd_program v)) as [Hk Hv].
  { unfold prog_entry in He. destruct_if; [done|]. unfold ZEREH_PROG_ARRAY_MAX in He. destruct_if; [done|].
    apply bind_some_inv in He as ([prog name] & _ & He). destruct_if; [done|]. injection He as <- <-. split; [lia|].
    rewrite Hfds by lia. eauto. }
  destruct (prog_array_room m k v Hk Hv) as [m' ->]. cbn [negb]. apply IH.
Qed.

(** The maps of the template have room for every configuration that can be
    loaded. *)
Lemma maps_have_room (fresh : kernel_maps BL PB PA) ifname :
  config_wf cfg -> loadable find_program program_fd cfg ifname -> trie_entries (k_blacklist fresh) = 0%nat ->
  exists k, seeded fresh find_program program_fd time cfg k.
Proof.
  intros Hw Hlo H0.
  destruct (seed_blacklist_room (k_blacklist fresh) (c_blacklist cfg)) as [bl Hbl].
  { apply (lo_cidrs _ _ _ _ Hlo). }
  { rewrite H0. transitivity 1024; [|done].
    pose proof (cb_blacklist _ (cw_base _ Hw)) as Hc. unfold ZEREH_MAX_BLACKLIST in Hc. lia. }
  destruct (seed_bloom_returns map_update time (k_bloom fresh) cfg) as (ws & Hpb & Hlen).
  destruct (write_words_room ws 0 (k_bloom fresh)) as [pb Hws]; [done|by rewrite Hlen|]. rewrite Hws in Hpb.
  destruct (seed_prog_room (k_prog_array fresh) (find_program (str "zereh_app_default")) (c_routes cfg)) as [pa Hpa].
  { eapply Forall_impl; [exact (cw_routes _ Hw)|]. intros r [Hraw _ _ _ _]. apply (raw_index _ _ Hraw). }
  { apply (lo_tails _ _ _ _ Hlo). }
  by exists (KernelMaps bl pb pa).
Qed.
End room.

(** ** A load that finds room *)

Section roomy.
Context {BL PB PA P : Type}.
Context `{!BpfMap BL lpm_v4_key Z, !BpfMap PB Z Z, !BpfProgArray PA P}.
Context (fresh before : kernel_maps BL PB PA).
Local Abbreviation kernel := (kernel fresh before).

(** The kernel makes every update its maps can take. *)
Record obliging (answer : trace -> call -> Z) : Prop := {
  ob_blacklist tr k v : is_Some (bpf_map_update_elem (k_blacklist (kernel tr)) k v) ->
    answer tr (UpdateBlacklist k v) = 0;
  ob_bloom tr k v : is_Some (bpf_map_update_elem (k_bloom (kernel tr)) k v) -> answer tr (UpdateBloom k v) = 0;
  ob_prog tr k v : is_Some (prog_array_update_elem (k_prog_array (kernel tr)) k v) ->
    answer tr (UpdateProgArray k v) = 0
}.

Context (answer : trace -> call -> Z) (Ho : obliging answer).
Context (find_program : bytes -> option P) (program_fd : P -> Z) (time : nat -> Z).

(** A step of a map is one of the recorded calls, when these make it; [R] is the
    kernel with this map. *)
Lemma update_sim {M K} (update : M -> K -> Z -> option M) (c : K -> Z -> call) (R : M -> kernel_maps BL PB PA) :
  (forall tr m k v m', kernel tr = R m -> update m k v = Some m' ->
     answer tr (c k v) = 0 /\ kernel_event fresh (R m) (c k v, 0) = R m') ->
  simulates (fun m tr => kernel tr = R m)
    (fun m k v => match update m k v with Some m' => (true, m') | None => (false, m) end) (update_with answer c).
Proof.
  intros Hc m tr k v m' HR Hu. destruct (update m k v) as [m1|] eqn:E; [|done]. injection Hu as ->.
  destruct (Hc tr m k v m' HR E) as [Ha Hk]. unfold update_with, sys. rewrite Ha. eexists. split; [done|].
  by rewrite kernel_snoc, HR.
Qed.

(** The three maps, each with the other two as they are. *)
Ltac solve_update_sim ob :=
  apply update_sim; intros tr m k v m' HR Hu; split;
  [apply (ob _ Ho); rewrite HR; cbn [k_blacklist k_bloom k_prog_array]; by rewrite Hu
  |unfold kernel_event, map_update, prog_update; cbn [k_blacklist k_bloom k_prog_array Z.eqb]; by rewrite Hu].

Lemma update_blacklist_sim pb pa :
  simulates (fun m tr => kernel tr = KernelMaps m pb pa) map_update (update_with answer UpdateBlacklist).
Proof. solve_update_sim ob_blacklist. Qed.

Lemma update_bloom_sim bl pa :
  simulates (fun m tr => kernel tr = KernelMaps bl m pa) map_update (update_with answer UpdateBloom).
Proof. solve_update_sim ob_bloom. Qed.

Lemma update_prog_sim bl pb :
  simulates (fun m tr => kernel tr = KernelMaps bl pb m) prog_update (update_with answer UpdateProgArray).
Proof. solve_update_sim ob_prog. Qed.

Context (Hmaps : forall tr name, name ∈ [str "ip_blacklist"; str "pow_bloom"; str "prog_array"] ->
  answer tr (FindMap name) <> 0).

(** Looking up a map that is there leaves the maps alone. *)
Lemma seed_map_found name seed tr :
  name ∈ [str "ip_blacklist"; str "pow_bloom"; str "prog_array"] ->
  exists tr1, seed_map answer name seed tr = seed tr1 /\ kernel tr1 = kernel tr.
Proof.
  intros Hn. unfold seed_map, mbind, io_bind. cbn [sys].
  destruct (Z.eqb_spec (answer tr (FindMap name)) 0) as [E|_]; [by apply Hmaps in E|].
  eexists. split; [done|]. by rewrite kernel_snoc.
Qed.

Lemma seed_maps_room cfg k tr :
  kernel tr = fresh -> seeded fresh find_program program_fd time cfg k ->
  (seed_maps answer find_program program_fd time cfg tr).1 = true.
Proof.
  intros Hk [Hbl Hpb Hpa]. unfold seed_maps, mbind, io_bind.
  destruct (seed_map_found (str "ip_blacklist") (seed_blacklist answer cfg) tr) as (t1 & -> & H1); [by_compute|].
  assert (kernel t1 = KernelMaps (k_blacklist fresh) (k_bloom fresh) (k_prog_array fresh)) as H1'
    by (rewrite H1, Hk; by destruct fresh).
  destruct (seed_blacklist_sim _ _ _ _ _ t1 _ (update_blacklist_sim _ _) H1' Hbl) as (t2 & E2 & H2).
  unfold seed_blacklist. rewrite E2. cbn [negb].
  destruct (seed_map_found (str "pow_bloom") (seed_bloom answer time cfg) t2) as (t3 & -> & H3); [by_compute|].
  rewrite H2 in H3. destruct (seed_bloom_sim _ _ _ _ _ _ t3 _ (update_bloom_sim _ _) H3 Hpb) as (t4 & E4 & H4).
  unfold seed_bloom. rewrite E4. cbn [negb].
  destruct (seed_map_found (str "prog_array") (seed_programs answer find_program program_fd cfg) t4)
    as (t5 & -> & H5); [by_compute|].
  rewrite H4 in H5.
  destruct (seed_prog_sim _ find_program program_fd _ _ _ _ t5 _ (update_prog_sim _ _) H5 Hpa) as (t6 & E6 & _).
  unfold seed_programs. by rewrite E6.
Qed.
End roomy.

(** ** Properties *)

Section sizes.
Context {BL PB PA P : Type} (fd_program : Z -> option P).
Context `{!BpfMap BL lpm_v4_key Z, !BpfMap PB Z Z, !BpfProgArray PA P}.
Context (fresh before : kernel_maps BL PB PA) (answer : trace -> call -> Z).
Context (find_program : bytes -> option P) (program_fd : P -> Z) (time : nat -> Z).
Context (cfg : zereh_config).
Local Abbreviation maps := (template_maps (tp_rate_state_entries (params_of_config cfg))).
Context `{!TrieRoom BL Z (entries_of (str "ip_blacklist") maps), !ArrayRoom PB Z (entries_of (str "pow_bloom") maps)}.
Context `{!ProgArrayRoom PA P fd_program (entries_of (str "prog_array") maps)}.

(** C22: the maps that the template declares have room for every accepted
    configuration whose CIDRs and programs are valid.  When the descriptor of a
    program refers to it, and the kernel makes every update that maps of these sizes
    can take (the program array only takes descriptors of programs) and grants the
    other requests, a load succeeds in the requested mode and leaves the maps
    seeded; and each route has its own counter in the map of rate states. *)
Theorem declared_maps_have_room (ifname_override : option bytes) (tr : trace) :
  config_wf cfg -> loadable find_program program_fd cfg (choose_ifname cfg ifname_override) ->
  (forall p, 0 <= program_fd p -> fd_program (program_fd p) = Some p) ->
  trie_entries (k_blacklist fresh) = 0%nat ->
  willing answer -> honest fresh before answer -> obliging fresh before answer ->
  (exists tr', zereh_load_and_swap_xdp answer find_program program_fd time cfg ifname_override tr =
       (Some (c_xdp_mode cfg), tr') /\
     seeded fresh find_program program_fd time cfg (kernel fresh before tr')) /\
  forall i b, blocks_of_config cfg !! i = Some b ->
    route_id (rb_filters b) = Z.of_nat i /\ Z.of_nat i < entries_of (str "route_rate_state") maps.
Proof.
  intros Hw Hlo Hfds H0 Hwi Hh Ho. split.
  - destruct (maps_have_room fd_program _ find_program program_fd time Hfds cfg fresh _ Hw Hlo H0) as [k Hk].
    pose proof (always_load answer find_program program_fd time cfg ifname_override Hwi Hlo) as Hl.
    pose proof (triple_load fresh before answer Hh find_program program_fd time cfg ifname_override tr I) as Ht.
    specialize (Hl (fun tr0 => seed_maps_room fresh before answer Ho find_program program_fd time (ho_maps _ _ _ Hh)
      cfg k _ (kernel_snoc fresh before tr0 (ObjectLoad, 0)) Hk) tr).
    destruct (zereh_load_and_swap_xdp _ _ _ _ _ _ tr) as [r tr']. cbn [fst snd] in *. subst r. eauto.
  - intros i b Hi. unfold blocks_of_config in Hi. rewrite list_lookup_imap in Hi.
    apply fmap_Some in Hi as (r & Hr & ->). split; [done|]. apply lookup_lt_Some in Hr.
    unfold params_of_config. cbn [tp_rate_state_entries entries_of].
    change (Z.of_nat i < if (length (c_routes cfg) =? 0)%nat then 1 else Z.of_nat (length (c_routes cfg))).
    destruct (Nat.eqb_spec (length (c_routes cfg)) 0); lia.
Qed.
End sizes.

(** ** Witness *)

(** A trie of at most [max] entries. *)
Definition lpm_table (max : Z) (V : Type) : Type := lpm_list V.

(** The entries with other keys. *)
Definition others {V} (k : lpm_v4_key) (m : lpm_list V) : lpm_list V := filter (fun e => e.1 <> k) m.

Lemma length_others {V} k (m : lpm_list V) : (length (others k m) <= length m)%nat.
Proof. apply length_filter. Qed.

#[global] Instance lpm_table_map max V : BpfMap (lpm_table max V) lpm_v4_key V := {|
  bpf_map_lookup_elem m k := snd <$> lpm_find m (addr k);
  bpf_map_store m k v := (k, v) :: m;
  bpf_map_update_elem m k v :=
    if (0 <=? prefixlen k) && (prefixlen k <=? 32) && (Z.of_nat (length (others k m)) <? max)
    then Some ((k, v) :: others k m) else None
|}.

#[global] Instance lpm_table_room max V : TrieRoom (lpm_table max V) V max.
Proof.
  refine {| trie_entries m := length m |}. intros m k v Hk Hm. cbn [bpf_map_update_elem lpm_table_map].
  pose proof (length_others k m).
  replace (_ && _) with true by lia. eexists. split; [done|]. cbn [length]. lia.
Defined.

#[global] Instance farray_room max V : ArrayRoom (farray max V) V max.
Proof. intros m k v Hk. cbn [bpf_map_update_elem farray_map]. replace (_ && _) with true by lia. eauto. Qed.

#[global] Instance prog_table_room {P} (fd_program : Z -> option P) max :
  ProgArrayRoom (prog_table fd_program max) P fd_program max.
Proof.
  intros m k fd Hk [p Hp]. cbn [prog_array_update_elem prog_table_array]. replace (_ && _) with true by lia.
  rewrite Hp. eauto.
Qed.

Section map_kernel_laws.
Context {BL PB PA P : Type} `{!BpfMap BL lpm_v4_key Z, !BpfMap PB Z Z, !BpfProgArray PA P}.
Context (fresh : kernel_maps BL PB PA).

Lemma map_kernel_willing : willing (map_kernel fresh).
Proof. constructor; try done; [by intros tr []|by right]. Qed.

Lemma map_kernel_obliging : obliging fresh fresh (map_kernel fresh).
Proof. constructor; intros tr k v [m E]; cbn [map_kernel]; by rewrite E. Qed.
End map_kernel_laws.

Definition sized_maps :
    kernel_maps (lpm_table 1024 Z) (farray 1024 Z) (prog_table sample_fd_program 64) :=
  KernelMaps [] (fun _ => 0) (fun _ => None).

Lemma declared_maps_have_room_witness :
  exists tr', zereh_load_and_swap_xdp (map_kernel sized_maps) sample_find sample_fd (fun _ => 0)
    sample_config (Some (str "eth1")) [] = (Some ZEREH_XDP_MODE_NATIVE, tr').
Proof.
  destruct (declared_maps_have_room sample_fd_program sized_maps sized_maps (map_kernel sized_maps) sample_find
    sample_fd (fun _ => 0) sample_config (Some (str "eth1")) []) as [(tr' & E & _) _].
  - exact sample_config_wf.
  - constructor.
    + by_compute.
    + by_compute.
    + by eexists.
    + by_compute.
  - exact sample_fds.
  - reflexivity.
  - apply map_kernel_willing.
  - apply map_kernel_honest.
  - apply map_kernel_obliging.
  - exists tr'. exact E.
Defined.

(** A configuration with one network too many cannot be seeded: the bound is the
    size of the map. *)
Example trie_full :
  (zereh_seed_blacklist_map map_update ([] : lpm_table 1 Z) [str "10.0.0.0/8"; str "11.0.0.0/8"]).1 = false.
Proof. vm_compute. reflexivity. Qed.

(** The number of a queue is not compared with the size of [xsk_map]: this route
    to queue 64 is accepted, and its redirection finds no socket. *)
Definition queue_nodes : list yaml_node := [
  YAML_MAPPING_NODE [(2, 3)];
  YAML_SCALAR_NODE (str "routes"); YAML_SEQUENCE_NODE [4];
  YAML_MAPPING_NODE [(5, 6); (7, 8); (9, 10)];
  YAML_SCALAR_NODE (str "domain"); YAML_SCALAR_NODE (str "t.example.com");
  YAML_SCALAR_NODE (str "target"); YAML_SCALAR_NODE (str "user_space");
  YAML_SCALAR_NODE (str "xsk_queue"); YAML_SCALAR_NODE (str "64")
].

Example queue_beyond_map :
  let doc := YamlDocument (fun i => if i <=? 0 then None else queue_nodes !! Z.to_nat (i - 1)) (head queue_nodes) in
  match zereh_parse_config_yaml (fun _ => Some doc) (str "config.yaml") with
  | Some cfg => map r_xsk_queue (c_routes cfg) = [entries_of (str "xsk_map") (template_maps 1)]
  | None => False
  end.
Proof. vm_compute. reflexivity. Qed.
