(* ===== verification/Rx.v ===== *)
(** * apps/zereh_rx.c: the AF_XDP receiver

    The receiver gives every frame of its buffer to the kernel through the fill
    ring, takes received frames from the RX ring in batches, and gives each
    back.  The rings are those of libbpf (bpf/xsk.h): bounded queues between the
    receiver and the kernel.  The state is the rings, the frames the kernel
    holds, and where the receiver stands; an event is a move of the kernel, a
    signal, an answer of [poll], or the receiver's next instruction.  The
    diagnostics on stderr are left out. *)
From S2P Require Import Prelude CLib.
From Stdlib Require Import Permutation.
#[local] Open Scope Z_scope.

Definition NUM_FRAMES : Z := 4096.
Definition RX_BATCH_SIZE : nat := 64.
(** [rx_size] of the socket's configuration. *)
Definition RX_SIZE : nat := 2048.

Definition EINTR : Z := 4.

(** ** Setting up and cleaning up *)

(** Which of the pointers of the context are set. *)
Record zereh_xsk_ctx : Type := XskCtx { ctx_buffer : bool; ctx_umem : bool; ctx_xsk : bool }.

Inductive resource : Type := Buffer | Umem | Socket.

(** [posix_memalign], [xsk_umem__create], [xsk_socket__create] and the
    reservation of the whole fill ring succeed or not. *)
Definition zereh_init_xsk (memalign umem socket reserve : bool) : bool * zereh_xsk_ctx :=
  if negb memalign then (false, XskCtx false false false)
  else if negb umem then (false, XskCtx true false false)
  else if negb socket then (false, XskCtx true true false)
  else if negb reserve then (false, XskCtx true true true)
  else (true, XskCtx true true true).

(** What is released, in order; [free(NULL)] does nothing. *)
Definition zereh_cleanup_xsk (ctx : zereh_xsk_ctx) : list resource :=
  (if ctx_xsk ctx then [Socket] else []) ++ (if ctx_umem ctx then [Umem] else []) ++
  (if ctx_buffer ctx then [Buffer] else []).

(** ** The receiver *)

Fixpoint remove_first (x : Z) (l : list Z) : list Z :=
  match l with
  | [] => []
  | y :: l' => if x =? y then l' else y :: remove_first x l'
  end.

(** Where the receiver stands: before the test of [g_stop], in [poll], before
    descriptor [i] of a batch of [rcvd], in the loop that reserves a slot for
    [addr], or after the loop. *)
Inductive rx_pc : Type :=
| LoopHead
| Polling
| Fetching (rcvd i : nat)
| Reserving (rcvd i : nat) (addr : Z)
| Exited.

#[global] Instance rx_pc_eq_dec : EqDecision rx_pc.
Proof. solve_decision. Defined.

Record rx_state : Type := RxState {
  fill : list Z;              (* addresses in the fill ring, oldest first *)
  kernel : list Z;            (* frames the kernel has taken *)
  lag : nat;                  (* slots of the fill ring it has read and not yet returned *)
  rx : list Z;                (* addresses of the descriptors in the RX ring *)
  g_stop : bool;
  packet_count : Z;
  pc : rx_pc;
  printed : list bytes;
  released : list resource
}.

#[global] Instance rx_state_eta : Eta rx_state := fun x =>
  RxState (fill x) (kernel x) (lag x) (rx x) (g_stop x) (packet_count x) (pc x) (printed x) (released x).

Inductive rx_event : Type :=
| KernelTake                  (* the kernel takes the oldest address of the fill ring *)
| KernelReturn                (* it publishes how far it has read the fill ring *)
| KernelGive (addr : Z)       (* it puts a descriptor in the RX ring *)
| Signal
| PollFails (errno : Z)
| PollReturns (seen : nat)    (* the receiver sees [seen] descriptors *)
| Run.                        (* the receiver's next instruction *)

Section receiver.
(** [FRAME_SIZE] is [XSK_UMEM__DEFAULT_FRAME_SIZE] of bpf/xsk.h. *)
Context (FRAME_SIZE : Z).

(** The frame an address lies in: the kernel writes a packet anywhere in it. *)
Definition frame (addr : Z) : Z := addr / FRAME_SIZE.

(** The loop of [zereh_init_xsk]: [i * FRAME_SIZE] for each [i]. *)
Definition initial_fill : list Z := map (fun i => u32 (i * FRAME_SIZE)) (seqZ 0 NUM_FRAMES).

(** [printf] before the loop. *)
Definition listening_line (ifname : bytes) (queue_id : Z) : bytes :=
  str "zereh_rx listening on if=" ++ ifname ++ str " queue=" ++ fmt_u queue_id ++ [10].

Definition rx_init (ifname : bytes) (queue_id : Z) : rx_state :=
  RxState initial_fill [] 0 [] false 0 LoopHead [listening_line ifname queue_id] [].

(** [main] up to the loop: [inl] is the end with status 1 and what was released
    before it.  [strtoul] without a number gives 0. *)
Definition rx_main (argv : list bytes) (memalign umem socket reserve : bool) : list resource + rx_state :=
  match argv with
  | _ :: ifname :: queue :: _ =>
      let queue_id := u32 (match strtoul queue with Some (v, _) => v | None => 0 end) in
      match zereh_init_xsk memalign umem socket reserve with
      | (false, ctx) => inl (zereh_cleanup_xsk ctx)
      | (true, _) => inr (rx_init ifname queue_id)
      end
  | _ => inl []
  end.

Definition exit_line (count : Z) : bytes := str "zereh_rx exiting packets=" ++ fmt_u count ++ [10].
Definition count_line (count : Z) : bytes := str "zereh_rx packets=" ++ fmt_u count ++ [10].

(** After the loop. *)
Definition leave (s : rx_state) : rx_state :=
  s <| pc := Exited |> <| printed := printed s ++ [exit_line (packet_count s)] |>
    <| released := zereh_cleanup_xsk (XskCtx true true true) |>.

(** The end of a batch: the descriptors are released. *)
Definition release (rcvd : nat) (s : rx_state) : rx_state :=
  let s := s <| rx := drop rcvd (rx s) |> <| pc := LoopHead |> in
  if packet_count s mod 1024 =? 0
  then s <| printed := printed s ++ [count_line (packet_count s)] |> else s.

(** [None]: the event cannot happen in this state. *)
Definition rx_step (e : rx_event) (s : rx_state) : option rx_state :=
  match e, pc s with
  | KernelTake, _ =>
      match fill s with
      | addr :: fill' => Some (s <| fill := fill' |> <| kernel := frame addr :: kernel s |> <| lag := S (lag s) |>)
      | [] => None
      end
  | KernelReturn, _ => Some (s <| lag := 0%nat |>)
  | KernelGive addr, _ =>
      if bool_decide (frame addr ∈ kernel s) && (length (rx s) <? RX_SIZE)%nat
      then Some (s <| kernel := remove_first (frame addr) (kernel s) |> <| rx := rx s ++ [addr] |>)
      else None
  | Signal, _ => Some (s <| g_stop := true |>)
  | Run, LoopHead => Some (if g_stop s then leave s else s <| pc := Polling |>)
  | PollFails errno, Polling => Some (if errno =? EINTR then s <| pc := LoopHead |> else leave s)
  | PollReturns seen, Polling =>
      if (length (rx s) <? seen)%nat then None
      else
        let rcvd := Nat.min RX_BATCH_SIZE seen in
        Some (if (rcvd =? 0)%nat then s <| pc := LoopHead |> else s <| pc := Fetching rcvd 0 |>)
  | Run, Fetching rcvd i =>
      if (i <? rcvd)%nat then
        addr ← rx s !! i;
        Some (s <| packet_count := u64 (packet_count s + 1) |> <| pc := Reserving rcvd i addr |>)
      else Some (release rcvd s)
  | Run, Reserving rcvd i addr =>
      (* xsk_ring_prod__reserve(&fq, 1, ...) returns 1 when a slot is free *)
      if (length (fill s) + lag s <? Z.to_nat NUM_FRAMES)%nat
      then Some (s <| fill := fill s ++ [addr] |> <| pc := Fetching rcvd (i + 1) |>)
      else Some s
  | _, _ => None
  end.

Fixpoint rx_run (es : list rx_event) (s : rx_state) : option rx_state :=
  match es with
  | [] => Some s
  | e :: es' => s ← rx_step e s; rx_run es' s
  end.

(** ** Every frame has one owner *)

(** The descriptors of the RX ring whose frames are not given back yet. *)
Definition pending (s : rx_state) : list Z :=
  drop (match pc s with Fetching _ i | Reserving _ i _ => i | _ => 0%nat end) (rx s).

(** The frames, by owner: the fill ring, the kernel, the receiver. *)
Definition owned (s : rx_state) : list Z :=
  map frame (fill s) ++ kernel s ++ map frame (pending s).

Definition pc_ok (s : rx_state) : Prop :=
  match pc s with
  | Fetching rcvd i => (i <= rcvd <= length (rx s))%nat /\ (1 <= rcvd <= RX_BATCH_SIZE)%nat
  | Reserving rcvd i addr =>
      (i < rcvd <= length (rx s))%nat /\ (1 <= rcvd <= RX_BATCH_SIZE)%nat /\ rx s !! i = Some addr
  | _ => True
  end.

Record rx_inv (s : rx_state) : Prop := {
  ri_owned : owned s ≡ₚ seqZ 0 NUM_FRAMES;
  ri_pc : pc_ok s;
  ri_ring : (length (rx s) <= RX_SIZE)%nat;
  ri_fill : (length (fill s) + lag s <= Z.to_nat NUM_FRAMES)%nat;
  ri_released : released s = if decide (pc s = Exited) then [Socket; Umem; Buffer] else [];
  ri_count : word 64 (packet_count s)
}.

Lemma remove_first_perm x l : x ∈ l -> l ≡ₚ x :: remove_first x l.
Proof.
  induction l as [|y l IH]; intros Hx; [by apply not_elem_of_nil in Hx|]. cbn [remove_first].
  destruct (Z.eqb_spec x y) as [->|Hne]; [done|]. apply elem_of_cons in Hx as [?|Hx]; [done|].
  rewrite (IH Hx) at 1. constructor.
Qed.

Lemma initial_frames : 0 < FRAME_SIZE -> NUM_FRAMES * FRAME_SIZE <= 2 ^ 32 -> map frame initial_fill = seqZ 0 NUM_FRAMES.
Proof.
  intros H0 H32. unfold initial_fill. rewrite map_map. rewrite <- (map_id (seqZ 0 NUM_FRAMES)) at 2.
  apply map_ext_in. intros i Hi%list_elem_of_In%elem_of_seqZ. unfold frame.
  rewrite u32_id by (unfold word; nia). apply Z.div_mul. lia.
Qed.

Lemma rx_init_inv ifname queue_id :
  0 < FRAME_SIZE -> NUM_FRAMES * FRAME_SIZE <= 2 ^ 32 -> rx_inv (rx_init ifname queue_id).
Proof.
  intros H0 H32. constructor; [|done| | |done|unfold word; cbn [packet_count rx_init]; lia].
  - unfold owned, rx_init. cbn [fill kernel pending pc rx drop map app]. by rewrite app_nil_r, initial_frames.
  - apply Nat.le_0_l.
  - unfold rx_init, initial_fill. cbn [fill lag]. rewrite length_map, length_seqZ. lia.
Qed.

(** The receiver never holds a frame while the fill ring is full. *)
Lemma fill_has_room s : rx_inv s -> pending s <> [] -> (length (fill s) < Z.to_nat NUM_FRAMES)%nat.
Proof.
  intros [Ho _ _ _ _ _] Hp. apply Permutation_length in Ho. unfold owned in Ho.
  rewrite !length_app, !length_map, length_seqZ in Ho. destruct (pending s); [done|]. simpl in Ho. lia.
Qed.

(** A state that differs in nothing the invariant speaks of but the position. *)
Lemma rx_inv_pc s s' :
  rx_inv s -> fill s' = fill s -> kernel s' = kernel s -> lag s' = lag s -> rx s' = rx s ->
  word 64 (packet_count s') -> pending s' = pending s -> pc_ok s' ->
  released s' = (if decide (pc s' = Exited) then [Socket; Umem; Buffer] else []) -> rx_inv s'.
Proof.
  intros [Ho _ Hr Hf _ _] E1 E2 E5 E3 Hc E4 Hp Hl. constructor; rewrite ?E1, ?E3, ?E5; try done.
  unfold owned in *. by rewrite E1, E2, E4.
Qed.

Lemma leave_inv s : rx_inv s -> pending (leave s) = pending s -> rx_inv (leave s).
Proof. intros H Hp. apply (rx_inv_pc s); try done. apply H. Qed.

Lemma release_inv rcvd s : rx_inv s -> pc s = Fetching rcvd rcvd -> rx_inv (release rcvd s).
Proof.
  intros [Ho Hp Hr Hf Hl Hc] Hpc. unfold release. rewrite Hpc in Hl. cbn in Hl.
  assert (rx_inv (s <| rx := drop rcvd (rx s) |> <| pc := LoopHead |>)) as H.
  { constructor; try done.
    - unfold owned, pending in *. cbn. rewrite Hpc in Ho. by rewrite drop_0.
    - cbn. rewrite length_drop. lia. }
  cbn zeta. destruct (_ =? 0); [|exact H]. apply (rx_inv_pc _ _ H); try done; apply H.
Qed.

Lemma take_inv s addr fill' :
  rx_inv s -> fill s = addr :: fill' ->
  rx_inv (s <| fill := fill' |> <| kernel := frame addr :: kernel s |> <| lag := S (lag s) |>).
Proof.
  intros [Ho Hp Hr Hn Hl Hc] Hf. rewrite Hf in Hn. constructor; try done; [|cbn in *; lia].
  unfold owned in *. rewrite Hf in Ho. cbn in *. rewrite <- Ho. symmetry. apply Permutation_middle.
Qed.

Lemma give_inv s addr :
  rx_inv s -> frame addr ∈ kernel s -> (length (rx s) < RX_SIZE)%nat ->
  rx_inv (s <| kernel := remove_first (frame addr) (kernel s) |> <| rx := rx s ++ [addr] |>).
Proof.
  intros [Ho Hp Hr Hn Hl Hc] Hk Hrx. constructor; try done; [| |cbn; rewrite length_app; simpl; lia].
  - unfold owned, pending in *. cbn. rewrite drop_app_le by (unfold pc_ok in Hp; destruct (pc s); lia).
    rewrite <- Ho. apply Permutation_app_head. rewrite map_app.
    transitivity ((frame addr :: remove_first (frame addr) (kernel s)) ++
      map frame (drop (match pc s with Fetching _ i | Reserving _ i _ => i | _ => 0%nat end) (rx s)));
      [|apply Permutation_app_tail; symmetry; by apply remove_first_perm].
    rewrite app_assoc. symmetry. apply Permutation_cons_append.
  - unfold pc_ok in *. cbn. destruct (pc s); try done; rewrite length_app; cbn [length]; [lia|].
    destruct Hp as (? & ? & Hi). split_and!; [lia..|]. by apply lookup_app_l_Some.
Qed.

Lemma refill_inv s rcvd i addr :
  rx_inv s -> pc s = Reserving rcvd i addr -> (length (fill s) + lag s < Z.to_nat NUM_FRAMES)%nat ->
  rx_inv (s <| fill := fill s ++ [addr] |> <| pc := Fetching rcvd (i + 1) |>).
Proof.
  intros [Ho Hp Hr Hn Hl Hc] Hpc Hroom. unfold pc_ok in Hp. rewrite Hpc in Hp, Hl.
  destruct Hp as (? & ? & Hi). constructor; try done; [|cbn; lia|cbn; rewrite length_app; simpl; lia].
  unfold owned, pending in *. rewrite Hpc in Ho. cbn. rewrite Nat.add_1_r, map_app, <- app_assoc.
  rewrite (drop_S _ _ _ Hi) in Ho. rewrite <- Ho. apply Permutation_app_head. cbn [map app]. apply Permutation_middle.
Qed.

Lemma rx_step_inv e s s' : rx_inv s -> rx_step e s = Some s' -> rx_inv s'.
Proof.
  intros H Hs. pose proof H as [Ho Hp Hr Hn Hl Hc]. unfold pc_ok in Hp. unfold rx_step in Hs.
  destruct e as [| |addr| |errno|seen|].
  - destruct (fill s) as [|addr fill'] eqn:E; [done|]. injection Hs as <-. by apply take_inv.
  - injection Hs as <-. constructor; try done. cbn. lia.
  - destruct (bool_decide _ && _) eqn:E; [|done]. injection Hs as <-.
    apply andb_true_iff in E as [E1%bool_decide_eq_true E2%Nat.ltb_lt].
    by apply give_inv.
  - injection Hs as <-. by apply (rx_inv_pc s).
  - destruct (pc s) eqn:E; try done. injection Hs as <-.
    destruct (errno =? EINTR); [apply (rx_inv_pc s)|apply leave_inv]; try done; unfold pending; by rewrite E.
  - destruct (pc s) eqn:E; try done. destruct (Nat.ltb_spec (length (rx s)) seen); [done|]. apply (inj Some) in Hs as <-.
    destruct (Nat.eqb_spec (Nat.min RX_BATCH_SIZE seen) 0); apply (rx_inv_pc s); try done;
      try (unfold pending; by rewrite E).
    change ((0 <= Nat.min RX_BATCH_SIZE seen <= length (rx s))%nat /\
            (1 <= Nat.min RX_BATCH_SIZE seen <= RX_BATCH_SIZE)%nat). lia.
  - destruct (pc s) as [| |rcvd i|rcvd i addr|] eqn:E; try done.
    + injection Hs as <-. destruct (g_stop s); [apply leave_inv|apply (rx_inv_pc s)]; try done; unfold pending; by rewrite E.
    + destruct (Nat.ltb_spec i rcvd).
      * destruct (rx s !! i) as [addr|] eqn:Hi; [|done]. injection Hs as <-. apply (rx_inv_pc s); try done.
        -- apply u64_word.
        -- unfold pending. by rewrite E.
        -- cbn. split_and!; [lia..|done].
      * injection Hs as <-. apply release_inv; [done|]. rewrite E. f_equal. lia.
    + destruct (Nat.ltb_spec (length (fill s) + lag s) (Z.to_nat NUM_FRAMES)); injection Hs as <-; [|done].
      by apply refill_inv.
Qed.

Lemma rx_run_inv es s s' : rx_inv s -> rx_run es s = Some s' -> rx_inv s'.
Proof.
  revert s. induction es as [|e es IH]; intros s H Hs; cbn [rx_run] in Hs; [by injection Hs as <-|].
  destruct (rx_step e s) as [s1|] eqn:E; [|done]. exact (IH _ (rx_step_inv _ _ _ H E) Hs).
Qed.

(** ** Batches end *)

(** The instructions left in a batch. *)
Definition batch_left (s : rx_state) : nat :=
  match pc s with
  | Fetching rcvd i => 2 * (rcvd - i) + 1
  | Reserving rcvd i _ => 2 * (rcvd - i)
  | _ => 0
  end.

Lemma run_decreases s :
  rx_inv s -> (0 < batch_left s)%nat -> (lag s = 0%nat) ->
  exists s', rx_step Run s = Some s' /\ lag s' = 0%nat /\
    batch_left s' = (batch_left s - 1)%nat /\ (batch_left s' = 0%nat -> pc s' = LoopHead).
Proof.
  intros H Hb Hlag. pose proof (ri_pc _ H) as Hp. unfold pc_ok, batch_left in *. cbn [rx_step].
  destruct (pc s) as [| |rcvd i|rcvd i addr|] eqn:E; try lia.
  - destruct (Nat.ltb_spec i rcvd) as [Hi|Hi].
    + destruct (lookup_lt_is_Some_2 (rx s) i) as [addr Ha]; [lia|]. rewrite Ha. cbn [mbind option_bind].
      eexists. split; [done|]. cbn. split_and!; [done|lia|lia].
    + eexists. split; [done|]. unfold release. cbn [packet_count]. case_match; cbn; split_and!; (done || lia).
  - destruct Hp as (Hi & _ & Ha).
    assert (pending s <> []) as Hne by (unfold pending; by rewrite E, (drop_S _ _ _ Ha)).
    pose proof (fill_has_room _ H Hne). destruct (Nat.ltb_spec (length (fill s) + lag s) (Z.to_nat NUM_FRAMES)); [|lia].
    eexists. split; [done|]. cbn. split_and!; (done || lia).
Qed.

(** The kernel publishes its position before each instruction. *)
Definition served (n : nat) : list rx_event := mjoin (replicate n [KernelReturn; Run]).

Lemma served_ends n s :
  rx_inv s -> batch_left s = n -> (0 < n)%nat -> exists s', rx_run (served n) s = Some s' /\ pc s' = LoopHead.
Proof.
  revert s. induction n as [|n IH]; intros s H Hb Hn; [lia|].
  assert (rx_inv (s <| lag := 0%nat |>)) as H0 by (by apply (rx_step_inv KernelReturn s)).
  destruct (run_decreases (s <| lag := 0%nat |>)) as (s1 & E1 & _ & Hb1 & Hz);
    [done|change (0 < batch_left s)%nat; lia|done|].
  change (batch_left (s <| lag := 0%nat |>)) with (batch_left s) in Hb1. rewrite Hb in Hb1.
  cbn [served replicate mjoin list_join app rx_run]. cbn [mbind option_bind]. fold (served n).
  change (rx_step KernelReturn s) with (Some (s <| lag := 0%nat |>)). cbn [mbind option_bind]. rewrite E1.
  cbn [mbind option_bind]. destruct n as [|n]; [exists s1; split; [done|apply Hz; lia]|].
  apply IH; [by apply (rx_step_inv Run _ _ H0)|lia|lia].
Qed.

(** The fill ring is full for the receiver only by what the kernel has not
    published. *)
Lemma run_or_wait s :
  rx_inv s -> (0 < batch_left s)%nat -> exists s', rx_step Run s = Some s' /\
    (batch_left s' = (batch_left s - 1)%nat \/ s' = s /\ (0 < lag s)%nat).
Proof.
  intros H Hb. destruct (Nat.eq_dec (lag s) 0%nat) as [Hlag|Hlag].
  { destruct (run_decreases s H Hb Hlag) as (s' & ? & _ & ? & _). eauto. }
  pose proof (ri_pc _ H) as Hp. unfold pc_ok, batch_left in *. cbn [rx_step].
  destruct (pc s) as [| |rcvd i|rcvd i addr|] eqn:E; try lia.
  - destruct (Nat.ltb_spec i rcvd) as [Hi|Hi].
    + destruct (lookup_lt_is_Some_2 (rx s) i) as [addr Ha]; [lia|]. rewrite Ha. cbn [mbind option_bind].
      eexists. split; [done|]. left. cbn. lia.
    + eexists. split; [done|]. left. unfold release. cbn zeta. destruct (_ =? 0); cbn; lia.
  - destruct (_ <? _)%nat; eexists; (split; [done|]); [left; cbn; lia|right; split; [done|lia]].
Qed.

Lemma step_batch_left e s s' :
  (0 < batch_left s)%nat -> rx_step e s = Some s' -> (batch_left s' <= batch_left s)%nat.
Proof.
  intros Hb Hs. unfold rx_step in Hs. destruct e; try (unfold batch_left in *; by destruct (pc s); (done || lia)).
  - destruct (fill s); [done|]. by injection Hs as <-.
  - by injection Hs as <-.
  - destruct (bool_decide _ && _); [|done]. by injection Hs as <-.
  - by injection Hs as <-.
  - unfold batch_left in *. destruct (pc s) as [| |rcvd i|rcvd i addr|] eqn:E; try lia.
    + destruct (i <? rcvd)%nat.
      * destruct (rx s !! i); [|done]. injection Hs as <-. cbn. lia.
      * injection Hs as <-. unfold release. cbn zeta. destruct (_ =? 0); cbn; lia.
    + destruct (_ <? _)%nat; injection Hs as <-; cbn; [lia|]. by rewrite E.
Qed.
End receiver.

(** ** Properties *)

(** What [zereh_cleanup_xsk] releases is what [zereh_init_xsk] had acquired when
    it returned, the last first. *)
Lemma cleanup_after_init memalign umem socket reserve :
  zereh_cleanup_xsk (zereh_init_xsk memalign umem socket reserve).2 =
    rev (take (if memalign then if umem then if socket then 3 else 2 else 1 else 0) [Buffer; Umem; Socket]).
Proof. by destruct memalign, umem, socket, reserve. Qed.

Section receiver_properties.
Context (FRAME_SIZE : Z) (argv : list bytes) (es : list rx_event) (s0 s : rx_state).
Hypothesis frame_positive : 0 < FRAME_SIZE.
Hypothesis buffer_fits : NUM_FRAMES * FRAME_SIZE <= 2 ^ 32.
Hypothesis started : rx_main FRAME_SIZE argv true true true true = inr s0.
Hypothesis reached : rx_run FRAME_SIZE es s0 = Some s.

Lemma reached_inv : rx_inv FRAME_SIZE s.
Proof.
  eapply rx_run_inv; [|exact reached]. unfold rx_main in started.
  destruct argv as [|? [|? [|? ?]]]; try done. injection started as <-. by apply rx_init_inv.
Qed.

(** C23: in every state that the receiver and the kernel reach together,
    in any order of their steps, each of the 4096 frames of the buffer has
    exactly one owner: an entry of the fill ring, the kernel, or a descriptor
    that the receiver has not yet given back.  Neither ring holds more than its
    size, a batch lies within the descriptors present, and the buffer, the umem
    and the socket are released once the loop has ended and not before. *)
Theorem rx_frames_conserved :
  map (frame FRAME_SIZE) (fill s) ++ kernel s ++ map (frame FRAME_SIZE) (pending s) ≡ₚ seqZ 0 NUM_FRAMES /\
  NoDup (map (frame FRAME_SIZE) (fill s) ++ kernel s ++ map (frame FRAME_SIZE) (pending s)) /\
  (length (fill s) + lag s <= Z.to_nat NUM_FRAMES)%nat /\ (length (rx s) <= RX_SIZE)%nat /\ pc_ok s /\
  released s = (if decide (pc s = Exited) then [Socket; Umem; Buffer] else []).
Proof.
  destruct reached_inv as [Ho Hp Hr Hf Hl Hc]. unfold owned in Ho. split_and!; try done.
  rewrite Ho. apply NoDup_seqZ.
Qed.

(** C24: a batch ends.  In every reachable state inside a batch no event
    adds to the instructions left; the receiver waits for a slot of the fill
    ring only while the kernel has not published slots it has read; and if the
    kernel publishes its position between instructions, the instructions left
    bring the receiver back to the head of its loop. *)
Theorem rx_batch_terminates :
  (0 < batch_left s)%nat ->
  (forall e s', rx_step FRAME_SIZE e s = Some s' -> (batch_left s' <= batch_left s)%nat) /\
  (exists s', rx_step FRAME_SIZE Run s = Some s' /\
     (batch_left s' = (batch_left s - 1)%nat \/ s' = s /\ (0 < lag s)%nat)) /\
  exists s', rx_run FRAME_SIZE (served (batch_left s)) s = Some s' /\ pc s' = LoopHead.
Proof.
  intros Hb. split; [|split].
  - intros e s'. by apply step_batch_left.
  - apply run_or_wait; [apply reached_inv|done].
  - by apply served_ends; [apply reached_inv|..].
Qed.
End receiver_properties.

(** ** Witnesses *)

Definition sample_argv : list bytes := [str "zereh_rx"; str "eth0"; str "3"].
Definition sample_start : rx_state := rx_init 4096 (str "eth0") 3.

(** Two packets arrive, each inside its frame; the receiver
    has read the first descriptor. *)
Definition sample_events : list rx_event :=
  [Run; KernelTake; KernelTake; KernelGive 256; KernelGive 4352; PollReturns 2; Run].
Definition sample_state : rx_state := default sample_start (rx_run 4096 sample_events sample_start).

Lemma rx_frames_conserved_witness :
  map (frame 4096) (fill sample_state) ++ kernel sample_state ++ map (frame 4096) (pending sample_state)
    ≡ₚ seqZ 0 NUM_FRAMES.
Proof.
  exact (proj1 (rx_frames_conserved 4096 sample_argv sample_events sample_start sample_state
    ltac:(lia) ltac:(vm_compute; discriminate) eq_refl ltac:(vm_compute; reflexivity))).
Defined.

Lemma rx_batch_terminates_witness :
  exists s', rx_run 4096 (served (batch_left sample_state)) sample_state = Some s' /\ pc s' = LoopHead.
Proof.
  exact (proj2 (proj2 (rx_batch_terminates 4096 sample_argv sample_events sample_start sample_state
    ltac:(lia) ltac:(vm_compute; discriminate) eq_refl ltac:(vm_compute; reflexivity)
    ltac:(vm_compute; lia)))).
Defined.

(** The frames come back to the fill ring in the order of arrival. *)
Example sample_refilled :
  (fun s => (take 2 (rev (fill s)), rx s, packet_count s)) <$>
    rx_run 4096 (sample_events ++ served 4) sample_start = Some ([4352; 256], [], 2).
Proof. vm_compute. reflexivity. Qed.
