(* ===== verification/Mock.v ===== *)
(** * apps/mock_dns_server.c: the server of the integration test

    It binds a UDP port and prints one line per datagram.  The answers of the
    socket calls are arguments; the diagnostics of [perror] are left out. *)
From S2P Require Import Prelude CLib.
#[local] Open Scope Z_scope.

(** What [recvfrom] returns: the length, the source address and port in network
    order, or an error. *)
Inductive received : Type :=
| Datagram (n : Z) (s_addr sin_port : Z)
| RecvError (errno : Z).

Definition EINTR : Z := 4.

(** [inet_ntop(AF_INET, ...)]: the octets in memory order on a little-endian
    host. *)
Definition inet_ntop (a : Z) : bytes :=
  fmt_ip (a mod 2 ^ 8) (a / 2 ^ 8 mod 2 ^ 8) (a / 2 ^ 16 mod 2 ^ 8) (a / 2 ^ 24 mod 2 ^ 8).

Definition packet_line (n s_addr sin_port : Z) : bytes :=
  str "mock_dns_server packet: bytes=" ++ fmt_u n ++ str " from=" ++ inet_ntop s_addr ++ str ":" ++
  fmt_u (bpf_ntohs sin_port) ++ [10].

(** The loop over what is received: the lines printed, and whether it ended. *)
Fixpoint serve (rs : list received) : list bytes * bool :=
  match rs with
  | [] => ([], false)
  | RecvError errno :: rs' => if errno =? EINTR then serve rs' else ([], true)
  | Datagram n a p :: rs' => let '(lines, ended) := serve rs' in (packet_line n a p :: lines, ended)
  end.

Definition mock_port (argv : list bytes) : Z :=
  match argv with
  | _ :: arg :: _ => u16 (match strtoul arg with Some (v, _) => v | None => 0 end)
  | _ => 5302
  end.

(** The outcome: the exit status once the server has ended, the lines printed,
    and whether the socket was closed. *)
Record outcome : Type := Outcome { status : option Z; lines : list bytes; closed : bool }.

Definition mock_main (argv : list bytes) (socket_ok : bool) (bind_ok : Z -> bool) (rs : list received) :
    outcome :=
  let port := mock_port argv in
  if negb socket_ok then Outcome (Some 1) [] false
  else if negb (bind_ok (bpf_htons port)) then Outcome (Some 1) [] true
  else
    let listening := str "mock_dns_server listening on UDP " ++ fmt_u port ++ [10] in
    let '(out, ended) := serve rs in
    if ended then Outcome (Some 0) (listening :: out) true else Outcome None (listening :: out) false.

(** ** What is printed *)

Lemma inet_ntop_pton a : word 32 a -> inet_pton (inet_ntop a) = Some a.
Proof.
  intros Ha. unfold inet_ntop. rewrite inet_pton_fmt_ip by (apply Z.mod_pos_bound; lia).
  f_equal. unfold word in Ha. change (2 ^ 32) with 4294967296 in Ha.
  change (2 ^ 8) with 256. change (2 ^ 16) with 65536. change (2 ^ 24) with 16777216.
  Z.to_euclidean_division_equations. lia.
Qed.

(** The array for the address has room for it and its terminator. *)
Lemma inet_ntop_fits a : (length (inet_ntop a) < 16)%nat.
Proof.
  unfold inet_ntop. apply Nat.lt_succ_r, length_fmt_ip; unfold is_byte, word; apply Z.mod_pos_bound; lia.
Qed.

(** One line for each datagram before the first error other than EINTR. *)
Lemma serve_lines rs rest errno :
  Forall (fun r => match r with RecvError e => e = EINTR | _ => True end) rs -> errno <> EINTR ->
  serve (rs ++ RecvError errno :: rest) =
    (omap (fun r => match r with Datagram n a p => Some (packet_line n a p) | _ => None end) rs, true).
Proof.
  intros Hrs He. induction Hrs as [|r rs Hr Hrs IH]; cbn [app serve].
  - destruct (Z.eqb_spec errno EINTR); [done|]. done.
  - destruct r as [n a p|e]; [by rewrite IH|]. subst e. by rewrite IH.
Qed.

Example serve_sample :
  mock_main [str "mock"; str "5353"] true (fun p => p =? bpf_htons 5353)
    [RecvError 4; Datagram 40 0x0100007f (bpf_htons 1053); RecvError 9] =
  Outcome (Some 0)
    [str "mock_dns_server listening on UDP 5353" ++ [10];
     str "mock_dns_server packet: bytes=40 from=127.0.0.1:1053" ++ [10]] true.
Proof. vm_compute. reflexivity. Qed.
